(* ===== verification/_CoqProject ===== *)
-Q . S2P
Prelude.v
Errors.v
GoText.v
GoOs.v
GoTime.v
GoFloat.v
GoJson.v
GoUrl.v
GoHttp.v
Principal.v
Request.v
Krb5.v
Symbolic.v
Credential.v
Cache.v
Claims.v
Pac.v
KeySource.v
Minter.v
Issue.v
Fixture.v
Validators.v
Service.v
Concurrency.v
Http.v
Daemon.v
Server.v
