(* ===== verification/Prelude.v ===== *)
(** * go-oauth2-kerberos-exchange: a verification development

    The program exchanges a validated OAuth 2.0 access token for a Kerberos
    credential of the token's subject: a service ticket it mints itself, issued
    as a ccache or as a GSS-API AP-REQ token.  This development is a shallow
    embedding of the Go code under src/: pure functions are functions, a
    function that returns an error is a [result], one that reads the clock, the
    entropy source, the network or a file is an [eff W], which threads the state
    [W] of that environment, and the credential cache is explicit state.

    ** How the program's parts fit together

    A request arrives at the HTTP handler (Http.v), which parses it into an
    exchange request (Request.v, with the target parsed by Principal.v) and
    calls the exchange (Service.v).  The exchange validates the token
    (Validators.v), looks for a credential in the cache (Cache.v), resolves the
    client principal, mints a ticket (Minter.v) - whose key comes from the key
    source (KeySource.v) and whose PAC from the PAC builder (Pac.v), which maps
    and filters the token's groups (Claims.v) - and issues the credential in
    the representation asked for (Issue.v, Credential.v).  The daemon
    (Daemon.v) wires these parts, and its server runs one handler per request
    (Server.v).  Two command-line programs mint without a token and leave
    their output in files (Fixture.v).  Service.v is written and proved against
    interfaces - the classes [TokenValidator], [Resolver], [Minter] with
    [MinterLaws], [Cache] with [CacheLaws], as Minter.v is against [KeySource]
    with [KeySourceLaws] - and the implementations discharge their laws as
    instances.

    ** Files

    - Prelude.v: machine integers, byte strings, shared lemmas, hints, tactics.
    - Errors.v: Go error values and [errors.Is], [result], [eff].
    - GoText.v, GoOs.v, GoTime.v, GoFloat.v, GoJson.v, GoUrl.v, GoHttp.v: what
      the code uses of Go's standard library: strings, UTF-8 and strconv; files
      and hexadecimal; time.Time with its monotonic reading and saturating
      arithmetic; float64 by the IEEE 754 specification functions;
      encoding/json, with a printer that its parser inverts; url forms and
      base 64; HTTP messages and the patterns a ServeMux takes.
    - Principal.v: principal.go.
    - Request.v: tokentype.go, request.go, error_mapping.go.
    - Krb5.v: the interface of the Kerberos, ASN.1 and PAC libraries, which are
      not part of the repository: opaque types and functions as class fields
      ([Krb5Types], [Krb5], [Krb5Eff], [Clock]), what only the command-line
      programs call ([Krb5Tools], [Krb5ToolsEff]), the reading side that the
      consumers of credentials use ([Acceptor]), the laws that connect the
      two ([AcceptorLaws], [Krb5ToolsLaws]), and that these calls leave the
      files alone ([Krb5Frame]).
    - Symbolic.v: an instance of that interface with encodings, ciphertexts and
      signatures as terms, for which the laws hold; concrete runs use it.
    - Credential.v: identity.go, credential.go.
    - Cache.v: cache.go.
    - Claims.v: claimsmap.go, scopefilter.go.
    - Pac.v: pacbuilder.go.
    - KeySource.v: keysource.go.
    - Minter.v: minter.go, authdata.go, and [extractPAC] of
      test/interop/mint/main.go as the acceptor's PAC reader.
    - Issue.v: ccache_write.go, apreq.go, issue.go.
    - Fixture.v: test/interop/mint/main.go and test/ad-demo/mint/main.go.
    - Validators.v: validator.go, introspection.go, jwksvalidator.go.
    - Service.v: resolver.go, service.go.
    - Concurrency.v: exchanges in flight at the same time, as a step relation.
    - Http.v: httpexchange/handler.go, httpexchange/client.go.
    - Daemon.v: cmd/kerbexchanged/main.go.
    - Server.v: the handlers of a server as threads, on top of Concurrency.v.

    Names follow the Go source; a method carries its type's name where Rocq
    needs one ([MemoryCache_Get], [Service_Exchange]), a field a short prefix
    where two structs share its name.

    ** What the theorems show

    - Isolation: in every run of exchanges that share a cache, however they
      interleave, a returned credential was issued in that run for the same
      subject, target and representation, and it is for the subject the
      requester's token was validated for in that run (Concurrency.v, on the
      key separation of Cache.v).  The runs are those whose returned exchanges
      have subjects without a NUL byte and well-formed targets; the parser
      makes no others of the latter, but the validators do let the former
      through, and then isolation fails, in a concrete run (Service.v).
    - The whole daemon: in every such run, a token in a reply is a credential
      for the subject of the request's own validated token, accepted by the
      requested service with its key in the daemon's keytab; the server refines
      the concurrent exchanges, each of the request its handler parsed
      (Server.v).  That a thread alone is the function it was made of
      ([run_alone], [handler_alone]) checks the model of the threads.
    - Lifetime and caching: a fresh credential ends at the earlier of the token's
      expiry and the cap; a failed exchange stores nothing; a cached credential
      is handed to every token of its subject in exchanges that run after it,
      one at a time - with the consequence, also proved, that it can exceed a
      narrower token; and a validated token does get a credential when the
      parts do their work (Service.v).
    - Minting, from the acceptor's side: the decrypted ticket is the one
      described, it carries the builder's PAC signed by both keys, minting fails
      closed, and makes progress when its parts do; nothing stops the target
      from being the ticket-granting service (Minter.v).
    - Output: DER lengths are canonical, a GSS-API acceptor accepts the AP-REQ
      token, a client can use the ccache (Issue.v).
    - The command-line minters: what they leave on the disk works - the keytab
      decrypts the token, the ccache holds the same ticket, every line of the
      bundle is true of the PAC in that ticket (Fixture.v).
    - Authorization data: groups in the PAC, the group loop against its
      specification, the ranges of all fields, least privilege under a scope
      filter, RID and SID arithmetic (Pac.v); claims and scopes (Claims.v).
    - Token validation: exactly when an identity is returned and when the token
      is called invalid; what an introspection answer says is what the
      identity and its claims are (Validators.v).
    - Requests: the parsers' accepted languages, round trips and error codes
      (Principal.v, Request.v); the endpoint's replies, and client and endpoint
      end to end (Http.v); the daemon's start-up (Daemon.v).
    - The in-memory cache refines a cache without eviction (Cache.v).

    ** Fuel and bounds

    [GoJson.parse_value] takes fuel; [parse_json] gives it twice the input's
    length plus two, and [parse_value_fuel] shows that more makes no difference.
    [Issue.count_bytes] takes eight rounds, enough for every 63-bit length
    ([count_bytes_spec]).  All other recursion is structural.  Fixed-width
    integers wrap where the code's conversions do; instants are exact while
    they stay away from the ends of the int64 range, which the theorems on
    lifetimes state as hypotheses on the clock.

    ** What is not modelled

    The third-party libraries are parameters (above; [Validators.Jwx] for JWT,
    [Http.TokenExchangeHTTP] for the RFC 8693 messages).  The HTTP transport,
    the dispatch of a request to the mux's one route, the parsing of command
    lines and logging are the environment.  A thread's call of a
    component is one step that takes no time and always comes back: that a call
    may block, and so that every request is answered, is not modelled.  Fields the program leaves at their
    zero value are omitted from library structs.  The version constant, which
    no code reads, the unit tests, and the C, Python and shell programs that
    consume the fixtures' files are left out; how those programs read the
    files is part of the statements of Fixture.v. *)
From stdpp Require Export base tactics list strings pretty gmap fin_maps.
From Stdlib Require Export ZArith Lia.
From Stdlib Require Export Ascii.
#[export] Set Default Goal Selector "!".
#[export] Set Warnings "-clear-no-such-hyp".

Declare Scope go_scope.
Delimit Scope go_scope with go.
Open Scope list_scope.
Open Scope Z_scope.

(** stdpp blocks the reduction of string append; the proofs below compute it. *)
#[global] Arguments String.append !_ _ / : simpl nomatch.


(** ** Machine integers: Go's fixed-width arithmetic wraps around *)

Definition wrapu (w z : Z) : Z := z mod 2 ^ w.
Definition wraps (w z : Z) : Z := (z + 2 ^ (w - 1)) mod 2 ^ w - 2 ^ (w - 1).

Abbreviation uint8 := (wrapu 8).
Abbreviation uint16 := (wrapu 16).
Abbreviation uint32 := (wrapu 32).
Abbreviation uint64 := (wrapu 64).
Abbreviation int64 := (wraps 64).

Definition maxInt64 : Z := 2 ^ 63 - 1.
Definition minInt64 : Z := - 2 ^ 63.
Definition in_int64 (z : Z) : Prop := minInt64 ≤ z ≤ maxInt64.

#[export] Instance in_int64_dec z : Decision (in_int64 z).
Proof. unfold in_int64. apply _. Defined.

Lemma wrapu_bound w z : 0 ≤ w → 0 ≤ wrapu w z < 2 ^ w.
Proof. intros. unfold wrapu. apply Z.mod_pos_bound. apply Z.pow_pos_nonneg; lia. Qed.

Lemma wrapu_small w z : 0 ≤ z < 2 ^ w → wrapu w z = z.
Proof. intros. unfold wrapu. by apply Z.mod_small. Qed.

Lemma int64_small z : in_int64 z → int64 z = z.
Proof.
  unfold in_int64, wraps, minInt64, maxInt64. intros.
  rewrite Z.mod_small; lia.
Qed.

Lemma int64_mod z : int64 z mod 2 ^ 64 = z mod 2 ^ 64.
Proof.
  unfold wraps. rewrite Zminus_mod, Zmod_mod, <- Zminus_mod. f_equal. lia.
Qed.

Lemma int64_range z : in_int64 (int64 z).
Proof.
  unfold in_int64, wraps, minInt64, maxInt64.
  pose proof (Z.mod_pos_bound (z + 2 ^ (64 - 1)) (2 ^ 64)). lia.
Qed.

(** ** Bytes and Go strings.  A Go string and a []byte are both a sequence of
    bytes; both are modelled by [string], whose characters are 8-bit. *)

Abbreviation bytes := string (only parsing).

Definition byte_val (c : ascii) : Z := Z.of_N (N_of_ascii c).
Definition byte (z : Z) : ascii := ascii_of_N (Z.to_N (uint8 z)).
Definition len (s : string) : Z := Z.of_nat (String.length s).

Lemma byte_val_bound c : 0 ≤ byte_val c < 256.
Proof.
  unfold byte_val. pose proof (N_ascii_bounded c). lia.
Qed.

Lemma byte_byte_val c : byte (byte_val c) = c.
Proof.
  unfold byte. rewrite wrapu_small by apply byte_val_bound.
  unfold byte_val. rewrite N2Z.id. apply ascii_N_embedding.
Qed.

Lemma byte_val_byte z : byte_val (byte z) = uint8 z.
Proof.
  unfold byte, byte_val. pose proof (wrapu_bound 8 z).
  rewrite N_ascii_embedding by lia. lia.
Qed.

Lemma byte_val_inj c d : byte_val c = byte_val d → c = d.
Proof. intros H. by rewrite <- (byte_byte_val c), <- (byte_byte_val d), H. Qed.

Lemma str_app_nil_r s : s +:+ "" = s.
Proof. induction s; simpl; congruence. Qed.

Lemma str_app_assoc s t u : (s +:+ t) +:+ u = s +:+ (t +:+ u).
Proof. induction s; simpl; congruence. Qed.

Lemma str_length_app s t :
  String.length (s +:+ t) = (String.length s + String.length t)%nat.
Proof. induction s; simpl; congruence. Qed.

Lemma len_app s t : len (s +:+ t) = len s + len t.
Proof. unfold len. rewrite str_length_app. lia. Qed.

Lemma len_nonneg s : 0 ≤ len s.
Proof. unfold len. lia. Qed.

Lemma len_zero s : len s = 0 ↔ s = "".
Proof. unfold len. destruct s; simpl; split; intros; [done..|lia|done]. Qed.

Lemma str_app_inj_l s t u : s +:+ t = s +:+ u → t = u.
Proof. induction s; simpl; intros H; [done|]. injection H as ?. auto. Qed.

Lemma str_app_inj_r s t u : t +:+ s = u +:+ s → t = u.
Proof.
  revert u. induction t as [|c t IH]; intros [|d u] H; simpl in *; [done|..].
  - apply (f_equal String.length) in H. simpl in H. rewrite str_length_app in H. lia.
  - apply (f_equal String.length) in H. simpl in H. rewrite str_length_app in H. lia.
  - injection H as -> H. f_equal. by apply IH.
Qed.

Lemma str_app_eq_nil s t : s +:+ t = "" → s = "" ∧ t = "".
Proof. by destruct s. Qed.

(** Occurrence of a byte in a string. *)
Fixpoint has_byte (c : ascii) (s : string) : bool :=
  match s with
  | EmptyString => false
  | String d s' => bool_decide (c = d) || has_byte c s'
  end.

Lemma has_byte_app c s t : has_byte c (s +:+ t) = has_byte c s || has_byte c t.
Proof. induction s; simpl; [done|]. rewrite IHs. by rewrite orb_assoc. Qed.

(** A separator byte that occurs in neither prefix splits a string uniquely. *)
Lemma str_sep_inj c s t s' t' :
  has_byte c s = false → has_byte c s' = false →
  s +:+ String c t = s' +:+ String c t' → s = s' ∧ t = t'.
Proof.
  revert s'. induction s as [|d s IH]; intros [|d' s'] Hs Hs' H; simpl in *.
  - injection H as ->. done.
  - injection H as <- _. by rewrite bool_decide_true in Hs'.
  - injection H as -> _. by rewrite bool_decide_true in Hs.
  - apply orb_false_iff in Hs as [_ Hs]. apply orb_false_iff in Hs' as [_ Hs'].
    injection H as -> H. destruct (IH _ Hs Hs' H) as [-> ->]. done.
Qed.

Create HintDb go discriminated.
Create Rewrite HintDb go.
#[export] Hint Resolve wrapu_bound int64_range byte_val_bound len_nonneg : go.
#[export] Hint Rewrite str_app_nil_r str_app_assoc byte_byte_val byte_val_byte len_app : go.

(** Destructs the scrutinee of the outermost match of a hypothesis or the goal. *)
Ltac case_step :=
  match goal with
  | H : context [match ?x with _ => _ end] |- _ => destruct x eqn:?; simplify_eq/=
  | |- context [match ?x with _ => _ end] => destruct x eqn:?; simplify_eq/=
  end.

(** [lia] with division and modulo by constants. *)
Ltac div_lia := intros; Z.to_euclidean_division_equations; lia.
