(* ===== verification/Errors.v ===== *)
(** * Errors: Go error values, fallible results and effectful calls

    A Go function that returns [(T, error)] is a [result T]; one that also
    reads the clock, the entropy source or the network is an [eff W T], a
    function that threads the state [W] of that environment.  Error values
    keep the structure [errors.Is] looks at: the identity of a package-level
    sentinel and the tree of wrapped errors [fmt.Errorf] builds. *)
From S2P Require Import Prelude.

(** ** Error values *)

Inductive error :=
  (** [var Name = errors.New(msg)] at package level: its identity is its name. *)
| Sentinel (name msg : string)
  (** [errors.New(msg)] inside a function: a fresh value, equal to no sentinel. *)
| New (msg : string)
  (** an error value made by a library the code calls. *)
| External (msg : string)
  (** [fmt.Errorf]: the format, cut at its verbs. *)
| Errorf (fs : list frag)
with frag :=
| Lit (s : string)      (** literal text *)
| Fq (s : string)       (** [%q] of a string *)
| Fs (s : string)       (** [%s] of a string or Stringer *)
| Fd (z : Z)            (** [%d] of an integer *)
| Fv (e : error)        (** [%v] of an error: its text, not wrapped *)
| Fw (e : error).       (** [%w] of an error: wrapped *)

Definition same_sentinel (e target : error) : bool :=
  match e, target with
  | Sentinel n _, Sentinel m _ => bool_decide (n = m)
  | _, _ => false
  end.

(** [errors.Is]: the error itself, or one it wraps, is the sentinel. *)
Fixpoint errors_Is (e target : error) : bool :=
  same_sentinel e target ||
  match e with
  | Errorf fs => existsb (λ f, frag_Is f target) fs
  | _ => false
  end
with frag_Is (f : frag) (target : error) : bool :=
  match f with
  | Fw e => errors_Is e target
  | _ => false
  end.

(** ** Results *)

Inductive result (A : Type) :=
| Ok (a : A)
| Err (e : error).
Arguments Ok {A} a.
Arguments Err {A} e.

#[export] Instance result_ret : MRet result := @Ok.
#[export] Instance result_bind : MBind result := λ A B f r,
  match r with Ok a => f a | Err e => Err e end.
#[export] Instance result_fmap : FMap result := λ A B f r,
  match r with Ok a => Ok (f a) | Err e => Err e end.

(** [if err != nil { return ..., f(err) }] *)
Definition map_err {A} (f : error → error) (r : result A) : result A :=
  match r with Ok a => Ok a | Err e => Err (f e) end.

Definition is_ok {A} (r : result A) : bool := match r with Ok _ => true | Err _ => false end.

(** ** Effects *)

Definition eff (W A : Type) : Type := W → result A * W.

#[export] Instance eff_ret {W} : MRet (eff W) := λ A a w, (Ok a, w).
#[export] Instance eff_bind {W} : MBind (eff W) := λ A B f m w,
  match m w with
  | (Ok a, w') => f a w'
  | (Err e, w') => (Err e, w')
  end.

Definition lift {W A} (r : result A) : eff W A := λ w, (r, w).
Definition fail {W A} (e : error) : eff W A := λ w, (Err e, w).
Definition effect {W A} (f : W → A * W) : eff W A := λ w, let '(a, w') := f w in (Ok a, w').
Definition emap_err {W A} (f : error → error) (m : eff W A) : eff W A := λ w,
  let '(r, w') := m w in (map_err f r, w').

(** ** Inversion of a run that succeeded *)

Lemma bind_Ok {A B} (r : result A) (f : A → result B) b :
  (r ≫= f) = Ok b ↔ ∃ a, r = Ok a ∧ f a = Ok b.
Proof.
  destruct r; unfold mbind, result_bind.
  - split; [by eauto | intros (? & [= ->] & ?); done].
  - split; [done | by intros (? & ? & ?)].
Qed.

Lemma map_err_Ok {A} f (r : result A) a : map_err f r = Ok a ↔ r = Ok a.
Proof. by destruct r. Qed.

Lemma map_err_Err {A} f (r : result A) e :
  map_err f r = Err e ↔ ∃ e', r = Err e' ∧ e = f e'.
Proof.
  destruct r; simpl.
  - split; [done | by intros (? & ? & ?)].
  - split; [intros [= <-]; eauto | by intros (? & [= ->] & ->)].
Qed.

Section eff.
Context {W : Type}.

Lemma eff_bind_Ok {A B} (m : eff W A) (f : A → eff W B) w b w' :
  (m ≫= f) w = (Ok b, w') ↔ ∃ a w1, m w = (Ok a, w1) ∧ f a w1 = (Ok b, w').
Proof.
  unfold mbind, eff_bind. destruct (m w) as [[] ?].
  - split; [by eauto 6 | intros (? & ? & [= -> ->] & ?); done].
  - split; [done | by intros (? & ? & ? & ?)].
Qed.

Lemma emap_err_Ok {A} f (m : eff W A) w a w' :
  emap_err f m w = (Ok a, w') ↔ m w = (Ok a, w').
Proof. unfold emap_err. by destruct (m w) as [[] ?]. Qed.

Lemma lift_Ok {A} (r : result A) w a w' :
  lift (W:=W) r w = (Ok a, w') ↔ r = Ok a ∧ w' = w.
Proof. unfold lift. split; [by intros [= -> ->] | by intros [-> ->]]. Qed.

Lemma effect_Ok {A} (f : W → A * W) w a w' :
  effect f w = (Ok a, w') ↔ f w = (a, w').
Proof. unfold effect. destruct (f w). split; by intros [= -> ->]. Qed.

Lemma ret_Ok {A} (a b : A) (w w' : W) :
  (mret a : eff W A) w = (Ok b, w') ↔ b = a ∧ w' = w.
Proof. unfold mret, eff_ret. split; [by intros [= -> ->] | by intros [-> ->]]. Qed.
End eff.

(** Inverts every hypothesis that says a fallible or effectful run succeeded. *)
Ltac inv_ok :=
  repeat match goal with
  | H : (_ ≫= _) = Ok _ |- _ => apply bind_Ok in H as (? & ? & ?)
  | H : map_err _ _ = Ok _ |- _ => apply map_err_Ok in H
  | H : (_ ≫= _) _ = (Ok _, _) |- _ => apply eff_bind_Ok in H as (? & ? & ? & ?)
  | H : emap_err _ _ _ = (Ok _, _) |- _ => apply emap_err_Ok in H
  | H : lift _ _ = (Ok _, _) |- _ => apply lift_Ok in H as [? ?]
  | H : effect _ _ = (Ok _, _) |- _ => apply effect_Ok in H
  | H : fail _ _ = (Ok _, _) |- _ => discriminate H
  | H : mret _ _ = (Ok _, _) |- _ => apply ret_Ok in H as [? ?]
  | H : mret _ = Ok _ |- _ => injection H as ?
  | x : (_ * _)%type |- _ => destruct x
  end; simplify_eq/=.

Create HintDb err discriminated.
#[export] Hint Resolve <- bind_Ok map_err_Ok eff_bind_Ok emap_err_Ok lift_Ok : err.

(** An error that wraps another [Is] whatever the wrapped one is. *)
Lemma errors_Is_wrap fs e target :
  In (Fw e) fs → errors_Is e target = true → errors_Is (Errorf fs) target = true.
Proof.
  intros Hin He. simpl. apply existsb_exists. by exists (Fw e).
Qed.

Lemma errors_Is_New msg target : errors_Is (New msg) target = false.
Proof. by destruct target. Qed.

Lemma errors_Is_External msg target : errors_Is (External msg) target = false.
Proof. by destruct target. Qed.
