(* ===== verification/GoText.v ===== *)
(** * GoText: the string functions of Go's standard library the program calls

    [strings.IndexByte], [Cut], [Contains], [Split], [TrimSpace] and
    [FieldsFunc]; [strconv.ParseUint] in base 10; the decoding of a string into
    runes that [range], [[]rune(s)] and the [strings] functions share; the
    length of its UTF-16 encoding. *)
From S2P Require Import Prelude Errors.

(** ** Bytewise search *)

(** [strings.Cut(s, sep)] for a one-byte separator: [(before, after, found)]. *)
Fixpoint Cut (c : ascii) (s : string) : string * string * bool :=
  match s with
  | EmptyString => ("", "", false)
  | String d s' =>
    if bool_decide (d = c) then ("", s', true)
    else let '(b, a, ok) := Cut c s' in (String d b, a, ok)
  end.

(** [strings.IndexByte(s, c)]: the first position of [c], or -1. *)
Fixpoint IndexByte (s : string) (c : ascii) : Z :=
  match s with
  | EmptyString => -1
  | String d s' =>
    if bool_decide (d = c) then 0
    else let i := IndexByte s' c in if i <? 0 then i else i + 1
  end.

(** The slices [s[:i]] and [s[i:]], for [0 <= i <= len(s)]. *)
Fixpoint str_take (i : nat) (s : string) : string :=
  match i, s with
  | S i', String d s' => String d (str_take i' s')
  | _, _ => ""
  end.
Fixpoint str_drop (i : nat) (s : string) : string :=
  match i, s with
  | S i', String d s' => str_drop i' s'
  | O, _ => s
  | _, EmptyString => ""
  end.
Definition slice_to (s : string) (i : Z) : string := str_take (Z.to_nat i) s.
Definition slice_from (s : string) (i : Z) : string := str_drop (Z.to_nat i) s.

(** [strings.Split(s, sep)] for a one-byte separator. *)
Fixpoint Split (c : ascii) (s : string) : list string :=
  match s with
  | EmptyString => [""]
  | String d s' =>
    if bool_decide (d = c) then "" :: Split c s'
    else match Split c s' with
         | p :: ps => String d p :: ps
         | [] => [String d ""]
         end
  end.

(** [strings.Join(parts, sep)], the inverse of [Split]. *)
Fixpoint Join (c : ascii) (ps : list string) : string :=
  match ps with
  | [] => ""
  | [p] => p
  | p :: ps' => p +:+ String c (Join c ps')
  end.

(** ** UTF-8: a string as runes, each with the bytes it was decoded from.  An
    invalid byte decodes to U+FFFD and stands for itself. *)

Definition RuneError : Z := 0xFFFD.
Definition in_range (lo hi z : Z) : bool := (lo <=? z) && (z <=? hi).
Definition is_cont (z : Z) : bool := in_range 0x80 0xBF z.

(** The range of the second byte of a three- and of a four-byte sequence. *)
Definition second3 (p0 p1 : Z) : bool :=
  in_range 0xE0 0xEF p0 &&
  in_range (if p0 =? 0xE0 then 0xA0 else 0x80) (if p0 =? 0xED then 0x9F else 0xBF) p1.
Definition second4 (p0 p1 : Z) : bool :=
  in_range 0xF0 0xF4 p0 &&
  in_range (if p0 =? 0xF0 then 0x90 else 0x80) (if p0 =? 0xF4 then 0x8F else 0xBF) p1.

Definition rune2 (p0 p1 : Z) : Z :=
  Z.lor (Z.shiftl (Z.land p0 0x1F) 6) (Z.land p1 0x3F).
Definition rune3 (p0 p1 p2 : Z) : Z :=
  Z.lor (Z.lor (Z.shiftl (Z.land p0 0x0F) 12) (Z.shiftl (Z.land p1 0x3F) 6)) (Z.land p2 0x3F).
Definition rune4 (p0 p1 p2 p3 : Z) : Z :=
  Z.lor (Z.lor (Z.shiftl (Z.land p0 0x07) 18) (Z.shiftl (Z.land p1 0x3F) 12))
        (Z.lor (Z.shiftl (Z.land p2 0x3F) 6) (Z.land p3 0x3F)).

Fixpoint rune_segs (s : string) : list (Z * string) :=
  match s with
  | EmptyString => []
  | String c0 s0 =>
    let p0 := byte_val c0 in
    let bad := λ _ : unit, (RuneError, String c0 "") :: rune_segs s0 in
    if p0 <? 0x80 then (p0, String c0 "") :: rune_segs s0
    else match s0 with
    | EmptyString => bad ()
    | String c1 s1 =>
      let p1 := byte_val c1 in
      if in_range 0xC2 0xDF p0 && is_cont p1
      then (rune2 p0 p1, String c0 (String c1 "")) :: rune_segs s1
      else match s1 with
      | EmptyString => bad ()
      | String c2 s2 =>
        let p2 := byte_val c2 in
        if second3 p0 p1 && is_cont p2
        then (rune3 p0 p1 p2, String c0 (String c1 (String c2 ""))) :: rune_segs s2
        else match s2 with
        | EmptyString => bad ()
        | String c3 s3 =>
          let p3 := byte_val c3 in
          if second4 p0 p1 && is_cont p2 && is_cont p3
          then (rune4 p0 p1 p2 p3,
                String c0 (String c1 (String c2 (String c3 "")))) :: rune_segs s3
          else bad ()
        end
      end
    end
  end.

(** [[]rune(s)] *)
Definition runes (s : string) : list Z := map fst (rune_segs s).

Definition segs_string (l : list (Z * string)) : string :=
  foldr (λ p acc, snd p +:+ acc) "" l.

(** [len(utf16.Encode(rs))]: a supplementary rune takes two code units. *)
Definition utf16_len (rs : list Z) : Z :=
  foldr (λ r n, (if in_range 0x10000 0x10FFFF r then 2 else 1) + n) 0 rs.

(** [unicode.IsSpace] *)
Definition IsSpace (r : Z) : bool :=
  in_range 9 13 r || (r =? 0x20) || (r =? 0x85) || (r =? 0xA0) || (r =? 0x1680)
  || in_range 0x2000 0x200A r || (r =? 0x2028) || (r =? 0x2029) || (r =? 0x202F)
  || (r =? 0x205F) || (r =? 0x3000).

Fixpoint drop_while {A} (f : A → bool) (l : list A) : list A :=
  match l with
  | [] => []
  | a :: l' => if f a then drop_while f l' else l
  end.

(** [strings.TrimSpace] *)
Definition TrimSpace (s : string) : string :=
  let sp := λ p : Z * string, IsSpace (fst p) in
  segs_string (rev (drop_while sp (rev (drop_while sp (rune_segs s))))).

(** [strings.FieldsFunc]: the maximal runs of runes that do not satisfy [f]. *)
Fixpoint fields_segs (f : Z → bool) (l : list (Z * string)) (cur : string) : list string :=
  let flush := if bool_decide (cur = "") then [] else [cur] in
  match l with
  | [] => flush
  | (r, b) :: l' => if f r then flush ++ fields_segs f l' "" else fields_segs f l' (cur +:+ b)
  end.
Definition FieldsFunc (f : Z → bool) (s : string) : list string :=
  fields_segs f (rune_segs s) "".

(** ** [strconv.ParseUint(s, 10, bitSize)] *)

Definition ErrSyntax : error := Sentinel "strconv.ErrSyntax" "invalid syntax".
Definition ErrRange : error := Sentinel "strconv.ErrRange" "value out of range".
Definition NumError (s : string) (e : error) : error :=
  Errorf [Lit "strconv.ParseUint: parsing "; Fq s; Lit ": "; Fw e].

Definition digit_val (c : ascii) : option Z :=
  let d := byte_val c - 48 in if in_range 0 9 d then Some d else None.

Fixpoint parse_digits (max : Z) (s : string) (n : Z) : Z + error :=
  match s with
  | EmptyString => inl n
  | String c s' =>
    match digit_val c with
    | None => inr ErrSyntax
    | Some d => let n' := 10 * n + d in
                if max <? n' then inr ErrRange else parse_digits max s' n'
    end
  end.

Definition ParseUint (s : string) (bitSize : Z) : result Z :=
  if bool_decide (s = "") then Err (NumError s ErrSyntax)
  else match parse_digits (2 ^ bitSize - 1) s 0 with
       | inl n => Ok n
       | inr e => Err (NumError s e)
       end.

(** ** Lemmas *)

Lemma Cut_found c s b a : Cut c s = (b, a, true) → s = b +:+ String c a ∧ has_byte c b = false.
Proof.
  revert b. induction s as [|d s IH]; intros b H; simpl in *; [done|].
  case_bool_decide as Hd; [by simplify_eq|].
  destruct (Cut c s) as [[b' a'] ok]. simplify_eq.
  destruct (IH _ eq_refl) as [-> Hb]. simpl. by rewrite bool_decide_false.
Qed.

Lemma Cut_not_found c s b a : Cut c s = (b, a, false) → b = s ∧ a = "" ∧ has_byte c s = false.
Proof.
  revert b. induction s as [|d s IH]; intros b H; simpl in *; [by simplify_eq|].
  case_bool_decide as Hd; [done|].
  destruct (Cut c s) as [[b' a'] ok]. simplify_eq.
  destruct (IH _ eq_refl) as (-> & -> & Hb). by rewrite bool_decide_false.
Qed.

Lemma Cut_app c b a : has_byte c b = false → Cut c (b +:+ String c a) = (b, a, true).
Proof.
  induction b as [|d b IH]; simpl; intros H; [by rewrite bool_decide_true|].
  apply orb_false_iff in H as [Hd Hb]. rewrite bool_decide_false.
  - by rewrite IH.
  - intros ->. by rewrite bool_decide_true in Hd.
Qed.

Lemma Cut_none c s : has_byte c s = false → Cut c s = (s, "", false).
Proof.
  induction s as [|d s IH]; simpl; intros H; [done|].
  apply orb_false_iff in H as [Hd Hb]. rewrite bool_decide_false.
  - by rewrite IH.
  - intros ->. by rewrite bool_decide_true in Hd.
Qed.

(** Slicing at the first occurrence is [Cut]. *)
Lemma IndexByte_Cut s c :
  Cut c s = (if 0 <=? IndexByte s c
             then (slice_to s (IndexByte s c), slice_from s (IndexByte s c + 1), true)
             else (s, "", false)).
Proof.
  unfold slice_to, slice_from.
  induction s as [|d s IH]; simpl; [done|].
  case_bool_decide as Hd; [done|]. rewrite IH.
  destruct (Z.ltb_spec (IndexByte s c) 0) as [Hi|Hi].
  - by rewrite (proj2 (Z.leb_gt _ _)) by lia.
  - rewrite !(proj2 (Z.leb_le _ _)) by lia.
    rewrite !Z2Nat.inj_add by lia. simpl.
    by rewrite !Nat.add_1_r.
Qed.

Lemma Split_cons_ne c s : Split c s ≠ [].
Proof. destruct s; simpl; repeat case_match; done. Qed.

Lemma Split_none c s : has_byte c s = false → Split c s = [s].
Proof.
  induction s as [|d s IH]; simpl; intros H; [done|].
  apply orb_false_iff in H as [Hd Hb]. rewrite bool_decide_false.
  - by rewrite IH.
  - intros ->. by rewrite bool_decide_true in Hd.
Qed.

Lemma Split_app c p s : has_byte c p = false → Split c (p +:+ String c s) = p :: Split c s.
Proof.
  induction p as [|d p IH]; simpl; intros H; [by rewrite bool_decide_true|].
  apply orb_false_iff in H as [Hd Hb]. rewrite bool_decide_false.
  - by rewrite IH.
  - intros ->. by rewrite bool_decide_true in Hd.
Qed.

Lemma Split_Join c ps :
  ps ≠ [] → Forall (λ p, has_byte c p = false) ps → Split c (Join c ps) = ps.
Proof.
  intros Hne H. induction H as [|p ps Hp Hps IH]; [done|].
  destruct ps as [|q ps]; [by apply Split_none|].
  change (Join c (p :: q :: ps)) with (p +:+ String c (Join c (q :: ps))).
  by rewrite Split_app, IH.
Qed.

(** Case analysis on the shape of the first rune of a string. *)
Ltac segs_step :=
  repeat match goal with
  | |- context [if ?b then _ else _] => destruct b
  | |- context [match ?s with EmptyString => _ | String _ _ => _ end] =>
      is_var s; destruct s
  end.

Lemma segs_string_segs s : segs_string (rune_segs s) = s.
Proof.
  remember (String.length s) as n eqn:Hn. assert (String.length s ≤ n)%nat as H by lia.
  clear Hn. revert s H. induction n as [|n IH]; intros s H.
  - destruct s; simpl in *; [done|lia].
  - destruct s as [|c0 s0]; [done|]. simpl in H.
    cbn [rune_segs]. segs_step; cbn [segs_string foldr snd String.append];
      repeat (f_equal; []); try (apply IH; simpl in *; lia); done.
Qed.

Lemma utf16_len_nonneg rs : 0 ≤ utf16_len rs.
Proof. induction rs; simpl; [lia|]. case_match; lia. Qed.

Lemma utf16_len_app rs rs' : utf16_len (rs ++ rs') = utf16_len rs + utf16_len rs'.
Proof. induction rs; simpl; [done|]. case_match; lia. Qed.

(** ** Decimal printing ([%d]) and [ParseUint] *)

Lemma pretty_N_char_digit n :
  (n < 10)%N → digit_val (pretty_N_char n) = Some (Z.of_N n).
Proof.
  intros H.
  assert (n = 0 ∨ n = 1 ∨ n = 2 ∨ n = 3 ∨ n = 4 ∨ n = 5 ∨ n = 6 ∨ n = 7 ∨ n = 8 ∨ n = 9)%N
    as Hn by lia.
  by repeat destruct Hn as [-> | Hn]; [..|subst n].
Qed.

Lemma has_byte_pretty_N c (n : N) : digit_val c = None → has_byte c (pretty n) = false.
Proof.
  intros Hc.
  assert (∀ m s, has_byte c s = false → has_byte c (pretty_N_go m s) = false) as Hgo.
  { intros m. induction (N.lt_wf_0 m) as [m _ IH]; intros s Hs.
    destruct (decide (m = 0%N)) as [-> | Hm]; [done|].
    rewrite pretty_N_go_step by lia. apply IH; [apply N.div_lt; lia|].
    simpl. rewrite Hs, orb_false_r, bool_decide_false; [done|].
    intros ->. by rewrite pretty_N_char_digit in Hc by (apply N.mod_lt; lia). }
  unfold pretty, pretty_N. case_decide; [|by apply Hgo].
  simpl. rewrite orb_false_r, bool_decide_false; [done|]. by intros ->.
Qed.

Lemma parse_digits_go max (n : N) s acc :
  0 ≤ acc →
  ∃ k, 0 ≤ k ∧
  parse_digits max (pretty_N_go n s) acc =
    (if (max <? acc * 10 ^ k + Z.of_N n) && bool_decide (n ≠ 0%N) then inr ErrRange
     else parse_digits max s (acc * 10 ^ k + Z.of_N n)).
Proof.
  revert s acc. induction (N.lt_wf_0 n) as [n _ IH]; intros s acc Hacc.
  destruct (decide (n = 0%N)) as [-> | Hn].
  - exists 0. rewrite pretty_N_go_0. simpl. rewrite andb_false_r.
    replace (acc * 10 ^ 0 + 0) with acc by lia. split; [lia|done].
  - rewrite pretty_N_go_step by lia.
    destruct (IH (n `div` 10)%N (N.div_lt n 10 ltac:(lia) ltac:(lia))
                 (String (pretty_N_char (n `mod` 10)) s) acc Hacc) as (k & Hk & Heq).
    exists (k + 1). split; [lia|]. rewrite Heq. cbn [parse_digits].
    rewrite pretty_N_char_digit by (apply N.mod_lt; lia).
    assert (10 * (acc * 10 ^ k + Z.of_N (n `div` 10)) + Z.of_N (n `mod` 10)
            = acc * 10 ^ (k + 1) + Z.of_N n) as ->.
    { rewrite Z.pow_add_r by lia. pose proof (N.div_mod n 10 ltac:(lia)). lia. }
    rewrite (bool_decide_true (n ≠ 0%N)), andb_true_r by done.
    pose proof (N.div_mod n 10 ltac:(lia)). pose proof (N.mod_lt n 10 ltac:(lia)).
    assert (0 ≤ acc * 10 ^ k) by (apply Z.mul_nonneg_nonneg; [lia|apply Z.pow_nonneg; lia]).
    replace (acc * 10 ^ (k + 1)) with (10 * (acc * 10 ^ k))
      by (rewrite Z.pow_add_r by lia; ring).
    case_match eqn:E; [|done].
    apply andb_prop in E as [E _]. apply Z.ltb_lt in E.
    rewrite (proj2 (Z.ltb_lt _ _)); [done|].
    clear -E H1. rewrite N2Z.inj_div in E. change (Z.of_N 10) with 10 in E.
    pose proof (N2Z.is_nonneg n). generalize dependent (acc * 10 ^ k). intros A ? ?.
    div_lia.
Qed.

Lemma parse_digits_pretty max (n : N) :
  parse_digits max (pretty n) 0 =
    if decide (Z.of_N n ≤ max) then inl (Z.of_N n) else inr ErrRange.
Proof.
  unfold pretty, pretty_N. case_decide as Hn.
  - subst n. cbn [parse_digits].
    change (digit_val "0") with (Some 0). cbn beta iota.
    change (10 * 0 + 0) with 0. change (Z.of_N 0) with 0.
    case_decide; destruct (Z.ltb_spec max 0); done || lia.
  - destruct (parse_digits_go max n "" 0 ltac:(lia)) as (k & _ & ->).
    rewrite bool_decide_true, andb_true_r, Z.mul_0_l, Z.add_0_l by done. cbn [parse_digits].
    destruct (Z.ltb_spec max (Z.of_N n)); case_decide; done || lia.
Qed.

(** Printing a number and parsing it back gives the number, if it fits. *)
Lemma ParseUint_pretty (n : N) bitSize :
  ParseUint (pretty n) bitSize =
    if decide (Z.of_N n < 2 ^ bitSize) then Ok (Z.of_N n)
    else Err (NumError (pretty n) ErrRange).
Proof.
  unfold ParseUint. rewrite bool_decide_false.
  - rewrite parse_digits_pretty. repeat case_decide; done || lia.
  - unfold pretty, pretty_N. case_decide as Hn; [done|].
    intros E. pose proof (parse_digits_go 0 n "" 0 ltac:(lia)) as (k & _ & Hp).
    rewrite E in Hp. rewrite bool_decide_true, andb_true_r in Hp by done.
    simpl in Hp. rewrite (proj2 (Z.ltb_lt _ _)) in Hp by lia. done.
Qed.

Lemma parse_digits_bound max s n r :
  0 ≤ n ≤ max → parse_digits max s n = inl r → 0 ≤ r ≤ max.
Proof.
  revert n. induction s as [|c s IH]; intros n Hn H; simpl in *; [by simplify_eq|].
  case_match eqn:Hd; [|done]. case_match eqn:Hm; [done|].
  apply IH in H; [done|]. apply Z.ltb_ge in Hm.
  unfold digit_val, in_range in Hd. case_match eqn:Hr; [|done]. simplify_eq.
  apply andb_prop in Hr as [Hr _]. apply Z.leb_le in Hr. lia.
Qed.

Lemma ParseUint_bound s bitSize n :
  0 ≤ bitSize → ParseUint s bitSize = Ok n → 0 ≤ n < 2 ^ bitSize.
Proof.
  intros Hb. unfold ParseUint. repeat case_match; intros [= <-].
  pose proof (Z.pow_pos_nonneg 2 bitSize). apply parse_digits_bound in H0; lia.
Qed.
