(* ===== verification/GoOs.v ===== *)
(** * GoOs: files and hexadecimal text

    What the command-line programs use of Go's os and encoding/hex: a disk of
    named files, [os.Create], [os.WriteFile], [File.Write] and [File.Close],
    and [hex.EncodeToString].  The disk is part of the environment's state; the
    environment also decides which operations fail. *)
From S2P Require Import Prelude Errors GoText.

(** ** Files *)

(** A file: its permission bits as asked for at its creation (before the
    umask) and its bytes. *)
Record FileEntry := { mode : Z; contents : bytes }.

#[export] Instance FileEntry_eq_dec : EqDecision FileEntry.
Proof. solve_decision. Defined.

(** Where the disk is in the environment, and the faults of the environment:
    the error of an operation, and for a write the part that was written. *)
Class Disk (W : Type) := {
  disk : W → gmap string FileEntry;
  set_disk : gmap string FileEntry → W → W;
  create_fault : W → string → option error;
  write_fault : W → string → bytes → option (error * bytes);
  close_fault : W → string → option error;
}.

Class DiskLaws (W : Type) `{Disk W} := {
  disk_set d w : disk (set_disk d w) = d;
}.

Section files.
Context `{Disk W}.

(** A file opened for writing: its path; every write goes to its end. *)
Definition File : Type := string.

(** [os.OpenFile(path, O_WRONLY|O_CREATE|O_TRUNC, perm)]: an existing file is
    emptied and keeps its permissions. *)
Definition OpenFile (path : string) (perm : Z) : eff W File := λ w,
  match create_fault w path with
  | Some e => (Err e, w)
  | None =>
    let m := match disk w !! path with Some f => mode f | None => perm end in
    (Ok path, set_disk (<[path := {| mode := m; contents := "" |}]> (disk w)) w)
  end.

(** [os.Create]: permissions 0666. *)
Definition os_Create (path : string) : eff W File := OpenFile path 0x1B6.

Definition append_file (f : File) (b : bytes) (w : W) : W :=
  set_disk (alter (λ e, {| mode := mode e; contents := contents e +:+ b |}) f (disk w)) w.

Definition File_Write (f : File) (b : bytes) : eff W unit := λ w,
  match write_fault w f b with
  | Some (e, part) => (Err e, append_file f part w)
  | None => (Ok tt, append_file f b w)
  end.

Definition File_Close (f : File) : eff W unit := λ w,
  (match close_fault w f with Some e => Err e | None => Ok tt end, w).

Definition write_close (f : File) (b : bytes) : eff W unit := λ w,
  match File_Write f b w with
  | (Ok _, w') => File_Close f w'
  | (Err e, w') => (Err e, (File_Close f w').2)
  end.

(** [os.WriteFile]: the file is closed whether or not it could be written, and
    the first error is returned. *)
Definition os_WriteFile (path : string) (b : bytes) (perm : Z) : eff W unit :=
  f ← OpenFile path perm;
  write_close f b.

Definition file_bytes (w : W) (path : string) : option bytes := contents <$> disk w !! path.
End files.

(** ** Hexadecimal text *)

Definition hex_digit (i : Z) : ascii := byte (if i <? 10 then 48 + i else 87 + i).

(** [hex.EncodeToString] *)
Fixpoint hex_EncodeToString (b : bytes) : string :=
  match b with
  | EmptyString => ""
  | String c b' =>
    String (hex_digit (Z.shiftr (byte_val c) 4))
      (String (hex_digit (Z.land (byte_val c) 0x0f)) (hex_EncodeToString b'))
  end.

(** A reader of such text: pairs of digits, as a C program scans them. *)
Definition hex_val (c : ascii) : option Z :=
  let z := byte_val c in
  if in_range 48 57 z then Some (z - 48)
  else if in_range 97 102 z then Some (z - 87)
  else if in_range 65 70 z then Some (z - 55) else None.

Fixpoint read_hex (s : string) : option bytes :=
  match s with
  | EmptyString => Some ""
  | String a (String b s') =>
    h ← hex_val a; l ← hex_val b; rest ← read_hex s'; Some (String (byte (h * 16 + l)) rest)
  | String _ EmptyString => None
  end.

(** ** Lemmas *)

Lemma hex_val_digit i : 0 ≤ i < 16 → hex_val (hex_digit i) = Some i.
Proof.
  intros Hi. assert (∃ n : nat, (n < 16)%nat ∧ i = Z.of_nat n) as (n & Hn & ->)
    by (exists (Z.to_nat i); lia).
  by do 16 (destruct n as [|n]; [by vm_compute|]); lia.
Qed.

Lemma read_hex_Encode b : read_hex (hex_EncodeToString b) = Some b.
Proof.
  induction b as [|c b IH]; [done|]. cbn [hex_EncodeToString read_hex].
  pose proof (byte_val_bound c) as Hc.
  assert (Z.shiftr (byte_val c) 4 = byte_val c / 16) as -> by by rewrite Z.shiftr_div_pow2.
  assert (Z.land (byte_val c) 0x0f = byte_val c mod 16) as ->
    by (change 0x0f with (Z.ones 4); by rewrite Z.land_ones).
  rewrite !hex_val_digit by (first [div_lia | apply Z.mod_pos_bound; lia]).
  cbn [mbind option_bind]. rewrite IH. cbn [mbind option_bind].
  replace (byte_val c / 16 * 16 + byte_val c mod 16) with (byte_val c) by div_lia.
  by rewrite byte_byte_val.
Qed.

(** No byte of hexadecimal text is other than a digit. *)
Lemma hex_Encode_byte d b : hex_val d = None → has_byte d (hex_EncodeToString b) = false.
Proof.
  intros Hd. induction b as [|c b IH]; [done|]. cbn [hex_EncodeToString has_byte].
  pose proof (byte_val_bound c) as Hc.
  assert (∀ i, 0 ≤ i < 16 → bool_decide (d = hex_digit i) = false) as Hne.
  { intros i Hi. apply bool_decide_false. intros ->. by rewrite hex_val_digit in Hd. }
  rewrite !Hne, IH; [done|change 0x0f with (Z.ones 4); rewrite Z.land_ones by done;
    by apply Z.mod_pos_bound|rewrite Z.shiftr_div_pow2 by done; change (2 ^ 4) with 16; div_lia].
Qed.

Section file_lemmas.
Context `{DiskLaws W}.

Lemma OpenFile_Ok path perm w f w' :
  OpenFile path perm w = (Ok f, w') →
  f = path ∧ ∃ m, (disk w !! path = None → m = perm) ∧
    disk w' = <[path := {| mode := m; contents := "" |}]> (disk w).
Proof.
  unfold OpenFile. destruct (create_fault w path); [done|]. intros [= <- <-].
  split; [done|]. rewrite disk_set. eexists. split; [|done]. by intros ->.
Qed.

Lemma append_file_disk f b w e :
  disk w !! f = Some e →
  disk (append_file f b w) = <[f := {| mode := mode e; contents := contents e +:+ b |}]> (disk w).
Proof.
  intros He. unfold append_file. rewrite disk_set. apply map_eq. intros g.
  destruct (decide (g = f)) as [->|Hg].
  - rewrite lookup_alter_eq, lookup_insert_eq. by setoid_rewrite He.
  - by rewrite lookup_alter_ne, lookup_insert_ne.
Qed.

(** What a successful [os.WriteFile] leaves: the file holds the bytes - and is
    private if it was created private - and no other file has changed. *)
Lemma os_WriteFile_Ok path b perm w w' :
  os_WriteFile path b perm w = (Ok tt, w') →
  ∃ m, (disk w !! path = None → m = perm) ∧
    disk w' = <[path := {| mode := m; contents := b |}]> (disk w).
Proof.
  unfold os_WriteFile. intros Hrun. apply eff_bind_Ok in Hrun as (f & w1 & Ho & Hrun).
  apply OpenFile_Ok in Ho as (-> & m & Hm & Hd).
  unfold write_close, File_Write, File_Close in Hrun. destruct (write_fault w1 path b) as [[]|]; [done|].
  destruct (close_fault _ _); [done|]. injection Hrun as <-.
  exists m. split; [done|].
  rewrite (append_file_disk _ _ _ {| mode := m; contents := "" |});
    [|by rewrite Hd, lookup_insert_eq].
  cbn [mode contents]. rewrite Hd. by rewrite insert_insert_eq.
Qed.

Lemma file_bytes_write path b perm w w' path' :
  os_WriteFile path b perm w = (Ok tt, w') →
  file_bytes w' path' = if bool_decide (path' = path) then Some b else file_bytes w path'.
Proof.
  intros (m & _ & Hd)%os_WriteFile_Ok. unfold file_bytes. rewrite Hd. case_bool_decide as E.
  - subst. by rewrite lookup_insert_eq.
  - by rewrite lookup_insert_ne.
Qed.
End file_lemmas.
