(* ===== verification/GoTime.v ===== *)
(** * GoTime: Go's time.Time and time.Duration

    A [Time] is a wall-clock instant (seconds since the year 1, an int64, and
    nanoseconds), an optional monotonic clock reading and a location.  The
    operations follow Go's [time] package: comparisons use the monotonic
    readings when both times have one, [Add] moves both clocks and drops the
    monotonic one when it leaves its range, [UTC] and every conversion drop it.
    Durations are int64 nanoseconds. *)
From S2P Require Import Prelude.

Inductive Location := UTC_loc | Local | Zone (name : string).

Record Time := {
  sec : Z;            (** seconds since January 1, year 1, UTC (int64) *)
  nsec : Z;           (** nanoseconds, in [0, 999999999] *)
  mono : option Z;    (** monotonic reading, nanoseconds since process start *)
  loc : Location;
}.

#[export] Instance Location_eq_dec : EqDecision Location.
Proof. solve_decision. Defined.
#[export] Instance Time_eq_dec : EqDecision Time.
Proof. solve_decision. Defined.

(** [time.Time{}] *)
Definition zeroTime : Time := {| sec := 0; nsec := 0; mono := None; loc := UTC_loc |}.

Definition Duration : Type := Z.
Definition Second : Duration := 1000000000.

(** Unix time 0 is this many seconds after the year 1. *)
Definition unixToInternal : Z := 62135596800.
(** A time with a monotonic reading packs its seconds since 1885 in 33 bits. *)
Definition wallToInternal : Z := 59453308800.
Definition maxWall : Z := 2 ^ 33 - 1.

(** [time.Unix(s, 0)] *)
Definition Unix (s : Z) : Time :=
  {| sec := int64 (s + unixToInternal); nsec := 0; mono := None; loc := Local |}.

(** [t.Unix()] *)
Definition Time_Unix (t : Time) : Z := int64 (sec t - unixToInternal).

Definition IsZero (t : Time) : bool := (sec t =? 0) && (nsec t =? 0).

Definition stripMono (t : Time) : Time :=
  {| sec := sec t; nsec := nsec t; mono := None; loc := loc t |}.

(** [t.UTC()]: the location becomes UTC and the monotonic reading is dropped. *)
Definition UTC (t : Time) : Time :=
  {| sec := sec t; nsec := nsec t; mono := None; loc := UTC_loc |}.

Definition wall_before (t u : Time) : bool :=
  (sec t <? sec u) || ((sec t =? sec u) && (nsec t <? nsec u)).

Definition Before (t u : Time) : bool :=
  match mono t, mono u with
  | Some a, Some b => a <? b
  | _, _ => wall_before t u
  end.

Definition After (t u : Time) : bool := Before u t.

Definition Equal (t u : Time) : bool :=
  match mono t, mono u with
  | Some a, Some b => a =? b
  | _, _ => (sec t =? sec u) && (nsec t =? nsec u)
  end.

(** [addSec]: seconds saturate at the ends of int64; a packed time whose
    seconds leave the 33-bit range loses its monotonic reading. *)
Definition addSec (t : Time) (d : Z) : Time :=
  let s := sec t + d in
  let sum := int64 (sec t + d) in
  let sat := if Bool.eqb (sec t <? sum) (0 <? d) then sum
             else if 0 <? d then maxInt64 else - maxInt64 in
  match mono t with
  | Some m =>
    if (0 <=? s - wallToInternal) && (s - wallToInternal <=? maxWall)
    then {| sec := s; nsec := nsec t; mono := Some m; loc := loc t |}
    else {| sec := sat; nsec := nsec t; mono := None; loc := loc t |}
  | None => {| sec := sat; nsec := nsec t; mono := None; loc := loc t |}
  end.

(** [t.Add(d)] *)
Definition Add (t : Time) (d : Duration) : Time :=
  let dsec := Z.quot d Second in
  let n := nsec t + Z.rem d Second in
  let '(dsec, n) :=
    if Second <=? n then (dsec + 1, n - Second)
    else if n <? 0 then (dsec - 1, n + Second) else (dsec, n) in
  let t' := addSec {| sec := sec t; nsec := n; mono := mono t; loc := loc t |} dsec in
  match mono t' with
  | Some m =>
    let te := int64 (m + d) in
    if ((d <? 0) && (m <? te)) || ((0 <? d) && (te <? m)) then stripMono t'
    else {| sec := sec t'; nsec := nsec t'; mono := Some te; loc := loc t' |}
  | None => t'
  end.

Definition maxDuration : Duration := maxInt64.
Definition minDuration : Duration := minInt64.

Definition subMono (t u : Z) : Duration :=
  let d := int64 (t - u) in
  if (d <? 0) && (u <? t) then maxDuration
  else if (0 <? d) && (t <? u) then minDuration else d.

(** [t.Sub(u)]: the difference, saturated at the ends of int64. *)
Definition Sub (t u : Time) : Duration :=
  match mono t, mono u with
  | Some a, Some b => subMono a b
  | _, _ =>
    let d := int64 (int64 (sec t - sec u) * Second + (nsec t - nsec u)) in
    if Equal (Add u d) t then d
    else if Before t u then minDuration else maxDuration
  end.

(** [time.Until(t)], given the clock reading it makes. *)
Definition Until (t now : Time) : Duration := Sub t now.

(** ** Instants: what the comparisons decide on the wall clock *)

Definition instant (t : Time) : Z := sec t * Second + nsec t.

(** The times the package hands out: a nanosecond field in range, seconds an
    int64, and packed seconds when there is a monotonic reading. *)
Record Time_ok (t : Time) : Prop := {
  nsec_ok : 0 ≤ nsec t < Second;
  sec_ok : in_int64 (sec t);
  mono_ok : ∀ m, mono t = Some m → in_int64 m ∧ 0 ≤ sec t - wallToInternal ≤ maxWall;
}.

(** No monotonic reading: the time came from a token, from [UTC] or [Unix]. *)
Definition wall_only (t : Time) : Prop := mono t = None.

#[export] Instance wall_only_dec t : Decision (wall_only t).
Proof. unfold wall_only. apply _. Defined.

Lemma wall_before_instant t u :
  Time_ok t → Time_ok u → wall_before t u = true ↔ instant t < instant u.
Proof.
  intros [? _ _] [? _ _]. unfold wall_before, instant, Second in *.
  rewrite orb_true_iff, andb_true_iff, !Z.ltb_lt, Z.eqb_eq. lia.
Qed.

Lemma Before_instant t u :
  Time_ok t → Time_ok u → wall_only t ∨ wall_only u →
  Before t u = true ↔ instant t < instant u.
Proof.
  intros Ht Hu Hm. unfold Before. rewrite <- wall_before_instant by done.
  destruct Hm as [-> | ->]; [done|]. by destruct (mono t).
Qed.

Lemma Before_false_instant t u :
  Time_ok t → Time_ok u → wall_only t ∨ wall_only u →
  Before t u = false ↔ instant u ≤ instant t.
Proof.
  intros Ht Hu Hm. pose proof (Before_instant t u Ht Hu Hm) as H.
  destruct (Before t u); split; try done.
  - intros. pose proof (proj1 H eq_refl). lia.
  - intros _. destruct (Z.le_gt_cases (instant u) (instant t)) as [?|?]; [done|].
    by apply H in H0.
Qed.

Lemma instant_UTC t : instant (UTC t) = instant t.
Proof. done. Qed.

Lemma UTC_ok t : Time_ok t → Time_ok (UTC t).
Proof. intros [? ? ?]. by constructor. Qed.

Lemma UTC_wall_only t : wall_only (UTC t).
Proof. done. Qed.

Lemma zeroTime_ok : Time_ok zeroTime.
Proof. by constructor. Qed.

Lemma Unix_ok s : Time_ok (Unix s).
Proof. constructor; [done | apply int64_range | done]. Qed.

Lemma IsZero_instant t : Time_ok t → IsZero t = true ↔ instant t = 0.
Proof.
  intros [? _ _]. unfold IsZero, instant, Second in *.
  rewrite andb_true_iff, !Z.eqb_eq. lia.
Qed.

(** The seconds [Add] carries over: [d] splits into seconds and nanoseconds. *)
Lemma addSec_exact t d :
  in_int64 (sec t) → in_int64 (sec t + d) → sec (addSec t d) = sec t + d.
Proof.
  intros Ht Hd. unfold addSec. rewrite !(int64_small (sec t + d)) by done.
  assert (Bool.eqb (sec t <? sec t + d) (0 <? d) = true) as ->.
  { apply Bool.eqb_true_iff. destruct (Z.ltb_spec 0 d), (Z.ltb_spec (sec t) (sec t + d)); done || lia. }
  by destruct (mono t); [case_match|].
Qed.

Lemma addSec_fields t d :
  nsec (addSec t d) = nsec t ∧ loc (addSec t d) = loc t ∧
  (mono t = None → mono (addSec t d) = None).
Proof. unfold addSec. by destruct (mono t); [case_match|]. Qed.

(** Away from the ends of the int64 range, [Add] moves the instant by [d]. *)
Lemma instant_Add t d :
  Time_ok t → in_int64 d →
  minInt64 + 10 ^ 10 ≤ sec t ≤ maxInt64 - 10 ^ 10 →
  instant (Add t d) = instant t + d.
Proof.
  intros [Hn Hs _] Hd Hr. unfold Add.
  pose proof (Z.quot_rem' d Second) as Hqr.
  assert (Z.abs (Z.quot d Second) ≤ 10 ^ 10 - 2 ∧ Z.abs (Z.rem d Second) < Second)
    as [Hq Hrem].
  { unfold in_int64, minInt64, maxInt64, Second in *. div_lia. }
  destruct (if Second <=? nsec t + Z.rem d Second then _ else _) as [ds n] eqn:E.
  assert (ds * Second + n = d + nsec t ∧ Z.abs ds ≤ 10 ^ 10 - 1) as [Hsum Hds].
  { repeat case_match; simplify_eq; lia. }
  set (t0 := {| sec := sec t; nsec := n; mono := mono t; loc := loc t |}).
  assert (sec (addSec t0 ds) = sec t + ds) as Hsec.
  { change (sec t) with (sec t0). apply addSec_exact; simpl; [done|]. unfold in_int64, minInt64, maxInt64 in *. lia. }
  pose proof (addSec_fields t0 ds) as (Hnsec & _ & _). simpl in Hnsec.
  unfold instant. destruct (mono (addSec t0 ds)); [destruct (_ || _)|];
    simpl; rewrite Hsec, Hnsec; lia.
Qed.

Lemma Add_ok t d :
  Time_ok t → in_int64 d →
  minInt64 + 10 ^ 10 ≤ sec t ≤ maxInt64 - 10 ^ 10 →
  Time_ok (Add t d).
Proof.
  intros [Hn Hs Hm] Hd Hr. unfold Add.
  pose proof (Z.quot_rem' d Second) as Hqr.
  assert (Z.abs (Z.quot d Second) ≤ 10 ^ 10 - 2 ∧ Z.abs (Z.rem d Second) < Second)
    as [Hq Hrem].
  { unfold in_int64, minInt64, maxInt64, Second in *. div_lia. }
  destruct (if Second <=? nsec t + Z.rem d Second then _ else _) as [ds n] eqn:E.
  assert (0 ≤ n < Second ∧ Z.abs ds ≤ 10 ^ 10 - 1) as [Hn' Hds].
  { repeat case_match; simplify_eq; lia. }
  set (t0 := {| sec := sec t; nsec := n; mono := mono t; loc := loc t |}).
  assert (in_int64 (sec t0 + ds)) as Hin.
  { simpl. unfold in_int64, minInt64, maxInt64 in *. lia. }
  pose proof (addSec_exact t0 ds Hs Hin) as Hsec.
  pose proof (addSec_fields t0 ds) as (Hnsec & _ & _). simpl in Hnsec, Hsec.
  assert (∀ m, mono (addSec t0 ds) = Some m →
            0 ≤ sec (addSec t0 ds) - wallToInternal ≤ maxWall) as Hw.
  { intros m. unfold addSec. simpl. destruct (mono t) as [m'|]; [|done].
    destruct ((0 <=? sec t + ds - wallToInternal) && _) eqn:Ew; [|done].
    simpl. lia. }
  destruct (mono (addSec t0 ds)) as [m|] eqn:Em; [destruct (_ || _)|].
  - constructor; simpl; [rewrite Hnsec; exact Hn' | rewrite Hsec; exact Hin |done].
  - constructor; simpl; [rewrite Hnsec; exact Hn' | rewrite Hsec; exact Hin |]. intros ? [= <-].
    split; [apply int64_range|by eapply Hw].
  - constructor; [rewrite Hnsec; exact Hn' | rewrite Hsec; exact Hin |]. congruence.
Qed.

Lemma Add_mono_None t d : wall_only t → wall_only (Add t d).
Proof.
  unfold wall_only. intros Hm. unfold Add.
  destruct (if Second <=? nsec t + Z.rem d Second then _ else _) as [ds n].
  set (t0 := {| sec := sec t; nsec := n; mono := mono t; loc := loc t |}).
  pose proof (addSec_fields t0 ds) as (_ & _ & Hmono).
  by rewrite (Hmono Hm), (Hmono Hm).
Qed.

(** What becomes of the monotonic reading: it moves by [d], or it is dropped
    because it, or the seconds, would overflow. *)
Lemma Add_mono t d :
  mono (Add t d) = None ∨
  ∃ m, mono t = Some m ∧ mono (Add t d) = Some (int64 (m + d)) ∧
       (0 < d → m ≤ int64 (m + d)) ∧ (d < 0 → int64 (m + d) ≤ m).
Proof.
  unfold Add. destruct (if Second <=? nsec t + Z.rem d Second then _ else _) as [ds n].
  set (t0 := {| sec := sec t; nsec := n; mono := mono t; loc := loc t |}).
  assert (mono (addSec t0 ds) = None ∨ mono (addSec t0 ds) = mono t) as [Hm|Hm].
  { unfold addSec. simpl. destruct (mono t); [case_match|]; auto. }
  { left. by rewrite Hm. }
  destruct (mono (addSec t0 ds)) as [m|] eqn:Em; [|by left].
  destruct (_ || _) eqn:Eo; [by left|]. right. exists m. split_and!; [done|done|lia|lia].
Qed.

(** Adding a positive duration makes a later time, by both clocks. *)
Lemma Add_After t d :
  Time_ok t → in_int64 d → 0 < d → minInt64 + 10 ^ 10 ≤ sec t ≤ maxInt64 - 10 ^ 10 →
  After (Add t d) t = true.
Proof.
  intros Ht Hd Hpos Hr. unfold After.
  destruct (Add_mono t d) as [Hn|(m & Hm & Hm' & Hle & _)].
  - apply Before_instant; [done|by apply Add_ok|by right|]. rewrite instant_Add by done. lia.
  - unfold Before. rewrite Hm, Hm'. apply Z.ltb_lt. specialize (Hle Hpos).
    assert (int64 (m + d) ≠ m) as Hne; [|lia].
    intros E. apply (f_equal (λ z, z mod 2 ^ 64)) in E. rewrite int64_mod in E.
    assert (d mod 2 ^ 64 = 0) as Ed.
    { replace d with ((m + d) - m) by lia. by rewrite Zminus_mod, E, Z.sub_diag. }
    unfold in_int64, minInt64, maxInt64 in Hd. rewrite Z.mod_small in Ed; lia.
Qed.

(** A difference that fits in an int64 is computed exactly. *)
Lemma Sub_instant t u :
  Time_ok t → Time_ok u → wall_only t →
  0 ≤ sec u ≤ 2 ^ 61 → 0 ≤ sec t ≤ 2 ^ 61 →
  in_int64 (instant t - instant u) →
  Sub t u = instant t - instant u.
Proof.
  intros Ht Hu Hm Hsu Hst Hd. unfold Sub. rewrite Hm.
  set (d := int64 _). assert (d = instant t - instant u) as Hdeq.
  { unfold d. rewrite (int64_small (sec t - sec u)).
    - rewrite <- (int64_small _ Hd). f_equal. unfold instant. ring.
    - unfold in_int64, minInt64, maxInt64. lia. }
  assert (Equal (Add u d) t = true) as ->; [|done].
  assert (minInt64 + 10 ^ 10 ≤ sec u ≤ maxInt64 - 10 ^ 10) as Hr.
  { unfold minInt64, maxInt64. lia. }
  assert (instant (Add u d) = instant t) as Hi.
  { rewrite instant_Add by (done || by rewrite Hdeq). lia. }
  assert (Time_ok (Add u d)) as [Hn _ _] by (apply Add_ok; [done| by rewrite Hdeq |done]).
  destruct Ht as [Hn' _ _]. unfold instant, Second in *.
  assert (sec (Add u d) = sec t ∧ nsec (Add u d) = nsec t) as [Es En] by lia.
  unfold Equal. rewrite Hm, Es, En, !Z.eqb_refl. by destruct (mono (Add u d)).
Qed.

(** A longer difference saturates. *)
Lemma Sub_saturates t u :
  Time_ok t → Time_ok u → wall_only t → 0 ≤ sec u ≤ 2 ^ 61 →
  maxInt64 < instant t - instant u → Sub t u = maxDuration.
Proof.
  intros Ht Hu Hm Hsu Hd. unfold Sub. rewrite Hm. set (d := int64 _).
  assert (in_int64 d) as Hdr by apply int64_range.
  assert (minInt64 + 10 ^ 10 ≤ sec u ≤ maxInt64 - 10 ^ 10) as Hr by (unfold minInt64, maxInt64; lia).
  assert (Equal (Add u d) t = false) as ->.
  { apply not_true_is_false. intros He. pose proof (instant_Add u d Hu Hdr Hr) as Hi.
    unfold Equal in He. rewrite Hm in He.
    assert (sec (Add u d) = sec t ∧ nsec (Add u d) = nsec t) as [Es En]
      by (destruct (mono (Add u d)); lia).
    unfold instant in *. unfold in_int64 in Hdr. rewrite Es, En in Hi. lia. }
  assert (Before t u = false) as ->; [|done].
  apply not_true_is_false. intros Hb%Before_instant; [|done|done|by left].
  unfold maxInt64 in Hd. lia.
Qed.

#[export] Hint Resolve UTC_ok UTC_wall_only zeroTime_ok Unix_ok Add_ok : go.
#[export] Hint Rewrite instant_UTC : go.
