(* ===== verification/GoFloat.v ===== *)
(** * GoFloat: the float64 arithmetic the program does

    IEEE 754 binary64 by its executable specification ([SpecFloat]): the
    correctly rounded value of a decimal literal ([strconv.ParseFloat]), the
    conversion from int64, division and addition, and the truncating conversion
    to int64, whose result out of range is left to the implementation by the
    Go specification and is a parameter here. *)
From Stdlib Require Import SpecFloat.
From S2P Require Import Prelude Errors GoText GoTime.

Abbreviation float64 := spec_float.
Definition prec : Z := 53.
Definition emax : Z := 1024.

(** [float64(z)] for an integer [z] *)
Definition float_of_Z (z : Z) : float64 := binary_normalize prec emax z 0 false.

Definition fadd : float64 → float64 → float64 := SFadd prec emax.
Definition fdiv : float64 → float64 → float64 := SFdiv prec emax.

(** The double nearest to [m / d]. *)
Definition float_of_quot (neg : bool) (m d : positive) : float64 :=
  let '(q, e, l) := SFdiv_core_binary prec emax (Zpos m) 0 (Zpos d) 0 in
  binary_round_aux prec emax neg q e l.

(** [strconv.ParseFloat] of the literal [(-1)^neg * m * 10^e]; [None] is a
    range error.  Exponents far outside the double range are decided without
    computing the power. *)
Definition parse_decimal (neg : bool) (m e : Z) : option float64 :=
  let f :=
    match m with
    | Zpos p =>
      if 400 <? e then S754_infinity neg
      else if e <? - 400 - Z.log2 m then S754_zero neg
      else match 10 ^ Z.abs e with
           | Zpos q => if 0 <=? e then binary_round prec emax neg (p * q)%positive 0
                       else float_of_quot neg p q
           | _ => S754_nan
           end
    | _ => S754_zero neg
    end in
  match f with
  | S754_infinity _ => None
  | _ => Some f
  end.

(** The integer part, toward zero. *)
Definition float_trunc (f : float64) : option Z :=
  match f with
  | S754_zero _ => Some 0
  | S754_finite s m e =>
    let a := if 0 <=? e then Zpos m * 2 ^ e else Zpos m / 2 ^ (- e) in
    Some (if s then - a else a)
  | _ => None
  end.

Section conversion.
(** [int64(f)] when the truncated value is not an int64. *)
Variable out_of_range : float64 → Z.

Definition int64_of_float (f : float64) : Z :=
  match float_trunc f with
  | Some z => if decide (in_int64 z) then z else out_of_range f
  | None => out_of_range f
  end.
End conversion.

(** [d.Seconds()] *)
Definition Seconds (d : Duration) : float64 :=
  fadd (float_of_Z (Z.quot d Second)) (fdiv (float_of_Z (Z.rem d Second)) (float_of_Z 1000000000)).

(** [f == 0] *)
Definition float_is_zero (f : float64) : bool :=
  match f with S754_zero _ => true | _ => false end.

(** ** Integers up to 2^53 are represented exactly *)

Lemma digits2_pos_bound m k : Zpos m < 2 ^ k → 0 ≤ k → Zpos (digits2_pos m) ≤ k.
Proof.
  revert k. induction m as [m IH|m IH|]; intros k Hm Hk; simpl digits2_pos.
  - assert (k ≠ 0) by (intros ->; simpl in Hm; lia).
    replace k with (k - 1 + 1) in Hm by lia. rewrite Z.pow_add_r in Hm by lia.
    assert (Zpos (digits2_pos m) ≤ k - 1) by (apply IH; lia). lia.
  - assert (k ≠ 0) by (intros ->; simpl in Hm; lia).
    replace k with (k - 1 + 1) in Hm by lia. rewrite Z.pow_add_r in Hm by lia.
    assert (Zpos (digits2_pos m) ≤ k - 1) by (apply IH; lia). lia.
  - assert (k ≠ 0) by (intros ->; simpl in Hm; lia). lia.
Qed.

Lemma digits2_pos_iter m (n : positive) :
  Zpos (digits2_pos (Pos.iter xO m n)) = Zpos (digits2_pos m) + Zpos n.
Proof.
  induction n as [|n IH] using Pos.peano_ind; [simpl; lia|].
  rewrite Pos.iter_succ. simpl digits2_pos. lia.
Qed.

Lemma iter_xO m (n : positive) : Zpos (Pos.iter xO m n) = Zpos m * 2 ^ Zpos n.
Proof.
  induction n as [|n IH] using Pos.peano_ind; [simpl; lia|].
  rewrite Pos.iter_succ, Pos2Z.inj_xO, IH, Pos2Z.inj_succ, Z.pow_succ_r by lia. ring.
Qed.

(** A mantissa that already has [prec] digits is not rounded. *)
Lemma binary_round_aux_exact s m e :
  Zpos (digits2_pos m) = prec → -1074 ≤ e ≤ 971 →
  binary_round_aux prec emax s (Zpos m) e loc_Exact = S754_finite s m e.
Proof.
  intros Hd He. unfold binary_round_aux, shr_fexp, Zdigits2.
  assert (fexp prec emax (Zpos (digits2_pos m) + e) - e = 0) as Hf.
  { rewrite Hd. unfold fexp, emin, prec, emax. lia. }
  rewrite Hf. cbn [shr shr_record_of_loc shr_m loc_of_shr_record round_nearest_even].
  rewrite Hf. cbn [shr shr_record_of_loc shr_m].
  rewrite (proj2 (Z.leb_le _ _)); [done|]. unfold prec, emax. lia.
Qed.

Lemma float_of_Z_exact m :
  Zpos m < 2 ^ 53 →
  ∃ m' e, float_of_Z (Zpos m) = S754_finite false m' e ∧ e ≤ 0 ∧ Zpos m' = Zpos m * 2 ^ (- e).
Proof.
  intros Hm. pose proof (digits2_pos_bound m 53 Hm ltac:(lia)) as Hd.
  unfold float_of_Z, binary_normalize, binary_round.
  rewrite Z.add_0_r. unfold shl_align. rewrite Z.sub_0_r.
  assert (fexp prec emax (Zpos (digits2_pos m)) = Zpos (digits2_pos m) - 53) as Hf.
  { unfold fexp, emin, prec, emax. lia. }
  rewrite Hf. destruct (Zpos (digits2_pos m) - 53) as [|p|n] eqn:E; [|lia|].
  - exists m, 0. rewrite binary_round_aux_exact by (unfold prec; lia).
    split; [done|]. split; [lia|]. simpl. lia.
  - exists (Pos.iter xO m n), (Zneg n).
    rewrite binary_round_aux_exact.
    + split; [done|]. split; [lia|]. by rewrite iter_xO.
    + rewrite digits2_pos_iter. unfold prec. lia.
    + lia.
Qed.

Lemma float_trunc_of_Z z : 0 ≤ z < 2 ^ 53 → float_trunc (float_of_Z z) = Some z.
Proof.
  intros [Hz Hlt]. destruct z as [|m|m]; [done| |lia].
  destruct (float_of_Z_exact m Hlt) as (m' & e & -> & He & Hm).
  unfold float_trunc. rewrite Hm. destruct (Z.leb_spec 0 e).
  - replace e with 0 by lia. f_equal. simpl. lia.
  - rewrite Z.div_mul; [done|]. apply Z.pow_nonzero; lia.
Qed.

Lemma float_of_Z_nonzero z : 0 < z < 2 ^ 53 → float_is_zero (float_of_Z z) = false.
Proof.
  intros [Hz Hlt]. destruct z as [|m|m]; [lia| |lia].
  by destruct (float_of_Z_exact m Hlt) as (m' & e & -> & _).
Qed.

(** The literal of such an integer denotes its double. *)
Lemma parse_decimal_Z z : 0 ≤ z < 2 ^ 53 → parse_decimal false z 0 = Some (float_of_Z z).
Proof.
  intros [Hz Hlt]. destruct z as [|p|p]; [done| |lia].
  unfold parse_decimal. rewrite (proj2 (Z.ltb_ge 400 _)) by lia.
  rewrite (proj2 (Z.ltb_ge _ _)) by (pose proof (Z.log2_nonneg (Zpos p)); lia).
  change (10 ^ Z.abs 0) with 1. cbn iota. change (0 <=? 0) with true. cbn iota.
  rewrite Pos.mul_1_r. destruct (float_of_Z_exact p Hlt) as (m & e & Hf & _).
  unfold float_of_Z, binary_normalize in *. by rewrite Hf.
Qed.

Lemma int64_of_float_Z oor z :
  0 ≤ z < 2 ^ 53 → int64_of_float oor (float_of_Z z) = z.
Proof.
  intros Hz. unfold int64_of_float. rewrite float_trunc_of_Z by done.
  rewrite decide_True; [done|]. unfold in_int64, minInt64, maxInt64. lia.
Qed.
