(* ===== verification/GoJson.v ===== *)
(** * GoJson: the part of encoding/json the program relies on

    A parser for the JSON grammar [encoding/json] accepts (whitespace, the
    escapes of strings, surrogate pairs, the replacement of invalid UTF-8, the
    number grammar, the nesting limit) and the decoders for the targets the
    program unmarshals into: [map[string]json.RawMessage], [[]string],
    [string], and a struct field by field.  Members of an object keep the raw
    text of their value, which is what a [json.RawMessage] holds.  The text of
    a syntax or type error is not modelled. *)
From S2P Require Import Prelude Errors GoText GoFloat.

Set Warnings "-register-all".

Inductive json :=
| JNull
| JBool (b : bool)
| JNum (lit : string)
| JStr (s : string)                                  (** decoded *)
| JArr (l : list json)
| JObj (members : list (string * (string * json))).  (** key, raw text, value *)

Definition SyntaxError : error := External "json: syntax error".
Definition UnmarshalTypeError : error := External "json: cannot unmarshal value".

(** ** Strings *)

(** An item of a string literal: a source byte, or a [\u] escape. *)
Inductive item := IByte (c : ascii) | IUnit (u : Z).

Inductive str_state :=
| Normal
| Escape
| Hex (missing : nat) (acc : Z).

Definition hex_val (c : ascii) : option Z :=
  let v := byte_val c in
  if in_range 48 57 v then Some (v - 48)
  else if in_range 97 102 v then Some (v - 87)
  else if in_range 65 70 v then Some (v - 55)
  else None.

(** The byte a one-letter escape stands for. *)
Definition escape_byte (c : ascii) : option ascii :=
  match byte_val c with
  | 34 => Some c                 (* quotation mark *)
  | 92 | 47 => Some c            (* backslash, slash *)
  | 98 => Some (byte 8)          (* b *)
  | 102 => Some (byte 12)        (* f *)
  | 110 => Some (byte 10)        (* n *)
  | 114 => Some (byte 13)        (* r *)
  | 116 => Some (byte 9)         (* t *)
  | _ => None
  end.

(** Reads up to the closing quotation mark. *)
Fixpoint scan_string (st : str_state) (s : string) : option (list item * string) :=
  match s with
  | EmptyString => None
  | String c s' =>
    match st with
    | Normal =>
      let v := byte_val c in
      if v =? 34 then Some ([], s')
      else if v =? 92 then scan_string Escape s'
      else if v <? 32 then None
      else '(l, r) ← scan_string Normal s'; Some (IByte c :: l, r)
    | Escape =>
      if byte_val c =? 117 then scan_string (Hex 3 0) s'
      else b ← escape_byte c; '(l, r) ← scan_string Normal s'; Some (IByte b :: l, r)
    | Hex n acc =>
      h ← hex_val c;
      let acc' := 16 * acc + h in
      match n with
      | S n' => scan_string (Hex n' acc') s'
      | O => '(l, r) ← scan_string Normal s'; Some (IUnit acc' :: l, r)
      end
    end
  end.

Definition encode_rune (r : Z) : string :=
  let b z := String (byte z) "" in
  if r <? 0x80 then b r
  else if r <? 0x800 then b (0xC0 + Z.shiftr r 6) +:+ b (0x80 + Z.land r 0x3F)
  else if r <? 0x10000 then
    b (0xE0 + Z.shiftr r 12) +:+ b (0x80 + Z.land (Z.shiftr r 6) 0x3F) +:+ b (0x80 + Z.land r 0x3F)
  else
    b (0xF0 + Z.shiftr r 18) +:+ b (0x80 + Z.land (Z.shiftr r 12) 0x3F)
      +:+ b (0x80 + Z.land (Z.shiftr r 6) 0x3F) +:+ b (0x80 + Z.land r 0x3F).

Definition replacement : string := encode_rune RuneError.

(** Invalid bytes become U+FFFD; a decoded rune keeps its bytes. *)
Definition fix_utf8 (s : string) : string :=
  foldr (λ p acc, (if (fst p =? RuneError) && (len (snd p) =? 1) then replacement else snd p) +:+ acc)
        "" (rune_segs s).

Definition high_surrogate (u : Z) : bool := in_range 0xD800 0xDBFF u.
Definition low_surrogate (u : Z) : bool := in_range 0xDC00 0xDFFF u.

Fixpoint decode_items (l : list item) (run : string) : string :=
  match l with
  | [] => fix_utf8 run
  | IByte c :: l' => decode_items l' (run +:+ String c "")
  | IUnit u :: l' =>
    fix_utf8 run +:+
    match l' with
    | IUnit v :: l'' =>
      if high_surrogate u && low_surrogate v
      then encode_rune ((u - 0xD800) * 0x400 + (v - 0xDC00) + 0x10000) +:+ decode_items l'' ""
      else (if high_surrogate u || low_surrogate u then replacement else encode_rune u)
             +:+ decode_items l' ""
    | _ => (if high_surrogate u || low_surrogate u then replacement else encode_rune u)
             +:+ decode_items l' ""
    end
  end.

Definition parse_string (s : string) : option (string * string) :=
  '(l, r) ← scan_string Normal s; Some (decode_items l "", r).

(** ** Numbers and whitespace *)

Fixpoint skip_ws (s : string) : string :=
  match s with
  | String c s' =>
    let v := byte_val c in
    if (v =? 32) || (v =? 9) || (v =? 10) || (v =? 13) then skip_ws s' else s
  | EmptyString => ""
  end.

Fixpoint take_digits (s : string) : string * string :=
  match s with
  | String c s' =>
    match digit_val c with
    | Some _ => let '(d, r) := take_digits s' in (String c d, r)
    | None => ("", s)
    end
  | EmptyString => ("", "")
  end.

Definition take_byte (c : ascii) (s : string) : option string :=
  match s with
  | String d s' => if bool_decide (c = d) then Some s' else None
  | EmptyString => None
  end.

Definition consumed (s rest : string) : string :=
  str_take (String.length s - String.length rest) s.

(** One digit or more. *)
Definition digits1 (s : string) : option string :=
  let '(d, r) := take_digits s in if bool_decide (d = "") then None else Some r.

(** [-? (0 | [1-9][0-9]* ) (. [0-9]+)? ([eE] [+-]? [0-9]+)?] *)
Definition scan_int (s : string) : option string :=
  let s1 := default s (take_byte "-" s) in
  match take_byte "0" s1 with Some r => Some r | None => digits1 s1 end.
Definition scan_frac (s : string) : option string :=
  match take_byte "." s with Some r => digits1 r | None => Some s end.
Definition take_exp (s : string) : option string :=
  match take_byte "e" s with Some r => Some r | None => take_byte "E" s end.
Definition scan_exp (s : string) : option string :=
  match take_exp s with
  | Some r => digits1 (match take_byte "+" r with
                       | Some r' => r'
                       | None => default r (take_byte "-" r)
                       end)
  | None => Some s
  end.
Definition scan_number (s : string) : option (string * string) :=
  r ← scan_int s; r ← scan_frac r; r ← scan_exp r; Some (consumed s r, r).

Fixpoint strip_prefix (p s : string) : option string :=
  match p, s with
  | EmptyString, _ => Some s
  | String a p', String b s' => if bool_decide (a = b) then strip_prefix p' s' else None
  | _, EmptyString => None
  end.

(** ** Values *)

Definition maxNestingDepth : Z := 10000.

(** [fuel] bounds the depth of the calls; twice the length of the input is
    enough ([parse_value_fuel] below): every second call reads a byte. *)
Fixpoint parse_value (fuel : nat) (depth : Z) (s : string) : option (json * string) :=
  match fuel with
  | O => None
  | S fuel =>
    match s with
    | EmptyString => None
    | String c s' =>
      let v := byte_val c in
      if v =? 123 then (* { *)
        if maxNestingDepth <=? depth then None else
        let s1 := skip_ws s' in
        match take_byte "}" s1 with
        | Some r => Some (JObj [], r)
        | None => '(ms, r) ← parse_members fuel (depth + 1) s1; Some (JObj ms, r)
        end
      else if v =? 91 then (* [ *)
        if maxNestingDepth <=? depth then None else
        let s1 := skip_ws s' in
        match take_byte "]" s1 with
        | Some r => Some (JArr [], r)
        | None => '(l, r) ← parse_elements fuel (depth + 1) s1; Some (JArr l, r)
        end
      else if v =? 34 then '(t, r) ← parse_string s'; Some (JStr t, r)
      else if v =? 116 then r ← strip_prefix "true" s; Some (JBool true, r)
      else if v =? 102 then r ← strip_prefix "false" s; Some (JBool false, r)
      else if v =? 110 then r ← strip_prefix "null" s; Some (JNull, r)
      else '(n, r) ← scan_number s; Some (JNum n, r)
    end
  end
with parse_elements (fuel : nat) (depth : Z) (s : string) : option (list json * string) :=
  match fuel with
  | O => None
  | S fuel =>
    '(v, r) ← parse_value fuel depth s;
    let r := skip_ws r in
    match take_byte "]" r with
    | Some r' => Some ([v], r')
    | None =>
      r' ← take_byte "," r;
      '(l, r'') ← parse_elements fuel depth (skip_ws r');
      Some (v :: l, r'')
    end
  end
with parse_members (fuel : nat) (depth : Z) (s : string)
    : option (list (string * (string * json)) * string) :=
  match fuel with
  | O => None
  | S fuel =>
    s0 ← take_byte (byte 34) s;
    '(k, r) ← parse_string s0;
    r ← take_byte ":" (skip_ws r);
    let r := skip_ws r in
    '(v, r1) ← parse_value fuel depth r;
    let m := (k, (consumed r r1, v)) in
    let r1 := skip_ws r1 in
    match take_byte "}" r1 with
    | Some r' => Some ([m], r')
    | None =>
      r' ← take_byte "," r1;
      '(ms, r'') ← parse_members fuel depth (skip_ws r');
      Some (m :: ms, r'')
    end
  end.

(** A whole JSON text. *)
Definition parse_json (s : bytes) : result json :=
  match parse_value (2 * String.length s + 2) 0 (skip_ws s) with
  | Some (v, r) => if bool_decide (skip_ws r = "") then Ok v else Err SyntaxError
  | None => Err SyntaxError
  end.

(** ** Decoders *)

(** [json.Unmarshal(data, &fields)] for a nil [map[string]json.RawMessage]:
    a repeated key keeps its last value, [null] leaves the map nil. *)
Definition members_map (ms : list (string * (string * json))) : gmap string bytes :=
  foldl (λ m p, <[fst p := fst (snd p)]> m) ∅ ms.

Definition decode_map (v : json) : result (gmap string bytes) :=
  match v with
  | JObj ms => Ok (members_map ms)
  | JNull => Ok ∅
  | _ => Err UnmarshalTypeError
  end.

(** An element of a [[]string]: [null] leaves the zero value. *)
Definition decode_elem (v : json) : result string :=
  match v with
  | JStr s => Ok s
  | JNull => Ok ""
  | _ => Err UnmarshalTypeError
  end.

Fixpoint decode_elems (l : list json) : result (list string) :=
  match l with
  | [] => Ok []
  | v :: l' => s ← decode_elem v; ss ← decode_elems l'; Ok (s :: ss)
  end.

(** [json.Unmarshal(data, &list)] for a nil [[]string]. *)
Definition decode_strings (v : json) : result (list string) :=
  match v with
  | JArr l => decode_elems l
  | JNull => Ok []
  | _ => Err UnmarshalTypeError
  end.

(** [json.Unmarshal(data, &s)] for an empty [string]. *)
Definition decode_string (v : json) : result string := decode_elem v.

Definition Unmarshal_map (data : bytes) : result (gmap string bytes) :=
  v ← parse_json data; decode_map v.
Definition Unmarshal_strings (data : bytes) : result (list string) :=
  v ← parse_json data; decode_strings v.
Definition Unmarshal_string (data : bytes) : result string :=
  v ← parse_json data; decode_string v.

(** *** Struct fields *)

(** A key names a field exactly or up to Unicode simple case folding; of the
    runes that fold to a letter of an ASCII name, only U+017F (for s) and
    U+212A (for k) are not ASCII. *)
Definition fold_rune (r : Z) : Z :=
  if in_range 97 122 r then r - 32
  else if r =? 0x17F then 83
  else if r =? 0x212A then 75
  else r.

Definition key_matches (field key : string) : bool :=
  bool_decide (key = field) ||
  bool_decide (map fold_rune (runes key) = map fold_rune (runes field)).

(** The digits before and after the point and the exponent of a literal. *)
Definition digits_value (s : string) : Z :=
  match parse_digits (10 ^ len s) s 0 with inl n => n | inr _ => 0 end.

Definition ParseFloat (lit : string) : option float64 :=
  let neg := match take_byte "-" lit with Some _ => true | None => false end in
  let s := default lit (take_byte "-" lit) in
  let '(ip, s) := take_digits s in
  let '(fp, s) := match take_byte "." s with Some r => take_digits r | None => ("", s) end in
  let e :=
    match take_exp s with
    | Some r =>
      match take_byte "-" r with
      | Some r' => - digits_value (fst (take_digits r'))
      | None => digits_value (fst (take_digits (default r (take_byte "+" r))))
      end
    | None => 0
    end in
  parse_decimal neg (digits_value (ip +:+ fp)) (e - len fp).

(** Decoding a member into a field of type bool, string or float64: the new
    value, or the type error [Unmarshal] reports at the end. *)
Definition set_bool (v : json) (old : bool) : bool + error :=
  match v with JBool b => inl b | JNull => inl old | _ => inr UnmarshalTypeError end.
Definition set_string (v : json) (old : string) : string + error :=
  match v with JStr s => inl s | JNull => inl old | _ => inr UnmarshalTypeError end.
Definition set_float (v : json) (old : float64) : float64 + error :=
  match v with
  | JNum lit => match ParseFloat lit with
                | Some f => inl f
                | None => inr UnmarshalTypeError
                end
  | JNull => inl old
  | _ => inr UnmarshalTypeError
  end.

(** ** The fuel is enough *)

Lemma skip_ws_length s : (String.length (skip_ws s) ≤ String.length s)%nat.
Proof. induction s as [|c s IH]; [done|]. cbn [skip_ws]. destruct (_ || _); simpl; lia. Qed.

Lemma take_byte_length c s r : take_byte c s = Some r → String.length s = S (String.length r).
Proof. destruct s; simpl; [done|]. case_bool_decide; by intros [= <-]. Qed.

Lemma take_digits_length s d r :
  take_digits s = (d, r) → String.length s = (String.length d + String.length r)%nat.
Proof.
  revert d. induction s as [|c s IH]; intros d H; simpl in H; [by simplify_eq|].
  destruct (digit_val c); [|by simplify_eq]. destruct (take_digits s) as [d' r'].
  simplify_eq/=. by rewrite (IH d').
Qed.

Lemma strip_prefix_length p s r :
  strip_prefix p s = Some r → String.length s = (String.length p + String.length r)%nat.
Proof.
  revert s. induction p as [|a p IH]; intros [|b s] H; simpl in *; try by simplify_eq.
  case_bool_decide; [|done]. by rewrite (IH s).
Qed.

Lemma scan_string_length st s l r :
  scan_string st s = Some (l, r) → (String.length r < String.length s)%nat.
Proof.
  revert st l. induction s as [|c s IH]; intros st l H; [done|]. simpl. cbn [scan_string] in H.
  assert (∀ st l, scan_string st s = Some (l, r) → (String.length r < S (String.length s))%nat)
    as Hgo by (intros ? ? ?%IH; lia).
  assert (∀ x st, ('(l', r') ← scan_string st s; Some (x :: l', r')) = Some (l, r) →
            (String.length r < S (String.length s))%nat) as Hcons.
  { intros x st0. destruct (scan_string st0 s) as [[l' r']|] eqn:E; [|done].
    intros [= <- <-]. by eapply Hgo. }
  destruct st as [| |n acc].
  - destruct (_ =? 34); [simplify_eq; lia|]. destruct (_ =? 92); [by eapply Hgo|].
    destruct (_ <? 32); [done|]. by eapply Hcons.
  - destruct (_ =? 117); [by eapply Hgo|]. destruct (escape_byte c); [|done]. by eapply Hcons.
  - destruct (hex_val c); [|done]. destruct n; [by eapply Hcons | by eapply Hgo].
Qed.

Lemma parse_string_length s t r :
  parse_string s = Some (t, r) → (String.length r < String.length s)%nat.
Proof.
  unfold parse_string. destruct (scan_string Normal s) as [[l r']|] eqn:E; [|done].
  intros [= _ <-]. by eapply scan_string_length.
Qed.

Lemma digits1_length s r : digits1 s = Some r → (String.length r < String.length s)%nat.
Proof.
  unfold digits1. destruct (take_digits s) as [d r'] eqn:E. case_bool_decide as Hd; [done|].
  intros [= <-]. apply take_digits_length in E. destruct d; [done|]. simpl in E. lia.
Qed.

Lemma default_take_byte_length c s :
  (String.length (default s (take_byte c s)) ≤ String.length s)%nat.
Proof.
  destruct (take_byte c s) eqn:E; simpl; [|done]. apply take_byte_length in E. lia.
Qed.

Lemma scan_number_length s t r :
  scan_number s = Some (t, r) → (String.length r < String.length s)%nat.
Proof.
  unfold scan_number. intros H.
  destruct (scan_int s) as [r1|] eqn:E1; [|done]. simpl in H.
  destruct (scan_frac r1) as [r2|] eqn:E2; [|done]. simpl in H.
  destruct (scan_exp r2) as [r3|] eqn:E3; [|done]. simpl in H. injection H as _ <-.
  assert (String.length r1 < String.length s)%nat.
  { unfold scan_int in E1. pose proof (default_take_byte_length "-" s).
    destruct (take_byte "0" _) eqn:E0; simplify_eq;
      [apply take_byte_length in E0 | apply digits1_length in E1]; lia. }
  assert (String.length r2 ≤ String.length r1)%nat.
  { unfold scan_frac in E2. destruct (take_byte "." r1) eqn:E0; simplify_eq; [|done].
    apply take_byte_length in E0. apply digits1_length in E2. lia. }
  assert (String.length r3 ≤ String.length r2)%nat; [|lia].
  unfold scan_exp in E3. destruct (take_exp r2) as [r|] eqn:E0; simplify_eq; [|done].
  assert (String.length r < String.length r2)%nat.
  { unfold take_exp in E0. destruct (take_byte "e" r2) eqn:Ee; simplify_eq;
      [apply take_byte_length in Ee | apply take_byte_length in E0]; lia. }
  apply digits1_length in E3. pose proof (default_take_byte_length "-" r).
  destruct (take_byte "+" r) eqn:Ep; [apply take_byte_length in Ep|]; lia.
Qed.

#[local] Hint Resolve take_byte_length strip_prefix_length parse_string_length
  scan_number_length : core.

(** A value, an element list and a member list each read at least a byte. *)
Definition reads {A} (f : string → option (A * string)) : Prop :=
  ∀ s a r, f s = Some (a, r) → (String.length r < String.length s)%nat.

Ltac bind_step H :=
  match type of H with
  | (?o ≫= _) = Some _ => destruct o as [?|] eqn:?; [|done]; cbn [mbind option_bind] in H
  | (let '(_, _) := ?p in _) = Some _ => destruct p
  | match take_byte ?c ?s with _ => _ end = Some _ => destruct (take_byte c s) eqn:?
  | (if ?b then _ else _) = Some _ => destruct b; [try done|]
  end.

(** What is left of the input is shorter at each reading step. *)
Ltac shorter :=
  repeat match goal with
  | H : take_byte _ _ = Some _ |- _ => apply take_byte_length in H
  | H : strip_prefix _ _ = Some _ |- _ => apply strip_prefix_length in H; simpl in H
  | H : parse_string _ = Some _ |- _ => apply parse_string_length in H
  | H : scan_number _ = Some _ |- _ => apply scan_number_length in H
  | H : context [skip_ws ?s] |- _ =>
      lazymatch goal with
      | _ : (String.length (skip_ws s) ≤ String.length s)%nat |- _ => fail
      | _ => pose proof (skip_ws_length s)
      end
  | |- context [skip_ws ?s] =>
      lazymatch goal with
      | _ : (String.length (skip_ws s) ≤ String.length s)%nat |- _ => fail
      | _ => pose proof (skip_ws_length s)
      end
  end; simpl in *; lia.

Lemma parse_reads fuel :
  (∀ depth, reads (parse_value fuel depth)) ∧
  (∀ depth, reads (parse_elements fuel depth)) ∧
  (∀ depth, reads (parse_members fuel depth)).
Proof.
  induction fuel as [|fuel (IHv & IHe & IHm)]; [done|].
  split_and!; intros depth s a r H.
  - destruct s as [|c s]; [done|]. cbn [parse_value] in H.
    repeat (bind_step H); simplify_eq;
      repeat match goal with
      | E : parse_members _ _ _ = Some _ |- _ => apply IHm in E
      | E : parse_elements _ _ _ = Some _ |- _ => apply IHe in E
      end; shorter.
  - cbn [parse_elements] in H. repeat (bind_step H); simplify_eq;
      repeat match goal with
      | E : parse_value _ _ _ = Some _ |- _ => apply IHv in E
      | E : parse_elements _ _ _ = Some _ |- _ => apply IHe in E
      end; shorter.
  - cbn [parse_members] in H. repeat (bind_step H); simplify_eq;
      repeat match goal with
      | E : parse_value _ _ _ = Some _ |- _ => apply IHv in E
      | E : parse_members _ _ _ = Some _ |- _ => apply IHm in E
      end; shorter.
Qed.

(** Rewrites the recursive calls of one side to the other side's fuel, one
    parser step at a time. *)
Ltac same_step :=
  match goal with
  | |- (?o ≫= _) = (?o ≫= _) => destruct o as [?|] eqn:?; [|done]; cbn [mbind option_bind]
  | |- (let '(_, _) := ?p in _) = _ => destruct p
  | |- match take_byte ?c ?s with _ => _ end = _ => destruct (take_byte c s) eqn:?
  | |- (if ?b then _ else _) = _ => destruct b; [try done|try done]
  end.

Lemma parse_value_fuel_aux fuel :
  ∀ fuel',
  (∀ depth s, (2 * String.length s + 1 ≤ fuel)%nat → (2 * String.length s + 1 ≤ fuel')%nat →
     parse_value fuel depth s = parse_value fuel' depth s) ∧
  (∀ depth s, (2 * String.length s + 2 ≤ fuel)%nat → (2 * String.length s + 2 ≤ fuel')%nat →
     parse_elements fuel depth s = parse_elements fuel' depth s) ∧
  (∀ depth s, (2 * String.length s + 2 ≤ fuel)%nat → (2 * String.length s + 2 ≤ fuel')%nat →
     parse_members fuel depth s = parse_members fuel' depth s).
Proof.
  induction fuel as [|fuel IH]; intros fuel'; [by split_and!; intros; lia|].
  destruct fuel' as [|fuel']; [by split_and!; intros; lia|].
  destruct (IH fuel') as (IHv & IHe & IHm).
  destruct (parse_reads fuel') as (Rv & _ & _).
  split_and!; intros depth s H H'.
  - destruct s as [|c s]; [done|]. cbn [parse_value].
    do 2 (destruct (_ =? _); [destruct (_ <=? _); [done|];
      same_step; [done|]; by rewrite ?IHe, ?IHm by shorter |]). done.
  - cbn [parse_elements]. rewrite IHv by lia. repeat same_step; try done.
    match goal with E : parse_value _ _ _ = Some _ |- _ => apply Rv in E end.
    by rewrite IHe by shorter.
  - cbn [parse_members]. repeat (first [rewrite IHv by shorter | same_step]); try done.
    match goal with E : parse_value _ _ _ = Some _ |- _ => apply Rv in E end.
    by rewrite IHm by shorter.
Qed.

(** Any fuel of at least twice the length plus one gives the same parse. *)
Lemma parse_value_fuel fuel fuel' depth s :
  (2 * String.length s + 1 ≤ fuel)%nat → (2 * String.length s + 1 ≤ fuel')%nat →
  parse_value fuel depth s = parse_value fuel' depth s.
Proof. apply parse_value_fuel_aux. Qed.

(** ** Printing, for strings that need no escape *)

Fixpoint str_all (f : ascii → bool) (s : string) : bool :=
  match s with
  | EmptyString => true
  | String c s' => f c && str_all f s'
  end.

(** Printable ASCII other than the quotation mark and the backslash. *)
Definition plain_byte (c : ascii) : bool :=
  let v := byte_val c in in_range 32 127 v && negb (v =? 34) && negb (v =? 92).
Definition plain (s : string) : Prop := str_all plain_byte s = true.

#[export] Instance plain_dec s : Decision (plain s).
Proof. unfold plain. apply _. Defined.

Definition DQ : ascii := byte 34.
Definition print_string (s : string) : string := String DQ (s +:+ String DQ "").

Fixpoint print_elements (l : list string) : string :=
  match l with
  | [] => ""
  | [s] => print_string s
  | s :: l' => print_string s +:+ String "," (print_elements l')
  end.
Definition print_strings (l : list string) : string :=
  String "[" (print_elements l +:+ String "]" "").

Lemma plain_cons c s : plain (String c s) ↔ plain_byte c = true ∧ plain s.
Proof. unfold plain. simpl. apply andb_true_iff. Qed.

Lemma plain_byte_bounds c :
  plain_byte c = true → 32 ≤ byte_val c < 128 ∧ byte_val c ≠ 34 ∧ byte_val c ≠ 92.
Proof. unfold plain_byte, in_range. intros. lia. Qed.

Lemma scan_string_plain s rest :
  plain s →
  scan_string Normal (s +:+ String DQ rest) = Some (map IByte (String.list_ascii_of_string s), rest).
Proof.
  induction s as [|c s IH]; intros Hs; [done|].
  apply plain_cons in Hs as [Hc Hs]. apply plain_byte_bounds in Hc.
  change (String c s +:+ String DQ rest) with (String c (s +:+ String DQ rest)).
  cbn [scan_string]. rewrite !(proj2 (Z.eqb_neq _ _)), (proj2 (Z.ltb_ge _ _)) by lia.
  by rewrite IH.
Qed.

Lemma rune_segs_ascii c s :
  byte_val c < 128 → rune_segs (String c s) = (byte_val c, String c "") :: rune_segs s.
Proof. intros H. cbn [rune_segs]. by rewrite (proj2 (Z.ltb_lt _ _)). Qed.

Lemma fix_utf8_plain s : plain s → fix_utf8 s = s.
Proof.
  induction s as [|c s IH]; intros Hs; [done|].
  apply plain_cons in Hs as [Hc Hs]. apply plain_byte_bounds in Hc.
  unfold fix_utf8. rewrite rune_segs_ascii by lia. cbn [foldr fst snd].
  rewrite (proj2 (Z.eqb_neq (byte_val c) _)) by (unfold RuneError; lia). simpl.
  f_equal. by apply IH.
Qed.

Lemma decode_items_bytes s run :
  decode_items (map IByte (String.list_ascii_of_string s)) run = fix_utf8 (run +:+ s).
Proof.
  revert run. induction s as [|c s IH]; intros run; simpl.
  - by rewrite str_app_nil_r.
  - by rewrite IH, str_app_assoc.
Qed.

Lemma parse_string_plain s rest : plain s → parse_string (s +:+ String DQ rest) = Some (s, rest).
Proof.
  intros Hs. unfold parse_string. rewrite scan_string_plain by done. simpl.
  by rewrite decode_items_bytes, fix_utf8_plain.
Qed.

Lemma print_string_app s rest : print_string s +:+ rest = String DQ (s +:+ String DQ rest).
Proof. unfold print_string. simpl. by rewrite str_app_assoc. Qed.

Lemma parse_value_string fuel depth s rest :
  (0 < fuel)%nat → plain s →
  parse_value fuel depth (print_string s +:+ rest) = Some (JStr s, rest).
Proof.
  intros Hf Hs. destruct fuel as [|fuel]; [lia|]. rewrite print_string_app. cbn [parse_value].
  change (byte_val DQ) with 34. simpl. by rewrite parse_string_plain.
Qed.

Lemma take_byte_eq c s : take_byte c (String c s) = Some s.
Proof. simpl. by rewrite bool_decide_true. Qed.

Lemma take_byte_ne c d s : c ≠ d → take_byte c (String d s) = None.
Proof. intros. simpl. by rewrite bool_decide_false. Qed.

Lemma skip_ws_solid c s :
  (byte_val c =? 32) || (byte_val c =? 9) || (byte_val c =? 10) || (byte_val c =? 13) = false →
  skip_ws (String c s) = String c s.
Proof. intros H. cbn [skip_ws]. by rewrite H. Qed.

Lemma parse_elements_print fuel depth l rest :
  l ≠ [] → Forall plain l → (length l < fuel)%nat →
  parse_elements fuel depth (print_elements l +:+ String "]" rest) = Some (map JStr l, rest).
Proof.
  intros Hne Hl. revert fuel. induction Hl as [|s l Hs Hl IH]; intros fuel Hf; [done|].
  destruct fuel as [|fuel]; [lia|]. simpl in Hf.
  destruct l as [|s' l].
  - change (print_elements [s]) with (print_string s). cbn [parse_elements].
    by rewrite parse_value_string by (lia || done).
  - change (print_elements (s :: s' :: l))
      with (print_string s +:+ String "," (print_elements (s' :: l))).
    rewrite str_app_assoc. cbn [parse_elements]. rewrite parse_value_string by (simpl in Hf; lia || done).
    cbn [mbind option_bind String.append].
    rewrite skip_ws_solid, take_byte_ne, take_byte_eq by done.
    cbn [mbind option_bind].
    assert (skip_ws (print_elements (s' :: l) +:+ String "]" rest)
            = print_elements (s' :: l) +:+ String "]" rest) as ->.
    { destruct l; cbn [print_elements]; [by rewrite print_string_app|].
      by rewrite str_app_assoc, print_string_app. }
    rewrite IH; [done|done|]. simpl in *. lia.
Qed.

Lemma parse_value_strings fuel depth l rest :
  Forall plain l → (S (length l) < fuel)%nat → depth < maxNestingDepth →
  parse_value fuel depth (print_strings l +:+ rest) = Some (JArr (map JStr l), rest).
Proof.
  intros Hl Hf Hd. destruct fuel as [|fuel]; [lia|].
  unfold print_strings. cbn [String.append parse_value].
  change (byte_val "[" =? 123) with false. change (byte_val "[" =? 91) with true. cbn iota.
  rewrite (proj2 (Z.leb_gt _ _)) by lia. rewrite str_app_assoc. cbn [String.append].
  destruct l as [|s l]; [done|].
  assert (∃ t, print_elements (s :: l) +:+ String "]" rest = String DQ t) as [t Ht].
  { destruct l; cbn [print_elements]; [by rewrite print_string_app; eexists|].
    rewrite str_app_assoc, print_string_app. by eexists. }
  assert (skip_ws (String DQ t) = String DQ t) as Hws by done.
  rewrite Ht, Hws, take_byte_ne by done.
  rewrite <- Ht, parse_elements_print; [done|done|done|]. simpl in *. lia.
Qed.

Lemma str_take_app s t : str_take (String.length s) (s +:+ t) = s.
Proof. induction s; simpl; [by destruct t|]. by f_equal. Qed.

Lemma consumed_app s rest : consumed (s +:+ rest) rest = s.
Proof.
  unfold consumed. rewrite str_length_app, Nat.add_sub. apply str_take_app.
Qed.

(** A printed value is a whole JSON text. *)
Lemma parse_json_print s v :
  skip_ws s = s → (∃ fuel0, ∀ fuel, (fuel0 ≤ fuel)%nat → parse_value fuel 0 s = Some (v, "")) →
  parse_json s = Ok v.
Proof.
  intros Hs [fuel0 Hv]. unfold parse_json. rewrite Hs.
  rewrite (parse_value_fuel _ (fuel0 + (2 * String.length s + 1))) by lia.
  by rewrite Hv by lia.
Qed.

Lemma parse_json_string s : plain s → parse_json (print_string s) = Ok (JStr s).
Proof.
  intros Hs. apply parse_json_print; [done|]. exists 1%nat. intros fuel Hf.
  rewrite <- (str_app_nil_r (print_string s)). apply parse_value_string; [lia|done].
Qed.

Lemma parse_json_strings l : Forall plain l → parse_json (print_strings l) = Ok (JArr (map JStr l)).
Proof.
  intros Hl. apply parse_json_print; [done|]. exists (S (S (length l))). intros fuel Hf.
  rewrite <- (str_app_nil_r (print_strings l)). by apply parse_value_strings; [|lia|].
Qed.

Lemma decode_elems_map l : decode_elems (map JStr l) = Ok l.
Proof. induction l as [|s l IH]; [done|]. simpl. by rewrite IH. Qed.

(** ** Printing numbers and objects *)

Definition is_digit (c : ascii) : bool :=
  match digit_val c with Some _ => true | None => false end.

Lemma take_digits_all d c rest :
  str_all is_digit d = true → is_digit c = false →
  take_digits (d +:+ String c rest) = (d, String c rest).
Proof.
  intros Hd Hc. induction d as [|x d IH]; simpl in *.
  - unfold is_digit in Hc. by destruct (digit_val c).
  - apply andb_true_iff in Hd as [Hx Hd]. unfold is_digit in Hx.
    destruct (digit_val x); [|done]. by rewrite IH.
Qed.

Lemma take_digits_end d : str_all is_digit d = true → take_digits d = (d, "").
Proof.
  induction d as [|x d IH]; [done|]. simpl. intros [Hx Hd]%andb_true_iff.
  unfold is_digit in Hx. destruct (digit_val x); [|done]. by rewrite IH.
Qed.

(** The decimal form of a positive number: digits, the first not zero. *)
Lemma pretty_N_go_shape (n : N) s :
  n ≠ 0%N →
  ∃ c d, pretty_N_go n s = String c (d +:+ s) ∧ c ≠ "0"%char ∧
         str_all is_digit (String c d) = true ∧ Z.of_N n < 10 ^ len (String c d).
Proof.
  revert s. induction (N.lt_wf_0 n) as [n _ IH]; intros s Hn.
  rewrite pretty_N_go_step by lia.
  assert (is_digit (pretty_N_char (n `mod` 10)) = true) as Hd.
  { unfold is_digit. by rewrite pretty_N_char_digit by (apply N.mod_lt; lia). }
  destruct (decide (n `div` 10 = 0)%N) as [E|E].
  - rewrite E, pretty_N_go_0. apply N.div_small_iff in E; [|lia].
    exists (pretty_N_char (n `mod` 10)), "". rewrite N.mod_small in * by done. split_and!.
    + done.
    + intros Hc. pose proof (pretty_N_char_digit n E) as Hv. rewrite Hc in Hv.
      change (digit_val "0") with (Some 0) in Hv. injection Hv as Hv. lia.
    + simpl. by rewrite Hd.
    + unfold len. simpl. lia.
  - destruct (IH (n `div` 10)%N (N.div_lt n 10 ltac:(lia) ltac:(lia))
                (String (pretty_N_char (n `mod` 10)) s) E) as (c & d & -> & Hc & Hall & Hlt).
    exists c, (d +:+ String (pretty_N_char (n `mod` 10)) ""). split_and!.
    + by rewrite str_app_assoc.
    + done.
    + change (str_all is_digit ((String c d) +:+ String (pretty_N_char (n `mod` 10)) "") = true).
      generalize (String c d) Hall. intros x. induction x as [|y x IHx]; simpl.
      * by rewrite Hd.
      * intros [-> Hx]%andb_true_iff. by rewrite IHx.
    + change (String c (d +:+ String (pretty_N_char (n `mod` 10)) ""))
        with (String c d +:+ String (pretty_N_char (n `mod` 10)) "").
      rewrite len_app, Z.pow_add_r by apply len_nonneg.
      change (10 ^ len (String (pretty_N_char (n `mod` 10)) "")) with 10.
      pose proof (N.div_mod n 10 ltac:(lia)). pose proof (N.mod_lt n 10 ltac:(lia)). lia.
Qed.

Lemma pretty_N_shape (n : N) :
  (n = 0%N ∧ pretty n = "0") ∨
  ∃ c d, pretty n = String c d ∧ c ≠ "0"%char ∧
         str_all is_digit (String c d) = true ∧ Z.of_N n < 10 ^ len (String c d).
Proof.
  unfold pretty, pretty_N. case_decide as Hn; [by left|right].
  destruct (pretty_N_go_shape n "" Hn) as (c & d & E & Hs).
  exists c, d. by rewrite E, str_app_nil_r.
Qed.

Lemma pretty_N_digits (n : N) : str_all is_digit (pretty n) = true.
Proof. by destruct (pretty_N_shape n) as [[-> _]|(c & d & -> & _ & Hall & _)]. Qed.

Lemma digits_value_pretty (n : N) : digits_value (pretty n) = Z.of_N n.
Proof.
  unfold digits_value. rewrite parse_digits_pretty, decide_True; [done|].
  destruct (pretty_N_shape n) as [[-> ->]|(c & d & -> & _ & _ & Hlt)]; [done|exact (Z.lt_le_incl _ _ Hlt)].
Qed.

(** A whole number up to 2^53 is the double of its literal. *)
Lemma ParseFloat_pretty (n : N) :
  Z.of_N n < 2 ^ 53 → ParseFloat (pretty n) = Some (float_of_Z (Z.of_N n)).
Proof.
  intros Hn. unfold ParseFloat.
  assert (take_byte "-" (pretty n) = None) as ->.
  { pose proof (pretty_N_digits n) as Hd. destruct (pretty n) as [|c s]; [done|].
    apply take_byte_ne. by intros <-. }
  cbn [default]. rewrite take_digits_end by apply pretty_N_digits.
  cbn [take_byte default take_exp fst]. change (len "") with 0. rewrite str_app_nil_r, digits_value_pretty. change (0 - 0) with 0.
  apply parse_decimal_Z. lia.
Qed.

(** The text of a value, wherever it stands in an object or an array. *)
Definition reads_as (t : string) (v : json) : Prop :=
  (∀ rest, skip_ws (t +:+ rest) = t +:+ rest) ∧
  ∃ fuel0, ∀ fuel depth c rest,
    (fuel0 ≤ fuel)%nat → depth < maxNestingDepth → is_digit c = false →
    c ≠ "."%char → c ≠ "e"%char → c ≠ "E"%char →
    parse_value fuel depth (t +:+ String c rest) = Some (v, String c rest).

Lemma reads_as_string s : plain s → reads_as (print_string s) (JStr s).
Proof.
  intros Hs. split; [intros rest; by rewrite print_string_app, skip_ws_solid|].
  exists 1%nat. intros. by apply parse_value_string; [lia|].
Qed.

Lemma reads_as_strings l : Forall plain l → reads_as (print_strings l) (JArr (map JStr l)).
Proof.
  intros Hl. split; [done|]. exists (S (S (length l))). intros. by apply parse_value_strings; [|lia|].
Qed.

Lemma reads_as_true : reads_as "true" (JBool true).
Proof. split; [done|]. exists 1%nat. intros [|fuel] depth c rest; [lia|done]. Qed.

Lemma reads_as_false : reads_as "false" (JBool false).
Proof. split; [done|]. exists 1%nat. intros [|fuel] depth c rest; [lia|done]. Qed.

Lemma scan_number_pretty (n : N) c rest :
  is_digit c = false → c ≠ "."%char → c ≠ "e"%char → c ≠ "E"%char →
  scan_number (pretty n +:+ String c rest) = Some (pretty n, String c rest).
Proof.
  intros Hd Hdot He HE. unfold scan_number.
  assert (scan_int (pretty n +:+ String c rest) = Some (String c rest)) as ->.
  { unfold scan_int. destruct (pretty_N_shape n) as [[_ ->]|(x & d & -> & Hx & Hall & _)]; [done|].
    change (String x d +:+ String c rest) with (String x (d +:+ String c rest)).
    rewrite (take_byte_ne "-") by (by intros <-). cbn [default].
    rewrite take_byte_ne by done. unfold digits1.
    change (String x (d +:+ String c rest)) with (String x d +:+ String c rest).
    by rewrite take_digits_all. }
  cbn [mbind option_bind]. unfold scan_frac, scan_exp, take_exp.
  rewrite take_byte_ne by done. cbn [mbind option_bind]. rewrite !take_byte_ne by done.
  cbn [mbind option_bind]. by rewrite consumed_app.
Qed.

Lemma reads_as_N (n : N) : reads_as (pretty n) (JNum (pretty n)).
Proof.
  assert (∃ c d, pretty n = String c d ∧ is_digit c = true) as (c & d & E & Hc).
  { destruct (pretty_N_shape n) as [[_ ->]|(c & d & -> & _ & Hall & _)]; [by eexists _, _|].
    exists c, d. split; [done|]. by apply andb_true_iff in Hall as [? _]. }
  assert (in_range 48 57 (byte_val c) = true) as Hr.
  { unfold is_digit, digit_val, in_range in *. destruct (_ && _) eqn:Hb; [|done]. lia. }
  unfold in_range in Hr. split.
  - intros rest. rewrite E. apply skip_ws_solid. lia.
  - exists 1%nat. intros [|fuel] depth x rest Hf Hd Hx H1 H2 H3; [lia|].
    pose proof (scan_number_pretty n x rest Hx H1 H2 H3) as Hs. rewrite E in Hs |- *.
    change (String c d +:+ String x rest) with (String c (d +:+ String x rest)) in *.
    cbn [parse_value]. rewrite !(proj2 (Z.eqb_neq _ _)) by lia. by rewrite Hs.
Qed.

(** An object of members given by key and text. *)
Fixpoint print_members (ms : list (string * string)) : string :=
  match ms with
  | [] => ""
  | [(k, t)] => print_string k +:+ String ":" t
  | (k, t) :: ms' => print_string k +:+ String ":" (t +:+ String "," (print_members ms'))
  end.
Definition print_object (ms : list (string * string)) : string :=
  String "{" (print_members ms +:+ String "}" "").

Definition member_text (m : string * (string * json)) : string * string := (m.1, m.2.1).

(** One member: its key, then a value the parser reads. *)
Lemma parse_members_print fuel depth k t v c rest :
  plain k → reads_as t v →
  parse_value fuel depth (t +:+ String c rest) = Some (v, String c rest) →
  parse_members (S fuel) depth (print_string k +:+ String ":" (t +:+ String c rest)) =
    let m := (k, (t, v)) in
    let r1 := skip_ws (String c rest) in
    match take_byte "}" r1 with
    | Some r' => Some ([m], r')
    | None =>
      r' ← take_byte "," r1;
      '(ms, r'') ← parse_members fuel depth (skip_ws r');
      Some (m :: ms, r'')
    end.
Proof.
  intros Hk [Hws _] Hv. rewrite print_string_app. cbn [parse_members].
  change DQ with (byte 34). rewrite take_byte_eq. cbn [mbind option_bind].
  change (byte 34) with DQ. rewrite parse_string_plain by done. cbn [mbind option_bind].
  rewrite skip_ws_solid, take_byte_eq by done. cbn [mbind option_bind].
  rewrite Hws, Hv. cbn [mbind option_bind]. by rewrite consumed_app.
Qed.

Definition good_member (m : string * (string * json)) : Prop :=
  plain m.1 ∧ reads_as m.2.1 m.2.2.

Lemma print_members_solid m ms rest :
  skip_ws (print_members (map member_text (m :: ms)) +:+ rest)
  = print_members (map member_text (m :: ms)) +:+ rest ∧
  take_byte "}" (print_members (map member_text (m :: ms)) +:+ rest) = None.
Proof.
  destruct m as [k [t v]]. destruct ms as [|m' ms]; cbn [map member_text fst snd print_members];
    rewrite str_app_assoc, print_string_app; by rewrite skip_ws_solid.
Qed.

Lemma parse_members_object ms :
  ms ≠ [] → Forall good_member ms →
  ∃ fuel0, ∀ fuel depth rest, (fuel0 ≤ fuel)%nat → depth < maxNestingDepth →
    parse_members fuel depth (print_members (map member_text ms) +:+ String "}" rest)
    = Some (ms, rest).
Proof.
  intros Hne Hms. induction Hms as [|[k [t v]] ms [Hk Hr] Hms IH]; [done|].
  cbn [fst snd] in Hk, Hr. pose proof Hr as [_ [f1 Hv]].
  destruct ms as [|m ms].
  - exists (S f1). intros [|fuel] depth rest Hf Hd; [lia|]. cbn [map member_text fst snd print_members].
    rewrite str_app_assoc. cbn [String.append].
    rewrite (parse_members_print fuel depth k t v) by (done || apply Hv; done || lia).
    cbv zeta. by rewrite skip_ws_solid, take_byte_eq.
  - destruct IH as [f2 Hms2]; [done|]. exists (S (f1 + f2)).
    intros [|fuel] depth rest Hf Hd; [lia|].
    change (print_members (map member_text ((k, (t, v)) :: m :: ms)))
      with (print_string k +:+ String ":" (t +:+ String "," (print_members (map member_text (m :: ms))))).
    rewrite str_app_assoc. cbn [String.append]. rewrite str_app_assoc. cbn [String.append].
    rewrite (parse_members_print fuel depth k t v) by (done || apply Hv; done || lia).
    cbv zeta. rewrite skip_ws_solid, take_byte_ne, take_byte_eq by done. cbn [mbind option_bind].
    rewrite (proj1 (print_members_solid _ _ _)). by rewrite Hms2 by lia.
Qed.

(** A printed object is read back member by member. *)
Lemma parse_json_object ms :
  Forall good_member ms → parse_json (print_object (map member_text ms)) = Ok (JObj ms).
Proof.
  intros Hms. apply parse_json_print; [done|].
  destruct (decide (ms = [])) as [->|Hne].
  { exists 1%nat. intros [|fuel]; [lia|done]. }
  destruct (parse_members_object ms Hne Hms) as [f Hf]. exists (S f).
  intros [|fuel] Hfuel; [lia|]. unfold print_object. cbn [parse_value].
  change (byte_val "{" =? 123) with true. change (maxNestingDepth <=? 0) with false. cbn iota.
  destruct ms as [|m ms]; [done|]. destruct (print_members_solid m ms "}") as [-> ->].
  change (0 + 1) with 1. by rewrite Hf by (lia || done).
Qed.
