(* ===== verification/GoUrl.v ===== *)
(** * GoUrl: net/url forms and encoding/base64

    [url.Values.Encode] and [url.ParseQuery] with the escaping of query
    components, and [base64.StdEncoding], for the requests and responses the
    HTTP side exchanges; each writer is shown to be inverted by its reader. *)
From S2P Require Import Prelude Errors GoText GoFloat GoJson.

(** ** Query escaping *)

Definition upperhex (i : Z) : ascii := byte (if i <? 10 then 48 + i else 55 + i).

(** [!shouldEscape(c, encodeQueryComponent)] *)
Definition unreserved (c : ascii) : bool :=
  let v := byte_val c in
  in_range 97 122 v || in_range 65 90 v || in_range 48 57 v ||
  (v =? 45) || (v =? 95) || (v =? 46) || (v =? 126).

Fixpoint QueryEscape (s : string) : string :=
  match s with
  | EmptyString => EmptyString
  | String c s' =>
    if unreserved c then String c (QueryEscape s')
    else if byte_val c =? 32 then String "+" (QueryEscape s')
    else String "%" (String (upperhex (Z.shiftr (byte_val c) 4))
                       (String (upperhex (Z.land (byte_val c) 15)) (QueryEscape s')))
  end.

Definition EscapeError : error := External "invalid URL escape".

Fixpoint QueryUnescape (s : string) : result string :=
  match s with
  | EmptyString => Ok EmptyString
  | String c s' =>
    if bool_decide (c = "%"%char) then
      match s' with
      | String h (String l s'') =>
        match hex_val h, hex_val l with
        | Some h, Some l => t ← QueryUnescape s''; Ok (String (byte (Z.lor (Z.shiftl h 4) l)) t)
        | _, _ => Err EscapeError
        end
      | _ => Err EscapeError
      end
    else t ← QueryUnescape s'; Ok (String (if bool_decide (c = "+"%char) then " "%char else c) t)
  end.

(** ** Values *)

(** A [url.Values] literal; its keys are distinct. *)
Abbreviation Values := (list (string * list string)).

Fixpoint str_ltb (s t : string) : bool :=
  match s, t with
  | _, EmptyString => false
  | EmptyString, String _ _ => true
  | String c s', String d t' =>
    (byte_val c <? byte_val d) || ((byte_val c =? byte_val d) && str_ltb s' t')
  end.

Fixpoint insert_key (p : string * list string) (l : Values) : Values :=
  match l with
  | [] => [p]
  | q :: l' => if str_ltb q.1 p.1 then q :: insert_key p l' else p :: l
  end.
Definition sort_keys (v : Values) : Values := foldr insert_key [] v.

(** The pairs of a form in the order they are written. *)
Definition form_pairs (v : Values) : list (string * string) :=
  '(k, vs) ← sort_keys v; x ← vs; [(k, x)].

Definition form_item (p : string * string) : string :=
  QueryEscape p.1 +:+ String "=" (QueryEscape p.2).

Definition Values_Encode (v : Values) : string := Join "&" (map form_item (form_pairs v)).

Definition SemicolonError : error := External "invalid semicolon separator in query".

(** The pairs of a query in order; [Err] is the first error of a malformed one. *)
Fixpoint parse_items (items : list string) : result (list (string * string)) :=
  match items with
  | [] => Ok []
  | item :: items' =>
    if has_byte ";" item then Err SemicolonError
    else if bool_decide (item = "") then parse_items items'
    else
      let '(k, v, _) := Cut "=" item in
      k ← QueryUnescape k; v ← QueryUnescape v; l ← parse_items items'; Ok ((k, v) :: l)
  end.
Definition ParseQuery (query : string) : result (list (string * string)) :=
  parse_items (Split "&" query).

(** [v.Get(key)] and [v[key]] *)
Definition get_all (key : string) (l : list (string * string)) : list string :=
  map snd (filter (λ p, p.1 = key) l).
Definition get_first (key : string) (l : list (string * string)) : string :=
  default "" (head (get_all key l)).

(** ** base64.StdEncoding *)

Definition b64_char (i : Z) : ascii :=
  byte (if i <? 26 then 65 + i else if i <? 52 then 71 + i else if i <? 62 then i - 4
        else if i =? 62 then 43 else 47).

Definition b64_val (c : ascii) : option Z :=
  let v := byte_val c in
  if in_range 65 90 v then Some (v - 65)
  else if in_range 97 122 v then Some (v - 71)
  else if in_range 48 57 v then Some (v + 4)
  else if v =? 43 then Some 62
  else if v =? 47 then Some 63
  else None.

Fixpoint EncodeToString (s : bytes) : string :=
  match s with
  | String a (String b (String c s')) =>
    let v := Z.lor (Z.shiftl (byte_val a) 16) (Z.lor (Z.shiftl (byte_val b) 8) (byte_val c)) in
    String (b64_char (Z.land (Z.shiftr v 18) 0x3F))
      (String (b64_char (Z.land (Z.shiftr v 12) 0x3F))
        (String (b64_char (Z.land (Z.shiftr v 6) 0x3F))
          (String (b64_char (Z.land v 0x3F)) (EncodeToString s'))))
  | String a (String b EmptyString) =>
    let v := Z.lor (Z.shiftl (byte_val a) 16) (Z.shiftl (byte_val b) 8) in
    String (b64_char (Z.land (Z.shiftr v 18) 0x3F))
      (String (b64_char (Z.land (Z.shiftr v 12) 0x3F))
        (String (b64_char (Z.land (Z.shiftr v 6) 0x3F)) "="))
  | String a EmptyString =>
    let v := Z.shiftl (byte_val a) 16 in
    String (b64_char (Z.land (Z.shiftr v 18) 0x3F))
      (String (b64_char (Z.land (Z.shiftr v 12) 0x3F)) "==")
  | EmptyString => EmptyString
  end.

Definition CorruptInput : error := External "illegal base64 data".

(** The quanta of the input with its line breaks removed; the trailing bits of
    a padded quantum are not checked (the decoder is not [Strict]). *)
Fixpoint decode_quanta (s : string) : result bytes :=
  match s with
  | EmptyString => Ok EmptyString
  | String a (String b (String c (String d s'))) =>
    match b64_val a, b64_val b with
    | Some a, Some b =>
      if bool_decide (c = "="%char) then
        if bool_decide (d = "="%char ∧ s' = "")
        then Ok (String (byte (Z.lor (Z.shiftl a 2) (Z.shiftr b 4))) "") else Err CorruptInput
      else match b64_val c with
           | None => Err CorruptInput
           | Some c =>
             let x := byte (Z.lor (Z.shiftl a 2) (Z.shiftr b 4)) in
             let y := byte (Z.lor (Z.shiftl b 4) (Z.shiftr c 2)) in
             if bool_decide (d = "="%char) then
               if bool_decide (s' = "") then Ok (String x (String y "")) else Err CorruptInput
             else match b64_val d with
                  | None => Err CorruptInput
                  | Some d =>
                    t ← decode_quanta s';
                    Ok (String x (String y (String (byte (Z.lor (Z.shiftl c 6) d)) t)))
                  end
           end
    | _, _ => Err CorruptInput
    end
  | _ => Err CorruptInput
  end.

Fixpoint strip_breaks (s : string) : string :=
  match s with
  | EmptyString => EmptyString
  | String c s' =>
    if (byte_val c =? 10) || (byte_val c =? 13) then strip_breaks s' else String c (strip_breaks s')
  end.
Definition DecodeString (s : string) : result bytes := decode_quanta (strip_breaks s).

(** ** Lemmas *)

Lemma lor_shiftl x y k : 0 ≤ k → 0 ≤ y < 2 ^ k → Z.lor (Z.shiftl x k) y = x * 2 ^ k + y.
Proof.
  intros Hk Hy. assert (Z.land (Z.shiftl x k) y = 0) as E.
  { apply Z.bits_inj'. intros n Hn. rewrite Z.land_spec, Z.bits_0.
    destruct (Z.lt_ge_cases n k).
    - by rewrite Z.shiftl_spec_low.
    - rewrite <- (Z.mod_small y (2 ^ k)), Z.mod_pow2_bits_high by lia. by rewrite andb_false_r. }
  rewrite <- Z.lxor_lor, <- Z.add_nocarry_lxor by done. by rewrite Z.shiftl_mul_pow2.
Qed.

(** *** Escaping *)

Lemma QueryUnescape_char c s :
  QueryUnescape (QueryEscape (String c s)) =
    (t ← QueryUnescape (QueryEscape s); Ok (String c t)).
Proof. cbn [QueryEscape]. destruct c as [[] [] [] [] [] [] [] []]; reflexivity. Qed.

Lemma QueryUnescape_Escape s : QueryUnescape (QueryEscape s) = Ok s.
Proof. induction s as [|c s IH]; [done|]. by rewrite QueryUnescape_char, IH. Qed.

(** The bytes an escaped component is made of. *)
Definition query_byte (c : ascii) : bool :=
  unreserved c || bool_decide (c = "+"%char) || bool_decide (c = "%"%char).

Lemma QueryEscape_has_byte c s :
  query_byte c = false → has_byte c (QueryEscape s) = false.
Proof.
  intros Hc. induction s as [|d s IH]; [done|].
  assert (∀ e t, query_byte e = true → has_byte c t = false → has_byte c (String e t) = false) as Hcons.
  { intros e t He Ht. cbn [has_byte]. rewrite Ht, orb_false_r. apply bool_decide_false. congruence. }
  cbn [QueryEscape]. destruct (unreserved d) eqn:Hd; [|destruct (byte_val d =? 32)].
  - apply Hcons; [|done]. unfold query_byte. by rewrite Hd.
  - by apply Hcons.
  - repeat apply Hcons; try done; clear; destruct d as [[] [] [] [] [] [] [] []]; reflexivity.
Qed.

Lemma form_item_nonempty p : form_item p ≠ "".
Proof. unfold form_item. intros [_ ?]%str_app_eq_nil. done. Qed.

Lemma form_item_has_byte c p :
  query_byte c = false → c ≠ "="%char → has_byte c (form_item p) = false.
Proof.
  intros Hc Hne. unfold form_item. rewrite has_byte_app. cbn [has_byte].
  rewrite !QueryEscape_has_byte, bool_decide_false by done. done.
Qed.

Lemma parse_items_form l : parse_items (map form_item l) = Ok l.
Proof.
  induction l as [|[k v] l IH]; [done|]. cbn [map parse_items].
  rewrite form_item_has_byte by done.
  rewrite bool_decide_false by apply form_item_nonempty.
  unfold form_item at 1. cbn [fst snd].
  rewrite Cut_app by by apply QueryEscape_has_byte.
  rewrite !QueryUnescape_Escape. cbn [mbind result_bind]. by rewrite IH.
Qed.

(** A form is read back as the pairs that were written, in their order. *)
Lemma ParseQuery_Encode v : ParseQuery (Values_Encode v) = Ok (form_pairs v).
Proof.
  unfold ParseQuery, Values_Encode. destruct (form_pairs v) as [|p l]; [done|].
  rewrite Split_Join; [apply parse_items_form|done|].
  apply Forall_map, Forall_forall. intros q _. by apply form_item_has_byte.
Qed.

(** *** Base 64 *)

Lemma b64_val_char i : 0 ≤ i < 64 → b64_val (b64_char i) = Some i.
Proof.
  intros Hi. assert (Forall (λ n, b64_val (b64_char (Z.of_nat n)) = Some (Z.of_nat n)) (seq 0 64)) as H.
  { repeat constructor. }
  rewrite Forall_forall in H. specialize (H (Z.to_nat i)).
  rewrite Z2Nat.id in H by lia. apply H. apply elem_of_seq. lia.
Qed.

Lemma b64_char_ne i c : 0 ≤ i < 64 → b64_val c = None → b64_char i ≠ c.
Proof. intros Hi Hc <-. by rewrite b64_val_char in Hc. Qed.

Lemma land_63 z : Z.land z 0x3F = z mod 64.
Proof. change 0x3F with (Z.ones 6). by rewrite Z.land_ones. Qed.

(** The four digits of three bytes. *)
Lemma quantum a b c :
  let v := Z.lor (Z.shiftl (byte_val a) 16) (Z.lor (Z.shiftl (byte_val b) 8) (byte_val c)) in
  Z.land (Z.shiftr v 18) 0x3F = byte_val a / 4 ∧
  Z.land (Z.shiftr v 12) 0x3F = byte_val a mod 4 * 16 + byte_val b / 16 ∧
  Z.land (Z.shiftr v 6) 0x3F = byte_val b mod 16 * 4 + byte_val c / 64 ∧
  Z.land v 0x3F = byte_val c mod 64.
Proof.
  pose proof (byte_val_bound a). pose proof (byte_val_bound b). pose proof (byte_val_bound c).
  intros v. assert (v = byte_val a * 65536 + (byte_val b * 256 + byte_val c)) as ->.
  { unfold v. by rewrite !lor_shiftl by (try rewrite lor_shiftl; lia). }
  rewrite !land_63, !Z.shiftr_div_pow2 by lia.
  change (2 ^ 18) with 262144. change (2 ^ 12) with 4096. change (2 ^ 6) with 64.
  split_and!; div_lia.
Qed.

Lemma byte_eq z c : uint8 z = byte_val c → byte z = c.
Proof. intros. apply byte_val_inj. by rewrite byte_val_byte. Qed.

(** Reassembling the three bytes. *)
Lemma quantum_bytes a b c :
  byte (Z.lor (Z.shiftl (byte_val a / 4) 2)
          (Z.shiftr (byte_val a mod 4 * 16 + byte_val b / 16) 4)) = a ∧
  byte (Z.lor (Z.shiftl (byte_val a mod 4 * 16 + byte_val b / 16) 4)
          (Z.shiftr (byte_val b mod 16 * 4 + byte_val c / 64) 2)) = b ∧
  byte (Z.lor (Z.shiftl (byte_val b mod 16 * 4 + byte_val c / 64) 6) (byte_val c mod 64)) = c.
Proof.
  pose proof (byte_val_bound a). pose proof (byte_val_bound b). pose proof (byte_val_bound c).
  rewrite !Z.shiftr_div_pow2, !lor_shiftl by (try rewrite Z.shiftr_div_pow2; div_lia).
  unfold wrapu in *. split_and!; apply byte_eq; unfold wrapu;
    change (2 ^ 8) with 256; change (2 ^ 2) with 4; change (2 ^ 4) with 16;
    change (2 ^ 6) with 64; div_lia.
Qed.

Lemma string_ind3 (P : string → Prop) :
  P "" → (∀ a, P (String a "")) → (∀ a b, P (String a (String b ""))) →
  (∀ a b c s, P s → P (String a (String b (String c s)))) → ∀ s, P s.
Proof.
  intros H0 H1 H2 H3. fix IH 1. intros [|a [|b [|c s]]]; [done|apply H1|apply H2|apply H3, IH].
Qed.

(** The digits of a quantum, by the bytes they come from. *)
Definition quantum4 (a b c : ascii) (rest : string) : string :=
  String (b64_char (byte_val a / 4))
    (String (b64_char (byte_val a mod 4 * 16 + byte_val b / 16))
      (String (b64_char (byte_val b mod 16 * 4 + byte_val c / 64))
        (String (b64_char (byte_val c mod 64)) rest))).

Lemma Encode_3 a b c s :
  EncodeToString (String a (String b (String c s))) = quantum4 a b c (EncodeToString s).
Proof. destruct (quantum a b c) as (E1 & E2 & E3 & E4). cbn [EncodeToString]. by rewrite E1, E2, E3, E4. Qed.

Lemma Encode_2 a b :
  EncodeToString (String a (String b "")) =
    String (b64_char (byte_val a / 4))
      (String (b64_char (byte_val a mod 4 * 16 + byte_val b / 16))
        (String (b64_char (byte_val b mod 16 * 4)) "=")).
Proof.
  destruct (quantum a b Ascii.zero) as (E1 & E2 & E3 & _). cbn [EncodeToString].
  change (byte_val Ascii.zero) with 0 in *. rewrite Z.lor_0_r in *.
  rewrite E1, E2, E3. change (0 / 64) with 0. by rewrite Z.add_0_r.
Qed.

Lemma Encode_1 a :
  EncodeToString (String a "") =
    String (b64_char (byte_val a / 4)) (String (b64_char (byte_val a mod 4 * 16)) "==").
Proof.
  destruct (quantum a Ascii.zero Ascii.zero) as (E1 & E2 & _). cbn [EncodeToString].
  change (byte_val Ascii.zero) with 0 in *. cbn [Z.shiftl Z.lor] in *. rewrite Z.lor_0_r in *.
  rewrite E1, E2. change (0 / 16) with 0. by rewrite Z.add_0_r.
Qed.

Lemma quantum_ranges a b c :
  0 ≤ byte_val a / 4 < 64 ∧ 0 ≤ byte_val a mod 4 * 16 + byte_val b / 16 < 64 ∧
  0 ≤ byte_val b mod 16 * 4 + byte_val c / 64 < 64 ∧ 0 ≤ byte_val c mod 64 < 64.
Proof.
  pose proof (byte_val_bound a). pose proof (byte_val_bound b). pose proof (byte_val_bound c).
  split_and!; div_lia.
Qed.

Lemma strip_breaks_b64 i s : 0 ≤ i < 64 → strip_breaks (String (b64_char i) s) = String (b64_char i) (strip_breaks s).
Proof.
  intros Hi. cbn [strip_breaks].
  assert (∀ z c, b64_val c = None → byte_val c = z → (byte_val (b64_char i) =? z) = false) as Hne.
  { intros z c Hc <-. apply Z.eqb_neq. intros E%byte_val_inj. by apply (b64_char_ne i c). }
  by rewrite (Hne 10 (byte 10)), (Hne 13 (byte 13)).
Qed.

Lemma strip_breaks_Encode s : strip_breaks (EncodeToString s) = EncodeToString s.
Proof.
  induction s as [|a|a b|a b c s IH] using string_ind3; [done|..].
  - destruct (quantum_ranges a Ascii.zero Ascii.zero) as (H1 & H2 & _).
    change (byte_val Ascii.zero) with 0 in H2. change (0 / 16) with 0 in H2. rewrite Z.add_0_r in H2.
    by rewrite Encode_1, !strip_breaks_b64.
  - destruct (quantum_ranges a b Ascii.zero) as (H1 & H2 & H3 & _).
    change (byte_val Ascii.zero) with 0 in H3. change (0 / 64) with 0 in H3. rewrite Z.add_0_r in H3.
    by rewrite Encode_2, !strip_breaks_b64.
  - destruct (quantum_ranges a b c) as (H1 & H2 & H3 & H4).
    rewrite Encode_3. unfold quantum4. rewrite !strip_breaks_b64 by done. by rewrite IH.
Qed.

Lemma b64_char_pad i : 0 ≤ i < 64 → bool_decide (b64_char i = "="%char) = false.
Proof. intros. apply bool_decide_false. by apply b64_char_ne. Qed.

(** What [EncodeToString] writes, [DecodeString] reads. *)
Lemma Decode_Encode s : DecodeString (EncodeToString s) = Ok s.
Proof.
  unfold DecodeString. rewrite strip_breaks_Encode.
  induction s as [|a|a b|a b c s IH] using string_ind3; [done|..].
  - destruct (quantum_ranges a Ascii.zero Ascii.zero) as (H1 & H2 & _).
    destruct (quantum_bytes a Ascii.zero Ascii.zero) as (E1 & _).
    change (byte_val Ascii.zero) with 0 in *. change (0 / 16) with 0 in *. rewrite Z.add_0_r in *.
    rewrite Encode_1. cbn [decode_quanta]. rewrite !b64_val_char by done.
    rewrite !bool_decide_true by done. by rewrite E1.
  - destruct (quantum_ranges a b Ascii.zero) as (H1 & H2 & H3 & _).
    destruct (quantum_bytes a b Ascii.zero) as (E1 & E2 & _).
    change (byte_val Ascii.zero) with 0 in *. change (0 / 64) with 0 in *. rewrite (Z.add_0_r (_ * 4)) in *.
    rewrite Encode_2. cbn [decode_quanta]. rewrite !b64_val_char, b64_char_pad by done.
    rewrite !bool_decide_true by done. by rewrite E1, E2.
  - destruct (quantum_ranges a b c) as (H1 & H2 & H3 & H4).
    destruct (quantum_bytes a b c) as (E1 & E2 & E3).
    rewrite Encode_3. unfold quantum4. cbn [decode_quanta].
    rewrite !b64_val_char, !b64_char_pad by done. rewrite IH. cbn [mbind result_bind].
    by rewrite E1, E2, E3.
Qed.

#[export] Hint Rewrite QueryUnescape_Escape ParseQuery_Encode Decode_Encode : go.
