(* ===== verification/GoHttp.v ===== *)
(** * GoHttp: requests and responses of net/http

    The messages as data; the transport - resolving, connecting, sending - is
    the environment, a parameter of every definition that calls it.  Of the
    request multiplexer, the patterns it takes. *)
From S2P Require Import Prelude Errors GoText.

Definition MethodPost : string := "POST".
Definition StatusOK : Z := 200.

Record HttpRequest := {
  req_Method : string;
  req_URL : string;
  req_Header : list (string * string);
  req_BasicAuth : option (string * string);
  req_Body : bytes;
}.

(** Reading the body to its end may fail after the header has arrived. *)
Record HttpResponse := {
  StatusCode : Z;
  resp_Body : result bytes;
}.

Class Http (W : Type) := {
  HTTPClient : Type;
  DefaultClient : HTTPClient;
  (** [http.NewRequestWithContext]: the error of a method or URL it cannot parse *)
  NewRequest_check : string → string → result unit;
  Do : HTTPClient → HttpRequest → eff W HttpResponse;
}.

Definition NewRequest `{Http W} (method url : string) (body : bytes) : result HttpRequest :=
  _ ← NewRequest_check method url;
  Ok {| req_Method := method; req_URL := url; req_Header := []; req_BasicAuth := None;
        req_Body := body |}.

Definition Header_Set (key value : string) (r : HttpRequest) : HttpRequest :=
  {| req_Method := req_Method r; req_URL := req_URL r;
     req_Header := (key, value) :: filter (λ p, p.1 ≠ key) (req_Header r);
     req_BasicAuth := req_BasicAuth r; req_Body := req_Body r |}.

Definition SetBasicAuth (user password : string) (r : HttpRequest) : HttpRequest :=
  {| req_Method := req_Method r; req_URL := req_URL r; req_Header := req_Header r;
     req_BasicAuth := Some (user, password); req_Body := req_Body r |}.

Definition form_request (url : string) (body : bytes) : HttpRequest :=
  {| req_Method := MethodPost; req_URL := url;
     req_Header := [("Content-Type", "application/x-www-form-urlencoded")];
     req_BasicAuth := None; req_Body := body |}.

(** ** The patterns of [http.ServeMux]

    [mux.Handle] parses "[METHOD ][HOST]/[PATH]", where a segment of the path
    may be a wildcard, and panics when it cannot; with one pattern registered
    there is nothing to conflict with.  The letters and digits of a wildcard's
    name are Unicode's. *)
Class Unicode := {
  IsLetter : Z → bool;
  IsDigit : Z → bool;
}.

(** [path.Clean] of a rooted path, on its segments, innermost first. *)
Definition clean_step (acc : list string) (seg : string) : list string :=
  if bool_decide (seg = "" ∨ seg = ".") then acc
  else if bool_decide (seg = "..") then tail acc
  else seg :: acc.

Definition Clean (p : string) : string :=
  "/" +:+ Join "/" (rev (foldl clean_step [] (Split "/" p))).

Definition last_byte (s : string) : option ascii := String.get (String.length s - 1) s.

(** net/http's [cleanPath], of a path that begins with a slash. *)
Definition cleanPath (p : string) : string :=
  let np := Clean p in
  if bool_decide (last_byte p = Some "/"%char ∧ np ≠ "/") then np +:+ "/" else np.

Definition is_token_rune (r : Z) : bool :=
  in_range 48 57 r || in_range 65 90 r || in_range 97 122 r ||
  bool_decide (r ∈ map byte_val (String.list_ascii_of_string "!#$%&'*+-.^_`|~")).

Definition validMethod (method : string) : bool :=
  negb (bool_decide (method = "")) && forallb is_token_rune (runes method).

(** A path without the syntax of methods and wildcards. *)
Definition plain_path (p : string) : Prop :=
  has_byte " " p = false ∧ has_byte (byte 9) p = false ∧ has_byte "{" p = false.

Section mux.
Context `{!Unicode}.

Definition isValidWildcardName (s : string) : bool :=
  match runes s with
  | [] => false
  | r :: rs =>
    (IsLetter r || (r =? 95)) && forallb (λ r, IsLetter r || (r =? 95) || IsDigit r) rs
  end.

(** A segment "{name}", "{name...}" or "{$}"; [last] when no segment follows. *)
Definition wildcard (seg : string) (last : bool) (seen : list string) : result (list string) :=
  match seg with
  | String "{" _ =>
    if bool_decide (last_byte seg = Some "}"%char) then
      let name := String.substring 1 (String.length seg - 2) seg in
      if bool_decide (name = "$") then
        if last then Ok seen else Err (New "{$} not at end")
      else
        let n := (String.length name - 3)%nat in
        let multi := bool_decide (3 ≤ len name ∧ str_drop n name = "...") in
        let name := if multi then str_take n name else name in
        if multi && negb last then Err (New "{...} wildcard not at end")
        else if bool_decide (name = "") then Err (New "empty wildcard")
        else if negb (isValidWildcardName name) then Err (Errorf [Lit "bad wildcard name "; Fq name])
        else if bool_decide (name ∈ seen) then Err (Errorf [Lit "duplicate wildcard name "; Fq name])
        else Ok (name :: seen)
    else Err (New "bad wildcard segment (must end with '}')")
  | _ => Err (New "bad wildcard segment (must start with '{')")
  end.

Fixpoint check_segments (segs : list string) (seen : list string) : result unit :=
  match segs with
  | [] => Ok tt
  | seg :: segs' =>
    if has_byte "{" seg then
      seen ← wildcard seg (match segs' with [] => true | _ => false end) seen;
      check_segments segs' seen
    else check_segments segs' seen
  end.

Definition is_blank (c : ascii) : bool := bool_decide (c = " "%char ∨ c = byte 9).

(** The method, if the pattern has one, and the rest. *)
Fixpoint cut_blank (s : string) : option (string * string) :=
  match s with
  | EmptyString => None
  | String c s' =>
    if is_blank c then Some ("", s') else
    match cut_blank s' with Some (b, a) => Some (String c b, a) | None => None end
  end.

Fixpoint trim_blank (s : string) : string :=
  match s with
  | String c s' => if is_blank c then trim_blank s' else s
  | EmptyString => ""
  end.

(** [parsePattern], for the patterns it refuses. *)
Definition parsePattern (s : string) : result unit :=
  let '(method, rest) :=
    match cut_blank s with Some (m, r) => (m, trim_blank r) | None => ("", s) end in
  if negb (bool_decide (method = "")) && negb (validMethod method)
  then Err (Errorf [Lit "invalid method "; Fq method])
  else
    match Cut "/" rest with
    | (_, _, false) => Err (New "host/path missing /")
    | (host, tail, true) =>
      let path := String "/" tail in
      if has_byte "{" host then Err (New "host contains '{' (missing initial '/'?)")
      else if bool_decide (method ≠ "" ∧ method ≠ "CONNECT" ∧ path ≠ cleanPath path)
      then Err (New "non-CONNECT pattern with unclean path can never match")
      else check_segments (Split "/" tail) []
    end.

(** The panic of [mux.Handle pattern handler], the offset in its text left out. *)
Definition mux_Handle (pattern : string) : result unit :=
  if bool_decide (pattern = "") then Err (New "http: invalid pattern")
  else map_err (λ e, Errorf [Lit "parsing "; Fq pattern; Lit ": "; Fw e]) (parsePattern pattern).

(** *** A plain path is a pattern; anything without a slash is none. *)

Lemma check_segments_literal segs :
  Forall (λ seg, has_byte "{" seg = false) segs → check_segments segs [] = Ok tt.
Proof. by induction 1 as [|seg segs Hseg _ IH]; [|cbn; rewrite Hseg]. Qed.

Lemma Split_has_byte c d s :
  has_byte c s = false → Forall (λ p, has_byte c p = false) (Split d s).
Proof.
  induction s as [|x s IH]; [by repeat constructor|]. intros [Hx Hs]%orb_false_iff.
  specialize (IH Hs). cbn [Split]. destruct (bool_decide (x = d)); [by constructor|].
  destruct (Split d s) as [|p ps] eqn:E; [by apply Split_cons_ne in E|].
  inversion_clear IH as [|?? Hp Hps]. constructor; [|done]. cbn [has_byte]. by rewrite Hx, Hp.
Qed.

Lemma cut_blank_none s :
  has_byte " " s = false → has_byte (byte 9) s = false → cut_blank s = None.
Proof.
  induction s as [|c s IH]; [done|]. intros [H1 Hs1]%orb_false_iff [H2 Hs2]%orb_false_iff.
  apply bool_decide_eq_false in H1, H2. cbn [cut_blank]. unfold is_blank.
  rewrite bool_decide_false by naive_solver. by rewrite (IH Hs1 Hs2).
Qed.

Lemma mux_Handle_plain p : plain_path p → mux_Handle p = Ok tt ↔ has_byte "/" p = true.
Proof.
  intros (H1 & H2 & H3). unfold mux_Handle. case_bool_decide as Hp; [by subst|].
  rewrite map_err_Ok. unfold parsePattern. rewrite cut_blank_none by done.
  rewrite bool_decide_true by done. cbn [negb andb].
  destruct (Cut "/" p) as [[host tl] found] eqn:E. destruct found.
  - apply Cut_found in E as [-> Hh]. rewrite has_byte_app in H3 |- *.
    apply orb_false_iff in H3 as [Hh3 [_ Ht3]%orb_false_iff]. rewrite Hh3.
    rewrite bool_decide_false by naive_solver.
    rewrite check_segments_literal by by apply Split_has_byte.
    cbn. by rewrite orb_true_r.
  - apply Cut_not_found in E as (_ & _ & E). by rewrite E.
Qed.
End mux.

(** The ASCII part of Unicode's classes. *)
Definition ascii_unicode : Unicode :=
  {| IsLetter := λ r, in_range 65 90 r || in_range 97 122 r; IsDigit := in_range 48 57 |}.

Example patterns :
  let ok p := match @mux_Handle ascii_unicode p with Ok _ => true | Err _ => false end in
  map ok ["/token"; "token"; ""; "POST /token"; "GET  /a/../b"; "/{realm}/token"; "/{a}/{a}";
          "/x/{$}"; "/{$}/x"; "host.example/{rest...}"; "P,T /"; "/a//b"; "CONNECT /a//b"]
  = [true; false; false; true; false; true; false; true; false; true; false; true; true].
Proof. reflexivity. Qed.
