(* ===== verification/Principal.v ===== *)
(** * Principal: service principal names (principal.go)

    [ServicePrincipal], its printer [String'] and parser
    [ParseServicePrincipal].  The parser's language is characterised exactly:
    it accepts the printed form of a well-formed principal, the same with an
    empty realm after the at-sign, and nothing else. *)
From S2P Require Import Prelude Errors GoText.

(** ** principal.go *)

Definition ErrMalformedSPN : error :=
  Sentinel "ErrMalformedSPN" "kerbexchange: malformed service principal name".

Record ServicePrincipal := {
  Service : string;
  Host : string;
  Realm : string;
}.

#[export] Instance ServicePrincipal_eq_dec : EqDecision ServicePrincipal.
Proof. solve_decision. Defined.

Definition noSPN : ServicePrincipal := {| Service := ""; Host := ""; Realm := "" |}.

Definition Empty (p : ServicePrincipal) : bool :=
  bool_decide (Service p = "") && bool_decide (Host p = "").

Definition SPN_String (p : ServicePrincipal) : string :=
  if bool_decide (Realm p = "")
  then Service p +:+ "/" +:+ Host p
  else Service p +:+ "/" +:+ Host p +:+ "@" +:+ Realm p.

Definition ParseServicePrincipal (s : string) : result ServicePrincipal :=
  let '(body, realm) :=
    let at_ := IndexByte s "@" in
    if 0 <=? at_ then (slice_to s at_, slice_from s (at_ + 1)) else (s, "") in
  let '(service, host, ok) := Cut "/" body in
  if negb ok || bool_decide (service = "") || bool_decide (host = "")
     || has_byte "/" host
  then Err (Errorf [Fw ErrMalformedSPN; Lit ": "; Fq s])
  else Ok {| Service := service; Host := host; Realm := realm |}.

(** ** What the parser accepts *)

(** The components of a parsed principal: non-empty, free of the separators. *)
Definition wf_component (s : string) : Prop :=
  s ≠ "" ∧ has_byte "/" s = false ∧ has_byte "@" s = false.
Definition wf_spn (p : ServicePrincipal) : Prop :=
  wf_component (Service p) ∧ wf_component (Host p).

#[export] Instance wf_component_dec s : Decision (wf_component s).
Proof. unfold wf_component. apply _. Defined.
#[export] Instance wf_spn_dec p : Decision (wf_spn p).
Proof. unfold wf_spn. apply _. Defined.

Definition spn_body (p : ServicePrincipal) : string := Service p +:+ "/" +:+ Host p.

Lemma spn_body_no_at p : wf_spn p → has_byte "@" (spn_body p) = false.
Proof.
  intros [(_ & _ & Hs) (_ & _ & Hh)]. unfold spn_body.
  rewrite has_byte_app, Hs. simpl. by rewrite Hh.
Qed.

Lemma SPN_String_body p :
  SPN_String p = if bool_decide (Realm p = "") then spn_body p
                 else spn_body p +:+ String "@" (Realm p).
Proof.
  unfold SPN_String, spn_body. case_bool_decide; [done|].
  by rewrite !str_app_assoc.
Qed.

(** The parser, with the slicing at the first at-sign written as a cut. *)
Lemma ParseServicePrincipal_cut s :
  ParseServicePrincipal s =
    let '(body, realm, _) := Cut "@" s in
    let '(service, host, ok) := Cut "/" body in
    if negb ok || bool_decide (service = "") || bool_decide (host = "")
       || has_byte "/" host
    then Err (Errorf [Fw ErrMalformedSPN; Lit ": "; Fq s])
    else Ok {| Service := service; Host := host; Realm := realm |}.
Proof.
  unfold ParseServicePrincipal. rewrite (IndexByte_Cut s "@").
  by destruct (0 <=? IndexByte s "@").
Qed.

Lemma parse_body p s realm ok :
  wf_spn p → Cut "@" s = (spn_body p, realm, ok) →
  ParseServicePrincipal s = Ok {| Service := Service p; Host := Host p; Realm := realm |}.
Proof.
  intros [(Hs & Hs' & _) (Hh & Hh' & _)] Hcut.
  rewrite ParseServicePrincipal_cut, Hcut.
  unfold spn_body; simpl.
  rewrite Cut_app by done. by rewrite !bool_decide_false, Hh' by done.
Qed.

Lemma parse_print p : wf_spn p → ParseServicePrincipal (SPN_String p) = Ok p.
Proof.
  intros Hwf. pose proof (spn_body_no_at p Hwf).
  rewrite SPN_String_body. case_bool_decide as Hr.
  - erewrite parse_body by (done || by apply Cut_none). destruct p; simpl in *; congruence.
  - erewrite parse_body by (done || by apply Cut_app). by destruct p.
Qed.

Lemma parse_Ok s p :
  ParseServicePrincipal s = Ok p →
  wf_spn p ∧ (s = SPN_String p ∨ (Realm p = "" ∧ s = SPN_String p +:+ "@")).
Proof.
  rewrite ParseServicePrincipal_cut.
  destruct (Cut "@" s) as [[body realm] okr] eqn:Er.
  destruct (Cut "/" body) as [[service host] okb] eqn:Eb.
  intros H. case_match eqn:Ec; [done|]. simplify_eq.
  rewrite !orb_false_iff, !bool_decide_eq_false, negb_false_iff in Ec.
  destruct Ec as [[[-> Hs] Hh] Hh']. apply Cut_found in Eb as [-> Hs'].
  assert (has_byte "@" (service +:+ String "/" host) = false ∧
          s = if okr then service +:+ String "/" (host +:+ String "@" realm)
              else service +:+ String "/" host) as [Hat ->].
  { destruct okr.
    - apply Cut_found in Er as [-> ?]. split; [done|]. by rewrite str_app_assoc.
    - by apply Cut_not_found in Er as (-> & _ & ?). }
  rewrite has_byte_app in Hat. simpl in Hat.
  apply orb_false_iff in Hat as [Hsat Hhat].
  split; [by repeat split|]. unfold SPN_String; simpl.
  case_bool_decide as Hr; destruct okr.
  - subst realm. right. split; [done|]. by rewrite str_app_assoc.
  - by left.
  - by left.
  - by apply Cut_not_found in Er as (_ & -> & _).
Qed.

Lemma SPN_String_inj p q : wf_spn p → wf_spn q → SPN_String p = SPN_String q → p = q.
Proof.
  intros Hp Hq H. apply parse_print in Hp. apply parse_print in Hq. congruence.
Qed.
#[export] Hint Resolve parse_print : go.

(** ** Properties *)

(** C33. [ParseServicePrincipal] accepts exactly the printed form
    ["service/host"] or ["service/host@REALM"] of a principal whose service and
    host are non-empty and free of ["/"] and ["@"] (the realm may hold both),
    and, beside it, the printed form of a realm-less principal followed by a
    bare ["@"]; the principal it returns is the one printed.  Every other
    string is refused with an error that [errors.Is] recognises as
    [ErrMalformedSPN]. *)
Theorem ParseServicePrincipal_spec s :
  match ParseServicePrincipal s with
  | Ok p => wf_spn p ∧ (s = SPN_String p ∨ (Realm p = "" ∧ s = SPN_String p +:+ "@"))
  | Err e => errors_Is e ErrMalformedSPN = true ∧
             ∀ p, wf_spn p → s ≠ SPN_String p ∧ (Realm p = "" → s ≠ SPN_String p +:+ "@")
  end.
Proof.
  destruct (ParseServicePrincipal s) as [p|e] eqn:E; [by apply parse_Ok|].
  split.
  - rewrite ParseServicePrincipal_cut in E. repeat case_match; by simplify_eq.
  - intros p Hwf. split.
    + intros ->. by rewrite parse_print in E.
    + intros Hr ->. rewrite SPN_String_body, bool_decide_true in E by done.
      change "@" with (String "@" "") in E. erewrite parse_body in E; [done..|].
      apply Cut_app. by apply spn_body_no_at.
Qed.

(** Printing and parsing are inverse on well-formed principals, and the
    printed form therefore identifies the principal: two well-formed principals
    that print alike are equal. *)
Theorem ParseServicePrincipal_roundtrip p q :
  wf_spn p → wf_spn q →
  ParseServicePrincipal (SPN_String p) = Ok p ∧ (SPN_String p = SPN_String q → p = q).
Proof. eauto using parse_print, SPN_String_inj. Qed.

Lemma ParseServicePrincipal_roundtrip_witness :
  let p := {| Service := "HTTP"; Host := "dav.example.com"; Realm := "EXAMPLE.COM" |} in
  let q := {| Service := "imap"; Host := "mail.example.com"; Realm := "" |} in
  ParseServicePrincipal (SPN_String p) = Ok p ∧ (SPN_String p = SPN_String q → p = q).
Proof.
  intros p q. apply (ParseServicePrincipal_roundtrip p q);
    repeat split; vm_compute; congruence.
Defined.
