(* ===== verification/Request.v ===== *)
(** * Request: from the RFC 8693 wire request to the exchange request

    tokentype.go ([OutputType]), request.go ([ExchangeRequestFromWire]) and
    error_mapping.go ([TokenExchangeErrorCode]).  The wire struct belongs to the
    token-exchange library: the record holds the fields the program reads, and
    the constants it compares against are parameters. *)
From S2P Require Import Prelude Errors GoText Principal.

(** ** The token-exchange library, as far as the program names it *)

Class TokenExchange := {
  GrantTypeTokenExchange : string;
  TokenTypeAccessToken : string;
  ErrCodeInvalidRequest : string;
}.

Record TokenExchangeRequest := {
  GrantType : string;
  SubjectToken : string;
  SubjectTokenType : string;
  RequestedTokenType : string;
  Resource : list string;
  Audience : list string;
}.

(** ** tokentype.go *)

Definition KrbCCacheTokenType : string :=
  "https://github.com/hstern/go-oauth2-kerberos-exchange/token-type/krb5-ccache".
Definition KrbAPReqTokenType : string :=
  "https://github.com/hstern/go-oauth2-kerberos-exchange/token-type/krb5-apreq".

Definition ErrUnknownTokenType : error :=
  Sentinel "ErrUnknownTokenType" "kerbexchange: unknown requested token type".

(** [type OutputType int], with its two named values. *)
Definition OutputType : Type := Z.
Definition OutputCCache : OutputType := 0.
Definition OutputAPReq : OutputType := 1.

Definition OutputType_String (o : OutputType) : string :=
  if o =? OutputCCache then "ccache"
  else if o =? OutputAPReq then "apreq"
  else "OutputType(" +:+ pretty (o : Z) +:+ ")".

Definition TokenType (o : OutputType) : string :=
  if o =? OutputCCache then KrbCCacheTokenType
  else if o =? OutputAPReq then KrbAPReqTokenType
  else "".

Definition OutputTypeFromTokenType (uri : string) : result OutputType :=
  if bool_decide (uri = "") || bool_decide (uri = KrbCCacheTokenType) then Ok OutputCCache
  else if bool_decide (uri = KrbAPReqTokenType) then Ok OutputAPReq
  else Err (Errorf [Fw ErrUnknownTokenType; Lit ": "; Fq uri]).

(** ** request.go *)

Definition ErrWrongGrantType : error :=
  Sentinel "ErrWrongGrantType" "kerbexchange: grant_type is not token-exchange".
Definition ErrMissingSubjectToken : error :=
  Sentinel "ErrMissingSubjectToken" "kerbexchange: missing subject_token".
Definition ErrNoTarget : error :=
  Sentinel "ErrNoTarget" "kerbexchange: no resource or audience names a target SPN".

Record ExchangeRequest := {
  AccessToken : string;
  Target : ServicePrincipal;
  Output : OutputType;
}.

Fixpoint firstNonEmpty_group (g : list string) : option string :=
  match g with
  | [] => None
  | v :: g' => if bool_decide (v = "") then firstNonEmpty_group g' else Some v
  end.

Fixpoint firstNonEmpty (groups : list (list string)) : string :=
  match groups with
  | [] => ""
  | g :: groups' => match firstNonEmpty_group g with
                    | Some v => v
                    | None => firstNonEmpty groups'
                    end
  end.

Section request.
Context `{TokenExchange}.

Definition ExchangeRequestFromWire (w : TokenExchangeRequest) : result ExchangeRequest :=
  if bool_decide (GrantType w ≠ GrantTypeTokenExchange)
  then Err (Errorf [Fw ErrWrongGrantType; Lit ": "; Fq (GrantType w)])
  else if bool_decide (SubjectToken w = "") then Err ErrMissingSubjectToken
  else
    output ← OutputTypeFromTokenType (RequestedTokenType w);
    let raw := firstNonEmpty [Resource w; Audience w] in
    if bool_decide (raw = "") then Err ErrNoTarget
    else
      target ← ParseServicePrincipal raw;
      Ok {| AccessToken := SubjectToken w; Target := target; Output := output |}.
End request.

(** ** error_mapping.go *)

Definition errCodeInvalidRequest : string := "invalid_request".
Definition errCodeInvalidTarget : string := "invalid_target".

Definition TokenExchangeErrorCode (err : error) : string :=
  if errors_Is err ErrNoTarget then errCodeInvalidTarget
  else if errors_Is err ErrWrongGrantType || errors_Is err ErrMissingSubjectToken
          || errors_Is err ErrMalformedSPN || errors_Is err ErrUnknownTokenType
  then errCodeInvalidRequest
  else errCodeInvalidRequest.

(** ** Lemmas *)

Definition valid_output (o : OutputType) : Prop := o = OutputCCache ∨ o = OutputAPReq.

#[export] Instance valid_output_dec o : Decision (valid_output o).
Proof. unfold valid_output, OutputType. apply _. Defined.

Lemma OutputTypeFromTokenType_valid uri o :
  OutputTypeFromTokenType uri = Ok o →
  valid_output o ∧ (uri = TokenType o ∨ uri = "" ∧ o = OutputCCache).
Proof.
  unfold OutputTypeFromTokenType, valid_output.
  repeat case_match; intros [= <-]; try destruct (orb_prop _ _ H);
    try (by rewrite bool_decide_eq_true in *; eauto).
Qed.

Lemma OutputTypeFromTokenType_TokenType o :
  valid_output o → OutputTypeFromTokenType (TokenType o) = Ok o.
Proof. by intros [-> | ->]. Qed.

(** The output a server reads from the token type of an output: the default for
    one that is not among the constants. *)
Definition requested (o : OutputType) : OutputType :=
  if o =? OutputAPReq then OutputAPReq else OutputCCache.

Lemma requested_TokenType o : OutputTypeFromTokenType (TokenType o) = Ok (requested o).
Proof.
  unfold TokenType, requested. destruct (Z.eqb_spec o OutputCCache) as [->|]; [done|].
  by destruct (o =? OutputAPReq).
Qed.

Lemma requested_valid o : valid_output o → requested o = o.
Proof. by intros [-> | ->]. Qed.

Lemma firstNonEmpty_group_spec g :
  match firstNonEmpty_group g with
  | Some v => v ≠ "" ∧ v ∈ g
  | None => Forall (λ v, v = "") g
  end.
Proof.
  induction g as [|v g IH]; simpl; [constructor|].
  case_bool_decide; [|split; [done | by left]].
  case_match; [|by constructor].
  destruct IH. split; [done | by right].
Qed.

Lemma firstNonEmpty_empty groups :
  firstNonEmpty groups = "" ↔ Forall (λ v, v = "") (concat groups).
Proof.
  induction groups as [|g groups IH]; simpl; [by split; [constructor|]|].
  rewrite Forall_app, <- IH. pose proof (firstNonEmpty_group_spec g) as Hg.
  destruct (firstNonEmpty_group g) as [v|]; [|tauto].
  split; [by intros ->; destruct Hg|].
  intros [Hall _]. destruct Hg as [Hne Hin].
  rewrite Forall_forall in Hall. by destruct Hne; apply Hall.
Qed.

Lemma firstNonEmpty_head v g groups :
  v ≠ "" → firstNonEmpty ((v :: g) :: groups) = v.
Proof. intros. simpl. by rewrite bool_decide_false. Qed.

Lemma TokenExchangeErrorCode_cases err :
  TokenExchangeErrorCode err =
    if errors_Is err ErrNoTarget then errCodeInvalidTarget else errCodeInvalidRequest.
Proof. unfold TokenExchangeErrorCode. by repeat case_match. Qed.

Lemma OutputType_String_no_nul o : has_byte Ascii.zero (OutputType_String o) = false.
Proof.
  unfold OutputType_String. do 2 (case_match; [done|]).
  rewrite has_byte_app. simpl. rewrite has_byte_app. simpl. rewrite orb_false_r.
  unfold pretty, pretty_Z. repeat case_match; try done; simpl;
    by apply (has_byte_pretty_N Ascii.zero (N.pos _)).
Qed.

#[export] Instance OutputType_String_inj : Inj (=) (=) OutputType_String.
Proof.
  intros o o'. unfold OutputType_String.
  destruct (Z.eqb_spec o OutputCCache), (Z.eqb_spec o OutputAPReq),
    (Z.eqb_spec o' OutputCCache), (Z.eqb_spec o' OutputAPReq); try congruence; try done.
  intros H. apply str_app_inj_l, str_app_inj_r in H. by apply (inj pretty) in H.
Qed.

Lemma firstNonEmpty_two rs aus raw :
  firstNonEmpty [rs; aus] = raw → raw ≠ "" →
  ∃ pre post, rs ++ aus = pre ++ raw :: post ∧ Forall (λ v, v = "") pre.
Proof.
  assert (∀ g v, firstNonEmpty_group g = Some v →
            ∃ pre post, g = pre ++ v :: post ∧ Forall (λ v, v = "") pre) as Hg.
  { induction g as [|u g IH]; intros v Hv; simpl in Hv; [done|].
    case_bool_decide.
    - destruct (IH _ Hv) as (pre & post & -> & Hpre).
      exists (u :: pre), post. split; [done|]. by constructor.
    - simplify_eq. exists [], g. by split; [|constructor]. }
  simpl. pose proof (firstNonEmpty_group_spec rs) as Hrs.
  destruct (firstNonEmpty_group rs) as [v|] eqn:Er.
  - intros <- _. destruct (Hg _ _ Er) as (pre & post & -> & Hpre).
    exists pre, (post ++ aus). by rewrite <- app_assoc.
  - destruct (firstNonEmpty_group aus) as [v|] eqn:Ea; [|by intros <-].
    intros <- _. destruct (Hg _ _ Ea) as (pre & post & -> & Hpre).
    exists (rs ++ pre), post. rewrite <- app_assoc. split; [done|]. by apply Forall_app.
Qed.

Lemma firstNonEmpty_split rs aus pre raw post :
  rs ++ aus = pre ++ raw :: post → Forall (λ v, v = "") pre → raw ≠ "" →
  firstNonEmpty [rs; aus] = raw.
Proof.
  intros Heq Hpre Hne. revert pre Heq Hpre.
  induction rs as [|r rs IH]; intros pre Heq Hpre.
  - simpl in Heq. subst aus. simpl. induction Hpre as [|p pre -> Hpre IH]; simpl.
    + by rewrite bool_decide_false.
    + exact IH.
  - destruct pre as [|p pre]; injection Heq as -> Heq.
    + by apply firstNonEmpty_head.
    + inversion Hpre; subst. by apply (IH pre).
Qed.

(** ** Properties *)

(** RFC 8693's values of the library's constants, for concrete runs. *)
Definition rfc8693 : TokenExchange := {|
  GrantTypeTokenExchange := "urn:ietf:params:oauth:grant-type:token-exchange";
  TokenTypeAccessToken := "urn:ietf:params:oauth:token-type:access_token";
  ErrCodeInvalidRequest := "invalid_request";
|}.

Section properties.
Context `{TokenExchange}.

Lemma FromWire_Ok w r :
  ExchangeRequestFromWire w = Ok r ↔
    GrantType w = GrantTypeTokenExchange ∧ SubjectToken w ≠ "" ∧
    AccessToken r = SubjectToken w ∧
    OutputTypeFromTokenType (RequestedTokenType w) = Ok (Output r) ∧
    firstNonEmpty [Resource w; Audience w] ≠ "" ∧
    ParseServicePrincipal (firstNonEmpty [Resource w; Audience w]) = Ok (Target r).
Proof.
  unfold ExchangeRequestFromWire. split.
  - intros Hw. do 2 (case_bool_decide; [done|]).
    apply bind_Ok in Hw as (o & Ho & Hw). case_bool_decide; [done|].
    apply bind_Ok in Hw as (t & Ht & [= <-]). simpl.
    split_and!; try done; by apply dec_stable.
  - intros (Hg & Hs & Ha & Ho & Hr & Ht).
    rewrite bool_decide_false by auto. rewrite bool_decide_false by done.
    apply bind_Ok. exists (Output r). split; [done|]. rewrite bool_decide_false by done.
    apply bind_Ok. exists (Target r). split; [done|].
    rewrite <- Ha. by destruct r.
Qed.

(** C32. A wire request becomes an exchange request exactly when its grant type
    is token-exchange, its subject token is non-empty, its requested token
    type names an output (or is empty, which means the ccache), and the first
    non-empty string among its resources and then its audiences parses as a
    service principal; the exchange request then carries that token, that
    output and that principal. *)
Theorem ExchangeRequestFromWire_spec w r :
  ExchangeRequestFromWire w = Ok r ↔
    GrantType w = GrantTypeTokenExchange ∧
    AccessToken r = SubjectToken w ∧ AccessToken r ≠ "" ∧
    valid_output (Output r) ∧
    (RequestedTokenType w = TokenType (Output r) ∨
     RequestedTokenType w = "" ∧ Output r = OutputCCache) ∧
    ∃ pre raw post,
      Resource w ++ Audience w = pre ++ raw :: post ∧ Forall (λ v, v = "") pre ∧
      ParseServicePrincipal raw = Ok (Target r).
Proof.
  rewrite FromWire_Ok. split.
  - intros (Hg & Hs & Ha & Ho & Hr & Ht).
    apply OutputTypeFromTokenType_valid in Ho as [Hv Ho].
    destruct (firstNonEmpty_two _ _ _ eq_refl Hr) as (pre & post & Heq & Hpre).
    split_and!; try done; [congruence|]. by exists pre, (firstNonEmpty [Resource w; Audience w]), post.
  - intros (Hg & Ha & Hs & Hv & Ho & pre & raw & post & Heq & Hpre & Ht).
    assert (raw ≠ "") as Hraw by (intros ->; vm_compute in Ht; done).
    rewrite (firstNonEmpty_split _ _ _ _ _ Heq Hpre Hraw).
    split_and!; try done; [congruence|].
    destruct Ho as [-> | [-> ->]]; [by apply OutputTypeFromTokenType_TokenType | done].
Qed.

(** C36. The error code a refused wire request is answered with: it is
    [invalid_target] exactly when the grant type, the subject token and the
    requested token type are all in order and no resource or audience names
    anything; every other refusal is [invalid_request]. *)
Theorem ExchangeRequestFromWire_error_code w e :
  ExchangeRequestFromWire w = Err e →
  TokenExchangeErrorCode e =
    if bool_decide (GrantType w = GrantTypeTokenExchange ∧ SubjectToken w ≠ "" ∧
                    RequestedTokenType w ∈ [""; KrbCCacheTokenType; KrbAPReqTokenType] ∧
                    Forall (λ v, v = "") (Resource w ++ Audience w))
    then "invalid_target" else "invalid_request".
Proof.
  rewrite TokenExchangeErrorCode_cases. unfold ExchangeRequestFromWire.
  case_bool_decide as Hg.
  { intros [= <-]. rewrite bool_decide_false; [done | tauto]. }
  case_bool_decide as Hs.
  { intros [= <-]. rewrite bool_decide_false; [done | tauto]. }
  destruct (OutputTypeFromTokenType (RequestedTokenType w)) as [o|eo] eqn:Ho; cbn [mbind result_bind].
  2: { intros [= <-]. unfold OutputTypeFromTokenType in Ho.
       case_match eqn:Hc1; [done|]. case_match eqn:Hc2; [done|]. simplify_eq.
       rewrite bool_decide_false; [done|]. intros (_ & _ & Hin & _).
       rewrite orb_false_iff, !bool_decide_eq_false in Hc1.
       rewrite bool_decide_eq_false in Hc2.
       rewrite !elem_of_cons, elem_of_nil in Hin. tauto. }
  assert (RequestedTokenType w ∈ [""; KrbCCacheTokenType; KrbAPReqTokenType]) as Hin.
  { apply OutputTypeFromTokenType_valid in Ho as [[-> | ->] [-> | [-> _]]]; set_solver. }
  pose proof (firstNonEmpty_empty [Resource w; Audience w]) as Hne.
  simpl concat in Hne. rewrite app_nil_r in Hne.
  case_bool_decide as Hr.
  - intros [= <-]. rewrite bool_decide_true; [done|]. split_and!; try done. by apply Hne.
  - simpl. destruct (ParseServicePrincipal _) as [t|ep] eqn:Et; [done|].
    intros [= <-]. rewrite bool_decide_false by tauto.
    rewrite ParseServicePrincipal_cut in Et. repeat case_match; by simplify_eq.
Qed.
End properties.

Lemma ExchangeRequestFromWire_error_code_witness :
  let w := {| GrantType := "urn:ietf:params:oauth:grant-type:token-exchange";
              SubjectToken := "tok"; SubjectTokenType := ""; RequestedTokenType := "";
              Resource := [""]; Audience := [] |} in
  TokenExchangeErrorCode ErrNoTarget = "invalid_target".
Proof.
  intros w. exact (ExchangeRequestFromWire_error_code (H:=rfc8693) w ErrNoTarget eq_refl).
Defined.
