(* ===== verification/Krb5.v ===== *)
(** * Krb5: the libraries the program calls, as an interface

    The Kerberos, ASN.1 and MS-PAC libraries (hstern/krb5, hstern/x) are not
    part of the repository.  Their opaque types, constants and functions are
    the fields of two classes, so that every definition of the development
    takes them as parameters; the structs the program itself fills in are
    records with the fields the program names (fields it leaves at their zero
    value are omitted).  A library call that draws entropy or reads the clock
    is an [eff W]. *)
From S2P Require Import Prelude Errors GoText GoTime GoOs.

(** ** Struct types the program constructs *)

(** types.PrincipalName *)
Record PrincipalName := {
  NameType : Z;
  NameString : list string;
}.

(** types.AuthorizationData: a list of typed octet strings. *)
Record AuthorizationDataEntry := {
  ADType : Z;
  ADData : bytes;
}.
Abbreviation AuthorizationData := (list AuthorizationDataEntry).

(** mstypes.FileTime, RPCSID, GroupMembership, RPCUnicodeString *)
Record FileTime := { LowDateTime : Z; HighDateTime : Z }.

Record RPCSID := {
  Revision : Z;
  SubAuthorityCount : Z;
  IdentifierAuthority : list Z;
  SubAuthority : list Z;
}.

Record GroupMembership := { RelativeID : Z; Attributes : Z }.

Record RPCUnicodeString := {
  Length : Z;
  MaximumLength : Z;
  Value : string;
}.

(** pac.KerbValidationInfo and pac.ClientInfo *)
Record KerbValidationInfo := {
  LogOnTime : FileTime;
  LogOffTime : FileTime;
  KickOffTime : FileTime;
  PasswordLastSet : FileTime;
  PasswordCanChange : FileTime;
  PasswordMustChange : FileTime;
  EffectiveName : RPCUnicodeString;
  UserID : Z;
  PrimaryGroupID : Z;
  GroupCount : Z;
  GroupIDs : list GroupMembership;
  UserFlags : Z;
  LogonDomainName : RPCUnicodeString;
  LogonDomainID : RPCSID;
  UserAccountControl : Z;
  LastSuccessfulILogon : FileTime;
  LastFailedILogon : FileTime;
  SIDCount : Z;
  ExtraSIDs : list RPCSID;
  ResourceGroupCount : Z;
  ResourceGroupIDs : list GroupMembership;
}.

Record ClientInfo := {
  ClientID : FileTime;
  NameLength : Z;
  Name : string;
}.

#[export] Instance PrincipalName_eq_dec : EqDecision PrincipalName.
Proof. solve_decision. Defined.
#[export] Instance AuthorizationDataEntry_eq_dec : EqDecision AuthorizationDataEntry.
Proof. solve_decision. Defined.
#[export] Instance FileTime_eq_dec : EqDecision FileTime.
Proof. solve_decision. Defined.
#[export] Instance RPCSID_eq_dec : EqDecision RPCSID.
Proof. solve_decision. Defined.
#[export] Instance GroupMembership_eq_dec : EqDecision GroupMembership.
Proof. solve_decision. Defined.

(** ** Opaque types and constants *)

Class Krb5Types := {
  EncryptionKey : Type;
  KeyType : EncryptionKey → Z;        (** field types.EncryptionKey.KeyType *)
  EncryptedData : Type;
  Etype : Type;                        (** interface crypto/etype.EType *)
  KrbFlags : Type;
  TransitedEncoding : Type;
  PAC : Type;                          (** pac.NewPAC's builder *)
  Authenticator : Type;
  APReq : Type;
  CCPrincipal : Type;                  (** credentials.Principal *)
  CCache : Type;
  Keytab : Type;
  (* iana constants *)
  KRB_NT_PRINCIPAL : Z;
  KRB_NT_SRV_HST : Z;
  AES256_CTS_HMAC_SHA1_96 : Z;
  KDC_REP_TICKET : Z;
  ADWin2KPAC : Z;
  ADIfRelevant : Z;
  PVNO : Z;
  EncTicketPartTag : Z;                (** asn1apptag.EncTicketPart *)
}.

Section records.
Context `{Krb5Types}.

(** messages.EncTicketPart, as the minter fills it in *)
Record EncTicketPart := {
  Flags : KrbFlags;
  Key : EncryptionKey;
  CRealm : string;
  CName : PrincipalName;
  Transited : TransitedEncoding;
  etp_AuthTime : Time;
  etp_StartTime : Time;
  etp_EndTime : Time;
  etp_RenewTill : Time;
  etp_AuthorizationData : AuthorizationData;
}.

(** messages.Ticket *)
Record Ticket := {
  TktVNO : Z;
  tkt_Realm : string;
  SName : PrincipalName;
  EncPart : EncryptedData;
}.

(** credentials.Credential, one entry of a ccache *)
Record CCCredential := {
  cc_Client : CCPrincipal;
  cc_Server : CCPrincipal;
  cc_Key : EncryptionKey;
  cc_AuthTime : Time;
  cc_StartTime : Time;
  cc_EndTime : Time;
  cc_RenewTill : Time;
  cc_TicketFlags : KrbFlags;
  cc_Ticket : bytes;
}.
End records.

(** ** Functions *)

(** Functions that depend on their arguments only. *)
Class Krb5 `{Krb5Types} := {
  (* crypto and types *)
  GetEtype : Z → result Etype;
  NewKrbFlags : KrbFlags;
  emptyTransited : TransitedEncoding;  (** messages.TransitedEncoding{} *)
  (* ASN.1 *)
  Marshal_AuthorizationData : AuthorizationData → result bytes;
  Marshal_EncTicketPart : EncTicketPart → result bytes;
  AddASNAppTag : bytes → Z → bytes;
  Ticket_Marshal : Ticket → result bytes;
  (* MS-PAC *)
  NewPAC : PAC;
  WithKerbValidationInfo : PAC → KerbValidationInfo → PAC;
  WithClientInfo : PAC → ClientInfo → PAC;
  SignAndMarshal : PAC → EncryptionKey → EncryptionKey → result bytes;
  GetFileTime : Time → FileTime;
  (* AP-REQ *)
  APReq_Marshal : APReq → result bytes;
  (* ccache *)
  NewPrincipal : PrincipalName → string → CCPrincipal;
  NewV4CCache : CCache;
  SetDefaultPrincipal : CCache → CCPrincipal → CCache;
  AddCredential : CCache → CCCredential → CCache;
  CCache_Marshal : CCache → result bytes;
  (* keytab *)
  GetEncryptionKey : Keytab → PrincipalName → string → Z → Z → result (EncryptionKey * Z);
  ParseSPNString : string → PrincipalName * string;
}.

(** Functions that draw entropy, read the clock or touch a file. *)
Class Krb5Eff (W : Type) `{Krb5Types} := {
  GenerateEncryptionKey : Etype → eff W EncryptionKey;
  GetEncryptedData : bytes → EncryptionKey → Z → Z → eff W EncryptedData;
  NewAuthenticator : string → PrincipalName → eff W Authenticator;
  NewAPReq : Ticket → EncryptionKey → Authenticator → eff W APReq;
  keytab_Load : string → eff W Keytab;
}.

(** The wall and monotonic clock of the process: [time.Now()]. *)
Class Clock (W : Type) := {
  Now : W → Time * W;
}.

(** ** What the consumers of the issued credentials do

    The acceptor of a ticket decrypts it with the key it shares with the
    minter and reads the ASN.1 and the PAC back.  These are library functions
    too; the laws are the documented contract between the writing and the
    reading side (decryption inverts encryption under the same key and usage,
    [Unmarshal] inverts [Marshal], a PAC verifies under the keys that signed
    it).  A KerberosTime has a resolution of one second. *)

Definition KerberosTime (t : Time) : Time :=
  {| sec := sec t; nsec := 0; mono := None; loc := UTC_loc |}.

Section view.
Context `{Krb5Types}.

Definition etp_view (e : EncTicketPart) : EncTicketPart :=
  {| Flags := Flags e; Key := Key e; CRealm := CRealm e; CName := CName e;
     Transited := Transited e;
     etp_AuthTime := KerberosTime (etp_AuthTime e);
     etp_StartTime := KerberosTime (etp_StartTime e);
     etp_EndTime := KerberosTime (etp_EndTime e);
     etp_RenewTill := KerberosTime (etp_RenewTill e);
     etp_AuthorizationData := etp_AuthorizationData e |}.

(** A ccache stores its times as 32-bit Unix seconds. *)
Definition cc_time (t : Time) : Time :=
  {| sec := uint32 (sec t - unixToInternal) + unixToInternal; nsec := 0; mono := None;
     loc := UTC_loc |}.

Definition cc_view (c : CCCredential) : CCCredential :=
  {| cc_Client := cc_Client c; cc_Server := cc_Server c; cc_Key := cc_Key c;
     cc_AuthTime := cc_time (cc_AuthTime c); cc_StartTime := cc_time (cc_StartTime c);
     cc_EndTime := cc_time (cc_EndTime c); cc_RenewTill := cc_time (cc_RenewTill c);
     cc_TicketFlags := cc_TicketFlags c; cc_Ticket := cc_Ticket c |}.

Definition etp_utc (e : EncTicketPart) : Prop :=
  Forall (λ t, loc t = UTC_loc)
    [etp_AuthTime e; etp_StartTime e; etp_EndTime e; etp_RenewTill e].
End view.

Class Acceptor `{Krb5Types} := {
  DecryptEncPart : EncryptedData → EncryptionKey → Z → option bytes;
  Unmarshal_EncTicketPart : bytes → option EncTicketPart;
  Unmarshal_AuthorizationData : bytes → option AuthorizationData;
  VerifyPAC : bytes → EncryptionKey → EncryptionKey → option (KerbValidationInfo * ClientInfo);
  Unmarshal_Ticket : bytes → option Ticket;
  (* a ccache: its default principal and its entries *)
  Unmarshal_CCache : bytes → option (CCPrincipal * list CCCredential);
  (* an AP-REQ: its ticket, and its authenticator under a session key *)
  Unmarshal_APReq : bytes → option APReq;
  APReq_Ticket : APReq → Ticket;
  DecryptAuthenticator : APReq → EncryptionKey → option Authenticator;
  auth_CRealm : Authenticator → string;
  auth_CName : Authenticator → PrincipalName;
}.

Class AcceptorLaws (W : Type) `{Krb5} `{!Krb5Eff W} `{!Acceptor} := {
  decrypt_encrypt plain key usage kvno w ed w' :
    GetEncryptedData plain key usage kvno w = (Ok ed, w') →
    DecryptEncPart ed key usage = Some plain;
  unmarshal_etp etp b :
    Marshal_EncTicketPart etp = Ok b → etp_utc etp →
    Unmarshal_EncTicketPart (AddASNAppTag b EncTicketPartTag) = Some (etp_view etp);
  unmarshal_ad ad b :
    Marshal_AuthorizationData ad = Ok b → Unmarshal_AuthorizationData b = Some ad;
  verify_pac kvi ci skey kdckey b :
    SignAndMarshal (WithClientInfo (WithKerbValidationInfo NewPAC kvi) ci) skey kdckey = Ok b →
    VerifyPAC b skey kdckey = Some (kvi, ci);
  unmarshal_ticket t b : Ticket_Marshal t = Ok b → Unmarshal_Ticket b = Some t;
  unmarshal_ccache p c b :
    CCache_Marshal (AddCredential (SetDefaultPrincipal NewV4CCache p) c) = Ok b →
    Unmarshal_CCache b = Some (p, [cc_view c]);
  unmarshal_apreq ap b : APReq_Marshal ap = Ok b → Unmarshal_APReq b = Some ap;
  apreq_ticket t key auth w ap w' :
    NewAPReq t key auth w = (Ok ap, w') →
    APReq_Ticket ap = t ∧ DecryptAuthenticator ap key = Some auth;
  authenticator_names realm name w auth w' :
    NewAuthenticator realm name w = (Ok auth, w') →
    auth_CRealm auth = realm ∧ auth_CName auth = name;
  adtypes_distinct : ADWin2KPAC ≠ ADIfRelevant;
}.

(** ** What only the fixtures call

    The test programs also make keytabs, write them to files, and read a PAC
    back with the library's own reader. *)

Class Krb5Tools `{Krb5Types} := {
  keytab_New : Keytab;
  (** principal, realm, password, time stamp, key version, encryption type *)
  AddEntry : Keytab → string → string → string → Time → Z → Z → result Keytab;
  KeyValue : EncryptionKey → bytes;     (** field types.EncryptionKey.KeyValue *)
  Cipher : EncryptedData → bytes;       (** field types.EncryptedData.Cipher *)
  DecryptMessage : bytes → EncryptionKey → Z → result bytes;
  PACType : Type;
  PACType_Unmarshal : bytes → result PACType;
  (** checks the server signature and decodes the buffers *)
  ProcessPACInfoBuffers : PACType → EncryptionKey → result KerbValidationInfo;
  SID_String : RPCSID → string;
  GetGroupMembershipSIDs : KerbValidationInfo → list string;
}.

Class Krb5ToolsEff (W : Type) `{Krb5Types} `{!Disk W} := {
  Keytab_Write : Keytab → File → eff W unit;
}.

(** The textual form of a SID (MS-DTYP 2.4.2.1) with an authority of one byte. *)
Definition print_sid (auth : N) (subs : list N) : string :=
  Join "-" ("S" :: "1" :: pretty auth :: map pretty subs).

(** A keytab that was written to an empty file loads from any file with the
    same bytes; a message decrypts to what was encrypted; a signed PAC reads
    back; SIDs have their textual form, and the groups of a PAC without extra
    and resource groups are its domain's SIDs. *)
Class Krb5ToolsLaws (W : Type) `{Krb5} `{!Krb5Eff W} `{!Disk W} `{!Krb5Tools}
    `{!Krb5ToolsEff W} := {
  write_load kt f w w' e :
    disk w !! f = Some e → contents e = "" → Keytab_Write kt f w = (Ok tt, w') →
    ∃ b, disk w' = <[f := {| mode := mode e; contents := b |}]> (disk w) ∧
         ∀ path w2, file_bytes w2 path = Some b → keytab_Load path w2 = (Ok kt, w2);
  decrypt_message plain key usage kvno w ed w' :
    GetEncryptedData plain key usage kvno w = (Ok ed, w') →
    DecryptMessage (Cipher ed) key usage = Ok plain;
  process_pac kvi ci skey kdckey b :
    SignAndMarshal (WithClientInfo (WithKerbValidationInfo NewPAC kvi) ci) skey kdckey = Ok b →
    ∃ pt, PACType_Unmarshal b = Ok pt ∧ ProcessPACInfoBuffers pt skey = Ok kvi;
  sid_string auth subs n :
    Z.of_N auth ≤ 255 → Forall (λ n : N, Z.of_N n < 2 ^ 32) subs →
    SID_String {| Revision := 1; SubAuthorityCount := n;
                  IdentifierAuthority := [0; 0; 0; 0; 0; Z.of_N auth];
                  SubAuthority := map Z.of_N subs |} = print_sid auth subs;
  group_sids kvi :
    ExtraSIDs kvi = [] → ResourceGroupIDs kvi = [] →
    GetGroupMembershipSIDs kvi =
      map (λ m, SID_String (LogonDomainID kvi) +:+ "-" +:+ pretty (RelativeID m)) (GroupIDs kvi);
  parse_krbtgt realm :
    has_byte "/" realm = false → has_byte "@" realm = false →
    ParseSPNString ("krbtgt/" +:+ realm) =
      ({| NameType := KRB_NT_PRINCIPAL; NameString := ["krbtgt"; realm] |}, "");
}.

(** The calls of a minting touch no file. *)
Class Krb5Frame (W : Type) `{Krb5} `{!Krb5Eff W} `{!Clock W} `{!Disk W} := {
  frame_session et w : disk (GenerateEncryptionKey et w).2 = disk w;
  frame_encrypt b k u v w : disk (GetEncryptedData b k u v w).2 = disk w;
  frame_auth r n w : disk (NewAuthenticator r n w).2 = disk w;
  frame_apreq t k a w : disk (NewAPReq t k a w).2 = disk w;
  frame_clock w : disk (Now w).2 = disk w;
}.
