(* ===== verification/Symbolic.v ===== *)
(** * Symbolic: a concrete instance of the library interface

    Ciphertexts, encodings and signatures as terms: encryption records the
    plain text with the key, encodings are injective by construction.  The
    laws of [Krb5.AcceptorLaws] hold of it, so the theorems that assume them
    are not vacuous, and programs run on it by computation. *)
From S2P Require Import Prelude Errors GoText GoTime GoOs Krb5.

(** ** A serialisation of the data as strings

    [ser a rest] writes [a] in front of [rest], [des] reads it back. *)

Class Ser (A : Type) := {
  ser : A → string → string;
  des : string → option (A * string);
  des_ser a rest : des (ser a rest) = Some (a, rest);
}.

Definition enc `{Ser A} (a : A) : bytes := ser a "".
Definition dec `{Ser A} (b : bytes) : option A :=
  '(a, rest) ← des b; if bool_decide (rest = "") then Some a else None.

Lemma dec_enc `{Ser A} (a : A) : dec (enc a) = Some a.
Proof. unfold dec, enc. by rewrite des_ser. Qed.

#[global] Arguments enc {_ _} _ : simpl never.
#[global] Arguments dec {_ _} _ : simpl never.

Fixpoint ser_pos (p : positive) (rest : string) : string :=
  match p with
  | xH => String "." rest
  | xO p => String "0" (ser_pos p rest)
  | xI p => String "1" (ser_pos p rest)
  end.

Fixpoint des_pos (s : string) : option (positive * string) :=
  match s with
  | EmptyString => None
  | String c s =>
    if bool_decide (c = "."%char) then Some (xH, s)
    else '(p, rest) ← des_pos s;
         Some (if bool_decide (c = "0"%char) then xO p else xI p, rest)
  end.

#[export] Instance Z_ser : Ser Z.
Proof.
  refine {|
  ser z rest := match z with
                | Z0 => String "z" rest
                | Zpos p => String "p" (ser_pos p rest)
                | Zneg p => String "n" (ser_pos p rest)
                end;
  des s := match s with
           | EmptyString => None
           | String c s =>
             if bool_decide (c = "z"%char) then Some (0, s)
             else '(p, rest) ← des_pos s;
                  Some (if bool_decide (c = "p"%char) then Zpos p else Zneg p, rest)
           end; des_ser := _ |}.
  assert (∀ p rest, des_pos (ser_pos p rest) = Some (p, rest)) as Hp.
  { induction p as [p IH|p IH|]; intros rest; cbn -[bool_decide]; [| |done];
      by rewrite bool_decide_false, IH. }
  intros [|p|p] rest; cbn -[bool_decide]; [done|..]; by rewrite bool_decide_false, Hp.
Defined.

Definition quote : ascii := ascii_of_N 34.
Definition backslash : ascii := ascii_of_N 92.

Fixpoint ser_str (s rest : string) : string :=
  match s with
  | EmptyString => String quote rest
  | String c s =>
    if bool_decide (c = quote ∨ c = backslash) then String backslash (String c (ser_str s rest))
    else String c (ser_str s rest)
  end.

Fixpoint des_str (s : string) : option (string * string) :=
  match s with
  | EmptyString => None
  | String c s =>
    if bool_decide (c = quote) then Some ("", s)
    else if bool_decide (c = backslash) then
      match s with
      | EmptyString => None
      | String c s => '(t, rest) ← des_str s; Some (String c t, rest)
      end
    else '(t, rest) ← des_str s; Some (String c t, rest)
  end.

#[export] Instance string_ser : Ser string.
Proof.
  refine {| ser := ser_str; des := des_str; des_ser := _ |}.
  induction a as [|c s IH]; intros rest; [done|]. cbn [ser_str].
  case_bool_decide as Hc; cbn [des_str].
  - by rewrite bool_decide_false, bool_decide_true, IH.
  - apply Decidable.not_or in Hc as [? ?]. by rewrite !bool_decide_false, IH.
Defined.

#[export] Instance prod_ser `{Ser A, Ser B} : Ser (A * B).
Proof.
  refine {|
  ser p rest := ser p.1 (ser p.2 rest);
  des s := '(a, s) ← des s; '(b, s) ← des s; Some ((a, b), s); des_ser := _ |}. intros. destruct a. by rewrite !des_ser; simpl; rewrite des_ser. Defined.

#[export] Instance option_ser `{Ser A} : Ser (option A).
Proof.
  refine {|
  ser o rest := match o with None => String "N" rest | Some a => String "S" (ser a rest) end;
  des s := match s with
           | EmptyString => None
           | String c s => if bool_decide (c = "N"%char) then Some (None, s)
                           else '(a, s) ← des s; Some (Some a, s)
           end; des_ser := _ |}. intros. destruct a; cbn -[bool_decide]; [|done]. by rewrite bool_decide_false, des_ser. Defined.

Fixpoint ser_list `{Ser A} (l : list A) (rest : string) : string :=
  match l with [] => String "N" rest | a :: l => String "S" (ser a (ser_list l rest)) end.

(** The fuel bounds the number of elements. *)
Fixpoint des_list `{Ser A} (fuel : nat) (s : string) : option (list A * string) :=
  match fuel, s with
  | S fuel, String c s =>
    if bool_decide (c = "N"%char) then Some ([], s)
    else '(a, s) ← des s; '(l, s) ← des_list fuel s; Some (a :: l, s)
  | _, _ => None
  end.

Lemma des_list_cons `{Ser A} n c s :
  des_list (A:=A) (S n) (String c s) =
    if bool_decide (c = "N"%char) then Some ([], s)
    else '(a, s) ← des s; '(l, s) ← des_list n s; Some (a :: l, s).
Proof. done. Qed.

(** A list is written after its length, which gives the reader its fuel. *)
#[export] Instance list_ser `{Ser A} : Ser (list A).
Proof.
  refine {|
  ser l rest := ser (Z.of_nat (List.length l)) (ser_list l rest);
  des s := '(n, s) ← des s; des_list (S (Z.to_nat n)) s; des_ser := _ |}.
  intros. rewrite des_ser. cbn [mbind option_bind]. rewrite Nat2Z.id.
  induction a as [|x l IH]; [done|]. cbn [ser_list List.length].
  rewrite (des_list_cons (S (List.length l)) "S"), bool_decide_false, des_ser by done.
  cbn [mbind option_bind]. by rewrite IH.
Defined.

Definition ser_iso `{Ser B} {A} (f : A → B) (g : B → A) (Hgf : ∀ a, g (f a) = a) : Ser A.
Proof.
  refine {| ser a := ser (f a); des s := '(b, s) ← des s; Some (g b, s); des_ser := _ |}.
  intros. rewrite des_ser. simpl. by rewrite Hgf.
Defined.

(** ** The data *)

#[export] Instance Location_ser : Ser Location.
Proof.
  refine (ser_iso (λ l, match l with UTC_loc => (0, "") | Local => (1, "") | Zone n => (2, n) end)
    (λ '(i, n), if i =? 0 then UTC_loc else if i =? 1 then Local else Zone n) _).
  by intros [].
Defined.

#[export] Instance Time_ser : Ser Time.
Proof.
  refine (ser_iso (λ t, (sec t, nsec t, mono t, loc t))
    (λ '(a, b, c, d), {| sec := a; nsec := b; mono := c; loc := d |}) _).
  by intros [].
Defined.

#[export] Instance PrincipalName_ser : Ser PrincipalName.
Proof.
  refine (ser_iso (λ p, (NameType p, NameString p))
    (λ '(a, b), {| NameType := a; NameString := b |}) _).
  by intros [].
Defined.

#[export] Instance AuthorizationDataEntry_ser : Ser AuthorizationDataEntry.
Proof.
  refine (ser_iso (λ p, (ADType p, ADData p))
    (λ '(a, b), {| ADType := a; ADData := b |}) _).
  by intros [].
Defined.

#[export] Instance FileTime_ser : Ser FileTime.
Proof.
  refine (ser_iso (λ p, (LowDateTime p, HighDateTime p))
    (λ '(a, b), {| LowDateTime := a; HighDateTime := b |}) _).
  by intros [].
Defined.

#[export] Instance RPCSID_ser : Ser RPCSID.
Proof.
  refine (ser_iso (λ s, (Revision s, SubAuthorityCount s, IdentifierAuthority s, SubAuthority s))
    (λ '(a, b, c, d), {| Revision := a; SubAuthorityCount := b; IdentifierAuthority := c;
                         SubAuthority := d |}) _).
  by intros [].
Defined.

#[export] Instance GroupMembership_ser : Ser GroupMembership.
Proof.
  refine (ser_iso (λ p, (RelativeID p, Attributes p))
    (λ '(a, b), {| RelativeID := a; Attributes := b |}) _).
  by intros [].
Defined.

#[export] Instance RPCUnicodeString_ser : Ser RPCUnicodeString.
Proof.
  refine (ser_iso (λ p, (Length p, MaximumLength p, Value p))
    (λ '(a, b, c), {| Length := a; MaximumLength := b; Value := c |}) _).
  by intros [].
Defined.

#[export] Instance ClientInfo_ser : Ser ClientInfo.
Proof.
  refine (ser_iso (λ p, (ClientID p, NameLength p, Name p))
    (λ '(a, b, c), {| ClientID := a; NameLength := b; Name := c |}) _).
  by intros [].
Defined.

#[export] Instance KerbValidationInfo_ser : Ser KerbValidationInfo.
Proof.
  refine (ser_iso
    (λ k, ((LogOnTime k, LogOffTime k, KickOffTime k, PasswordLastSet k, PasswordCanChange k,
            PasswordMustChange k, EffectiveName k),
           (UserID k, PrimaryGroupID k, GroupCount k, GroupIDs k, UserFlags k),
           (LogonDomainName k, LogonDomainID k, UserAccountControl k, LastSuccessfulILogon k,
            LastFailedILogon k, SIDCount k, ExtraSIDs k, ResourceGroupCount k,
            ResourceGroupIDs k)))
    (λ '((a, b, c, d, e, f, g), (h, i, j, k, l), (m, n, o, p, q, r, s, t, u)),
       {| LogOnTime := a; LogOffTime := b; KickOffTime := c; PasswordLastSet := d;
          PasswordCanChange := e; PasswordMustChange := f; EffectiveName := g; UserID := h;
          PrimaryGroupID := i; GroupCount := j; GroupIDs := k; UserFlags := l;
          LogonDomainName := m; LogonDomainID := n; UserAccountControl := o;
          LastSuccessfulILogon := p; LastFailedILogon := q; SIDCount := r; ExtraSIDs := s;
          ResourceGroupCount := t; ResourceGroupIDs := u |}) _).
  by intros [].
Defined.

(** ** The instance *)

(** A key: its encryption type and its identity. *)
Abbreviation SymKey := (Z * Z)%type.
(** A cipher text: plain text, key, usage, key version. *)
Abbreviation SymCipher := (bytes * SymKey * Z * Z)%type.
(** A keytab: name components, realm, etype, key, version. *)
Abbreviation SymKeytab := (list (list string * string * Z * SymKey * Z))%type.
(** An authenticator: client name and realm; an AP-REQ: encoded ticket, key, authenticator. *)
Abbreviation SymAuth := (string * PrincipalName)%type.
Abbreviation SymAPReq := ((Z * string * PrincipalName * SymCipher) * SymKey * SymAuth)%type.
Abbreviation SymPrincipal := (PrincipalName * string)%type.
Abbreviation SymCCCred := (SymPrincipal * SymPrincipal * SymKey * Time * Time * Time * Time * bytes)%type.
Abbreviation SymCCache := (option SymPrincipal * list SymCCCred)%type.

#[export] Instance sym_types : Krb5Types := {
  EncryptionKey := SymKey;
  KeyType := fst;
  EncryptedData := SymCipher;
  Etype := Z;
  KrbFlags := unit;
  TransitedEncoding := unit;
  PAC := option KerbValidationInfo * option ClientInfo;
  Authenticator := SymAuth;
  APReq := SymAPReq;
  CCPrincipal := SymPrincipal;
  CCache := SymCCache;
  Keytab := SymKeytab;
  KRB_NT_PRINCIPAL := 1;
  KRB_NT_SRV_HST := 3;
  AES256_CTS_HMAC_SHA1_96 := 18;
  KDC_REP_TICKET := 2;
  ADWin2KPAC := 128;
  ADIfRelevant := 1;
  PVNO := 5;
  EncTicketPartTag := 3;
}.

Abbreviation EtpTuple := ((string * PrincipalName * SymKey)
                          * (Time * Time * Time * Time * AuthorizationData))%type.

Definition etp_tuple (e : EncTicketPart) : EtpTuple :=
  ((CRealm e, CName e, Key e : SymKey),
   (etp_AuthTime e, etp_StartTime e, etp_EndTime e, etp_RenewTill e, etp_AuthorizationData e)).

Definition tuple_etp (x : EtpTuple) : EncTicketPart :=
  let '((r, n, k), (a, s, e, t, d)) := x in
  {| Flags := tt; Key := k; CRealm := r; CName := n; Transited := tt; etp_AuthTime := a;
     etp_StartTime := s; etp_EndTime := e; etp_RenewTill := t; etp_AuthorizationData := d |}.

Definition ticket_tuple (t : Ticket) : Z * string * PrincipalName * SymCipher :=
  (TktVNO t, tkt_Realm t, SName t, EncPart t).

Definition tuple_ticket (x : Z * string * PrincipalName * SymCipher) : Ticket :=
  let '(v, r, n, e) := x in {| TktVNO := v; tkt_Realm := r; SName := n; EncPart := e |}.

Definition tuple_cccred (x : SymCCCred) : CCCredential :=
  let '(c, s, k, a, st, e, r, t) := x in
  {| cc_Client := c; cc_Server := s; cc_Key := k; cc_AuthTime := a; cc_StartTime := st;
     cc_EndTime := e; cc_RenewTill := r; cc_TicketFlags := tt; cc_Ticket := t |}.

Definition cccred_tuple (c : CCCredential) : SymCCCred :=
  (cc_Client c, cc_Server c, cc_Key c, cc_AuthTime c, cc_StartTime c, cc_EndTime c,
   cc_RenewTill c, cc_Ticket c).

#[export] Instance sym_krb5 : Krb5 := {
  GetEtype e := if e =? 18 then Ok e else Err (External "unknown etype");
  NewKrbFlags := tt;
  emptyTransited := tt;
  Marshal_AuthorizationData ad := Ok (enc ad);
  Marshal_EncTicketPart e := Ok (enc (etp_tuple (etp_view e)));
  AddASNAppTag b _ := b;
  Ticket_Marshal t := Ok (enc (ticket_tuple t));
  NewPAC := (None, None);
  WithKerbValidationInfo p k := (Some k, p.2);
  WithClientInfo p c := (p.1, Some c);
  SignAndMarshal p skey kdckey :=
    match p with
    | (Some k, Some c) => Ok (enc (k, c, skey : SymKey, kdckey : SymKey))
    | _ => Err (External "incomplete PAC")
    end;
  GetFileTime t := {| LowDateTime := uint32 (sec t); HighDateTime := 0 |};
  APReq_Marshal a := Ok (enc (a : SymAPReq));
  NewPrincipal n r := (n, r);
  NewV4CCache := (None, []);
  SetDefaultPrincipal c p := (Some p, c.2);
  AddCredential c cr := (c.1, c.2 ++ [cccred_tuple (cc_view cr)]);
  CCache_Marshal c := Ok (enc (c : SymCCache));
  GetEncryptionKey kt pn realm _ etype :=
    match filter (λ '(n, r, e, _, _), n = NameString pn ∧ r = realm ∧ e = etype)
            (kt : SymKeytab) with
    | (_, _, _, k, v) :: _ => Ok (k, v)
    | [] => Err (External "matching key not found in keytab")
    end;
  ParseSPNString s :=
    let '(name, realm, _) := Cut "@" s in ({| NameType := 1; NameString := Split "/" name |}, realm);
}.

(** A world: the clock, in seconds, and a supply of fresh keys. *)
Record SymWorld := { sw_clock : Z; sw_seed : Z; sw_disk : gmap string FileEntry }.

#[export] Instance sym_eff : Krb5Eff SymWorld := {
  GenerateEncryptionKey et w :=
    (Ok (et, sw_seed w),
     {| sw_clock := sw_clock w; sw_seed := sw_seed w + 1; sw_disk := sw_disk w |});
  GetEncryptedData plain key usage kvno w := (Ok (plain, key, usage, kvno), w);
  NewAuthenticator realm name w := (Ok (realm, name), w);
  NewAPReq t key auth w := (Ok (ticket_tuple t, key, auth), w);
  keytab_Load path w :=
    (match (b ← contents <$> sw_disk w !! path; (dec b : option SymKeytab)) with
     | Some kt => Ok kt
     | None => Err (External "no keytab")
     end, w);
}.

(** The process started at this instant; monotonic readings count from it. *)
Definition sym_boot : Z := 63000000000.

#[export] Instance sym_clock : Clock SymWorld := {
  Now w := ({| sec := sw_clock w; nsec := 0; mono := Some ((sw_clock w - sym_boot) * Second);
               loc := Local |},
            {| sw_clock := sw_clock w + 1; sw_seed := sw_seed w; sw_disk := sw_disk w |});
}.

(** ** The reading side *)

#[export] Instance sym_acceptor : Acceptor := {
  DecryptEncPart ed key usage :=
    let '(plain, key', usage', _) := (ed : SymCipher) in
    if bool_decide (key' = key ∧ usage' = usage) then Some plain else None;
  Unmarshal_EncTicketPart b := tuple_etp <$> (dec b : option EtpTuple);
  Unmarshal_AuthorizationData b := dec b;
  VerifyPAC b skey kdckey :=
    '(k, c, skey', kdckey') ← (dec b : option (_ * _ * SymKey * SymKey));
    if bool_decide (skey' = skey ∧ kdckey' = kdckey) then Some (k, c) else None;
  Unmarshal_Ticket b := tuple_ticket <$> dec b;
  Unmarshal_CCache b :=
    match (dec b : option SymCCache) with
    | Some (Some p, cs) => Some (p, map tuple_cccred cs)
    | _ => None
    end;
  Unmarshal_APReq b := (dec b : option SymAPReq);
  APReq_Ticket a := tuple_ticket (a : SymAPReq).1.1;
  DecryptAuthenticator a key :=
    if bool_decide ((a : SymAPReq).1.2 = key) then Some (a : SymAPReq).2 else None;
  auth_CRealm := fst;
  auth_CName := snd;
}.

Lemma tuple_etp_tuple e : tuple_etp (etp_tuple e) = e.
Proof. destruct e as [f k r n t a s en rt d]. by destruct f, t. Qed.

#[export] Program Instance sym_acceptor_laws : AcceptorLaws SymWorld.
Next Obligation.
  intros plain key usage kvno w ed w' [= <- <-]. simpl. by rewrite bool_decide_true.
Qed.
Next Obligation.
  intros etp b [= <-] _. simpl. rewrite dec_enc. cbn [fmap option_fmap option_map].
  f_equal. apply tuple_etp_tuple.
Qed.
Next Obligation. intros ad b [= <-]. simpl. apply dec_enc. Qed.
Next Obligation.
  intros kvi ci skey kdckey b [= <-]. unfold VerifyPAC, sym_acceptor. rewrite dec_enc.
  cbn [mbind option_bind]. by rewrite bool_decide_true.
Qed.
Next Obligation.
  intros t b [= <-]. unfold Unmarshal_Ticket, sym_acceptor. rewrite dec_enc. by destruct t.
Qed.
Next Obligation.
  intros p c b [= <-]. unfold Unmarshal_CCache, sym_acceptor. rewrite dec_enc.
  destruct c as [? ? ? ? ? ? ? f ?]. by destruct f.
Qed.
Next Obligation. intros ap b [= <-]. apply (dec_enc (ap : SymAPReq)). Qed.
Next Obligation.
  intros t key auth w ap w' [= <- <-]. simpl. rewrite bool_decide_true by done. by destruct t.
Qed.
Next Obligation. by intros realm name w auth w' [= <- <-]. Qed.
Next Obligation. done. Qed.

(** ** The fixtures' side *)

(** A disk without faults. *)
#[export] Instance sym_disk : Disk SymWorld := {
  disk := sw_disk;
  set_disk d w := {| sw_clock := sw_clock w; sw_seed := sw_seed w; sw_disk := d |};
  create_fault _ _ := None;
  write_fault _ _ _ := None;
  close_fault _ _ := None;
}.

#[export] Instance sym_disk_laws : DiskLaws SymWorld.
Proof. by constructor. Qed.

(** The key of a principal: a number made of its name and password. *)
Fixpoint sym_string2key (s : string) : Z :=
  match s with EmptyString => 0 | String c s => byte_val c + 257 * sym_string2key s end.

#[export] Instance sym_tools : Krb5Tools := {
  keytab_New := [];
  AddEntry kt principal realm password _ kvno etype :=
    Ok ((kt : SymKeytab) ++
        [(Split "/" principal, realm, etype,
          (etype, sym_string2key (principal +:+ "@" +:+ realm +:+ ":" +:+ password)), kvno)]);
  KeyValue k := enc (snd k : Z);
  Cipher ed := enc (ed : SymCipher);
  DecryptMessage b key usage :=
    match (dec b : option SymCipher) with
    | Some (plain, key', usage', _) =>
      if bool_decide (key' = key ∧ usage' = usage) then Ok plain
      else Err (External "integrity check failed")
    | None => Err (External "integrity check failed")
    end;
  PACType := KerbValidationInfo * ClientInfo * SymKey * SymKey;
  PACType_Unmarshal b :=
    match (dec b : option (KerbValidationInfo * ClientInfo * SymKey * SymKey)) with
    | Some pt => Ok pt
    | None => Err (External "malformed PAC")
    end;
  ProcessPACInfoBuffers pt key :=
    let '(kvi, _, skey, _) := pt in
    if bool_decide (skey = key) then Ok kvi else Err (External "PAC service checksum is not valid");
  SID_String sid :=
    print_sid (Z.to_N (default 0 (last (IdentifierAuthority sid)))) (map Z.to_N (SubAuthority sid));
  GetGroupMembershipSIDs kvi :=
    map (λ m, print_sid (Z.to_N (default 0 (last (IdentifierAuthority (LogonDomainID kvi)))))
                (map Z.to_N (SubAuthority (LogonDomainID kvi)))
              +:+ "-" +:+ pretty (RelativeID m)) (GroupIDs kvi);
}.

#[export] Instance sym_tools_eff : Krb5ToolsEff SymWorld := {
  Keytab_Write kt f := File_Write f (enc (kt : SymKeytab));
}.

#[export] Program Instance sym_tools_laws : Krb5ToolsLaws SymWorld.
Next Obligation.
  intros kt f w w' e He Hc [= <-]. exists (enc (kt : SymKeytab)). split.
  - pose proof (append_file_disk f (enc (kt : SymKeytab)) w e He) as Hd. rewrite Hc in Hd. exact Hd.
  - intros path w2 Hb. unfold file_bytes in Hb. cbn in Hb |- *. rewrite Hb.
    cbn [mbind option_bind]. by rewrite dec_enc.
Qed.
Next Obligation.
  intros plain key usage kvno w ed w' [= <- <-]. unfold DecryptMessage, Cipher, sym_tools.
  rewrite dec_enc. by rewrite bool_decide_true.
Qed.
Next Obligation.
  intros kvi ci skey kdckey b [= <-]. eexists. unfold PACType_Unmarshal, sym_tools.
  rewrite dec_enc. split; [done|]. simpl. by rewrite bool_decide_true.
Qed.
Next Obligation.
  intros auth subs n _ _. simpl. rewrite N2Z.id. f_equal.
  induction subs; simpl; [done|]. by rewrite N2Z.id, IHsubs.
Qed.
Next Obligation. done. Qed.
Next Obligation.
  intros realm Hs Ha. simpl.
  assert (Cut "@" ("krbtgt/" +:+ realm) = ("krbtgt/" +:+ realm, "", false)) as E.
  { apply Cut_none. by rewrite has_byte_app. }
  simpl in E. rewrite E. cbn [Split bool_decide]. by rewrite (Split_none _ _ Hs).
Qed.

#[export] Instance sym_frame : Krb5Frame SymWorld.
Proof. by constructor. Qed.
