(* ===== verification/Credential.v ===== *)
(** * Credential: the validated identity and the issued credential

    identity.go and credential.go: the token's subject as the rest of the
    program sees it, and the credential it hands out, which carries a ccache,
    an AP-REQ, or both. *)
From S2P Require Import Prelude Errors GoTime Principal.

(** ** identity.go *)

Record Identity := {
  Subject : string;
  Claims : bytes;       (** raw claims JSON *)
  Expiry : Time;
}.

#[export] Instance Identity_eq_dec : EqDecision Identity.
Proof. solve_decision. Defined.

(** ** credential.go *)

Definition ErrNoCCache : error :=
  Sentinel "ErrNoCCache" "kerbexchange: credential has no ccache".
Definition ErrNoAPReq : error :=
  Sentinel "ErrNoAPReq" "kerbexchange: credential has no AP-REQ".

(** The struct's fields are unexported and never assigned after construction:
    a [*Credential] is a value. A nil slice is the empty byte string. *)
Record Credential := {
  cred_subject : string;
  cred_target : ServicePrincipal;
  cred_expiry : Time;
  cred_ccache : bytes;
  cred_apreq : bytes;
}.

#[export] Instance Credential_eq_dec : EqDecision Credential.
Proof. solve_decision. Defined.

Definition NewCredential (subject : string) (target : ServicePrincipal) (expiry : Time)
    (ccache apreq : bytes) : Credential :=
  {| cred_subject := subject; cred_target := target; cred_expiry := expiry;
     cred_ccache := ccache; cred_apreq := apreq |}.

Definition cred_Subject (c : Credential) : string := cred_subject c.
Definition cred_Target (c : Credential) : ServicePrincipal := cred_target c.
Definition cred_Expiry (c : Credential) : Time := cred_expiry c.

Definition cred_CCache (c : Credential) : result bytes :=
  if len (cred_ccache c) =? 0 then Err ErrNoCCache else Ok (cred_ccache c).

Definition cred_APReq (c : Credential) : result bytes :=
  if len (cred_apreq c) =? 0 then Err ErrNoAPReq else Ok (cred_apreq c).

Lemma cred_CCache_Ok c b : cred_CCache c = Ok b ↔ cred_ccache c = b ∧ b ≠ "".
Proof.
  unfold cred_CCache. destruct (Z.eqb_spec (len (cred_ccache c)) 0) as [E|E];
    rewrite len_zero in E; (split; [intros [= ?]|intros [? ?]]); subst; done.
Qed.

Lemma cred_APReq_Ok c b : cred_APReq c = Ok b ↔ cred_apreq c = b ∧ b ≠ "".
Proof.
  unfold cred_APReq. destruct (Z.eqb_spec (len (cred_apreq c)) 0) as [E|E];
    rewrite len_zero in E; (split; [intros [= ?]|intros [? ?]]); subst; done.
Qed.
