(* ===== verification/Cache.v ===== *)
(** * Cache: the credential cache (cache.go)

    The interface [Cache], its in-memory implementation [MemoryCache] and the
    key [CacheKey].  [MemoryCache] holds its mutex for the whole of [Get] and
    [Put], so each is one atomic step.  It is shown to implement a cache that
    never evicts and hides what has expired; the key is shown to separate
    requests as long as no subject holds a NUL byte, and not otherwise. *)
From S2P Require Import Prelude Errors GoText GoTime Principal Request Krb5 Credential.

(** ** The interface *)

(** A cache with state [C] in an environment [W]. *)
Class Cache (C W : Type) := {
  cache_Get : string → C → W → option Credential * C * W;
  cache_Put : string → Credential → C → W → C * W;
}.

(** What a client relies on: whatever [Get] returns was put under that key. *)
Class CacheLaws (C W : Type) `{Cache C W} := {
  (** the credentials a state may still return for a key *)
  cache_holds : C → string → Credential → Prop;
  cache_Get_holds k c w r c' w' :
    cache_Get k c w = (Some r, c', w') → cache_holds c k r;
  cache_Get_frame k c w o c' w' k' r :
    cache_Get k c w = (o, c', w') → cache_holds c' k' r → cache_holds c k' r;
  cache_Put_frame k v c w c' w' k' r :
    cache_Put k v c w = (c', w') → cache_holds c' k' r →
    (k' = k ∧ r = v) ∨ cache_holds c k' r;
}.

(** ** MemoryCache *)

Record MemoryCache := {
  store : gmap string Credential;
}.

Definition NewMemoryCache : MemoryCache := {| store := ∅ |}.

Section memory_cache.
Context {W : Type} `{Clock W}.

(** [Get]: the clock is read only when the key is present. *)
Definition MemoryCache_Get (key : string) (m : MemoryCache) (w : W)
    : option Credential * MemoryCache * W :=
  match store m !! key with
  | None => (None, m, w)
  | Some cred =>
    let '(now, w') := Now w in
    if Before (cred_Expiry cred) now
    then (None, {| store := delete key (store m) |}, w')
    else (Some cred, m, w')
  end.

Definition MemoryCache_Put (key : string) (cred : Credential) (m : MemoryCache) (w : W)
    : MemoryCache * W :=
  ({| store := <[key := cred]> (store m) |}, w).

#[export] Instance MemoryCache_Cache : Cache MemoryCache W := {
  cache_Get := MemoryCache_Get;
  cache_Put := MemoryCache_Put;
}.
End memory_cache.

(** ** CacheKey *)

Definition NUL : string := String Ascii.zero "".

Definition CacheKey (subject : string) (spn : ServicePrincipal) (output : OutputType) : string :=
  subject +:+ NUL +:+ SPN_String spn +:+ NUL +:+ OutputType_String output.

(** ** Specification: a cache that keeps everything and hides the expired *)

Module CacheSpec.
Abbreviation state := (gmap string Credential).

Definition get (key : string) (now : Time) (s : state) : option Credential :=
  cred ← s !! key;
  if Before (cred_Expiry cred) now then None else Some cred.

Definition put (key : string) (cred : Credential) (s : state) : state := <[key := cred]> s.
End CacheSpec.

(** An environment that is one clock reading: the one a call of the cache makes
    inside its critical section. *)
Definition reading : Clock Time := {| Now t := (t, t) |}.

(** A run of the cache: its calls in the order the mutex admitted them, each
    [Get] with the clock reading of its critical section. *)
Inductive cache_op :=
| OpGet (key : string) (now : Time)
| OpPut (key : string) (cred : Credential).

Fixpoint run_cache (ops : list cache_op) (m : MemoryCache) : list (option Credential) :=
  match ops with
  | [] => []
  | OpGet k now :: ops' =>
    let '(r, m', _) := @MemoryCache_Get Time reading k m now in r :: run_cache ops' m'
  | OpPut k c :: ops' => run_cache ops' (MemoryCache_Put k c m zeroTime).1
  end.

Fixpoint run_spec (ops : list cache_op) (s : CacheSpec.state) : list (option Credential) :=
  match ops with
  | [] => []
  | OpGet k now :: ops' => CacheSpec.get k now s :: run_spec ops' s
  | OpPut k c :: ops' => run_spec ops' (CacheSpec.put k c s)
  end.

(** The clock readings of a run never go back, starting from [t0]; the stored
    expiries are wall-clock times (as the minter makes them). *)
Fixpoint clock_ok (t0 : Z) (ops : list cache_op) : Prop :=
  match ops with
  | [] => True
  | OpGet _ now :: ops' => Time_ok now ∧ t0 ≤ instant now ∧ clock_ok (instant now) ops'
  | OpPut _ c :: ops' =>
      Time_ok (cred_expiry c) ∧ wall_only (cred_expiry c) ∧ clock_ok t0 ops'
  end.

(** ** Lemmas *)

Section memory_cache_lemmas.
Context {W : Type} `{Clock W}.

#[export] Program Instance MemoryCache_laws : CacheLaws MemoryCache W := {
  cache_holds m k c := store m !! k = Some c;
}.
Next Obligation.
  intros k m w r m' w'. simpl. unfold MemoryCache_Get.
  destruct (store m !! k); [|done]. destruct (Now w), (Before _ _); by intros; simplify_eq.
Qed.
Next Obligation.
  intros k m w o m' w' k' r. simpl. unfold MemoryCache_Get.
  destruct (store m !! k); [|by intros; simplify_eq].
  destruct (Now w), (Before _ _); intros; simplify_eq/=; [|done].
  by apply lookup_delete_Some in H1 as [_ ?].
Qed.
Next Obligation.
  intros k v m w m' w' k' r. simpl. unfold MemoryCache_Put. intros [= <- <-]. simpl.
  rewrite lookup_insert_Some. intros [[<- <-] | [_ ?]]; [by left | by right].
Qed.
End memory_cache_lemmas.

(** The eviction invariant: an entry the implementation lacks has expired. *)
Definition evicts (t0 : Z) (s : CacheSpec.state) (m : MemoryCache) : Prop :=
  ∀ k, (store m !! k = s !! k ∨
        store m !! k = None ∧ ∃ c, s !! k = Some c ∧ instant (cred_expiry c) < t0) ∧
       (∀ c, s !! k = Some c → Time_ok (cred_expiry c) ∧ wall_only (cred_expiry c)).

Lemma evicts_mono t0 t1 s m : t0 ≤ t1 → evicts t0 s m → evicts t1 s m.
Proof.
  intros Ht H k. destruct (H k) as [[Hk | (Hk & c & Hc & Hlt)] Hok]; (split; [|done]).
  - by left.
  - right. split; [done|]. exists c. split; [done|lia].
Qed.

Lemma evicts_put t0 s m k c :
  Time_ok (cred_expiry c) → wall_only (cred_expiry c) → evicts t0 s m →
  evicts t0 (CacheSpec.put k c s) (MemoryCache_Put k c m zeroTime).1.
Proof.
  intros Hok Hw H k'. unfold CacheSpec.put. cbn [MemoryCache_Put fst store]. destruct (decide (k = k')) as [<-|Hne].
  - rewrite !lookup_insert_eq. split; [by left|]. by intros ? [= <-].
  - rewrite !lookup_insert_ne by done. apply H.
Qed.

Lemma evicts_get t0 s m k now r m' :
  Time_ok now → t0 ≤ instant now → evicts t0 s m →
  (@MemoryCache_Get Time reading k m now).1 = (r, m') →
  r = CacheSpec.get k now s ∧ evicts (instant now) s m'.
Proof.
  intros Hnow Ht H Hget. apply (evicts_mono _ _ _ _ Ht) in H.
  destruct (H k) as [Hk Hok]. unfold MemoryCache_Get in Hget.
  cbn [Now reading] in Hget. unfold CacheSpec.get.
  destruct Hk as [Hk | (Hk & c & Hc & Hlt)]; rewrite Hk in Hget.
  - destruct (s !! k) as [c|] eqn:Hs; simplify_eq/=; [|done].
    destruct (Hok c eq_refl) as [Hcok Hcw].
    destruct (Before (cred_Expiry c) now) eqn:Hb; simplify_eq/=; [|done].
    split; [done|]. intros k'. destruct (decide (k = k')) as [<-|Hne].
    + simpl. rewrite lookup_delete_eq, Hs. split; [right|exact Hok].
      split; [done|]. exists c. split; [done|].
      apply (Before_instant (cred_Expiry c)); auto.
    + simpl. rewrite lookup_delete_ne by done. apply H.
  - simplify_eq/=. split; [|done]. rewrite Hc. simpl.
    destruct (Hok c Hc) as [Hcok Hcw].
    apply (Before_instant (cred_Expiry c) now) in Hlt; [by rewrite Hlt|auto..].
Qed.

Lemma run_cache_evicts ops t0 s m :
  evicts t0 s m → clock_ok t0 ops → run_cache ops m = run_spec ops s.
Proof.
  revert t0 s m. induction ops as [|[k now|k c] ops IH]; intros t0 s m H Hc; simpl in *; [done|..].
  - destruct Hc as (Hnow & Ht & Hc). pose proof (evicts_get t0 s m k now) as Hget.
    destruct (MemoryCache_Get k m now) as [[r m'] now'].
    destruct (Hget r m' Hnow Ht H eq_refl) as [-> H'].
    f_equal. by apply (IH (instant now)).
  - destruct Hc as (Hok & Hw & Hc). by apply (IH t0); [apply evicts_put|].
Qed.

(** Splitting at a separator that occurs in neither suffix. *)
Lemma str_sep_inj_r c s t s' t' :
  has_byte c t = false → has_byte c t' = false →
  s +:+ String c t = s' +:+ String c t' → s = s' ∧ t = t'.
Proof.
  assert (∀ s t t', has_byte c t' = false → s +:+ String c t ≠ t') as Hno.
  { intros u v v' Hv' <-. rewrite has_byte_app in Hv'. simpl in Hv'.
    rewrite bool_decide_true, orb_true_r in Hv' by done. done. }
  intros Ht Ht'. revert s'.
  induction s as [|d s IH]; intros [|d' s'] H; simpl in *.
  - by injection H as ->.
  - injection H as _ H. by destruct (Hno s' t' t).
  - injection H as _ H. by destruct (Hno s t t').
  - injection H as -> H. by destruct (IH _ H) as [-> ->].
Qed.

Lemma CacheKey_inj s p o s' p' o' :
  has_byte Ascii.zero s = false → has_byte Ascii.zero s' = false →
  CacheKey s p o = CacheKey s' p' o' →
  s = s' ∧ SPN_String p = SPN_String p' ∧ o = o'.
Proof.
  intros Hs Hs' H. unfold CacheKey, NUL in H.
  apply str_sep_inj in H as [-> H]; [|done..].
  apply str_sep_inj_r in H as [? H]; [|apply OutputType_String_no_nul..].
  by apply (inj OutputType_String) in H.
Qed.

(** ** Properties *)

(** C27. [MemoryCache], which deletes an expired entry when a [Get] meets it,
    answers every sequence of calls exactly as a cache that keeps every
    credential ever put and only hides the expired ones, provided the clock
    readings of the calls never go back: lazy eviction is not observable. *)
Theorem MemoryCache_refines ops t0 :
  clock_ok t0 ops → run_cache ops NewMemoryCache = run_spec ops ∅.
Proof.
  apply run_cache_evicts. intros k. simpl. rewrite lookup_empty. by split; [left|].
Qed.

(** A credential [MemoryCache.Get] returns is the one stored under the key,
    its expiry has not passed at the instant [Get] read the clock, and the
    store is unchanged; a miss removes the entry under the key if there is one
    and touches no other key. *)
Theorem MemoryCache_Get_spec {W : Type} `{Clock W} key m w r m' w' :
  MemoryCache_Get key m w = (r, m', w') →
  match r with
  | Some c => store m !! key = Some c ∧ m' = m ∧
              ∃ now, Now w = (now, w') ∧ Before (cred_Expiry c) now = false
  | None => store m' = delete key (store m)
  end.
Proof.
  unfold MemoryCache_Get. destruct (store m !! key) as [c|] eqn:Hc.
  - destruct (Now w) as [now w1]. destruct (Before _ _) eqn:Hb; intros; simplify_eq/=; eauto.
  - intros; simplify_eq. by rewrite delete_id.
Qed.

(** C28. Cache keys separate requests: for subjects without a NUL byte and
    well-formed principals, equal keys mean the same subject, the same
    principal and the same output type. *)
Theorem CacheKey_injective s p o s' p' o' :
  has_byte Ascii.zero s = false → has_byte Ascii.zero s' = false →
  wf_spn p → wf_spn p' →
  CacheKey s p o = CacheKey s' p' o' → s = s' ∧ p = p' ∧ o = o'.
Proof.
  intros Hs Hs' Hp Hp' H. destruct (CacheKey_inj _ _ _ _ _ _ Hs Hs' H) as (? & Hpp & ?).
  split_and!; [done| |done]. by apply SPN_String_inj.
Qed.

(** The separators alone do not separate requests: a subject holding a NUL
    byte collides with another subject asking for another well-formed
    principal, which the parser accepts. *)
Theorem CacheKey_collides :
  ∃ s p s' p', s ≠ s' ∧ p ≠ p' ∧
    ParseServicePrincipal (SPN_String p) = Ok p ∧
    ParseServicePrincipal (SPN_String p') = Ok p' ∧
    CacheKey s p OutputCCache = CacheKey s' p' OutputCCache.
Proof.
  exists "alice",
    {| Service := "imap" +:+ NUL +:+ "smtp"; Host := "h"; Realm := "" |},
    ("alice" +:+ NUL +:+ "imap"),
    {| Service := "smtp"; Host := "h"; Realm := "" |}.
  split_and!; by vm_compute.
Qed.

(** ** Witnesses *)

(** A clock that ticks one second per reading. *)
#[local] Instance tick : Clock Z := {
  Now w := ({| sec := w; nsec := 0; mono := None; loc := Local |}, w + 1);
}.

Definition sample_cred (t : Z) : Credential :=
  NewCredential "alice" {| Service := "imap"; Host := "h"; Realm := "R" |} (UTC (Unix t)) "cc" "".

Lemma MemoryCache_refines_witness :
  let ops := [OpPut "k" (sample_cred 10); OpGet "k" (Unix 5); OpGet "k" (Unix 20);
              OpPut "j" (sample_cred 30); OpGet "j" (Unix 25)] in
  run_cache ops NewMemoryCache = run_spec ops ∅.
Proof.
  intros ops. apply (MemoryCache_refines ops 0).
  assert (∀ t, Time_ok (cred_expiry (sample_cred t)) ∧ wall_only (cred_expiry (sample_cred t)))
    as Hc by (intros t; split; [apply UTC_ok, Unix_ok | done]).
  unfold ops. cbn [clock_ok].
  split_and!; [apply Hc|apply Hc|apply Unix_ok|by vm_compute|apply Unix_ok|by vm_compute
              |apply Hc|apply Hc|apply Unix_ok|by vm_compute|exact I].
Defined.

Lemma MemoryCache_Get_spec_witness :
  let m := {| store := {["k" := sample_cred 10]} |} in
  store m !! "k" = Some (sample_cred 10) ∧ m = m ∧
  ∃ now, Now 5 = (now, 6) ∧ Before (cred_Expiry (sample_cred 10)) now = false.
Proof.
  intros m. exact (MemoryCache_Get_spec "k" m 5 (Some (sample_cred 10)) m 6 eq_refl).
Defined.

Lemma CacheKey_injective_witness :
  let p := {| Service := "imap"; Host := "h"; Realm := "R" |} in
  "alice" = "alice" ∧ p = p ∧ OutputAPReq = OutputAPReq.
Proof.
  intros p. apply (CacheKey_injective "alice" p OutputAPReq "alice" p OutputAPReq);
    try reflexivity; repeat split; vm_compute; congruence.
Defined.
