(* ===== verification/Claims.v ===== *)
(** * Claims: groups and scopes of a token, and their intersection

    claimsmap.go ([DefaultClaimsMapper]) reads group names and granted scopes
    out of the claims JSON; scopefilter.go ([ConfigMapFilter]) keeps the groups
    a granted scope admits. *)
From S2P Require Import Prelude Errors GoText GoTime Credential GoJson.

(** ** claimsmap.go *)

(** The interface's method [Map]: subject, group names, granted scopes. *)
Definition ClaimsMapper : Type := Identity → result (string * list string * list string).

Record DefaultClaimsMapper := {
  GroupsClaim : string;
}.

Definition is_sep (r : Z) : bool := (r =? 32) || (r =? 44).

Definition stringOrList (raw : bytes) : result (list string) :=
  if len raw =? 0 then Ok []
  else match Unmarshal_strings raw with
  | Ok list => Ok (filter (λ s, TrimSpace s ≠ "") list)
  | Err _ =>
    match Unmarshal_string raw with
    | Ok s => Ok (FieldsFunc is_sep s)
    | Err _ => Err (Errorf [Lit "kerbexchange: claim value is not a string or list of strings"])
    end
  end.

Definition parse_claim_error (e : error) : error :=
  Errorf [Lit "kerbexchange: parse claim: "; Fw e].

Definition Map (m : DefaultClaimsMapper) : ClaimsMapper := λ id,
  let groupsClaim := if bool_decide (GroupsClaim m = "") then "groups" else GroupsClaim m in
  fields ← (if 0 <? len (Claims id)
            then map_err (λ e, Errorf [Lit "kerbexchange: parse claims: "; Fw e])
                         (Unmarshal_map (Claims id))
            else Ok ∅);
  groups ← map_err parse_claim_error (stringOrList (default "" (fields !! groupsClaim)));
  scopes ← map_err parse_claim_error (stringOrList (default "" (fields !! "scope")));
  Ok (Subject id, groups, scopes).

(** ** scopefilter.go *)

(** The interface's method [Admit]. *)
Definition ScopeFilter : Type := list string → list string → list string.

Record ConfigMapFilter := {
  ScopeGroups : gmap string (list string);
}.

(** [for _, s := range grantedScopes { for _, g := range f.ScopeGroups[s] { ... } }] *)
Definition admitted_set (f : ConfigMapFilter) (grantedScopes : list string) : gset string :=
  foldl (λ admitted s,
           foldl (λ admitted g, {[g]} ∪ admitted) admitted (default [] (ScopeGroups f !! s)))
        ∅ grantedScopes.

Definition Admit (f : ConfigMapFilter) : ScopeFilter := λ grantedScopes candidateGroups,
  let admitted := admitted_set f grantedScopes in
  foldl (λ out g, if bool_decide (g ∈ admitted) then out ++ [g] else out) [] candidateGroups.

(** ** Specifications *)

(** Some granted scope lists the group. *)
Definition admits (f : ConfigMapFilter) (scopes : list string) (g : string) : Prop :=
  Exists (λ s, g ∈ default [] (ScopeGroups f !! s)) scopes.

#[export] Instance admits_dec f scopes g : Decision (admits f scopes g).
Proof. unfold admits. apply _. Defined.

(** The claims object a token issuer writes: a groups array and a
    space-delimited scope string (RFC 6749, section 3.3). *)
Definition claims_members (claim : string) (groups scopes : list string)
    : list (string * (string * json)) :=
  [(claim, (print_strings groups, JArr (map JStr groups)));
   ("scope", (print_string (Join " " scopes), JStr (Join " " scopes)))].
Definition print_claims (claim : string) (groups scopes : list string) : bytes :=
  print_object (map member_text (claims_members claim groups scopes)).

(** What a claim's JSON value means as a list of names: [None] is a type error. *)
Fixpoint names_of (l : list json) : option (list string) :=
  match l with
  | [] => Some []
  | JStr s :: l' => ss ← names_of l'; Some (if bool_decide (TrimSpace s = "") then ss else s :: ss)
  | JNull :: l' => names_of l'
  | _ :: _ => None
  end.
Definition claim_value (v : json) : option (list string) :=
  match v with
  | JArr l => names_of l
  | JStr s => Some (FieldsFunc is_sep s)
  | JNull => Some []
  | _ => None
  end.
Definition claim_type_error : error :=
  Errorf [Lit "kerbexchange: claim value is not a string or list of strings"].

(** A scope token: non-empty, printable, without the delimiters. *)
Definition scope_token (s : string) : Prop :=
  s ≠ "" ∧ plain s ∧ has_byte " " s = false ∧ has_byte "," s = false.

(** ** Lemmas *)

Lemma elem_of_add_groups g gs (acc : gset string) :
  g ∈ foldl (λ admitted g, {[g]} ∪ admitted) acc gs ↔ g ∈ gs ∨ g ∈ acc.
Proof.
  revert acc. induction gs as [|g' gs IH]; intros acc; simpl; [set_solver|].
  rewrite IH. set_solver.
Qed.

Lemma elem_of_admitted_set f scopes g : g ∈ admitted_set f scopes ↔ admits f scopes g.
Proof.
  unfold admitted_set, admits.
  assert (∀ acc : gset string, g ∈ foldl (λ admitted s,
            foldl (λ admitted g, {[g]} ∪ admitted) admitted (default [] (ScopeGroups f !! s)))
            acc scopes ↔ Exists (λ s, g ∈ default [] (ScopeGroups f !! s)) scopes ∨ g ∈ acc) as H.
  { induction scopes as [|s scopes IH]; intros acc; simpl.
    - rewrite Exists_nil. set_solver.
    - rewrite IH, elem_of_add_groups, Exists_cons. tauto. }
  rewrite H. set_solver.
Qed.

Lemma Admit_filter f scopes groups : Admit f scopes groups = filter (admits f scopes) groups.
Proof.
  unfold Admit. set (P := admitted_set f scopes).
  assert (∀ acc, foldl (λ out g, if bool_decide (g ∈ P) then out ++ [g] else out) acc groups
                 = acc ++ filter (admits f scopes) groups) as H.
  { induction groups as [|g groups IH]; intros acc; [by rewrite app_nil_r|].
    simpl. rewrite IH, filter_cons. case_bool_decide as Hg; unfold P in Hg;
      rewrite elem_of_admitted_set in Hg.
    - rewrite decide_True by done. by rewrite <- app_assoc.
    - by rewrite decide_False. }
  apply H.
Qed.

Lemma stringOrList_strings l :
  Forall plain l → stringOrList (print_strings l) = Ok (filter (λ s, TrimSpace s ≠ "") l).
Proof.
  intros Hl. unfold stringOrList. rewrite (proj2 (Z.eqb_neq _ _)).
  - unfold Unmarshal_strings. rewrite parse_json_strings by done. simpl.
    by rewrite decode_elems_map.
  - unfold print_strings. by rewrite len_zero.
Qed.

Lemma plain_app s t : plain (s +:+ t) ↔ plain s ∧ plain t.
Proof.
  unfold plain. induction s as [|c s IH]; simpl; [naive_solver|].
  rewrite !andb_true_iff, IH. tauto.
Qed.

Lemma fields_segs_plain s l cur :
  plain s → has_byte " " s = false → has_byte "," s = false →
  fields_segs is_sep (rune_segs s ++ l) cur = fields_segs is_sep l (cur +:+ s).
Proof.
  revert cur. induction s as [|c s IH]; intros cur Hs Hsp Hco; simpl; [by rewrite str_app_nil_r|].
  apply plain_cons in Hs as [Hc Hs]. apply plain_byte_bounds in Hc.
  simpl in Hsp, Hco. apply orb_false_iff in Hsp as [Hsp Hsp'], Hco as [Hco Hco'].
  rewrite bool_decide_eq_false in Hsp, Hco.
  change (fields_segs is_sep (rune_segs (String c s) ++ l) cur
          = fields_segs is_sep l (cur +:+ String c s)).
  rewrite rune_segs_ascii by lia. simpl.
  assert (is_sep (byte_val c) = false) as ->.
  { unfold is_sep. apply orb_false_iff; split; apply Z.eqb_neq; intros E;
      [apply Hsp | apply Hco]; by apply byte_val_inj. }
  rewrite IH by done. by rewrite str_app_assoc.
Qed.

Lemma rune_segs_plain_app s t : plain s → rune_segs (s +:+ t) = rune_segs s ++ rune_segs t.
Proof.
  induction s as [|c s IH]; intros Hs; [done|].
  apply plain_cons in Hs as [Hc Hs]. apply plain_byte_bounds in Hc.
  change (String c s +:+ t) with (String c (s +:+ t)).
  rewrite !rune_segs_ascii by lia. by rewrite IH.
Qed.

Lemma FieldsFunc_Join ss : Forall scope_token ss → FieldsFunc is_sep (Join " " ss) = ss.
Proof.
  unfold FieldsFunc. induction 1 as [|s ss (Hne & Hp & Hsp & Hco) Hss IH]; [done|].
  destruct ss as [|s' ss].
  - simpl. rewrite <- (app_nil_r (rune_segs s)), fields_segs_plain by done.
    simpl. by rewrite bool_decide_false.
  - change (Join " " (s :: s' :: ss)) with (s +:+ String " " (Join " " (s' :: ss))).
    rewrite rune_segs_plain_app, fields_segs_plain by done.
    rewrite rune_segs_ascii by done. cbn [fields_segs String.append].
    change (is_sep (byte_val " ")) with true. cbn iota.
    rewrite bool_decide_false by done. by apply (f_equal (cons s)).
Qed.

Lemma plain_Join ss : Forall scope_token ss → plain (Join " " ss).
Proof.
  induction 1 as [|s ss (_ & Hp & _) Hss IH]; [done|].
  destruct ss as [|s' ss]; [done|].
  change (Join " " (s :: s' :: ss)) with (s +:+ (String " " "" +:+ Join " " (s' :: ss))).
  rewrite !plain_app. by split_and!.
Qed.

Lemma stringOrList_string ss :
  Forall scope_token ss → stringOrList (print_string (Join " " ss)) = Ok ss.
Proof.
  intros Hss. unfold stringOrList. rewrite (proj2 (Z.eqb_neq _ _)).
  - unfold Unmarshal_strings, Unmarshal_string.
    rewrite parse_json_string by (by apply plain_Join). simpl.
    by rewrite FieldsFunc_Join.
  - unfold print_string. by rewrite len_zero.
Qed.

Lemma good_claims_members claim groups scopes :
  plain claim → Forall plain groups → Forall scope_token scopes →
  Forall good_member (claims_members claim groups scopes).
Proof.
  intros Hc Hg Hs. repeat constructor; [done|by apply reads_as_strings|].
  by apply reads_as_string, plain_Join.
Qed.

(** An object that holds the groups and scope members, among others, is mapped
    as those two members say. *)
Lemma Map_members m id ms groups scopes :
  let claim := if bool_decide (GroupsClaim m = "") then "groups" else GroupsClaim m in
  Claims id = print_object (map member_text ms) → Forall good_member ms →
  members_map ms !! claim = Some (print_strings groups) →
  members_map ms !! "scope" = Some (print_string (Join " " scopes)) →
  Forall plain groups → Forall scope_token scopes →
  Map m id = Ok (Subject id, filter (λ s, TrimSpace s ≠ "") groups, scopes).
Proof.
  intros claim Hid Hms Hgl Hsl Hg Hs. unfold Map. fold claim. rewrite Hid.
  rewrite (proj2 (Z.ltb_lt 0 _)) by (unfold len; simpl; lia).
  unfold Unmarshal_map. rewrite parse_json_object by done.
  cbn [mbind result_bind decode_map map_err]. rewrite Hgl, Hsl. simpl.
  rewrite stringOrList_strings, stringOrList_string by done. done.
Qed.

Lemma Map_print_claims m id groups scopes :
  let claim := if bool_decide (GroupsClaim m = "") then "groups" else GroupsClaim m in
  Claims id = print_claims claim groups scopes →
  claim ≠ "scope" → plain claim → Forall plain groups → Forall scope_token scopes →
  Map m id = Ok (Subject id, filter (λ s, TrimSpace s ≠ "") groups, scopes).
Proof.
  intros claim Hid Hne Hc Hg Hs. eapply Map_members; [exact Hid|by apply good_claims_members|..];
    [| |done|done]; fold claim; clearbody claim;
    unfold claims_members, members_map; cbn [foldl fst snd].
  - rewrite lookup_insert_ne by (by intros <-). apply lookup_insert_eq.
  - apply lookup_insert_eq.
Qed.

Lemma decode_elems_names l :
  match decode_elems l with
  | Ok ss => names_of l = Some (filter (λ s, TrimSpace s ≠ "") ss)
  | Err _ => names_of l = None
  end.
Proof.
  induction l as [|v l IH]; [done|].
  destruct v as [|b|n|s|l'|ms]; simpl; try done.
  - destruct (decode_elems l) as [ss|e]; simpl; [|done].
    by rewrite IH, filter_cons_False by (vm_compute; tauto).
  - destruct (decode_elems l) as [ss|e]; simpl; rewrite IH; [|done]. simpl.
    rewrite filter_cons. case_bool_decide; case_decide; done.
Qed.

(** ** Properties *)

(** The claims an issuer writes - a JSON array of group names under the
    configured claim, and a space-delimited scope string - are read back
    exactly: the subject is the identity's, the groups are those of the array
    that are not blank, in order, and the scopes are the tokens of the string. *)
Theorem Map_roundtrip m id groups scopes :
  let claim := if bool_decide (GroupsClaim m = "") then "groups" else GroupsClaim m in
  Claims id = print_claims claim groups scopes →
  claim ≠ "scope" → plain claim → Forall plain groups → Forall scope_token scopes →
  Map m id = Ok (Subject id, filter (λ s, TrimSpace s ≠ "") groups, scopes).
Proof. apply Map_print_claims. Qed.

(** C38. A claim value is read by its JSON type alone: an array of strings
    (where a null element counts as an absent one) gives its non-blank
    strings, a string its fields between spaces and commas, null nothing; a
    number, a boolean, an object, an array holding any of these and malformed
    JSON are one and the same error. An absent claim gives nothing. *)
Theorem stringOrList_spec raw :
  stringOrList raw =
    if bool_decide (raw = "") then Ok []
    else match parse_json raw with
         | Ok v => match claim_value v with Some l => Ok l | None => Err claim_type_error end
         | Err _ => Err claim_type_error
         end.
Proof.
  unfold stringOrList, Unmarshal_strings, Unmarshal_string.
  case_bool_decide as Hraw; [by subst|].
  rewrite (proj2 (Z.eqb_neq _ _)) by (by rewrite len_zero).
  destruct (parse_json raw) as [v|e]; [|done]. simpl.
  destruct v as [|b|n|s|l|ms]; try done. simpl.
  pose proof (decode_elems_names l) as Hl.
  destruct (decode_elems l); by rewrite Hl.
Qed.

(** C39. [Admit] computes the intersection it is meant to: the candidates, in
    their order, that some granted scope lists; granting more scopes never
    removes a group, and granting none admits none. *)
Theorem Admit_spec f scopes groups :
  Admit f scopes groups = filter (admits f scopes) groups ∧
  (∀ scopes', scopes ⊆ scopes' → Admit f scopes groups `sublist_of` Admit f scopes' groups) ∧
  Admit f [] groups = [].
Proof.
  split_and!; [apply Admit_filter| |].
  - intros scopes' Hs. rewrite !Admit_filter.
    induction groups as [|g groups IH]; [done|]. rewrite !filter_cons.
    destruct (decide (admits f scopes g)) as [Hg|Hg].
    + rewrite decide_True; [by constructor|]. unfold admits in *.
      rewrite Exists_exists in *. destruct Hg as (s & Hin & Hs'). exists s. auto.
    + case_decide; [by constructor | done].
  - rewrite Admit_filter. induction groups as [|g groups IH]; [done|].
    rewrite filter_cons_False; [done|]. unfold admits. by intros Hex%Exists_nil.
Qed.

(** [Admit] does not remove duplicates: a group that occurs several times
    among the candidates occurs as often in the result. *)
Theorem Admit_keeps_duplicates f scopes g n :
  admits f scopes g → Admit f scopes (replicate n g) = replicate n g.
Proof.
  intros Hg. rewrite Admit_filter. induction n as [|n IH]; [done|].
  simpl. rewrite filter_cons_True by done. by rewrite IH.
Qed.

(** ** Witnesses *)

Lemma Map_roundtrip_witness :
  let id := {| Subject := "alice"; Expiry := zeroTime;
               Claims := print_claims "groups" ["mail-users"; " "; "staff"] ["s.read"; "s.write"] |} in
  Map {| GroupsClaim := "" |} id = Ok ("alice", ["mail-users"; "staff"], ["s.read"; "s.write"]).
Proof.
  intros id.
  apply (Map_roundtrip {| GroupsClaim := "" |} id ["mail-users"; " "; "staff"] ["s.read"; "s.write"]).
  - reflexivity.
  - discriminate.
  - reflexivity.
  - repeat constructor.
  - repeat constructor; discriminate.
Defined.

Lemma Admit_keeps_duplicates_witness :
  Admit {| ScopeGroups := {["s" := ["g"]]} |} ["s"] ["g"; "g"] = ["g"; "g"].
Proof.
  apply (Admit_keeps_duplicates {| ScopeGroups := {["s" := ["g"]]} |} ["s"] "g" 2).
  refine (bool_decide_eq_true_1 _ _). vm_compute. reflexivity.
Defined.

(** A whitespace-only name is dropped from an array but kept from a string,
    which is split at spaces and commas only; a null claim is no error. *)
Example stringOrList_tab :
  stringOrList (String DQ ("\t" +:+ String DQ "")) = Ok [String (byte 9) ""] ∧
  stringOrList (String "[" (String DQ ("\t" +:+ String DQ "]"))) = Ok [] ∧
  stringOrList "null" = Ok [].
Proof. by vm_compute. Qed.
