(* ===== verification/Pac.v ===== *)
(** * Pac: the synthetic PAC (pacbuilder.go)

    [parseDomainSID], the RID synthesis [ridFromName] (FNV-1a folded into a
    bounded range), [SyntheticPACBuilder.Build] and [NewSyntheticPACBuilder].
    32-bit and 16-bit fields wrap where Go's conversions do. *)
From S2P Require Import Prelude Errors GoText GoTime Krb5 Symbolic Credential GoJson Claims.

(** ** RID synthesis *)

(** hash/fnv: [New32a], [Write] and [Sum32]. *)
Fixpoint fnv32a_write (h : Z) (s : string) : Z :=
  match s with
  | EmptyString => h
  | String c s' => fnv32a_write (uint32 (Z.lxor h (byte_val c) * 16777619)) s'
  end.
Definition fnv32a (s : string) : Z := fnv32a_write 2166136261 s.

Definition ridSynthSpace : Z := 0x20000000.

Definition ridFromName (name : string) : Z := uint32 (1000 + fnv32a name mod ridSynthSpace).

Definition ridFromSubject (s : string) : Z := ridFromName s.

(** ** Strings *)

(** [uint16(len(utf16.Encode([]rune(s))) * 2)] *)
Definition utf16_byte_len (s : string) : Z := uint16 (utf16_len (runes s) * 2).

Definition rpcUnicode (s : string) : RPCUnicodeString :=
  let byteLen := utf16_byte_len s in
  {| Length := byteLen; MaximumLength := byteLen; Value := s |}.

Definition neverFileTime : FileTime :=
  {| LowDateTime := 0xFFFFFFFF; HighDateTime := 0x7FFFFFFF |}.
Definition zeroFileTime : FileTime := {| LowDateTime := 0; HighDateTime := 0 |}.

(** ** The domain SID *)

Fixpoint parse_subs (s : string) (i : Z) (parts : list string) : result (list Z) :=
  match parts with
  | [] => Ok []
  | p :: parts' =>
    v ← map_err (λ e, Errorf [Lit "kerbexchange: invalid domain SID "; Fq s;
                              Lit ": sub-authority "; Fd i; Lit ": "; Fw e])
                (ParseUint p 32);
    subs ← parse_subs s (i + 1) parts';
    Ok (uint32 v :: subs)
  end.

Definition parseDomainSID (s : string) : result RPCSID :=
  let s := TrimSpace s in
  let parts := Split "-" s in
  if (Z.of_nat (List.length parts) <? 7) || negb (bool_decide (parts !! 0%nat = Some "S"))
     || negb (bool_decide (parts !! 1%nat = Some "1"))
  then Err (Errorf [Lit "kerbexchange: invalid domain SID "; Fq s; Lit ": want S-1-5-21-a-b-c"])
  else
    authVal ← map_err (λ e, Errorf [Lit "kerbexchange: invalid domain SID "; Fq s;
                                    Lit ": authority: "; Fw e])
                      (ParseUint (default "" (parts !! 2%nat)) 64);
    if 0xFF <? authVal
    then Err (Errorf [Lit "kerbexchange: identifier authority "; Fd authVal;
                      Lit " out of range (only the low byte is representable here)"])
    else
      subs ← parse_subs s 0 (drop 3 parts);
      Ok {| Revision := 1;
            SubAuthorityCount := uint8 (Z.of_nat (List.length subs));
            IdentifierAuthority := [0; 0; 0; 0; 0; uint8 authVal];
            SubAuthority := subs |}.

(** ** The builder *)

Record SyntheticPACBuilder := {
  DomainSID : RPCSID;
  DefaultPrimaryGroupRID : Z;
  pb_GroupsClaim : string;
  GroupOverrides : gmap string Z;
  pb_ScopeFilter : option ScopeFilter;
  pb_Mapper : option ClaimsMapper;
}.

(** The interface's method [Build]. *)
Definition PACBuilder : Type := Identity → Time → result (KerbValidationInfo * ClientInfo).

Definition NewSyntheticPACBuilder (domainSID : string) : result SyntheticPACBuilder :=
  sid ← parseDomainSID domainSID;
  Ok {| DomainSID := sid; DefaultPrimaryGroupRID := 513; pb_GroupsClaim := "";
        GroupOverrides := ∅; pb_ScopeFilter := None; pb_Mapper := None |}.

Definition groupRID (b : SyntheticPACBuilder) (name : string) : Z :=
  match GroupOverrides b !! name with
  | Some rid => rid
  | None => ridFromName name
  end.

Definition membership (rid : Z) : GroupMembership := {| RelativeID := rid; Attributes := 0x7 |}.

(** [for _, g := range admitted { ... }] *)
Fixpoint add_groups (b : SyntheticPACBuilder) (admitted : list string) (seen : gset Z)
    (groupIDs : list GroupMembership) : list GroupMembership :=
  match admitted with
  | [] => groupIDs
  | g :: admitted' =>
    let rid := groupRID b g in
    if bool_decide (rid ∈ seen) then add_groups b admitted' seen groupIDs
    else add_groups b admitted' ({[rid]} ∪ seen) (groupIDs ++ [membership rid])
  end.

Definition build_mapper (b : SyntheticPACBuilder) : ClaimsMapper :=
  match pb_Mapper b with
  | Some mapper => mapper
  | None => Map {| GroupsClaim := pb_GroupsClaim b |}
  end.

Definition build_admitted (b : SyntheticPACBuilder) (grantedScopes groupNames : list string)
    : list string :=
  match pb_ScopeFilter b with
  | Some f => f grantedScopes groupNames
  | None => groupNames
  end.

Section build.
Context `{Krb5}.

Definition Build (b : SyntheticPACBuilder) : PACBuilder := λ id authTime,
  '(subject, groupNames, grantedScopes) ← build_mapper b id;
  let admitted := build_admitted b grantedScopes groupNames in
  let groupIDs :=
    add_groups b admitted {[DefaultPrimaryGroupRID b]} [membership (DefaultPrimaryGroupRID b)] in
  let uid := ridFromSubject subject in
  let kvi := {|
    LogOnTime := GetFileTime (UTC authTime);
    LogOffTime := neverFileTime;
    KickOffTime := neverFileTime;
    PasswordLastSet := zeroFileTime;
    PasswordCanChange := zeroFileTime;
    PasswordMustChange := neverFileTime;
    EffectiveName := rpcUnicode subject;
    UserID := uid;
    PrimaryGroupID := DefaultPrimaryGroupRID b;
    GroupCount := uint32 (Z.of_nat (List.length groupIDs));
    GroupIDs := groupIDs;
    UserFlags := 0;
    LogonDomainName := rpcUnicode "SYNTHETIC";
    LogonDomainID := DomainSID b;
    UserAccountControl := 0x10200;
    LastSuccessfulILogon := neverFileTime;
    LastFailedILogon := neverFileTime;
    SIDCount := 0;
    ExtraSIDs := [];
    ResourceGroupCount := 0;
    ResourceGroupIDs := [];
  |} in
  let ci := {|
    ClientID := GetFileTime (UTC authTime);
    NameLength := utf16_byte_len subject;
    Name := subject;
  |} in
  Ok (kvi, ci).
End build.

(** ** Specifications *)

(** The RIDs a PAC grants. *)
Definition pac_rids (kvi : KerbValidationInfo) : list Z := map RelativeID (GroupIDs kvi).

(** The RIDs of a list in the order of their first occurrence. *)
Definition first_occurrences (l : list Z) : list Z := reverse (remove_dups (reverse l)).

(** What the fields of a PAC must be for their declared types and for the NDR
    encoding, which writes every count and length beside what it counts. *)
Definition is_uint (w z : Z) : Prop := 0 ≤ z < 2 ^ w.

Definition filetime_typed (t : FileTime) : Prop :=
  is_uint 32 (LowDateTime t) ∧ is_uint 32 (HighDateTime t).

Definition unicode_typed (u : RPCUnicodeString) : Prop :=
  is_uint 16 (Length u) ∧ MaximumLength u = Length u ∧
  Length u = 2 * utf16_len (runes (Value u)).

Definition sid_typed (sid : RPCSID) : Prop :=
  Revision sid = 1 ∧ is_uint 8 (SubAuthorityCount sid) ∧
  SubAuthorityCount sid = Z.of_nat (List.length (SubAuthority sid)) ∧
  List.length (IdentifierAuthority sid) = 6%nat ∧
  Forall (is_uint 8) (IdentifierAuthority sid) ∧ Forall (is_uint 32) (SubAuthority sid).

Record pac_typed (kvi : KerbValidationInfo) (ci : ClientInfo) : Prop := {
  typed_times : Forall filetime_typed
    [LogOnTime kvi; LogOffTime kvi; KickOffTime kvi; PasswordLastSet kvi; PasswordCanChange kvi;
     PasswordMustChange kvi; LastSuccessfulILogon kvi; LastFailedILogon kvi; ClientID ci];
  typed_names : Forall unicode_typed [EffectiveName kvi; LogonDomainName kvi];
  typed_rids : Forall (is_uint 32)
    (UserID kvi :: PrimaryGroupID kvi :: UserFlags kvi :: UserAccountControl kvi :: pac_rids kvi);
  typed_groups : GroupCount kvi = Z.of_nat (List.length (GroupIDs kvi)) ∧ is_uint 32 (GroupCount kvi);
  typed_attributes : Forall (λ m, is_uint 32 (Attributes m)) (GroupIDs kvi);
  typed_sids : SIDCount kvi = Z.of_nat (List.length (ExtraSIDs kvi));
  typed_resources : ResourceGroupCount kvi = Z.of_nat (List.length (ResourceGroupIDs kvi));
  typed_domain : sid_typed (LogonDomainID kvi);
  typed_client : is_uint 16 (NameLength ci) ∧ NameLength ci = 2 * utf16_len (runes (Name ci));
  typed_primary : PrimaryGroupID kvi ∈ pac_rids kvi;
}.

(** A builder whose configuration fits the widths of its fields. *)
Record builder_typed (b : SyntheticPACBuilder) : Prop := {
  typed_domainSID : sid_typed (DomainSID b);
  typed_primaryRID : is_uint 32 (DefaultPrimaryGroupRID b);
  typed_overrides : map_Forall (λ _, is_uint 32) (GroupOverrides b);
}.

(** ** Lemmas *)

Lemma remove_dups_cons (x : Z) l :
  remove_dups (x :: l) = if decide (x ∈ l) then remove_dups l else x :: remove_dups l.
Proof. done. Qed.

Lemma remove_dups_NoDup (l : list Z) : NoDup l → remove_dups l = l.
Proof. induction 1 as [|x l Hx Hl IH]; [done|]. by rewrite remove_dups_cons, decide_False, IH. Qed.

Lemma remove_dups_later (l k : list Z) x :
  x ∈ k → remove_dups (l ++ x :: k) = remove_dups (l ++ k).
Proof.
  intros Hx. induction l as [|y l IH]; cbn [app]; rewrite !remove_dups_cons;
    [by rewrite decide_True|]. rewrite IH.
  assert (y ∈ l ++ x :: k ↔ y ∈ l ++ k) as E by set_solver.
  by rewrite (decide_ext _ _ _ _ E).
Qed.

(** The loop with its set of seen RIDs computes the first occurrences. *)
Lemma add_groups_reference b admitted seen acc :
  (∀ rid, rid ∈ seen ↔ rid ∈ map RelativeID acc) → NoDup (map RelativeID acc) →
  map RelativeID (add_groups b admitted seen acc) =
    first_occurrences (map RelativeID acc ++ map (groupRID b) admitted).
Proof.
  unfold first_occurrences. revert seen acc.
  induction admitted as [|g admitted IH]; intros seen acc Hseen Hnd; simpl.
  - rewrite app_nil_r, remove_dups_NoDup, reverse_involutive; [done|].
    by rewrite reverse_Permutation.
  - case_bool_decide as Hin.
    + rewrite IH by done. f_equal. rewrite !reverse_app, reverse_cons, <- app_assoc. simpl.
      rewrite remove_dups_later; [done|]. rewrite elem_of_reverse. by apply Hseen.
    + rewrite IH.
      * f_equal. by rewrite map_app, <- app_assoc.
      * intros rid. rewrite map_app. set_solver.
      * rewrite map_app. apply NoDup_app. split_and!; [done| |apply NoDup_singleton].
        intros rid Hrid. rewrite <- Hseen in Hrid. set_solver.
Qed.

Lemma fnv32a_write_bound h s : 0 ≤ h < 2 ^ 32 → 0 ≤ fnv32a_write h s < 2 ^ 32.
Proof.
  revert h. induction s as [|c s IH]; intros h Hh; simpl; [done|].
  apply IH. by apply wrapu_bound.
Qed.

Lemma ridFromName_eq name : ridFromName name = 1000 + fnv32a name mod ridSynthSpace.
Proof.
  unfold ridFromName. apply wrapu_small.
  pose proof (Z.mod_pos_bound (fnv32a name) ridSynthSpace eq_refl).
  unfold ridSynthSpace in *. lia.
Qed.

Lemma ridFromName_range name : 1000 ≤ ridFromName name < 1000 + ridSynthSpace.
Proof.
  rewrite ridFromName_eq.
  pose proof (Z.mod_pos_bound (fnv32a name) ridSynthSpace eq_refl). lia.
Qed.

(** The loop keeps the list's RIDs distinct and adds exactly the groups' RIDs. *)
Lemma add_groups_spec b admitted seen acc :
  (∀ rid, rid ∈ seen ↔ rid ∈ map RelativeID acc) →
  NoDup (map RelativeID acc) →
  let r := add_groups b admitted seen acc in
  acc `prefix_of` r ∧ NoDup (map RelativeID r) ∧
  (∀ rid, rid ∈ map RelativeID r ↔ rid ∈ map RelativeID acc ∨ rid ∈ map (groupRID b) admitted) ∧
  (Forall (λ m, Attributes m = 7) acc → Forall (λ m, Attributes m = 7) r).
Proof.
  revert seen acc. induction admitted as [|g admitted IH]; intros seen acc Hseen Hnd; simpl.
  - split_and!; [done|done| |done]. intros rid. set_solver.
  - case_bool_decide as Hin.
    + destruct (IH seen acc Hseen Hnd) as (Hp & Hn & Hr & Ha). split_and!; [done|done| |done].
      intros rid. rewrite Hr, elem_of_cons. apply Hseen in Hin.
      split; [tauto|]. intros [?|[->|?]]; tauto.
    + destruct (IH ({[groupRID b g]} ∪ seen) (acc ++ [membership (groupRID b g)]))
        as (Hp & Hn & Hr & Ha).
      * intros rid. rewrite map_app. set_solver.
      * rewrite map_app. apply NoDup_app. split_and!; [done| |apply NoDup_singleton].
        intros rid Hrid. rewrite <- Hseen in Hrid. set_solver.
      * split_and!; [|done| |].
        -- etrans; [by apply prefix_app_r|done].
        -- intros rid. rewrite Hr, map_app. set_solver.
        -- intros Hacc. apply Ha, Forall_app. split; [done|]. by repeat constructor.
Qed.

Section build_lemmas.
Context `{Krb5}.

Lemma Build_groups b id t kvi ci :
  Build b id t = Ok (kvi, ci) →
  ∃ subject groups scopes,
    build_mapper b id = Ok (subject, groups, scopes) ∧
    GroupIDs kvi = add_groups b (build_admitted b scopes groups)
      {[DefaultPrimaryGroupRID b]} [membership (DefaultPrimaryGroupRID b)] ∧
    GroupCount kvi = uint32 (Z.of_nat (List.length (GroupIDs kvi))) ∧
    PrimaryGroupID kvi = DefaultPrimaryGroupRID b ∧
    UserID kvi = ridFromName subject ∧ Name ci = subject ∧
    EffectiveName kvi = rpcUnicode subject ∧ NameLength ci = utf16_byte_len subject ∧
    LogOnTime kvi = GetFileTime (UTC t) ∧ ClientID ci = GetFileTime (UTC t) ∧
    LogonDomainID kvi = DomainSID b.
Proof.
  unfold Build. intros Hb. apply bind_Ok in Hb as ([[subject groups] scopes] & Hm & Hb).
  injection Hb as <- <-. exists subject, groups, scopes. by split_and!.
Qed.

Lemma primary_spec b admitted :
  let r := add_groups b admitted {[DefaultPrimaryGroupRID b]}
             [membership (DefaultPrimaryGroupRID b)] in
  [membership (DefaultPrimaryGroupRID b)] `prefix_of` r ∧ NoDup (map RelativeID r) ∧
  (∀ rid, rid ∈ map RelativeID r ↔
     rid = DefaultPrimaryGroupRID b ∨ rid ∈ map (groupRID b) admitted) ∧
  Forall (λ m, Attributes m = 7) r.
Proof.
  destruct (add_groups_spec b admitted {[DefaultPrimaryGroupRID b]}
              [membership (DefaultPrimaryGroupRID b)]) as (Hp & Hn & Hr & Ha).
  - intros rid. simpl. set_solver.
  - apply NoDup_singleton.
  - split_and!; [done|done| |].
    + intros rid. rewrite Hr. simpl. set_solver.
    + apply Ha. by repeat constructor.
Qed.
End build_lemmas.

(** *** Parsing a printed SID *)

(** A byte [TrimSpace] leaves in place. *)
Definition solid_byte (c : ascii) : bool := (byte_val c <? 128) && negb (IsSpace (byte_val c)).

Lemma str_all_intro f s : (∀ c, has_byte c s = true → f c = true) → str_all f s = true.
Proof.
  induction s as [|c s IH]; intros H; [done|]. simpl. apply andb_true_iff. split.
  - apply H. simpl. by rewrite bool_decide_true.
  - apply IH. intros d Hd. apply H. simpl. by rewrite Hd, orb_true_r.
Qed.

Lemma str_all_app f s t : str_all f (s +:+ t) = str_all f s && str_all f t.
Proof. induction s; simpl; [done|]. by rewrite IHs, andb_assoc. Qed.

Lemma str_all_Join f c ps :
  f c = true → Forall (λ p, str_all f p = true) ps → str_all f (Join c ps) = true.
Proof.
  intros Hc. induction 1 as [|p ps Hp Hps IH]; [done|]. destruct ps as [|q ps]; [done|].
  change (Join c (p :: q :: ps)) with (p +:+ String c (Join c (q :: ps))).
  rewrite str_all_app, Hp. cbn [str_all andb]. by rewrite Hc, IH.
Qed.

Lemma drop_while_none {A} (f : A → bool) l : Forall (λ a, f a = false) l → drop_while f l = l.
Proof. destruct 1 as [|a l Ha _]; [done|]. simpl. by rewrite Ha. Qed.

Lemma TrimSpace_solid s : str_all solid_byte s = true → TrimSpace s = s.
Proof.
  intros Hs. unfold TrimSpace. set (sp := λ p : Z * string, IsSpace p.1).
  assert (Forall (λ p, sp p = false) (rune_segs s)) as Hseg.
  { induction s as [|c s IH]; [constructor|]. simpl in Hs.
    apply andb_prop in Hs as [Hc Hs]. apply andb_prop in Hc as [Hlt Hsp].
    apply Z.ltb_lt in Hlt. rewrite rune_segs_ascii by done.
    constructor; [by apply negb_true_iff|]. by apply IH. }
  rewrite (drop_while_none sp (rune_segs s)), drop_while_none, rev_involutive by
    (done || by rewrite <- Forall_rev in Hseg || by apply Forall_rev).
  apply segs_string_segs.
Qed.

Lemma pretty_solid (n : N) : str_all solid_byte (pretty n) = true.
Proof.
  apply str_all_intro. intros c Hc.
  destruct (digit_val c) as [d|] eqn:Hd.
  - unfold digit_val, in_range in Hd. case_match eqn:Hr; [|done].
    unfold solid_byte, IsSpace, in_range. lia.
  - by rewrite has_byte_pretty_N in Hc.
Qed.

Lemma parse_subs_pretty s i subs :
  Forall (λ n : N, Z.of_N n < 2 ^ 32) subs →
  parse_subs s i (map pretty subs) = Ok (map Z.of_N subs).
Proof.
  intros H. revert i. induction H as [|n subs Hn Hs IH]; intros i; [done|].
  simpl. rewrite ParseUint_pretty, decide_True by done. simpl. rewrite IH. simpl.
  by rewrite wrapu_small by lia.
Qed.

Lemma parse_subs_range s i parts subs :
  parse_subs s i parts = Ok subs →
  List.length subs = List.length parts ∧ Forall (λ z, 0 ≤ z < 2 ^ 32) subs.
Proof.
  revert i subs. induction parts as [|p parts IH]; intros i subs H; simpl in H.
  - by injection H as <-.
  - apply bind_Ok in H as (v & Hv & H). apply bind_Ok in H as (subs' & Hs & [= <-]).
    destruct (IH _ _ Hs) as [Hlen Hall]. split; [by simpl; rewrite Hlen|].
    constructor; [by apply wrapu_bound|done].
Qed.

Lemma Split_print_sid auth subs :
  Split "-" (print_sid auth subs) = "S" :: "1" :: pretty auth :: map pretty subs.
Proof.
  apply Split_Join; [done|]. repeat constructor.
  - by apply has_byte_pretty_N.
  - apply Forall_forall. intros p (n & -> & _)%list_elem_of_fmap. by apply has_byte_pretty_N.
Qed.

Lemma TrimSpace_print_sid auth subs : TrimSpace (print_sid auth subs) = print_sid auth subs.
Proof.
  apply TrimSpace_solid, str_all_Join; [done|]. repeat constructor.
  - apply pretty_solid.
  - apply Forall_forall. intros p (n & -> & _)%list_elem_of_fmap. apply pretty_solid.
Qed.

Lemma parse_print_sid auth subs :
  (4 ≤ List.length subs)%nat → Z.of_N auth ≤ 255 → Forall (λ n : N, Z.of_N n < 2 ^ 32) subs →
  parseDomainSID (print_sid auth subs) =
    Ok {| Revision := 1; SubAuthorityCount := uint8 (Z.of_nat (List.length subs));
          IdentifierAuthority := [0; 0; 0; 0; 0; Z.of_N auth];
          SubAuthority := map Z.of_N subs |}.
Proof.
  intros Hlen Ha Hs. unfold parseDomainSID.
  rewrite TrimSpace_print_sid, Split_print_sid.
  cbn [List.length lookup list_lookup drop default].
  rewrite length_map, (proj2 (Z.ltb_ge _ _)) by lia.
  rewrite !bool_decide_true by done. cbn [negb orb].
  unfold id. rewrite ParseUint_pretty, decide_True by lia. cbn [map_err mbind result_bind].
  rewrite (proj2 (Z.ltb_ge _ _)), drop_0 by lia.
  rewrite parse_subs_pretty by done. cbn [mbind result_bind].
  by rewrite length_map, (wrapu_small 8 (Z.of_N auth)) by lia.
Qed.

Lemma parseDomainSID_Ok s sid :
  parseDomainSID s = Ok sid →
  Revision sid = 1 ∧
  (∃ a, IdentifierAuthority sid = [0; 0; 0; 0; 0; a] ∧ 0 ≤ a ≤ 255) ∧
  Forall (λ z, 0 ≤ z < 2 ^ 32) (SubAuthority sid) ∧
  (4 ≤ List.length (SubAuthority sid))%nat ∧
  SubAuthorityCount sid = Z.of_nat (List.length (SubAuthority sid)) mod 256.
Proof.
  unfold parseDomainSID. set (parts := Split "-" (TrimSpace s)). intros H.
  destruct (Z.of_nat (List.length parts) <? 7) eqn:Hlen; [done|].
  destruct (_ || _) eqn:Hhead in H; [done|].
  apply bind_Ok in H as (a & Ha%map_err_Ok & H). destruct (0xFF <? a) eqn:Hle; [done|].
  apply bind_Ok in H as (subs & Hsubs & [= <-]). simpl.
  apply ParseUint_bound in Ha; [|done]. apply Z.ltb_ge in Hle, Hlen.
  apply parse_subs_range in Hsubs as [Hl Hall]. rewrite length_drop in Hl.
  split_and!; [done| |done|lia|done].
  exists (uint8 a). split; [done|]. pose proof (wrapu_bound 8 a). lia.
Qed.

Lemma utf16_byte_len_small s :
  utf16_len (runes s) < 2 ^ 15 → utf16_byte_len s = 2 * utf16_len (runes s).
Proof.
  intros H. unfold utf16_byte_len. pose proof (utf16_len_nonneg (runes s)).
  rewrite wrapu_small by lia. lia.
Qed.

(** ** Properties *)

(** Synthetic RIDs clear the well-known range below 1000, stay below
    1000 + 2^29 without wrapping in 32 bits, and so fall in at most 2685 of the
    200000-wide bands an id-mapping consumer with 10000 slices sees. *)
Theorem ridFromName_bounds name :
  ridFromName name = 1000 + fnv32a name mod ridSynthSpace ∧
  1000 ≤ ridFromName name < 1000 + ridSynthSpace ∧
  0 ≤ ridFromName name / 200000 < 2685.
Proof.
  pose proof (ridFromName_range name). split_and!; try apply ridFromName_eq; try lia.
  - apply Z.div_pos; lia.
  - unfold ridSynthSpace in *. apply Z.div_lt_upper_bound; lia.
Qed.

Section properties.
Context `{Krb5}.

Lemma ridFromName_uint name : is_uint 32 (ridFromName name).
Proof. pose proof (ridFromName_range name). unfold is_uint, ridSynthSpace in *. lia. Qed.

Lemma rpcUnicode_typed s : utf16_len (runes s) < 2 ^ 15 → unicode_typed (rpcUnicode s).
Proof.
  intros Hs. split_and!; [by apply wrapu_bound|done|]. by apply utf16_byte_len_small.
Qed.

Lemma Build_groups_typed b id t kvi ci :
  is_uint 32 (DefaultPrimaryGroupRID b) → map_Forall (λ _, is_uint 32) (GroupOverrides b) →
  Build b id t = Ok (kvi, ci) →
  Forall (is_uint 32) (pac_rids kvi) ∧ Forall (λ m, is_uint 32 (Attributes m)) (GroupIDs kvi) ∧
  PrimaryGroupID kvi ∈ pac_rids kvi.
Proof.
  intros Hprim Hover Hb. destruct (Build_groups _ _ _ _ _ Hb)
    as (subject & groups & scopes & _ & Hg & _ & Hp & _).
  unfold pac_rids. rewrite Hp, Hg.
  destruct (primary_spec b (build_admitted b scopes groups)) as (_ & _ & Hs & Ha). split_and!.
  - apply Forall_forall. intros rid Hrid. apply Hs in Hrid as [->|Hrid]; [done|].
    apply list_elem_of_fmap in Hrid as (g & -> & _). unfold groupRID.
    destruct (GroupOverrides b !! g) eqn:E; [by eapply Hover|apply ridFromName_uint].
  - eapply Forall_impl; [exact Ha|]. by intros m ->.
  - apply Hs. by left.
Qed.

(** The group list [Build] puts in a PAC: the primary group first, no RID
    twice, every entry mandatory, enabled by default and enabled, and - beside
    the primary - exactly the RIDs of the admitted groups; [GroupCount] is its
    length in 32 bits. *)
Theorem Build_groups_spec b id t kvi ci :
  Build b id t = Ok (kvi, ci) →
  ∃ subject groups scopes,
    build_mapper b id = Ok (subject, groups, scopes) ∧
    head (GroupIDs kvi) = Some (membership (PrimaryGroupID kvi)) ∧
    NoDup (pac_rids kvi) ∧
    (∀ rid, rid ∈ pac_rids kvi ↔
       rid = DefaultPrimaryGroupRID b ∨
       ∃ g, g ∈ build_admitted b scopes groups ∧ rid = groupRID b g) ∧
    Forall (λ m, Attributes m = 7) (GroupIDs kvi) ∧
    GroupCount kvi = uint32 (Z.of_nat (List.length (GroupIDs kvi))).
Proof.
  intros Hb. destruct (Build_groups _ _ _ _ _ Hb)
    as (subject & groups & scopes & Hm & Hg & Hc & Hp & _).
  exists subject, groups, scopes. unfold pac_rids. rewrite Hc, Hp, Hg.
  destruct (primary_spec b (build_admitted b scopes groups)) as ([rest Hr] & Hn & Hs & Ha).
  split_and!; try done; [by rewrite Hr|].
  intros rid. rewrite Hs, list_elem_of_fmap. naive_solver.
Qed.

(** C30. The loop that collects groups, with its set of RIDs already seen, is
    equivalent to its specification: the PAC's RIDs are the first occurrences,
    in order, in the primary group followed by the RIDs of the admitted groups;
    so the primary comes first, no RID comes twice, and none is missing or
    added.  Every entry is mandatory, enabled by default and enabled. *)
Theorem Build_groups_reference b id t kvi ci :
  Build b id t = Ok (kvi, ci) →
  ∃ subject groups scopes,
    build_mapper b id = Ok (subject, groups, scopes) ∧
    GroupIDs kvi = map membership
      (first_occurrences
         (DefaultPrimaryGroupRID b :: map (groupRID b) (build_admitted b scopes groups))) ∧
    NoDup (pac_rids kvi) ∧ head (pac_rids kvi) = Some (PrimaryGroupID kvi).
Proof.
  intros Hb. destruct (Build_groups _ _ _ _ _ Hb)
    as (subject & groups & scopes & Hm & Hg & Hc & Hp & _).
  exists subject, groups, scopes. unfold pac_rids. rewrite Hp, Hg.
  destruct (primary_spec b (build_admitted b scopes groups)) as ([rest Hr] & Hn & _ & Ha).
  split_and!; [done| |done|by rewrite Hr].
  change (DefaultPrimaryGroupRID b :: _) with
    (map RelativeID [membership (DefaultPrimaryGroupRID b)] ++
     map (groupRID b) (build_admitted b scopes groups)).
  rewrite <- (add_groups_reference b _ {[DefaultPrimaryGroupRID b]}); [|set_solver|apply NoDup_singleton].
  clear -Ha. induction Ha as [|[rid a] l E Ha IH]; [done|]. simpl in E |- *. subst a. by rewrite <- IH.
Qed.

(** C31. What [Build] makes is well typed.  From a builder whose SID, primary RID
    and overrides fit their fields - as those of [NewSyntheticPACBuilder] do
    for a SID of fewer than 256 sub-authorities - and while the subject's name
    is shorter than 2^15 UTF-16 units and the groups fewer than 2^32, every
    integer of the PAC is in the range of its field, every count and length is
    that of what it counts, the domain SID is well formed, and the primary
    group is one of the groups. *)
Theorem Build_typed b id t kvi ci :
  builder_typed b → (∀ t, filetime_typed (GetFileTime t)) →
  Build b id t = Ok (kvi, ci) →
  utf16_len (runes (Name ci)) < 2 ^ 15 → Z.of_nat (List.length (GroupIDs kvi)) < 2 ^ 32 →
  pac_typed kvi ci.
Proof.
  intros [Hsid Hprim Hover] Hft Hb Hname Hcount.
  destruct (Build_groups_typed _ _ _ _ _ Hprim Hover Hb) as (Hrids & Hattr & Hin).
  unfold Build in Hb. apply bind_Ok in Hb as ([[subject groups] scopes] & _ & [= <- <-]).
  cbn [Name GroupIDs] in Hname, Hcount.
  constructor; cbn; try done.
  - repeat constructor; try apply Hft; done.
  - repeat constructor; try done; by apply rpcUnicode_typed.
  - rewrite !Forall_cons. split_and!; [apply ridFromName_uint|exact Hprim|done..|exact Hrids].
  - split; [|by apply wrapu_bound]. apply wrapu_small. lia.
  - destruct (rpcUnicode_typed subject Hname) as (? & _ & ?). done.
Qed.

Theorem NewSyntheticPACBuilder_typed s b :
  NewSyntheticPACBuilder s = Ok b → (List.length (SubAuthority (DomainSID b)) < 256)%nat →
  builder_typed b.
Proof.
  intros (sid & Hs & [= <-])%bind_Ok Hlen. cbn in Hlen.
  apply parseDomainSID_Ok in Hs as (Hr & (a & Ha & Hab) & Hsub & _ & Hc).
  constructor; cbn; [|unfold is_uint; lia|apply map_Forall_empty].
  rewrite Z.mod_small in Hc by lia.
  unfold sid_typed. rewrite Hc, Ha. unfold is_uint. split_and!; try done; try lia.
  repeat constructor; lia.
Qed.

(** C29. Least privilege: with a configured scope filter the PAC grants, beside
    the primary group, exactly the RIDs of the token's groups that one of the
    token's scopes admits, and no RID list grows when scopes are taken away:
    a token with the same groups and fewer scopes gets no RID the wider token
    does not get. *)
Theorem Build_least_privilege b f id id' t t' kvi ci kvi' ci' groups scopes scopes' s s' :
  pb_ScopeFilter b = Some (Admit f) →
  Build b id t = Ok (kvi, ci) → build_mapper b id = Ok (s, groups, scopes) →
  Build b id' t' = Ok (kvi', ci') → build_mapper b id' = Ok (s', groups, scopes') →
  scopes ⊆ scopes' →
  (∀ rid, rid ∈ pac_rids kvi ↔
     rid = DefaultPrimaryGroupRID b ∨
     ∃ g, g ∈ groups ∧ admits f scopes g ∧ rid = groupRID b g) ∧
  pac_rids kvi ⊆ pac_rids kvi'.
Proof.
  intros Hf Hb Hm Hb' Hm' Hsub.
  assert (∀ id t kvi ci s scopes, Build b id t = Ok (kvi, ci) →
            build_mapper b id = Ok (s, groups, scopes) →
            ∀ rid, rid ∈ pac_rids kvi ↔ rid = DefaultPrimaryGroupRID b ∨
              ∃ g, g ∈ groups ∧ admits f scopes g ∧ rid = groupRID b g) as Hr.
  { clear -Hf. intros id t kvi ci s scopes Hb Hm rid.
    destruct (Build_groups _ _ _ _ _ Hb) as (? & ? & ? & Hm' & Hg & _).
    rewrite Hm in Hm'. injection Hm' as <- <- <-.
    unfold pac_rids, build_admitted in *. rewrite Hg, Hf.
    destruct (primary_spec b (Admit f scopes groups)) as (_ & _ & Hs & _).
    rewrite Hs, list_elem_of_fmap, Admit_filter. setoid_rewrite list_elem_of_filter.
    naive_solver. }
  split; [by eapply Hr|]. intros rid.
  rewrite (Hr _ _ _ _ _ _ Hb Hm), (Hr _ _ _ _ _ _ Hb' Hm').
  intros [?|(g & Hg & Ha & ?)]; [by left|]. right. exists g. split_and!; [done| |done].
  unfold admits in *. rewrite Exists_exists in *. destruct Ha as (sc & Hin & Hsc). eauto.
Qed.

(** C37. The identity a PAC names: user RID, effective name and client name all
    come from the mapped subject, both time stamps are the authentication time
    in UTC, and the three 16-bit lengths are the bytes of the name in UTF-16
    as long as it has fewer than 2^15 code units. *)
Theorem Build_identity_spec b id t kvi ci :
  Build b id t = Ok (kvi, ci) →
  ∃ subject groups scopes,
    build_mapper b id = Ok (subject, groups, scopes) ∧
    UserID kvi = ridFromName subject ∧
    Value (EffectiveName kvi) = subject ∧ Name ci = subject ∧
    LogOnTime kvi = ClientID ci ∧ ClientID ci = GetFileTime (UTC t) ∧
    NameLength ci = Length (EffectiveName kvi) ∧
    NameLength ci = MaximumLength (EffectiveName kvi) ∧
    (utf16_len (runes subject) < 2 ^ 15 →
     NameLength ci = 2 * utf16_len (runes subject)).
Proof.
  intros Hb. destruct (Build_groups _ _ _ _ _ Hb)
    as (subject & groups & scopes & Hm & _ & _ & _ & Hu & Hn & He & Hl & Ht & Hci & _).
  exists subject, groups, scopes. rewrite He, Hl, Ht, Hci. split_and!; try done.
  apply utf16_byte_len_small.
Qed.
End properties.

(** Name to RID is a hash, not an injection, and a filter that refuses a
    group cannot refuse its RID: here the only admitted group is
    "it-team-25", and the PAC carries the RID of the refused
    "it-owners-2400". *)
Theorem groupRID_collision :
  ∃ b g g', GroupOverrides b = ∅ ∧ g ≠ g' ∧
    build_admitted b ["s"] [g; g'] = [g] ∧
    groupRID b g' ∈ map RelativeID
      (add_groups b (build_admitted b ["s"] [g; g']) {[DefaultPrimaryGroupRID b]}
         [membership (DefaultPrimaryGroupRID b)]).
Proof.
  exists {| DomainSID := {| Revision := 1; SubAuthorityCount := 0; IdentifierAuthority := [];
                            SubAuthority := [] |};
            DefaultPrimaryGroupRID := 513; pb_GroupsClaim := ""; GroupOverrides := ∅;
            pb_ScopeFilter := Some (Admit {| ScopeGroups := {["s" := ["it-team-25"]]} |});
            pb_Mapper := None |}, "it-team-25", "it-owners-2400".
  split_and!; [done|done|by vm_compute|].
  refine (bool_decide_eq_true_1 _ _). by vm_compute.
Qed.

(** C35. A domain SID survives printing and parsing: revision, an authority of
    one byte and four or more 32-bit sub-authorities come back as they were,
    and the count is theirs when there are fewer than 256. *)
Theorem parseDomainSID_roundtrip auth subs :
  (4 ≤ List.length subs < 256)%nat → Z.of_N auth ≤ 255 →
  Forall (λ n : N, Z.of_N n < 2 ^ 32) subs →
  parseDomainSID (print_sid auth subs) =
    Ok {| Revision := 1; SubAuthorityCount := Z.of_nat (List.length subs);
          IdentifierAuthority := [0; 0; 0; 0; 0; Z.of_N auth];
          SubAuthority := map Z.of_N subs |}.
Proof.
  intros Hlen Ha Hs. rewrite parse_print_sid by (done || lia).
  by rewrite (wrapu_small 8) by lia.
Qed.

(** Whatever [parseDomainSID] accepts is a representable SID: revision 1, an
    identifier authority of six bytes whose first five are zero, at least four
    sub-authorities of 32 bits each; its count is their number modulo 256. *)
Theorem parseDomainSID_sound s sid :
  parseDomainSID s = Ok sid →
  Revision sid = 1 ∧
  (∃ a, IdentifierAuthority sid = [0; 0; 0; 0; 0; a] ∧ 0 ≤ a ≤ 255) ∧
  Forall (λ z, 0 ≤ z < 2 ^ 32) (SubAuthority sid) ∧
  (4 ≤ List.length (SubAuthority sid))%nat ∧
  SubAuthorityCount sid = Z.of_nat (List.length (SubAuthority sid)) mod 256.
Proof. apply parseDomainSID_Ok. Qed.

(** The count of sub-authorities is truncated to eight bits without a check:
    a SID with 256 of them is accepted with a count of zero. *)
Theorem parseDomainSID_count_wraps :
  ∃ s sid, parseDomainSID s = Ok sid ∧
    List.length (SubAuthority sid) = 256%nat ∧ SubAuthorityCount sid = 0.
Proof.
  exists (print_sid 5 (replicate 256 21%N)). eexists. split.
  - apply parse_print_sid; [by rewrite length_replicate; lia|lia|].
    by apply Forall_replicate.
  - split; by vm_compute.
Qed.

(** ** Witnesses *)

(** Two groups, of which the token's scopes admit one. *)
Definition sample_filter : ConfigMapFilter :=
  {| ScopeGroups := {["mail" := ["mail-users"]; "files" := ["staff"]]} |}.

Definition sample_builder : SyntheticPACBuilder :=
  {| DomainSID := {| Revision := 1; SubAuthorityCount := 4;
                     IdentifierAuthority := [0; 0; 0; 0; 0; 5]; SubAuthority := [21; 1; 2; 3] |};
     DefaultPrimaryGroupRID := 513; pb_GroupsClaim := ""; GroupOverrides := {["staff" := 2000]};
     pb_ScopeFilter := Some (Admit sample_filter); pb_Mapper := None |}.

Definition sample_claims (scopes : list string) : bytes :=
  print_claims "groups" ["mail-users"; "staff"] scopes.

Definition sample_id (scopes : list string) : Identity :=
  {| Subject := "alice"; Claims := sample_claims scopes; Expiry := zeroTime |}.

Lemma Build_groups_spec_witness :
  match Build sample_builder (sample_id ["mail"]) (Unix 10) with
  | Ok (kvi, _) =>
      NoDup (pac_rids kvi) ∧ pac_rids kvi = [513; ridFromName "mail-users"] ∧ GroupCount kvi = 2
  | Err _ => False
  end.
Proof.
  destruct (Build sample_builder (sample_id ["mail"]) (Unix 10)) as [[kvi ci]|e] eqn:E.
  - destruct (Build_groups_spec _ _ _ _ _ E) as (s & g & sc & _ & _ & Hn & _).
    split; [exact Hn|]. vm_compute in E. injection E as <- <-. by vm_compute.
  - by vm_compute in E.
Defined.

Lemma Build_groups_reference_witness :
  match Build sample_builder (sample_id ["mail"; "files"]) (Unix 10) with
  | Ok (kvi, _) =>
      NoDup (pac_rids kvi) ∧ pac_rids kvi = [513; ridFromName "mail-users"; 2000]
  | Err _ => False
  end.
Proof.
  destruct (Build sample_builder (sample_id ["mail"; "files"]) (Unix 10)) as [[kvi ci]|e] eqn:E.
  - destruct (Build_groups_reference _ _ _ _ _ E) as (s & g & sc & _ & _ & Hn & _).
    split; [exact Hn|]. vm_compute in E. injection E as <- <-. by vm_compute.
  - by vm_compute in E.
Defined.

Lemma sample_builder_typed : builder_typed sample_builder.
Proof.
  constructor; cbn.
  - unfold sid_typed, is_uint. cbn. split_and!; try done; by repeat constructor.
  - done.
  - apply map_Forall_singleton. done.
Qed.

Lemma Build_typed_witness :
  match Build sample_builder (sample_id ["mail"]) (Unix 10) with
  | Ok (kvi, ci) => pac_typed kvi ci
  | Err _ => False
  end.
Proof.
  destruct (Build sample_builder (sample_id ["mail"]) (Unix 10)) as [[kvi ci]|e] eqn:E;
    [|by vm_compute in E].
  apply (Build_typed sample_builder (sample_id ["mail"]) (Unix 10) kvi ci);
    [exact sample_builder_typed| |exact E| |].
  - intros t. split; [by apply wrapu_bound|done].
  - vm_compute in E. injection E as _ <-. by vm_compute.
  - vm_compute in E. injection E as <- _. by vm_compute.
Defined.

Lemma Build_least_privilege_witness :
  match Build sample_builder (sample_id ["mail"]) (Unix 10),
        Build sample_builder (sample_id ["mail"; "files"]) (Unix 10) with
  | Ok (kvi, _), Ok (kvi', _) =>
      (pac_rids kvi ⊆ pac_rids kvi') ∧ (2000 ∉ pac_rids kvi) ∧ (2000 ∈ pac_rids kvi')
  | _, _ => False
  end.
Proof.
  destruct (Build sample_builder (sample_id ["mail"]) (Unix 10)) as [[kvi ci]|e] eqn:E;
    [|by vm_compute in E].
  destruct (Build sample_builder (sample_id ["mail"; "files"]) (Unix 10)) as [[kvi' ci']|e'] eqn:E';
    [|by vm_compute in E'].
  destruct (Build_least_privilege sample_builder sample_filter (sample_id ["mail"])
              (sample_id ["mail"; "files"]) (Unix 10) (Unix 10) kvi ci kvi' ci'
              ["mail-users"; "staff"] ["mail"] ["mail"; "files"] "alice" "alice")
    as [_ Hsub]; [reflexivity|exact E|by vm_compute|exact E'|by vm_compute| |].
  - intros x. rewrite !elem_of_cons. tauto.
  - split; [exact Hsub|]. vm_compute in E, E'. injection E as <- <-. injection E' as <- <-.
    split; refine (bool_decide_eq_true_1 _ _); by vm_compute.
Defined.

Lemma Build_identity_spec_witness :
  match Build sample_builder (sample_id ["mail"]) (Unix 10) with
  | Ok (kvi, ci) => LogOnTime kvi = ClientID ci ∧ Name ci = "alice" ∧ NameLength ci = 10
  | Err _ => False
  end.
Proof.
  destruct (Build sample_builder (sample_id ["mail"]) (Unix 10)) as [[kvi ci]|e] eqn:E.
  - destruct (Build_identity_spec _ _ _ _ _ E) as (s & g & sc & _ & _ & _ & _ & Ht & _).
    split; [exact Ht|]. vm_compute in E. injection E as <- <-. by vm_compute.
  - by vm_compute in E.
Defined.

Lemma parseDomainSID_roundtrip_witness :
  parseDomainSID (print_sid 5 [21; 1; 2; 3]%N) =
    Ok {| Revision := 1; SubAuthorityCount := 4; IdentifierAuthority := [0; 0; 0; 0; 0; 5];
          SubAuthority := [21; 1; 2; 3] |}.
Proof.
  apply (parseDomainSID_roundtrip 5 [21; 1; 2; 3]%N); [simpl; lia|lia|].
  repeat constructor.
Defined.

Lemma parseDomainSID_sound_witness :
  Revision (DomainSID sample_builder) = 1 ∧
  (4 ≤ List.length (SubAuthority (DomainSID sample_builder)))%nat.
Proof.
  destruct (parseDomainSID_sound "S-1-5-21-1-2-3" (DomainSID sample_builder))
    as (Hr & _ & _ & Hl & _); [by vm_compute|]. by split.
Defined.
