(* ===== verification/KeySource.v ===== *)
(** * KeySource: long-term keys (keysource.go)

    The interface [KeySource] - the minter's only way to a long-term key - and
    [KeytabSource], its implementation over a keytab. *)
From S2P Require Import Prelude Errors GoText GoTime Principal Krb5 Symbolic.

Definition ErrNoServiceKey : error :=
  Sentinel "ErrNoServiceKey" "kerbexchange: no service key for principal".

(** The interface: a key with its version, or an error. *)
Class KeySource (K : Type) `{Krb5Types} := {
  ServiceKey : K → ServicePrincipal → Z → result (EncryptionKey * Z);
  KDCSigningKey : K → Z → result (EncryptionKey * Z);
}.

(** What a client of the interface relies on: it fails with [ErrNoServiceKey] only. *)
Class KeySourceLaws (K : Type) `{KeySource K} := {
  ServiceKey_err k spn etype e :
    ServiceKey k spn etype = Err e → errors_Is e ErrNoServiceKey = true;
  KDCSigningKey_err k etype e :
    KDCSigningKey k etype = Err e → errors_Is e ErrNoServiceKey = true;
}.

Section keytab.
Context `{Krb5}.

Record KeytabSource := {
  kt : Keytab;
  ks_defaultRealm : string;
  kdcPrincipal : string;
}.

Definition NewKeytabSource (k : Keytab) (defaultRealm : string) : KeytabSource :=
  {| kt := k; ks_defaultRealm := defaultRealm; kdcPrincipal := "krbtgt/" +:+ defaultRealm |}.

Definition LoadKeytabSource `{!Krb5Eff W} (path defaultRealm : string) : eff W KeytabSource :=
  k ← emap_err (λ e, Errorf [Lit "kerbexchange: load keytab: "; Fw e]) (keytab_Load path);
  mret {| kt := k; ks_defaultRealm := defaultRealm; kdcPrincipal := "krbtgt/" +:+ defaultRealm |}.

Definition KeytabSource_ServiceKey (s : KeytabSource) (spn : ServicePrincipal) (etype : Z)
    : result (EncryptionKey * Z) :=
  let realm := if bool_decide (Realm spn = "") then ks_defaultRealm s else Realm spn in
  let pn := {| NameType := KRB_NT_PRINCIPAL; NameString := [Service spn; Host spn] |} in
  map_err (λ e, Errorf [Fw ErrNoServiceKey; Lit ": "; Fs (SPN_String spn); Lit ": "; Fv e])
          (GetEncryptionKey (kt s) pn realm 0 etype).

Definition KeytabSource_KDCSigningKey (s : KeytabSource) (etype : Z)
    : result (EncryptionKey * Z) :=
  let '(pn, realm) := ParseSPNString (kdcPrincipal s) in
  let realm := if bool_decide (realm = "") then ks_defaultRealm s else realm in
  map_err (λ e, Errorf [Fw ErrNoServiceKey; Lit ": "; Fs (kdcPrincipal s); Lit ": "; Fv e])
          (GetEncryptionKey (kt s) pn realm 0 etype).

#[export] Instance KeytabSource_KeySource : KeySource KeytabSource := {
  ServiceKey := KeytabSource_ServiceKey;
  KDCSigningKey := KeytabSource_KDCSigningKey;
}.

#[export] Program Instance KeytabSource_laws : KeySourceLaws KeytabSource.
Next Obligation.
  intros s spn etype e. simpl. unfold KeytabSource_ServiceKey.
  intros (e' & _ & ->)%map_err_Err. by apply (errors_Is_wrap _ ErrNoServiceKey); [left|].
Qed.
Next Obligation.
  intros s etype e. simpl. unfold KeytabSource_KDCSigningKey.
  destruct (ParseSPNString _). intros (e' & _ & ->)%map_err_Err.
  by apply (errors_Is_wrap _ ErrNoServiceKey); [left|].
Qed.

(** *** Lemmas *)

(** The realm a principal is looked up in. *)
Definition resolve_realm (default : string) (spn : ServicePrincipal) : ServicePrincipal :=
  {| Service := Service spn; Host := Host spn;
     Realm := if bool_decide (Realm spn = "") then default else Realm spn |}.

Lemma ServiceKey_resolve s spn etype r :
  KeytabSource_ServiceKey s (resolve_realm (ks_defaultRealm s) spn) etype = Ok r ↔
  KeytabSource_ServiceKey s spn etype = Ok r.
Proof.
  unfold KeytabSource_ServiceKey, resolve_realm. simpl. rewrite !map_err_Ok.
  destruct (decide (Realm spn = "")) as [E|E].
  - rewrite (bool_decide_true (Realm spn = "")) by done. by case_bool_decide.
  - by rewrite !(bool_decide_false (Realm spn = "")) by done.
Qed.

(** *** Properties *)

(** [KeytabSource] hands out exactly the keytab's entry for the host-based
    principal [service/host] - the name it was given, in its own realm or else
    the default one, any key version - and a source loaded from a file behaves
    as one made from that file's keytab; it never substitutes another
    principal's key.  A miss is reported as [ErrNoServiceKey] and nothing else. *)
Theorem ServiceKey_spec s spn etype :
  let realm := if bool_decide (Realm spn = "") then ks_defaultRealm s else Realm spn in
  let entry := GetEncryptionKey (kt s)
                 {| NameType := KRB_NT_PRINCIPAL; NameString := [Service spn; Host spn] |}
                 realm 0 etype in
  (∀ key kvno, KeytabSource_ServiceKey s spn etype = Ok (key, kvno) ↔ entry = Ok (key, kvno)) ∧
  (∀ e, KeytabSource_ServiceKey s spn etype = Err e →
     errors_Is e ErrNoServiceKey = true ∧ ∃ e', entry = Err e') ∧
  (∀ W (HW : Krb5Eff W) path w s' w',
     LoadKeytabSource path (ks_defaultRealm s) w = (Ok s', w') →
     ∃ k, keytab_Load path w = (Ok k, w') ∧ s' = NewKeytabSource k (ks_defaultRealm s)).
Proof.
  intros realm entry. split_and!.
  - intros key kvno. apply map_err_Ok.
  - intros e He. split; [by eapply (ServiceKey_err (K:=KeytabSource))|].
    apply map_err_Err in He as (e' & He & _). eauto.
  - intros W HW path w s' w' Hl. unfold LoadKeytabSource in Hl. inv_ok. eauto.
Qed.
End keytab.
