(* ===== verification/Minter.v ===== *)
(** * Minter: minting a service ticket (minter.go, authdata.go)

    The interface [Minter] with the laws its clients use, and [DirectMinter],
    which implements it over a [KeySource].  The theorems about the ticket are
    stated from the acceptor's side: what the service reads when it decrypts
    the ticket with its own key. *)
From S2P Require Import Prelude Errors GoText GoTime Principal Krb5 Symbolic Credential GoJson.
From S2P Require Import Claims Pac KeySource.

(** ** Data *)

Section data.
Context `{Krb5Types}.

Record MintOptions := {
  mo_ClientName : PrincipalName;
  mo_ClientRealm : string;
  mo_Identity : Identity;
  mo_AuthTime : Time;
  mo_StartTime : Time;
  mo_EndTime : Time;
  mo_RenewTill : Time;
}.

Record MintedTicket := {
  mt_Ticket : Ticket;
  mt_SessionKey : EncryptionKey;
  mt_ClientName : PrincipalName;
  mt_ClientRealm : string;
  mt_Target : ServicePrincipal;
  mt_AuthTime : Time;
  mt_EndTime : Time;
}.
End data.

(** ** The interface *)

Class Minter (M W : Type) `{Krb5Types} := {
  Mint : M → ServicePrincipal → MintOptions → eff W MintedTicket;
}.

(** What [Service] relies on: the ticket is for the named client and the named
    target, ends when asked, and only if that is after it starts. *)
Class MinterLaws (M W : Type) `{Minter M W} := {
  Mint_fields m spn opts w mt w' :
    Mint m spn opts w = (Ok mt, w') →
    mt_ClientName mt = mo_ClientName opts ∧
    (mo_ClientRealm opts ≠ "" → mt_ClientRealm mt = mo_ClientRealm opts) ∧
    (Realm spn ≠ "" → mt_Target mt = spn) ∧
    mt_AuthTime mt = UTC (mo_AuthTime opts) ∧ mt_EndTime mt = UTC (mo_EndTime opts) ∧
    IsZero (mo_EndTime opts) = false ∧ After (mo_EndTime opts) (mo_AuthTime opts) = true;
}.

(** ** authdata.go *)

Section authdata.
Context `{Krb5}.

Definition pacAuthorizationData (pacBytes : bytes) : result AuthorizationData :=
  innerBytes ← Marshal_AuthorizationData [{| ADType := ADWin2KPAC; ADData := pacBytes |}];
  Ok [{| ADType := ADIfRelevant; ADData := innerBytes |}].
End authdata.

(** ** DirectMinter *)

Definition errZeroEndTime : error := New "kerbexchange: mint requires a non-zero EndTime".
Definition errEndTimeOrder : error := New "kerbexchange: EndTime must be after AuthTime".
Definition wrapping (msg : string) (e : error) : error := Errorf [Lit msg; Fw e].

Section direct.
Context `{Krb5} {W : Type} `{!Krb5Eff W} {K : Type} `{!KeySource K}.

Record DirectMinter := {
  dm_keys : K;
  dm_defaultRealm : string;
  pacBuilder : option PACBuilder;
}.

Definition NewDirectMinter (keys : K) (defaultRealm : string) : DirectMinter :=
  {| dm_keys := keys; dm_defaultRealm := defaultRealm; pacBuilder := None |}.

Definition WithPACBuilder (m : DirectMinter) (b : PACBuilder) : DirectMinter :=
  {| dm_keys := dm_keys m; dm_defaultRealm := dm_defaultRealm m; pacBuilder := Some b |}.

(** The authorization data of a ticket: [if m.pacBuilder != nil { ... }]. *)
Definition mint_authdata (m : DirectMinter) (id : Identity) (authTime : Time)
    (skey : EncryptionKey) : result AuthorizationData :=
  match pacBuilder m with
  | None => Ok []
  | Some b =>
    '(kvi, ci) ← map_err (wrapping "kerbexchange: build PAC: ") (b id authTime);
    '(kdcKey, _) ← KDCSigningKey (dm_keys m) AES256_CTS_HMAC_SHA1_96;
    pacBytes ← map_err (wrapping "kerbexchange: sign PAC: ")
      (SignAndMarshal (WithClientInfo (WithKerbValidationInfo NewPAC kvi) ci) skey kdcKey);
    pacAuthorizationData pacBytes
  end.

Definition DirectMinter_Mint (m : DirectMinter) (spn : ServicePrincipal) (opts : MintOptions)
    : eff W MintedTicket :=
  let srealm := if bool_decide (Realm spn = "") then dm_defaultRealm m else Realm spn in
  if IsZero (mo_EndTime opts) then fail errZeroEndTime
  else if negb (After (mo_EndTime opts) (mo_AuthTime opts)) then fail errEndTimeOrder
  else
    '(skey, kvno) ← lift (map_err (wrapping "kerbexchange: mint: get service key: ")
                            (ServiceKey (dm_keys m) spn AES256_CTS_HMAC_SHA1_96));
    et ← lift (map_err (wrapping "kerbexchange: mint: get etype: ") (GetEtype (KeyType skey)));
    sessionKey ← emap_err (wrapping "kerbexchange: mint: generate session key: ")
                   (GenerateEncryptionKey et);
    let crealm := if bool_decide (mo_ClientRealm opts = "") then dm_defaultRealm m
                  else mo_ClientRealm opts in
    let authTime := UTC (mo_AuthTime opts) in
    let endTime := UTC (mo_EndTime opts) in
    let renewTill := UTC (mo_RenewTill opts) in
    let startTime := if IsZero (mo_StartTime opts) then authTime else UTC (mo_StartTime opts) in
    authData ← lift (mint_authdata m (mo_Identity opts) authTime skey);
    let etp := {|
      Flags := NewKrbFlags;
      Key := sessionKey;
      CRealm := crealm;
      CName := mo_ClientName opts;
      Transited := emptyTransited;
      etp_AuthTime := authTime;
      etp_StartTime := startTime;
      etp_EndTime := endTime;
      etp_RenewTill := renewTill;
      etp_AuthorizationData := authData;
    |} in
    plain ← lift (map_err (wrapping "kerbexchange: mint: marshal EncTicketPart: ")
                    (Marshal_EncTicketPart etp));
    let plain := AddASNAppTag plain EncTicketPartTag in
    ed ← emap_err (wrapping "kerbexchange: mint: encrypt EncTicketPart: ")
           (GetEncryptedData plain skey KDC_REP_TICKET kvno);
    let sname := {| NameType := KRB_NT_SRV_HST; NameString := [Service spn; Host spn] |} in
    let tkt := {| TktVNO := PVNO; tkt_Realm := srealm; SName := sname; EncPart := ed |} in
    mret {|
      mt_Ticket := tkt;
      mt_SessionKey := sessionKey;
      mt_ClientName := mo_ClientName opts;
      mt_ClientRealm := crealm;
      mt_Target := {| Service := Service spn; Host := Host spn; Realm := srealm |};
      mt_AuthTime := authTime;
      mt_EndTime := endTime;
    |}.

#[export] Instance DirectMinter_Minter : Minter DirectMinter W := {
  Mint := DirectMinter_Mint;
}.

(** *** Inversion of a successful run *)

(** Everything a successful [Mint] did, in order. *)
Record minted (m : DirectMinter) spn opts w (mt : MintedTicket) w' := {
  run_skey : EncryptionKey;
  run_kvno : Z;
  run_ad : AuthorizationData;
  run_etp : EncTicketPart;
  run_plain : bytes;
  run_etype : Etype;
  run_w1 : W;
  run_nonzero : IsZero (mo_EndTime opts) = false;
  run_after : After (mo_EndTime opts) (mo_AuthTime opts) = true;
  run_key : ServiceKey (dm_keys m) spn AES256_CTS_HMAC_SHA1_96 = Ok (run_skey, run_kvno);
  run_getetype : GetEtype (KeyType run_skey) = Ok run_etype;
  run_session : GenerateEncryptionKey run_etype w = (Ok (mt_SessionKey mt), run_w1);
  run_authdata :
    mint_authdata m (mo_Identity opts) (UTC (mo_AuthTime opts)) run_skey = Ok run_ad;
  run_etp_eq : run_etp = {|
    Flags := NewKrbFlags; Key := mt_SessionKey mt; CRealm := mt_ClientRealm mt;
    CName := mo_ClientName opts; Transited := emptyTransited;
    etp_AuthTime := UTC (mo_AuthTime opts);
    etp_StartTime := if IsZero (mo_StartTime opts) then UTC (mo_AuthTime opts)
                     else UTC (mo_StartTime opts);
    etp_EndTime := UTC (mo_EndTime opts);
    etp_RenewTill := UTC (mo_RenewTill opts);
    etp_AuthorizationData := run_ad |};
  run_marshal : Marshal_EncTicketPart run_etp = Ok run_plain;
  run_encrypt : GetEncryptedData (AddASNAppTag run_plain EncTicketPartTag) run_skey
                  KDC_REP_TICKET run_kvno run_w1 = (Ok (EncPart (mt_Ticket mt)), w');
  run_mt : mt = {|
    mt_Ticket := {| TktVNO := PVNO;
                    tkt_Realm := Realm (resolve_realm (dm_defaultRealm m) spn);
                    SName := {| NameType := KRB_NT_SRV_HST;
                                NameString := [Service spn; Host spn] |};
                    EncPart := EncPart (mt_Ticket mt) |};
    mt_SessionKey := mt_SessionKey mt;
    mt_ClientName := mo_ClientName opts;
    mt_ClientRealm := if bool_decide (mo_ClientRealm opts = "") then dm_defaultRealm m
                      else mo_ClientRealm opts;
    mt_Target := resolve_realm (dm_defaultRealm m) spn;
    mt_AuthTime := UTC (mo_AuthTime opts);
    mt_EndTime := UTC (mo_EndTime opts) |};
}.

Lemma Mint_inv m spn opts w mt w' :
  DirectMinter_Mint m spn opts w = (Ok mt, w') → ∃ _ : minted m spn opts w mt w', True.
Proof.
  unfold DirectMinter_Mint. destruct (IsZero (mo_EndTime opts)) eqn:Hz; [done|].
  destruct (After _ _) eqn:Ha; [cbn [negb]|done]. intros Hrun. inv_ok.
  unshelve eexists; [econstructor|done]; (done || reflexivity).
Qed.

Lemma DirectMinter_fields m spn opts w mt w' :
  DirectMinter_Mint m spn opts w = (Ok mt, w') →
  mt_ClientName mt = mo_ClientName opts ∧
  (mo_ClientRealm opts ≠ "" → mt_ClientRealm mt = mo_ClientRealm opts) ∧
  (Realm spn ≠ "" → mt_Target mt = spn) ∧
  mt_AuthTime mt = UTC (mo_AuthTime opts) ∧ mt_EndTime mt = UTC (mo_EndTime opts) ∧
  IsZero (mo_EndTime opts) = false ∧ After (mo_EndTime opts) (mo_AuthTime opts) = true.
Proof.
  intros Hrun. destruct (Mint_inv _ _ _ _ _ _ Hrun) as [run _].
  rewrite (run_mt _ _ _ _ _ _ run). cbn [mt_ClientName mt_ClientRealm mt_Target mt_AuthTime mt_EndTime].
  split_and!; try done.
  - intros. by rewrite bool_decide_false.
  - intros. destruct spn. unfold resolve_realm. cbn in *. by rewrite bool_decide_false.
  - apply (run_nonzero _ _ _ _ _ _ run).
  - apply (run_after _ _ _ _ _ _ run).
Qed.

#[export] Instance DirectMinter_laws : MinterLaws DirectMinter W.
Proof. constructor. exact DirectMinter_fields. Qed.
End direct.

(** ** The acceptor *)

(** A time ASN.1's GeneralizedTime can write: years 1 to 9999. *)
Definition representable (t : Time) : Prop := 0 ≤ sec t < 315537897600.
#[export] Instance representable_dec t : Decision (representable t).
Proof. unfold representable. apply _. Defined.

Section acceptor.
Context `{Krb5} `{!Acceptor}.

(** A service that shares [skey] with the minter reads a ticket. *)
Definition read_ticket (skey : EncryptionKey) (t : Ticket) : option EncTicketPart :=
  plain ← DecryptEncPart (EncPart t) skey KDC_REP_TICKET;
  Unmarshal_EncTicketPart plain.

Fixpoint find_pac (inner : AuthorizationData) : option bytes :=
  match inner with
  | [] => None
  | ie :: inner' => if ADType ie =? ADWin2KPAC then Some (ADData ie) else find_pac inner'
  end.

Fixpoint extract_loop (ad : AuthorizationData) : result bytes :=
  match ad with
  | [] => Err (New "no AD-WIN2K-PAC in the minted ticket")
  | e :: ad' =>
    if negb (ADType e =? ADIfRelevant) then extract_loop ad'
    else match Unmarshal_AuthorizationData (ADData e) with
         | None => Err (New "unmarshal AD-IF-RELEVANT")
         | Some inner => match find_pac inner with
                         | Some pac => Ok pac
                         | None => extract_loop ad'
                         end
         end
  end.

(** [log.Fatal] is an error: the program ends. *)
Definition extractPAC (encTicketPart : bytes) : result bytes :=
  match Unmarshal_EncTicketPart encTicketPart with
  | None => Err (New "unmarshal EncTicketPart")
  | Some etp => extract_loop (etp_AuthorizationData etp)
  end.

Context {W : Type} `{!Krb5Eff W} `{!AcceptorLaws W} {K : Type} `{!KeySource K}.

Lemma extract_pacAuthorizationData pac ad :
  pacAuthorizationData pac = Ok ad → extract_loop ad = Ok pac.
Proof.
  unfold pacAuthorizationData. intros Hpac. inv_ok.
  rewrite Z.eqb_refl. cbn [negb].
  rewrite (unmarshal_ad _ _ ltac:(eassumption)). simpl. by rewrite Z.eqb_refl.
Qed.

(** What the acceptor decrypts. *)
Lemma read_minted m spn opts w mt w' (run : minted (W:=W) m spn opts w mt w') :
  DecryptEncPart (EncPart (mt_Ticket mt)) (run_skey _ _ _ _ _ _ run) KDC_REP_TICKET =
    Some (AddASNAppTag (run_plain _ _ _ _ _ _ run) EncTicketPartTag) ∧
  Unmarshal_EncTicketPart (AddASNAppTag (run_plain _ _ _ _ _ _ run) EncTicketPartTag) =
    Some (etp_view (run_etp _ _ _ _ _ _ run)).
Proof.
  split.
  - eapply decrypt_encrypt, run_encrypt.
  - apply unmarshal_etp; [apply run_marshal|].
    rewrite (run_etp_eq _ _ _ _ _ _ run). repeat constructor. by case_match.
Qed.

(** A minted ticket and its description agree, as the acceptor sees them. *)
Lemma minted_agrees (m : DirectMinter (K:=K)) spn opts w mt w' :
  DirectMinter_Mint m spn opts w = (Ok mt, w') →
  ∃ skey kvno etp,
    ServiceKey (dm_keys m) spn AES256_CTS_HMAC_SHA1_96 = Ok (skey, kvno) ∧
    read_ticket skey (mt_Ticket mt) = Some etp ∧
    Key etp = mt_SessionKey mt ∧ CName etp = mt_ClientName mt ∧
    CRealm etp = mt_ClientRealm mt ∧ etp_EndTime etp = KerberosTime (mt_EndTime mt) ∧
    SName (mt_Ticket mt) = {| NameType := KRB_NT_SRV_HST;
                              NameString := [Service (mt_Target mt); Host (mt_Target mt)] |} ∧
    tkt_Realm (mt_Ticket mt) = Realm (mt_Target mt) ∧
    etp_AuthTime etp = KerberosTime (mt_AuthTime mt) ∧
    etp_StartTime etp = KerberosTime (if IsZero (mo_StartTime opts) then UTC (mo_AuthTime opts)
                                      else UTC (mo_StartTime opts)).
Proof.
  intros Hrun. destruct (Mint_inv _ _ _ _ _ _ Hrun) as [run _].
  destruct (read_minted _ _ _ _ _ _ run) as [Hd Hu].
  destruct run as [skey kvno ad etp plain et w1 Hz Ha Hk Het Hs Had Heq Hm Henc Hmt].
  cbn in Hd, Hu. exists skey, kvno, (etp_view etp). unfold read_ticket. rewrite Hd.
  destruct mt. injection Hmt as Htkt ? ? ? ? ?. subst.
  by split_and!; try done; rewrite Htkt.
Qed.

(** The PAC of a minted ticket, from the acceptor's side. *)
Lemma minted_pac (m : DirectMinter (K:=K)) spn opts w mt w' :
  DirectMinter_Mint m spn opts w = (Ok mt, w') →
  ∃ skey kvno plain etp,
    ServiceKey (dm_keys m) spn AES256_CTS_HMAC_SHA1_96 = Ok (skey, kvno) ∧
    DecryptEncPart (EncPart (mt_Ticket mt)) skey KDC_REP_TICKET = Some plain ∧
    Unmarshal_EncTicketPart plain = Some etp ∧
    match pacBuilder m with
    | Some b =>
        ∃ kvi ci kdcKey kdcKvno pac,
          b (mo_Identity opts) (UTC (mo_AuthTime opts)) = Ok (kvi, ci) ∧
          KDCSigningKey (dm_keys m) AES256_CTS_HMAC_SHA1_96 = Ok (kdcKey, kdcKvno) ∧
          extractPAC plain = Ok pac ∧ VerifyPAC pac skey kdcKey = Some (kvi, ci)
    | None => etp_AuthorizationData etp = []
    end.
Proof.
  intros Hrun. destruct (Mint_inv _ _ _ _ _ _ Hrun) as [run _].
  destruct (read_minted _ _ _ _ _ _ run) as [Hd Hu].
  exists (run_skey _ _ _ _ _ _ run), (run_kvno _ _ _ _ _ _ run).
  do 2 eexists. split_and!; [apply run_key|exact Hd|exact Hu|].
  pose proof (run_authdata _ _ _ _ _ _ run) as Had. unfold mint_authdata in Had.
  unfold extractPAC. rewrite Hu, (run_etp_eq _ _ _ _ _ _ run). simpl.
  destruct (pacBuilder m) as [b|].
  - inv_ok. do 5 eexists. split_and!; [done|done|by apply extract_pacAuthorizationData|].
    by eapply verify_pac.
  - by injection Had as <-.
Qed.

Lemma Mint_succeeds (m : DirectMinter (K:=K)) spn opts w skey kvno et ad :
  IsZero (mo_EndTime opts) = false →
  After (mo_EndTime opts) (mo_AuthTime opts) = true →
  ServiceKey (dm_keys m) spn AES256_CTS_HMAC_SHA1_96 = Ok (skey, kvno) →
  GetEtype (KeyType skey) = Ok et →
  mint_authdata m (mo_Identity opts) (UTC (mo_AuthTime opts)) skey = Ok ad →
  Forall representable [mo_AuthTime opts; mo_StartTime opts; mo_EndTime opts;
                        mo_RenewTill opts] →
  (∀ w, ∃ k w', GenerateEncryptionKey et w = (Ok k, w')) →
  (∀ etp, etp_utc etp →
     Forall representable [etp_AuthTime etp; etp_StartTime etp; etp_EndTime etp;
                           etp_RenewTill etp] →
     ∃ b, Marshal_EncTicketPart etp = Ok b) →
  (∀ b w, ∃ ed w', GetEncryptedData b skey KDC_REP_TICKET kvno w = (Ok ed, w')) →
  ∃ mt w', DirectMinter_Mint m spn opts w = (Ok mt, w').
Proof.
  intros Hz Ha Hk Het Had Hrep Hgen Hmar Henc. unfold DirectMinter_Mint.
  rewrite Hz, Ha. cbn [negb]. rewrite Hk.
  unfold mbind, eff_bind, lift, emap_err, map_err. rewrite Het.
  destruct (Hgen w) as (sk & w1 & ->). rewrite Had.
  match goal with |- context [Marshal_EncTicketPart ?e] => destruct (Hmar e) as (b & ->) end.
  { repeat constructor. cbn. by destruct (IsZero (mo_StartTime opts)). }
  { rewrite !Forall_cons in Hrep |- *. destruct Hrep as (? & ? & ? & ? & ?). cbn.
    by destruct (IsZero (mo_StartTime opts)). }
  destruct (Henc (AddASNAppTag b EncTicketPartTag) w1) as (ed & w2 & ->).
  by do 2 eexists.
Qed.

(** *** Properties *)

(** C8. The ticket a successful [Mint] returns is the ticket it describes.  A
    service that decrypts it with its own long-term key reads the session key,
    client and client realm of the [MintedTicket] and the four times of the
    options as KerberosTimes - UTC, whole seconds, start time defaulting to
    the authentication time; the cleartext names the service in its resolved
    realm, which is the target the [MintedTicket] reports. *)
Theorem Mint_acceptor_view (m : DirectMinter (K:=K)) spn opts w mt w' :
  DirectMinter_Mint m spn opts w = (Ok mt, w') →
  ∃ skey kvno etp,
    ServiceKey (dm_keys m) spn AES256_CTS_HMAC_SHA1_96 = Ok (skey, kvno) ∧
    read_ticket skey (mt_Ticket mt) = Some etp ∧
    Key etp = mt_SessionKey mt ∧
    CName etp = mo_ClientName opts ∧ mt_ClientName mt = mo_ClientName opts ∧
    CRealm etp = mt_ClientRealm mt ∧
    mt_ClientRealm mt = (if bool_decide (mo_ClientRealm opts = "") then dm_defaultRealm m
                         else mo_ClientRealm opts) ∧
    etp_AuthTime etp = KerberosTime (mo_AuthTime opts) ∧
    etp_StartTime etp = KerberosTime (if IsZero (mo_StartTime opts) then mo_AuthTime opts
                                      else mo_StartTime opts) ∧
    etp_EndTime etp = KerberosTime (mo_EndTime opts) ∧
    etp_RenewTill etp = KerberosTime (mo_RenewTill opts) ∧
    NameString (SName (mt_Ticket mt)) = [Service (mt_Target mt); Host (mt_Target mt)] ∧
    tkt_Realm (mt_Ticket mt) = Realm (mt_Target mt) ∧
    mt_Target mt = resolve_realm (dm_defaultRealm m) spn.
Proof.
  intros Hrun. destruct (Mint_inv _ _ _ _ _ _ Hrun) as [run _].
  destruct (read_minted _ _ _ _ _ _ run) as [Hd Hu].
  destruct run as [skey kvno ad etp plain et w1 Hz Ha Hk Het Hs Had Heq Hm Henc Hmt].
  cbn in Hd, Hu. exists skey, kvno, (etp_view etp). unfold read_ticket. rewrite Hd.
  destruct mt. injection Hmt as Htkt ? ? ? ? ?. subst.
  split_and!; try done; [|by rewrite Htkt..]. simpl. by destruct (IsZero (mo_StartTime opts)).
Qed.

(** C9. A configured PAC builder is never bypassed: every ticket carries a PAC
    that the service finds in the decrypted ticket and that verifies, under
    the service key and the KDC signing key, as exactly the logon and client
    information the builder made of the identity at the authentication time.
    Without a builder the ticket has no authorization data.  When building
    or signing fails, no ticket is returned. *)
Theorem Mint_pac (m : DirectMinter (K:=K)) spn opts w mt w' :
  DirectMinter_Mint m spn opts w = (Ok mt, w') →
  ∃ skey kvno plain,
    ServiceKey (dm_keys m) spn AES256_CTS_HMAC_SHA1_96 = Ok (skey, kvno) ∧
    DecryptEncPart (EncPart (mt_Ticket mt)) skey KDC_REP_TICKET = Some plain ∧
    match pacBuilder m with
    | Some b =>
        ∃ kvi ci kdcKey kdcKvno pac,
          b (mo_Identity opts) (UTC (mo_AuthTime opts)) = Ok (kvi, ci) ∧
          KDCSigningKey (dm_keys m) AES256_CTS_HMAC_SHA1_96 = Ok (kdcKey, kdcKvno) ∧
          extractPAC plain = Ok pac ∧ VerifyPAC pac skey kdcKey = Some (kvi, ci)
    | None => ∃ etp, Unmarshal_EncTicketPart plain = Some etp ∧ etp_AuthorizationData etp = []
    end.
Proof.
  intros Hrun. destruct (minted_pac _ _ _ _ _ _ Hrun) as (skey & kvno & plain & etp & Hk & Hd & Hu & Hp).
  exists skey, kvno, plain. split_and!; [done|done|]. destruct (pacBuilder m); [done|by exists etp].
Qed.

(** C20. [Mint] fails closed, and before it draws a session key: with a zero end
    time, with an end time that is not after the authentication time, and
    without a key for the service, it returns the corresponding error in the
    world it was called in; when the PAC cannot be made there is no ticket. *)
Theorem Mint_fails_closed (m : DirectMinter (K:=K)) `{!KeySourceLaws K} spn opts w :
  (IsZero (mo_EndTime opts) = true → DirectMinter_Mint m spn opts w = (Err errZeroEndTime, w)) ∧
  (IsZero (mo_EndTime opts) = false → After (mo_EndTime opts) (mo_AuthTime opts) = false →
     DirectMinter_Mint m spn opts w = (Err errEndTimeOrder, w)) ∧
  (IsZero (mo_EndTime opts) = false → After (mo_EndTime opts) (mo_AuthTime opts) = true →
     ∀ e, ServiceKey (dm_keys m) spn AES256_CTS_HMAC_SHA1_96 = Err e →
     ∃ e', DirectMinter_Mint m spn opts w = (Err e', w) ∧ errors_Is e' ErrNoServiceKey = true) ∧
  (∀ skey kvno e, ServiceKey (dm_keys m) spn AES256_CTS_HMAC_SHA1_96 = Ok (skey, kvno) →
     mint_authdata m (mo_Identity opts) (UTC (mo_AuthTime opts)) skey = Err e →
     ∀ mt w', DirectMinter_Mint m spn opts w ≠ (Ok mt, w')).
Proof.
  split_and!.
  - intros Hz. unfold DirectMinter_Mint. by rewrite Hz.
  - intros Hz Ha. unfold DirectMinter_Mint. by rewrite Hz, Ha.
  - intros Hz Ha e He. exists (wrapping "kerbexchange: mint: get service key: " e). split.
    + unfold DirectMinter_Mint. rewrite Hz, Ha. cbn [negb]. by rewrite He.
    + apply (errors_Is_wrap _ e); [by right; left|by eapply ServiceKey_err].
  - intros skey kvno e Hk He mt w' Hrun.
    destruct (Mint_inv _ _ _ _ _ _ Hrun) as [run _].
    pose proof (run_authdata _ _ _ _ _ _ run) as Had.
    rewrite (run_key _ _ _ _ _ _ run) in Hk. injection Hk as Hk _. rewrite Hk, He in Had. done.
Qed.

(** [Mint] delivers: when the end time is set and after the authentication
    time, the options' times are in the years 1 to 9999, the service has a key
    of a known type, the PAC can be made, and neither the encoder (on such
    times), the cipher nor the entropy source fails, a ticket is returned. *)
Theorem Mint_progress (m : DirectMinter (K:=K)) spn opts w skey kvno et ad :
  IsZero (mo_EndTime opts) = false →
  After (mo_EndTime opts) (mo_AuthTime opts) = true →
  ServiceKey (dm_keys m) spn AES256_CTS_HMAC_SHA1_96 = Ok (skey, kvno) →
  GetEtype (KeyType skey) = Ok et →
  mint_authdata m (mo_Identity opts) (UTC (mo_AuthTime opts)) skey = Ok ad →
  Forall representable [mo_AuthTime opts; mo_StartTime opts; mo_EndTime opts;
                        mo_RenewTill opts] →
  (∀ w, ∃ k w', GenerateEncryptionKey et w = (Ok k, w')) →
  (∀ etp, etp_utc etp →
     Forall representable [etp_AuthTime etp; etp_StartTime etp; etp_EndTime etp;
                           etp_RenewTill etp] →
     ∃ b, Marshal_EncTicketPart etp = Ok b) →
  (∀ b w, ∃ ed w', GetEncryptedData b skey KDC_REP_TICKET kvno w = (Ok ed, w')) →
  ∃ mt w', DirectMinter_Mint m spn opts w = (Ok mt, w').
Proof. apply Mint_succeeds. Qed.

End acceptor.

Section tgt.
Context `{Krb5} `{!Acceptor} {W : Type} `{!Krb5Eff W} `{!AcceptorLaws W}.

(** C21. Nothing keeps a caller from asking for a ticket-granting ticket: for the
    principal [krbtgt/<default realm>], which [ParseServicePrincipal] accepts
    like any other target, the minter encrypts the ticket under the very key
    that [KDCSigningKey] returns, so whoever holds that key - the realm's
    KDC - accepts the client it names. *)
Theorem Mint_issues_tgt (k : Keytab) realm builder opts (w : W) mt w' :
  ParseSPNString ("krbtgt/" +:+ realm) =
    ({| NameType := KRB_NT_PRINCIPAL; NameString := ["krbtgt"; realm] |}, "") →
  let m := {| dm_keys := NewKeytabSource k realm; dm_defaultRealm := realm;
              pacBuilder := builder |} in
  let tgs := {| Service := "krbtgt"; Host := realm; Realm := "" |} in
  DirectMinter_Mint m tgs opts w = (Ok mt, w') →
  ∃ kdcKey kvno etp,
    KDCSigningKey (NewKeytabSource k realm) AES256_CTS_HMAC_SHA1_96 = Ok (kdcKey, kvno) ∧
    read_ticket kdcKey (mt_Ticket mt) = Some etp ∧
    CName etp = mo_ClientName opts ∧ Key etp = mt_SessionKey mt ∧
    NameString (SName (mt_Ticket mt)) = ["krbtgt"; realm].
Proof.
  intros Hparse m tgs Hrun. destruct (Mint_inv _ _ _ _ _ _ Hrun) as [run _].
  destruct (read_minted _ _ _ _ _ _ run) as [Hd Hu].
  destruct run as [skey kvno ad etp plain et w1 Hz Ha Hk Het Hs Had Heq Hm Henc Hmt].
  cbn in Hd, Hu. exists skey, kvno, (etp_view etp). unfold read_ticket. rewrite Hd.
  split_and!; [|done|by rewrite Heq|by rewrite Heq|by rewrite Hmt].
  simpl in Hk. unfold KeytabSource_ServiceKey in Hk. apply map_err_Ok in Hk.
  simpl. unfold KeytabSource_KDCSigningKey. simpl. simpl in Hparse. rewrite Hparse.
  by apply map_err_Ok.
Qed.
End tgt.

(** ** Witnesses *)

Definition sample_keytab : @Keytab sym_types :=
  [(["imap"; "h"], "R", 18, (18, 101), 3); (["krbtgt"; "R"], "R", 18, (18, 7), 1)].

Definition sample_skey : @EncryptionKey sym_types := (18, 101).

Definition sample_minter : DirectMinter (K:=KeytabSource) :=
  WithPACBuilder (NewDirectMinter (NewKeytabSource sample_keytab "R") "R") (Build sample_builder).

Definition sample_world : SymWorld := {| sw_clock := 63000000000; sw_seed := 1; sw_disk := ∅ |}.

Definition sample_opts : MintOptions :=
  {| mo_ClientName := {| NameType := 1; NameString := ["alice"] |}; mo_ClientRealm := "";
     mo_Identity := sample_id ["mail"]; mo_AuthTime := Unix 1000; mo_StartTime := zeroTime;
     mo_EndTime := Unix 2000; mo_RenewTill := zeroTime |}.

Definition imap_h : ServicePrincipal := {| Service := "imap"; Host := "h"; Realm := "" |}.

Ltac run_sample E :=
  match goal with
  | |- context [DirectMinter_Mint ?m ?spn ?opts ?w0] =>
      destruct (DirectMinter_Mint m spn opts w0) as [[mt|e] w] eqn:E;
      [|apply (f_equal (λ r, is_ok r.1)) in E; by vm_compute in E]
  end.

Lemma Mint_acceptor_view_witness :
  match DirectMinter_Mint sample_minter imap_h sample_opts sample_world with
  | (Ok mt, _) => ∃ skey kvno etp,
      ServiceKey (dm_keys sample_minter) imap_h 18 = Ok (skey, kvno) ∧
      read_ticket skey (mt_Ticket mt) = Some etp ∧ Key etp = mt_SessionKey mt
  | _ => False
  end.
Proof.
  run_sample E. destruct (Mint_acceptor_view _ _ _ _ _ _ E) as (k & v & etp & Hk & Hr & Hs & _).
  by exists k, v, etp.
Defined.

Lemma Mint_pac_witness :
  match DirectMinter_Mint sample_minter imap_h sample_opts sample_world with
  | (Ok mt, _) => ∃ skey kvno plain kvi ci kdcKey pac,
      ServiceKey (dm_keys sample_minter) imap_h 18 = Ok (skey, kvno) ∧
      DecryptEncPart (EncPart (mt_Ticket mt)) skey KDC_REP_TICKET = Some plain ∧
      extractPAC plain = Ok pac ∧ VerifyPAC pac skey kdcKey = Some (kvi, ci)
  | _ => False
  end.
Proof.
  run_sample E. destruct (Mint_pac _ _ _ _ _ _ E) as (k & v & plain & Hk & Hd & Hp).
  destruct Hp as (kvi & ci & kdc & kv & pac & _ & _ & Hx & Hv).
  by exists k, v, plain, kvi, ci, kdc, pac.
Defined.

Lemma Mint_progress_witness :
  ∃ mt w', DirectMinter_Mint sample_minter imap_h sample_opts sample_world = (Ok mt, w').
Proof.
  destruct (mint_authdata sample_minter (mo_Identity sample_opts)
              (UTC (mo_AuthTime sample_opts)) sample_skey) as [ad|e] eqn:E;
    [|apply (f_equal is_ok) in E; by vm_compute in E].
  apply (Mint_progress sample_minter imap_h sample_opts sample_world sample_skey 3 18 ad);
    [reflexivity..|exact E| | | |].
  - refine (bool_decide_eq_true_1 _ _). by vm_compute.
  - intros w. by do 2 eexists.
  - intros etp _ _. by eexists.
  - intros b w. by do 2 eexists.
Defined.

Lemma Mint_issues_tgt_witness :
  match DirectMinter_Mint sample_minter {| Service := "krbtgt"; Host := "R"; Realm := "" |}
          sample_opts sample_world with
  | (Ok mt, _) => ∃ kdcKey kvno etp,
      KDCSigningKey (dm_keys sample_minter) 18 = Ok (kdcKey, kvno) ∧
      read_ticket kdcKey (mt_Ticket mt) = Some etp
  | _ => False
  end.
Proof.
  run_sample E.
  destruct (Mint_issues_tgt sample_keytab "R" (Some (Build sample_builder)) sample_opts
              sample_world mt w ltac:(by vm_compute) E) as (k & v & etp & Hk & Hr & _).
  by exists k, v, etp.
Defined.

(** A zero end time, and a principal the sample keytab has no entry for. *)
Lemma Mint_fails_closed_witness :
  DirectMinter_Mint sample_minter imap_h
    {| mo_ClientName := mo_ClientName sample_opts; mo_ClientRealm := ""; mo_Identity := sample_id [];
       mo_AuthTime := Unix 1000; mo_StartTime := zeroTime; mo_EndTime := zeroTime;
       mo_RenewTill := zeroTime |} sample_world = (Err errZeroEndTime, sample_world) ∧
  ∃ e', DirectMinter_Mint sample_minter {| Service := "smtp"; Host := "h"; Realm := "" |}
          sample_opts sample_world = (Err e', sample_world) ∧ errors_Is e' ErrNoServiceKey = true.
Proof.
  split.
  - by apply (Mint_fails_closed (W:=SymWorld) sample_minter imap_h).
  - destruct (Mint_fails_closed (W:=SymWorld) sample_minter
      {| Service := "smtp"; Host := "h"; Realm := "" |} sample_opts sample_world) as (_ & _ & H & _).
    destruct (ServiceKey (dm_keys sample_minter) {| Service := "smtp"; Host := "h"; Realm := "" |}
                AES256_CTS_HMAC_SHA1_96) as [k|e] eqn:E; [by vm_compute in E|].
    by apply (H eq_refl eq_refl e).
Defined.
