(* ===== verification/Issue.v ===== *)
(** * Issue: from a minted ticket to an issued credential

    ccache_write.go ([MarshalCCache]), apreq.go ([MarshalAPReqToken] with its
    DER length encoder) and issue.go ([MintedTicket.Credential]).  The readers
    the theorems use are the consumers: a strict DER length decoder, a GSS-API
    acceptor for the token and a ccache reader. *)
From S2P Require Import Prelude Errors GoText GoTime Principal Request Krb5 Symbolic Credential.
From S2P Require Import GoJson Claims Pac KeySource Minter.

(** ** ccache_write.go *)

Section ccache.
Context `{Krb5}.

Definition MarshalCCache (mt : MintedTicket) : result bytes :=
  tkt ← Ticket_Marshal (mt_Ticket mt);
  let client := NewPrincipal (mt_ClientName mt) (mt_ClientRealm mt) in
  let server := NewPrincipal
    {| NameType := KRB_NT_SRV_HST;
       NameString := [Service (mt_Target mt); Host (mt_Target mt)] |}
    (Realm (mt_Target mt)) in
  let cred := {|
    cc_Client := client;
    cc_Server := server;
    cc_Key := mt_SessionKey mt;
    cc_AuthTime := mt_AuthTime mt;
    cc_StartTime := mt_AuthTime mt;
    cc_EndTime := mt_EndTime mt;
    cc_RenewTill := Unix 0;
    cc_TicketFlags := NewKrbFlags;
    cc_Ticket := tkt;
  |} in
  CCache_Marshal (AddCredential (SetDefaultPrincipal NewV4CCache client) cred).
End ccache.

(** ** apreq.go *)

Definition bytes_of (l : list Z) : bytes := String.string_of_list_ascii (map byte l).

Definition krb5MechOID : bytes :=
  bytes_of [0x06; 0x09; 0x2A; 0x86; 0x48; 0x86; 0xF7; 0x12; 0x01; 0x02; 0x02].

Definition apReqTokID : bytes := bytes_of [0x01; 0x00].

(** [for tmp > 0 { nBytes++; tmp >>= 8 }]: an int is gone after eight rounds. *)
Fixpoint count_bytes (fuel : nat) (tmp : Z) (nBytes : nat) : nat :=
  match fuel with
  | O => nBytes
  | S fuel' => if 0 <? tmp then count_bytes fuel' (Z.shiftr tmp 8) (S nBytes) else nBytes
  end.
Definition intFuel : nat := 8.

(** [for i := nBytes; i >= 1; i-- { out[i] = byte(n & 0xff); n >>= 8 }] *)
Fixpoint fill_bytes (i : nat) (n : Z) (out : list ascii) : list ascii :=
  match i with
  | O => out
  | S i' => fill_bytes i' (Z.shiftr n 8) (<[i := byte (Z.land n 0xff)]> out)
  end.

Definition derLength (n : Z) : bytes :=
  String.string_of_list_ascii
    (if n <? 0x80 then [byte n]
     else
       let nBytes := count_bytes intFuel n 0 in
       let out := replicate (1 + nBytes) Ascii.zero in
       let out := <[0%nat := byte (Z.lor 0x80 (Z.of_nat nBytes))]> out in
       fill_bytes nBytes n out).

Definition lenDERLen (n : Z) : Z :=
  if n <? 0x80 then 1 else 1 + Z.of_nat (count_bytes intFuel n 0).

Section apreq.
Context `{Krb5} {W : Type} `{!Krb5Eff W}.

Definition MarshalAPReqToken (mt : MintedTicket) : eff W bytes :=
  auth ← emap_err (wrapping "kerbexchange: build authenticator: ")
           (NewAuthenticator (mt_ClientRealm mt) (mt_ClientName mt));
  ap ← emap_err (wrapping "kerbexchange: build AP-REQ: ")
         (NewAPReq (mt_Ticket mt) (mt_SessionKey mt) auth);
  apreqDER ← lift (map_err (wrapping "kerbexchange: marshal AP-REQ: ") (APReq_Marshal ap));
  let inner := krb5MechOID +:+ apReqTokID +:+ apreqDER in
  mret (bytes_of [0x60] +:+ derLength (len inner) +:+ inner).
End apreq.

(** ** issue.go *)

Section issue.
Context `{Krb5} {W : Type} `{!Krb5Eff W}.

Definition mt_subject (mt : MintedTicket) : string :=
  match NameString (mt_ClientName mt) with s :: _ => s | [] => "" end.

(** [MintedTicket.Credential] *)
Definition mt_Credential (mt : MintedTicket) (output : OutputType) : eff W Credential :=
  if output =? OutputCCache then
    ccache ← lift (MarshalCCache mt);
    mret (NewCredential (mt_subject mt) (mt_Target mt) (mt_EndTime mt) ccache "")
  else if output =? OutputAPReq then
    apreq ← MarshalAPReqToken mt;
    mret (NewCredential (mt_subject mt) (mt_Target mt) (mt_EndTime mt) "" apreq)
  else fail (Errorf [Lit "kerbexchange: unsupported output type ";
                     Fs (OutputType_String output)]).
End issue.

(** ** Reference readers *)

Definition be_value (l : list ascii) : Z := fold_left (λ acc c, acc * 256 + byte_val c) l 0.

(** A DER length (X.690 8.1.3, 10.1): the definite form of the least length. *)
Definition read_der_length (s : bytes) : option (Z * bytes) :=
  match String.list_ascii_of_string s with
  | [] => None
  | c :: l =>
    let b := byte_val c in
    if b <? 128 then Some (b, String.string_of_list_ascii l)
    else
      let k := Z.to_nat (b - 128) in
      let n := be_value (take k l) in
      if bool_decide (0 < k ≤ List.length l)%nat && (128 <=? n) && negb (bool_decide (head l = Some Ascii.zero))
      then Some (n, String.string_of_list_ascii (drop k l)) else None
  end.

(** A GSS-API initial-context token for Kerberos (RFC 2743 3.1, RFC 4121): the
    AP-REQ inside it. *)
Definition read_token (tok : bytes) : option bytes :=
  body ← strip_prefix (bytes_of [0x60]) tok;
  '(n, inner) ← read_der_length body;
  if negb (n =? len inner) then None
  else rest ← strip_prefix krb5MechOID inner; strip_prefix apReqTokID rest.

(** ** Lemmas *)

Lemma soa_app l k : String.string_of_list_ascii (l ++ k) = String.string_of_list_ascii l +:+ String.string_of_list_ascii k.
Proof. induction l; simpl; congruence. Qed.

Lemma soa_length l : len (String.string_of_list_ascii l) = Z.of_nat (List.length l).
Proof. unfold len. f_equal. induction l; simpl; congruence. Qed.

Lemma strip_prefix_app p s : strip_prefix p (p +:+ s) = Some s.
Proof. induction p as [|c p IH]; simpl; [done|]. by rewrite bool_decide_true. Qed.

Fixpoint be (k : nat) (n : Z) : list ascii :=
  match k with O => [] | S k' => be k' (Z.shiftr n 8) ++ [byte (Z.land n 0xff)] end.

Lemma be_length k n : List.length (be k n) = k.
Proof. revert n. induction k; intros; simpl; [done|]. rewrite length_app, IHk. simpl. lia. Qed.

Lemma shiftr8 n : Z.shiftr n 8 = n / 256.
Proof. by rewrite Z.shiftr_div_pow2. Qed.

Lemma land255 n : Z.land n 0xff = n mod 256.
Proof. change 0xff with (Z.ones 8). by rewrite Z.land_ones. Qed.

Lemma fill_bytes_be k n c l suf :
  List.length l = k → fill_bytes k n (c :: l ++ suf) = c :: be k n ++ suf.
Proof.
  revert n l suf. induction k as [|k IH]; intros n l suf Hl; simpl.
  - by destruct l.
  - destruct (exists_last (l := l)) as (l' & x & ->); [by intros ->|].
    rewrite length_app in Hl. simpl in Hl.
    rewrite <- !app_assoc. simpl.
    rewrite insert_app_r_alt by lia. replace (k - List.length l')%nat with 0%nat by lia. simpl.
    rewrite IH by lia. done.
Qed.

Lemma be_value_be k n : 0 ≤ n → be_value (be k n) = n mod 256 ^ Z.of_nat k.
Proof.
  unfold be_value. revert n. induction k as [|k IH]; intros n Hn; simpl be.
  - by rewrite Z.mod_1_r.
  - rewrite fold_left_app, shiftr8, IH by (apply Z.div_pos; lia). simpl fold_left.
    rewrite byte_val_byte, land255. unfold wrapu. change (2 ^ 8) with 256. rewrite Zmod_mod.
    rewrite Nat2Z.inj_succ, Z.pow_succ_r by lia.
    rewrite Z.rem_mul_r by (try apply Z.pow_nonzero; try apply Z.pow_pos_nonneg; lia).
    lia.
Qed.

Lemma count_bytes_spec fuel n acc :
  0 ≤ n < 256 ^ Z.of_nat fuel →
  ∃ k, count_bytes fuel n acc = (acc + k)%nat ∧ (k ≤ fuel)%nat ∧ n < 256 ^ Z.of_nat k ∧
       (0 < n → (0 < k)%nat ∧ 256 ^ (Z.of_nat k - 1) ≤ n).
Proof.
  revert n acc. induction fuel as [|fuel IH]; intros n acc Hn.
  - exists 0%nat. simpl in *. lia.
  - cbn [count_bytes]. destruct (Z.ltb_spec 0 n) as [Hpos|Hz].
    + rewrite Nat2Z.inj_succ, Z.pow_succ_r in Hn by lia. rewrite shiftr8.
      destruct (IH (n / 256) (S acc)) as (k & Hk & Hle & Hlt & Hmin).
      { split; [apply Z.div_pos; lia|apply Z.div_lt_upper_bound; lia]. }
      exists (S k). rewrite Hk, Nat2Z.inj_succ, Z.pow_succ_r by lia.
      split_and!; [lia|lia|div_lia|].
      intros _. split; [lia|]. replace (Z.succ (Z.of_nat k) - 1) with (Z.of_nat k) by lia.
      destruct (Z.le_gt_cases (n / 256) 0) as [H0|H0].
      * destruct k as [|k]; [simpl; lia|]. exfalso.
        assert (0 < n / 256 ∨ n / 256 = 0) as [?|E] by (pose proof (Z.div_pos n 256); lia); [lia|].
        clear -Hk E Hpos. rewrite E in Hk. destruct fuel; simpl in Hk; lia.
      * destruct (Hmin H0) as [Hk0 Hk1]. replace (Z.of_nat k) with (Z.succ (Z.of_nat k - 1)) by lia.
        rewrite Z.pow_succ_r by lia. div_lia.
    + exists 0%nat. simpl. lia.
Qed.

Lemma be_head k n : 0 ≤ n → be (S k) n = byte (n / 256 ^ Z.of_nat k) :: be k n.
Proof.
  revert n. induction k as [|k IH]; intros n Hn.
  - cbn [be app]. rewrite land255. simpl (256 ^ Z.of_nat 0). rewrite Z.div_1_r.
    unfold byte, wrapu. change (2 ^ 8) with 256. by rewrite Zmod_mod.
  - change (be (S (S k)) n) with (be (S k) (Z.shiftr n 8) ++ [byte (Z.land n 0xff)]).
    rewrite shiftr8, IH by (apply Z.div_pos; lia). cbn [app be]. rewrite shiftr8.
    rewrite Z.div_div by (try apply Z.pow_pos_nonneg; lia).
    by rewrite Nat2Z.inj_succ, Z.pow_succ_r by lia.
Qed.

Lemma derLength_short n : n < 128 → derLength n = String (byte n) "".
Proof. intros. unfold derLength. by rewrite (proj2 (Z.ltb_lt _ _)). Qed.

Lemma derLength_long n :
  128 ≤ n < 2 ^ 63 →
  ∃ k, count_bytes intFuel n 0 = k ∧ (1 ≤ k ≤ 8)%nat ∧
       256 ^ (Z.of_nat k - 1) ≤ n < 256 ^ Z.of_nat k ∧
       derLength n = String.string_of_list_ascii (byte (128 + Z.of_nat k) :: be k n).
Proof.
  intros Hn. unfold derLength. rewrite (proj2 (Z.ltb_ge _ _)) by lia.
  destruct (count_bytes_spec intFuel n 0) as (k & -> & Hle & Hlt & Hmin).
  { unfold intFuel. split; [lia|]. change (256 ^ Z.of_nat 8) with (2 ^ 64). lia. }
  destruct Hmin as [Hk Hk1]; [lia|]. unfold intFuel in Hle. simpl (0 + k)%nat.
  exists k. split_and!; [done|lia|lia|lia|lia|]. f_equal. cbn [replicate].
  assert (<[0%nat := byte (Z.lor 128 (Z.of_nat k))]> (Ascii.zero :: replicate k Ascii.zero) =
          byte (128 + Z.of_nat k) :: replicate k Ascii.zero ++ []) as E.
  { rewrite app_nil_r. simpl. f_equal. f_equal.
    do 9 (destruct k as [|k]; [done|]). lia. }
  change (1 + k)%nat with (S k). cbn [replicate]. rewrite E.
  rewrite fill_bytes_be by apply length_replicate. by rewrite app_nil_r.
Qed.

Lemma read_der_length_derLength n rest :
  0 ≤ n < 2 ^ 63 → read_der_length (derLength n +:+ rest) = Some (n, rest).
Proof.
  intros Hn. destruct (Z.lt_ge_cases n 128) as [Hs|Hl].
  - rewrite derLength_short by done. unfold read_der_length. cbn [String.append String.list_ascii_of_string].
    rewrite byte_val_byte, wrapu_small, (proj2 (Z.ltb_lt _ _)) by lia.
    by rewrite String.string_of_list_ascii_of_string.
  - destruct (derLength_long n) as (k & _ & Hk & Hb & ->); [lia|].
    rewrite <- (String.string_of_list_ascii_of_string rest) at 1.
    rewrite <- soa_app. unfold read_der_length.
    rewrite String.list_ascii_of_string_of_list_ascii. cbn [app].
    rewrite byte_val_byte, wrapu_small by lia.
    rewrite (proj2 (Z.ltb_ge _ _)) by lia.
    replace (Z.to_nat (128 + Z.of_nat k - 128)) with k by lia.
    rewrite take_app_length', drop_app_length' by (symmetry; apply be_length).
    rewrite be_value_be, Z.mod_small, (proj2 (Z.leb_le _ _)) by lia.
    rewrite length_app, be_length, bool_decide_true by lia. cbn [andb].
    destruct k as [|k]; [lia|]. rewrite be_head by lia. cbn [app head].
    rewrite bool_decide_false; [cbn; by rewrite String.string_of_list_ascii_of_string|].
    intros [= E%(f_equal byte_val)]. rewrite byte_val_byte in E. simpl byte_val in E.
    assert (Z.of_nat (S k) - 1 = Z.of_nat k) as E1 by lia. rewrite E1 in Hb.
    rewrite Nat2Z.inj_succ, Z.pow_succ_r in Hb by lia.
    pose proof (Z.pow_pos_nonneg 256 (Z.of_nat k)).
    assert (1 ≤ n / 256 ^ Z.of_nat k < 256).
    { split; [apply Z.div_le_lower_bound; lia|apply Z.div_lt_upper_bound; lia]. }
    rewrite wrapu_small in E by lia. unfold byte_val in E. simpl in E. lia.
Qed.

Lemma derLength_len n : 0 ≤ n < 2 ^ 63 → len (derLength n) = lenDERLen n.
Proof.
  intros Hn. unfold lenDERLen. destruct (Z.ltb_spec n 0x80).
  - by rewrite derLength_short.
  - destruct (derLength_long n) as (k & Hk & _ & _ & ->); [lia|].
    rewrite soa_length, Hk. cbn [List.length]. rewrite be_length. lia.
Qed.

Section lemmas.
Context `{Krb5} {W : Type} `{!Krb5Eff W}.

(** What [MarshalAPReqToken] did when it returned a token. *)
Lemma MarshalAPReqToken_inv mt w tok w' :
  MarshalAPReqToken mt w = (Ok tok, w') →
  ∃ auth ap der w1,
    NewAuthenticator (mt_ClientRealm mt) (mt_ClientName mt) w = (Ok auth, w1) ∧
    NewAPReq (mt_Ticket mt) (mt_SessionKey mt) auth w1 = (Ok ap, w') ∧
    APReq_Marshal ap = Ok der ∧
    tok = bytes_of [0x60] +:+ derLength (len (krb5MechOID +:+ apReqTokID +:+ der)) +:+
          (krb5MechOID +:+ apReqTokID +:+ der).
Proof. unfold MarshalAPReqToken. intros Hrun. inv_ok. by do 4 eexists. Qed.

Lemma read_token_token der :
  len (krb5MechOID +:+ apReqTokID +:+ der) < 2 ^ 63 →
  read_token (bytes_of [0x60] +:+ derLength (len (krb5MechOID +:+ apReqTokID +:+ der)) +:+
              (krb5MechOID +:+ apReqTokID +:+ der)) = Some der.
Proof.
  set (inner := krb5MechOID +:+ apReqTokID +:+ der). intros Hlen.
  unfold read_token. rewrite strip_prefix_app. cbn [mbind option_bind].
  rewrite read_der_length_derLength by (pose proof (len_nonneg inner); lia).
  cbn [mbind option_bind]. rewrite Z.eqb_refl. cbn [negb]. unfold inner.
  rewrite strip_prefix_app. cbn [mbind option_bind]. apply strip_prefix_app.
Qed.

(** The length of a token bounds that of what it wraps. *)
Lemma token_inner_len der :
  len (bytes_of [0x60] +:+ derLength (len (krb5MechOID +:+ apReqTokID +:+ der)) +:+
       (krb5MechOID +:+ apReqTokID +:+ der)) < 2 ^ 63 →
  len (krb5MechOID +:+ apReqTokID +:+ der) < 2 ^ 63.
Proof.
  set (inner := krb5MechOID +:+ apReqTokID +:+ der). rewrite !(len_app (bytes_of _)), len_app.
  pose proof (len_nonneg (bytes_of [0x60])). pose proof (len_nonneg (derLength (len inner))). lia.
Qed.

Lemma mt_Credential_inv mt output w c w' :
  mt_Credential mt output w = (Ok c, w') →
  (output = OutputCCache ∧ w' = w ∧ ∃ cc, MarshalCCache mt = Ok cc ∧
     c = NewCredential (mt_subject mt) (mt_Target mt) (mt_EndTime mt) cc "") ∨
  (output = OutputAPReq ∧ ∃ ap, MarshalAPReqToken mt w = (Ok ap, w') ∧
     c = NewCredential (mt_subject mt) (mt_Target mt) (mt_EndTime mt) "" ap).
Proof.
  unfold mt_Credential. intros Hrun.
  destruct (Z.eqb_spec output OutputCCache) as [->|]; [left; inv_ok; eauto|].
  destruct (Z.eqb_spec output OutputAPReq) as [->|]; [right; inv_ok; eauto|done].
Qed.

Lemma mt_Credential_fields mt output w c w' :
  mt_Credential mt output w = (Ok c, w') →
  valid_output output ∧ cred_subject c = mt_subject mt ∧ cred_target c = mt_Target mt ∧
  cred_expiry c = mt_EndTime mt.
Proof.
  intros [(-> & _ & cc & _ & ->)|(-> & ap & _ & ->)]%mt_Credential_inv;
    by split_and!; [left + right|..].
Qed.
End lemmas.

(** ** The consumers *)

Section consumers.
Context `{Krb5} `{!Acceptor}.

(** A GSS-API acceptor: it unwraps the token, decrypts the ticket with its own
    key and the authenticator with the session key it finds in the ticket, and
    checks that both name the same client (RFC 4120 3.2.3). *)
Definition accept_token (skey : EncryptionKey) (tok : bytes)
    : option (EncTicketPart * Authenticator) :=
  der ← read_token tok;
  ap ← Unmarshal_APReq der;
  etp ← read_ticket skey (APReq_Ticket ap);
  auth ← DecryptAuthenticator ap (Key etp);
  if bool_decide (auth_CName auth = CName etp ∧ auth_CRealm auth = CRealm etp)
  then Some (etp, auth) else None.

Context {W : Type} `{!Krb5Eff W} `{!AcceptorLaws W} {K : Type} `{!KeySource K}.

(** What a reader finds in a ccache. *)
(** A time that fits the 32 bits of a ccache is kept to the second. *)
Lemma cc_time_UTC t :
  0 ≤ sec t - unixToInternal < 2 ^ 32 → cc_time (UTC t) = KerberosTime (UTC t).
Proof.
  intros Hrange. unfold cc_time, KerberosTime. f_equal. cbn. rewrite wrapu_small by done. lia.
Qed.

Lemma MarshalCCache_reads mt cc :
  MarshalCCache mt = Ok cc →
  ∃ c, Unmarshal_CCache cc = Some (NewPrincipal (mt_ClientName mt) (mt_ClientRealm mt), [c]) ∧
       cc_Client c = NewPrincipal (mt_ClientName mt) (mt_ClientRealm mt) ∧
       cc_Server c = NewPrincipal {| NameType := KRB_NT_SRV_HST;
                       NameString := [Service (mt_Target mt); Host (mt_Target mt)] |}
                       (Realm (mt_Target mt)) ∧
       cc_Key c = mt_SessionKey mt ∧ cc_EndTime c = cc_time (mt_EndTime mt) ∧
       Unmarshal_Ticket (cc_Ticket c) = Some (mt_Ticket mt) ∧
       cc_AuthTime c = cc_time (mt_AuthTime mt) ∧ cc_StartTime c = cc_time (mt_AuthTime mt).
Proof.
  unfold MarshalCCache. intros Hcc. inv_ok. eexists.
  split; [by eapply unmarshal_ccache|]. split_and!; try done. by apply unmarshal_ticket.
Qed.

Lemma MarshalCCache_entry mt cc :
  MarshalCCache mt = Ok cc →
  ∃ p c, Unmarshal_CCache cc = Some (p, [c]) ∧ Unmarshal_Ticket (cc_Ticket c) = Some (mt_Ticket mt).
Proof. intros (c & Hu & _ & _ & _ & _ & Ht & _)%MarshalCCache_reads. eauto. Qed.

(** A token made of a ticket whose contents agree with its description is
    accepted by the holder of the ticket's key. *)
Lemma accept_agreeing mt skey etp w tok w' :
  read_ticket skey (mt_Ticket mt) = Some etp → Key etp = mt_SessionKey mt →
  CName etp = mt_ClientName mt → CRealm etp = mt_ClientRealm mt →
  MarshalAPReqToken mt w = (Ok tok, w') → len tok < 2 ^ 63 →
  ∃ auth, accept_token skey tok = Some (etp, auth) ∧
          auth_CName auth = mt_ClientName mt ∧ auth_CRealm auth = mt_ClientRealm mt.
Proof.
  intros Hr Hkey Hn Hc Htok Hlen.
  destruct (MarshalAPReqToken_inv _ _ _ _ Htok) as (auth & ap & der & w2 & Ha & Hap & Hder & ->).
  destruct (authenticator_names _ _ _ _ _ Ha) as [Har Han].
  destruct (apreq_ticket _ _ _ _ _ _ Hap) as [Ht Hd].
  exists auth. split; [|done].
  unfold accept_token. rewrite read_token_token by (by apply token_inner_len).
  cbn [mbind option_bind]. rewrite (unmarshal_apreq _ _ Hder). cbn [mbind option_bind].
  rewrite Ht, Hr. cbn [mbind option_bind]. rewrite Hkey, Hd. cbn [mbind option_bind].
  rewrite bool_decide_true; [done|]. split; congruence.
Qed.

(** *** Properties *)

(** C34. A length field is correct DER for every length an int can hold: the
    strict decoder - which rejects long forms that could be shorter - reads
    back exactly the length and leaves what follows, and [lenDERLen] is the
    size of the field. *)
Theorem derLength_roundtrip n rest :
  0 ≤ n < 2 ^ 63 →
  read_der_length (derLength n +:+ rest) = Some (n, rest) ∧
  len (derLength n) = lenDERLen n.
Proof. intros. split; [by apply read_der_length_derLength|by apply derLength_len]. Qed.

(** C10. The AP-REQ path works end to end: a GSS-API acceptor that holds the
    service key accepts the token made from a minted ticket, and what it
    learns is the client name and realm the ticket was minted for, under the
    session key of the minted ticket. *)
Theorem MarshalAPReqToken_accepted (m : DirectMinter (K:=K)) spn opts w0 mt w1 w tok w' :
  DirectMinter_Mint m spn opts w0 = (Ok mt, w1) →
  MarshalAPReqToken mt w = (Ok tok, w') →
  len tok < 2 ^ 63 →
  ∃ skey kvno etp auth,
    ServiceKey (dm_keys m) spn AES256_CTS_HMAC_SHA1_96 = Ok (skey, kvno) ∧
    accept_token skey tok = Some (etp, auth) ∧
    Key etp = mt_SessionKey mt ∧
    auth_CName auth = mo_ClientName opts ∧ CName etp = mo_ClientName opts ∧
    auth_CRealm auth = mt_ClientRealm mt ∧
    etp_EndTime etp = KerberosTime (mo_EndTime opts).
Proof.
  intros Hmint Htok Hlen.
  destruct (minted_agrees _ _ _ _ _ _ Hmint) as (skey & kvno & etp & Hk & Hr & Hkey & Hn & Hc & He & _).
  destruct (DirectMinter_fields _ _ _ _ _ _ Hmint) as (Hcn & _ & _ & _ & Hend & _).
  destruct (accept_agreeing _ _ _ _ _ _ Hr Hkey Hn Hc Htok Hlen) as (auth & Ha & Han & Har).
  exists skey, kvno, etp, auth. split_and!; try congruence. by rewrite He, Hend.
Qed.

(** C11. The ccache path works end to end: a client that reads the cache finds
    one entry, for the client and the service the ticket names, holding the
    ticket and the session key the service will find inside it; and while
    times fit the cache's 32 bits, the expiry and the authentication time it
    shows are the ticket's.  Its start time is the authentication time too,
    although a start time given to the minter is the one in the ticket. *)
Theorem MarshalCCache_usable (m : DirectMinter (K:=K)) spn opts w0 mt w1 cc :
  DirectMinter_Mint m spn opts w0 = (Ok mt, w1) →
  MarshalCCache mt = Ok cc →
  ∃ skey kvno etp c t,
    ServiceKey (dm_keys m) spn AES256_CTS_HMAC_SHA1_96 = Ok (skey, kvno) ∧
    Unmarshal_CCache cc = Some (NewPrincipal (CName etp) (CRealm etp), [c]) ∧
    cc_Client c = NewPrincipal (CName etp) (CRealm etp) ∧
    cc_Server c = NewPrincipal (SName t) (tkt_Realm t) ∧
    Unmarshal_Ticket (cc_Ticket c) = Some t ∧
    read_ticket skey t = Some etp ∧ cc_Key c = Key etp ∧
    (0 ≤ sec (mo_EndTime opts) - unixToInternal < 2 ^ 32 → cc_EndTime c = etp_EndTime etp) ∧
    (0 ≤ sec (mo_AuthTime opts) - unixToInternal < 2 ^ 32 →
       cc_AuthTime c = etp_AuthTime etp ∧ cc_StartTime c = etp_AuthTime etp) ∧
    (IsZero (mo_StartTime opts) = false → etp_StartTime etp = KerberosTime (mo_StartTime opts)).
Proof.
  intros Hmint Hcc.
  destruct (minted_agrees _ _ _ _ _ _ Hmint) as (skey & kvno & etp & Hk & Hr & Hkey & Hn & Hc & He & Hs & Hrealm & Hauth & Hstart).
  destruct (DirectMinter_fields _ _ _ _ _ _ Hmint) as (_ & _ & _ & Hau & Hend & _).
  destruct (MarshalCCache_reads _ _ Hcc) as (c & Hu & Hcl & Hsv & Hck & Hce & Ht & Hca & Hcs).
  exists skey, kvno, etp, c, (mt_Ticket mt). split_and!; try congruence.
  - intros Hrange. rewrite Hce, He, Hend. by apply cc_time_UTC.
  - intros Hrange. rewrite Hca, Hcs, Hauth, Hau. by split; apply cc_time_UTC.
  - intros Hz. by rewrite Hstart, Hz.
Qed.

(** An issued credential is for the ticket's client, target and end time,
    and carries the representation that was asked for and no other: the
    accessor of the one returns the bytes the marshaller made, the accessor
    of the other its sentinel error; any other output type is an error, and
    leaves the world as it was. *)
Theorem mt_Credential_spec mt output w c w' :
  mt_Credential mt output w = (Ok c, w') →
  cred_Subject c = mt_subject mt ∧ cred_Target c = mt_Target mt ∧ cred_Expiry c = mt_EndTime mt ∧
  ((output = OutputCCache ∧ cred_APReq c = Err ErrNoAPReq ∧
    ∃ cc, MarshalCCache mt = Ok cc ∧
          cred_CCache c = if bool_decide (cc = "") then Err ErrNoCCache else Ok cc) ∨
   (output = OutputAPReq ∧ cred_CCache c = Err ErrNoCCache ∧
    ∃ tok, MarshalAPReqToken mt w = (Ok tok, w') ∧ cred_APReq c = Ok tok)).
Proof.
  intros Hrun. destruct (mt_Credential_fields _ _ _ _ _ Hrun) as (_ & Hs & Ht & He).
  split_and!; [done..|].
  apply mt_Credential_inv in Hrun as [(-> & _ & cc & Hcc & ->)|(-> & ap & Hap & ->)].
  - left. split_and!; [done..|]. exists cc. split; [done|].
    unfold cred_CCache. cbn [cred_ccache NewCredential].
    destruct (Z.eqb_spec (len cc) 0) as [E|E]; rewrite len_zero in E; by case_bool_decide.
  - right. split_and!; [done..|]. exists ap. split; [done|].
    apply MarshalAPReqToken_inv in Hap as (? & ? & ? & ? & _ & _ & _ & ->).
    unfold cred_APReq. cbn [cred_apreq NewCredential].
    rewrite (proj2 (Z.eqb_neq _ _)); [done|]. by rewrite len_zero.
Qed.

Lemma mt_Credential_unsupported mt output (w : W) :
  ¬ valid_output output → ∃ e, mt_Credential mt output w = (Err e, w).
Proof.
  unfold valid_output, mt_Credential. intros Hv.
  rewrite !(proj2 (Z.eqb_neq _ _)) by tauto. by eexists.
Qed.
End consumers.

(** ** Witnesses *)

Definition sample_mint : result MintedTicket * SymWorld :=
  DirectMinter_Mint sample_minter imap_h sample_opts sample_world.

Lemma derLength_roundtrip_witness :
  read_der_length (derLength 70000 +:+ "x") = Some (70000, "x") ∧
  len (derLength 70000) = lenDERLen 70000.
Proof. apply (derLength_roundtrip 70000 "x"). lia. Defined.

Lemma MarshalAPReqToken_accepted_witness :
  match sample_mint with
  | (Ok mt, w1) =>
    match MarshalAPReqToken mt w1 with
    | (Ok tok, _) => ∃ skey etp auth, accept_token skey tok = Some (etp, auth) ∧
                                      auth_CName auth = mo_ClientName sample_opts
    | _ => False
    end
  | _ => False
  end.
Proof.
  assert (match sample_mint with
          | (Ok mt, w1) => match MarshalAPReqToken mt w1 with
                           | (Ok tok, _) => len tok <? 2 ^ 63 | _ => false end
          | _ => false end = true) as Hc by by vm_compute.
  destruct sample_mint as [[mt|e] w1] eqn:E; [|done].
  destruct (MarshalAPReqToken mt w1) as [[tok|e] w2] eqn:E2; [|done].
  destruct (MarshalAPReqToken_accepted _ _ _ _ _ _ _ _ _ E E2 (proj1 (Z.ltb_lt _ _) Hc))
    as (skey & kvno & etp & auth & _ & Ha & _ & Hn & _).
  by exists skey, etp, auth.
Defined.

Lemma MarshalCCache_usable_witness :
  match sample_mint with
  | (Ok mt, _) =>
    match MarshalCCache mt with
    | Ok cc => ∃ skey etp c t, Unmarshal_CCache cc = Some (NewPrincipal (CName etp) (CRealm etp), [c]) ∧
                 Unmarshal_Ticket (cc_Ticket c) = Some t ∧ read_ticket skey t = Some etp
    | _ => False
    end
  | _ => False
  end.
Proof.
  assert (match sample_mint with
          | (Ok mt, _) => is_ok (MarshalCCache mt) | _ => false end = true) as Hc by by vm_compute.
  destruct sample_mint as [[mt|e] w1] eqn:E; [|done].
  destruct (MarshalCCache mt) as [cc|e] eqn:E2; [|done].
  destruct (MarshalCCache_usable _ _ _ _ _ _ _ E E2)
    as (skey & kvno & etp & c & t & _ & Hu & _ & _ & Ht & Hr & _).
  by exists skey, etp, c, t.
Defined.

Lemma mt_Credential_spec_witness :
  match sample_mint with
  | (Ok mt, w1) =>
    match mt_Credential mt OutputAPReq w1 with
    | (Ok c, _) => cred_CCache c = Err ErrNoCCache ∧ is_ok (cred_APReq c) = true
    | _ => False
    end
  | _ => False
  end.
Proof.
  assert (match sample_mint with
          | (Ok mt, w1) => is_ok (mt_Credential mt OutputAPReq w1).1
          | _ => false end = true) as Hc by by vm_compute.
  destruct sample_mint as [[mt|e] w1] eqn:E; [|done].
  destruct (mt_Credential mt OutputAPReq w1) as [[c|e] w2] eqn:E2; [|done].
  destruct (mt_Credential_spec _ _ _ _ _ E2) as (_ & _ & _ & [[Ho _]|(_ & Hcc & tok & _ & Ha)]);
    [done|]. by rewrite Ha.
Defined.
