(* ===== verification/Fixture.v ===== *)
(** * Fixture: the command-line minters (test/interop/mint, test/ad-demo/mint)

    Two programs that mint a ticket with the library and leave files for other
    programs: a keytab, a base-64 AP-REQ token, a ccache, and a bundle from
    which C programs verify the PAC.  Each [main] is a function of the parsed
    command line that runs on a disk; [log.Fatalf] ends the program and is an
    error.  The theorems say that what the programs leave is what their
    consumers need: a service that loads the keytab accepts the token, and the
    bundle's PAC verifies under the bundle's keys. *)
From S2P Require Import Prelude Errors GoText GoTime GoOs GoJson GoUrl Principal Request.
From S2P Require Import Krb5 Symbolic Credential Claims Pac KeySource Minter Issue.

(** [log.Fatalf("...: %v", err)] *)
Definition fatalf (what : string) (e : error) : error := Errorf [Lit (what +:+ ": "); Fv e].

Definition newline : ascii := byte 10.

(** The octal permissions 0600. *)
Definition private : Z := 0x180.

(** ** test/interop/mint/main.go *)

Record InteropFlags := {
  if_keytabPath : string;
  if_tokenPath : string;
  if_ccachePath : string;
  if_bundlePath : string;
  if_realm : string;
  if_service : string;
  if_host : string;
  if_client : string;
  if_password : string;
  if_domainSID : string;
}.

Definition interop_defaults : InteropFlags :=
  {| if_keytabPath := "/tmp/interop.keytab"; if_tokenPath := "/tmp/interop.token.b64";
     if_ccachePath := ""; if_bundlePath := ""; if_realm := "EXAMPLE.COM"; if_service := "HTTP";
     if_host := "interop.example.com"; if_client := "alice"; if_password := "interop-secret";
     if_domainSID := "S-1-5-21-1111111111-2222222222-3333333333" |}.

(** The claims the fixture mints with: [{"groups":["mail-users","staff"]}]. *)
Definition interop_claims : bytes :=
  "{" +:+ print_string "groups" +:+ ":[" +:+ print_string "mail-users" +:+ "," +:+
  print_string "staff" +:+ "]}".

Section fixture.
Context `{Krb5} {W : Type} `{!Krb5Eff W} `{!Acceptor} `{!Clock W} `{!Disk W}.
Context `{!Krb5Tools} `{!Krb5ToolsEff W}.

(** [for _, pn := range ... { kt.AddEntry(pn, ...) }] *)
Fixpoint add_entries (k : Keytab) (realm password : string) (now : Time) (pns : list string)
    : result Keytab :=
  match pns with
  | [] => Ok k
  | pn :: pns' =>
    k ← map_err (λ e, Errorf [Lit "keytab AddEntry "; Fq pn; Lit ": "; Fv e])
          (AddEntry k pn realm password now 1 AES256_CTS_HMAC_SHA1_96);
    add_entries k realm password now pns'
  end.

(** [_ = f.Close()] *)
Definition close_ignored (f : File) : eff W unit := λ w, (Ok tt, (File_Close f w).2).

(** The ccache of a minted ticket, written when a path is given. *)
Definition write_ccache (what path : string) (mt : MintedTicket) : eff W unit :=
  if bool_decide (path = "") then mret tt
  else
    cred ← emap_err (fatalf what) (mt_Credential mt OutputCCache);
    cc ← lift (map_err (fatalf "marshal ccache") (cred_CCache cred));
    emap_err (fatalf "write ccache") (os_WriteFile path cc private).

(** The user's SID and the SIDs of its groups. *)
Definition pacSIDs (pacBytes : bytes) (key : EncryptionKey) : result (string * list string) :=
  pt ← map_err (fatalf "PAC unmarshal") (PACType_Unmarshal pacBytes);
  kvi ← map_err (fatalf "PAC process") (ProcessPACInfoBuffers pt key);
  Ok (SID_String (LogonDomainID kvi) +:+ "-" +:+ pretty (UserID kvi),
      GetGroupMembershipSIDs kvi).

Definition line (name value : string) : string := name +:+ "=" +:+ value +:+ String newline "".

Definition bundle_text (pacBytes : bytes) (svc tgt : EncryptionKey) (authTime : Time)
    (client realm userSID : string) (groupSIDs : list string) : bytes :=
  line "PAC" (hex_EncodeToString pacBytes) +:+
  line "SERVERKEY" (hex_EncodeToString (KeyValue svc)) +:+
  line "KDCKEY" (hex_EncodeToString (KeyValue tgt)) +:+
  line "AUTHTIME" (pretty (Time_Unix (UTC authTime))) +:+
  line "CLIENT" (client +:+ "@" +:+ realm) +:+
  line "USERSID" userSID +:+
  line "GROUPSIDS" (Join "," groupSIDs).

Definition writeBundle (path : string) (k : Keytab) (mt : MintedTicket)
    (service host realm client : string) (authTime : Time) : eff W unit :=
  '(svc, _) ← lift (map_err (fatalf "service key")
     (GetEncryptionKey k {| NameType := KRB_NT_PRINCIPAL; NameString := [service; host] |}
        realm 0 AES256_CTS_HMAC_SHA1_96));
  '(tgt, _) ← lift (map_err (fatalf "krbtgt key")
     (GetEncryptionKey k {| NameType := KRB_NT_PRINCIPAL; NameString := ["krbtgt"; realm] |}
        realm 0 AES256_CTS_HMAC_SHA1_96));
  plain ← lift (map_err (fatalf "decrypt EncPart")
     (DecryptMessage (Cipher (EncPart (mt_Ticket mt))) svc KDC_REP_TICKET));
  pacBytes ← lift (extractPAC plain);
  '(userSID, groupSIDs) ← lift (pacSIDs pacBytes svc);
  emap_err (fatalf "write bundle")
    (os_WriteFile path (bundle_text pacBytes svc tgt authTime client realm userSID groupSIDs)
       private).

Definition interop_options (f : InteropFlags) (now : Time) : MintOptions :=
  {| mo_ClientName := {| NameType := KRB_NT_PRINCIPAL; NameString := [if_client f] |};
     mo_ClientRealm := if_realm f;
     mo_Identity := {| Subject := if_client f; Claims := interop_claims;
                       Expiry := Add now (3600 * Second) |};
     mo_AuthTime := Add now (-30 * Second);
     mo_StartTime := zeroTime;
     mo_EndTime := Add now (5 * 60 * Second);
     mo_RenewTill := zeroTime |}.

Definition interop_main (f : InteropFlags) : eff W unit :=
  now ← effect Now;
  k ← lift (add_entries keytab_New (if_realm f) (if_password f) now
              [if_service f +:+ "/" +:+ if_host f; "krbtgt/" +:+ if_realm f]);
  ktf ← emap_err (fatalf "create keytab") (os_Create (if_keytabPath f));
  _ ← emap_err (fatalf "write keytab") (Keytab_Write k ktf);
  _ ← close_ignored ktf;
  let ks := NewKeytabSource k (if_realm f) in
  pb ← lift (map_err (fatalf "pac builder") (NewSyntheticPACBuilder (if_domainSID f)));
  let authTime := Add now (-30 * Second) in
  let minter := WithPACBuilder (NewDirectMinter ks (if_realm f)) (Build pb) in
  mt ← emap_err (fatalf "mint")
         (DirectMinter_Mint minter
            {| Service := if_service f; Host := if_host f; Realm := if_realm f |}
            (interop_options f now));
  token ← emap_err (fatalf "marshal AP-REQ token") (MarshalAPReqToken mt);
  _ ← emap_err (fatalf "write token")
        (os_WriteFile (if_tokenPath f) (EncodeToString token) private);
  _ ← write_ccache "ccache credential" (if_ccachePath f) mt;
  if bool_decide (if_bundlePath f = "") then mret tt
  else writeBundle (if_bundlePath f) k mt (if_service f) (if_host f) (if_realm f) (if_client f)
         authTime.

(** ** test/ad-demo/mint/main.go *)

Record AdFlags := {
  ad_keytabPath : string;
  ad_realm : string;
  ad_service : string;
  ad_host : string;
  ad_client : string;
  ad_tokenPath : string;
  ad_ccachePath : string;
}.

Definition ad_defaults : AdFlags :=
  {| ad_keytabPath := "/export/svc.keytab"; ad_realm := "EXAMPLE.COM"; ad_service := "HTTP";
     ad_host := "web.example.com"; ad_client := "alice"; ad_tokenPath := "/tmp/ad.token";
     ad_ccachePath := "" |}.

Definition ad_options (f : AdFlags) (now : Time) : MintOptions :=
  {| mo_ClientName := {| NameType := KRB_NT_PRINCIPAL; NameString := [ad_client f] |};
     mo_ClientRealm := ad_realm f;
     mo_Identity := {| Subject := ad_client f; Claims := "";
                       Expiry := Add now (3600 * Second) |};
     mo_AuthTime := Add now (-30 * Second);
     mo_StartTime := zeroTime;
     mo_EndTime := Add now (5 * 60 * Second);
     mo_RenewTill := zeroTime |}.

Definition ad_main (f : AdFlags) : eff W unit :=
  k ← emap_err (fatalf ("load keytab " +:+ ad_keytabPath f)) (keytab_Load (ad_keytabPath f));
  let ks := NewKeytabSource k (ad_realm f) in
  let minter := NewDirectMinter ks (ad_realm f) in
  now ← effect Now;
  let now := UTC now in
  mt ← emap_err (fatalf "mint")
         (DirectMinter_Mint minter
            {| Service := ad_service f; Host := ad_host f; Realm := ad_realm f |}
            (ad_options f now));
  token ← emap_err (fatalf "marshal AP-REQ token") (MarshalAPReqToken mt);
  _ ← emap_err (fatalf "write token")
        (os_WriteFile (ad_tokenPath f) (EncodeToString token) private);
  write_ccache "ccache" (ad_ccachePath f) mt.
End fixture.

(** ** Lemmas *)

(** *** Calls that touch no file *)

Section frame.
Context {W : Type} `{!Disk W}.

Definition keeps_disk {A} (m : eff W A) : Prop := ∀ w, disk (m w).2 = disk w.

Lemma keeps_bind {A B} (m : eff W A) (f : A → eff W B) :
  keeps_disk m → (∀ a, keeps_disk (f a)) → keeps_disk (m ≫= f).
Proof.
  intros Hm Hf w. unfold mbind, eff_bind. pose proof (Hm w) as E.
  destruct (m w) as [[a|e] w']; [|done]. by rewrite Hf.
Qed.

Lemma keeps_lift {A} (r : result A) : keeps_disk (lift r).
Proof. by intros w. Qed.

Lemma keeps_fail {A} e : keeps_disk (fail (A:=A) e).
Proof. by intros w. Qed.

Lemma keeps_ret {A} (a : A) : keeps_disk (mret a : eff W A).
Proof. by intros w. Qed.

Lemma keeps_emap_err {A} f (m : eff W A) : keeps_disk m → keeps_disk (emap_err f m).
Proof. intros Hm w. unfold emap_err. pose proof (Hm w). by destruct (m w). Qed.
End frame.

Create HintDb disk discriminated.
#[export] Hint Resolve keeps_bind keeps_lift keeps_fail keeps_ret keeps_emap_err : disk.

Section frame_lemmas.
Context `{Krb5} {W : Type} `{!Krb5Eff W} `{!Clock W} `{!Disk W} `{!Krb5Frame W}.
Context {K : Type} `{!KeySource K}.

Lemma Mint_frame (m : DirectMinter (K:=K)) spn opts : keeps_disk (DirectMinter_Mint m spn opts).
Proof.
  unfold DirectMinter_Mint. destruct (IsZero _); [auto with disk|].
  destruct (negb _); [auto with disk|].
  apply keeps_bind; [auto with disk|]. intros [skey kvno].
  apply keeps_bind; [auto with disk|]. intros et.
  apply keeps_bind; [apply keeps_emap_err; intros w; apply frame_session|]. intros sk.
  apply keeps_bind; [auto with disk|]. intros ad.
  apply keeps_bind; [auto with disk|]. intros plain.
  apply keeps_bind; [apply keeps_emap_err; intros w; apply frame_encrypt|]. intros ed.
  apply keeps_ret.
Qed.

Lemma MarshalAPReqToken_frame mt : keeps_disk (MarshalAPReqToken mt).
Proof.
  unfold MarshalAPReqToken.
  apply keeps_bind; [apply keeps_emap_err; intros w; apply frame_auth|]. intros auth.
  apply keeps_bind; [apply keeps_emap_err; intros w; apply frame_apreq|]. intros ap.
  apply keeps_bind; [auto with disk|]. intros der. apply keeps_ret.
Qed.
End frame_lemmas.

(** *** The bundle's text *)

(** [sed -n "s/^NAME=//p"]: the rest of every line that begins with the name. *)
Definition bundle_get (name text : string) : list string :=
  omap (strip_prefix (name +:+ "=")) (Split newline text).

Lemma lines_Split (ls : list string) :
  Forall (λ l, has_byte newline l = false) ls →
  Split newline (foldr (λ l acc, l +:+ String newline acc) "" ls) = ls ++ [""].
Proof.
  induction 1 as [|l ls Hl Hls IH]; [done|]. cbn [foldr]. rewrite Split_app by done.
  by rewrite IH.
Qed.

Lemma has_newline_Join c ps :
  c ≠ newline → Forall (λ p, has_byte newline p = false) ps → has_byte newline (Join c ps) = false.
Proof.
  intros Hc. induction 1 as [|p ps Hp Hps IH]; [done|]. destruct ps as [|q ps]; [done|].
  change (Join c (p :: q :: ps)) with (p +:+ String c (Join c (q :: ps))).
  rewrite has_byte_app, Hp. cbn [has_byte orb]. rewrite bool_decide_false by done. exact IH.
Qed.

Lemma has_newline_pretty (z : Z) : has_byte newline (pretty z) = false.
Proof.
  destruct z as [|p|p]; [done|by apply (has_byte_pretty_N newline (Npos p))|].
  change (pretty (Z.neg p)) with ("-" +:+ pretty (Npos p)).
  rewrite has_byte_app. by rewrite (has_byte_pretty_N newline (Npos p)).
Qed.

Lemma has_newline_sid (auth : N) (subs : list N) : has_byte newline (print_sid auth subs) = false.
Proof.
  apply has_newline_Join; [done|]. repeat constructor; [by apply has_byte_pretty_N|].
  apply Forall_forall. intros p (n & -> & _)%list_elem_of_fmap. by apply has_byte_pretty_N.
Qed.

Section bundle.
Context `{Krb5} `{!Krb5Tools}.

(** Every line of the bundle reads back, whatever is in its values, as long as
    none of the command line's holds a line break. *)
Lemma bundle_read pac svc tgt t client realm userSID groupSIDs :
  has_byte newline client = false → has_byte newline realm = false →
  has_byte newline userSID = false → Forall (λ g, has_byte newline g = false) groupSIDs →
  let text := bundle_text pac svc tgt t client realm userSID groupSIDs in
  bundle_get "PAC" text = [hex_EncodeToString pac] ∧
  bundle_get "SERVERKEY" text = [hex_EncodeToString (KeyValue svc)] ∧
  bundle_get "KDCKEY" text = [hex_EncodeToString (KeyValue tgt)] ∧
  bundle_get "AUTHTIME" text = [pretty (Time_Unix (UTC t))] ∧
  bundle_get "CLIENT" text = [client +:+ "@" +:+ realm] ∧
  bundle_get "USERSID" text = [userSID] ∧
  bundle_get "GROUPSIDS" text = [Join "," groupSIDs].
Proof.
  intros Hc Hr Hu Hg text.
  assert (Split newline text =
    ["PAC=" +:+ hex_EncodeToString pac; "SERVERKEY=" +:+ hex_EncodeToString (KeyValue svc);
     "KDCKEY=" +:+ hex_EncodeToString (KeyValue tgt); "AUTHTIME=" +:+ pretty (Time_Unix (UTC t));
     "CLIENT=" +:+ (client +:+ "@" +:+ realm); "USERSID=" +:+ userSID;
     "GROUPSIDS=" +:+ Join "," groupSIDs; ""]) as Hs.
  { etrans; [|apply (lines_Split [_; _; _; _; _; _; _])].
    - f_equal. unfold text, bundle_text, line. cbn [foldr]. by rewrite !str_app_assoc.
    - repeat constructor; rewrite !has_byte_app, ?Hc, ?Hr, ?Hu, ?has_newline_pretty,
        ?(hex_Encode_byte newline) by done; try done.
      by rewrite has_newline_Join. }
  unfold bundle_get. rewrite Hs. split_and!; reflexivity.
Qed.
End bundle.

(** ** What the files are good for *)

Section consumers.
Context `{Krb5} {W : Type} `{!Krb5Eff W} `{!Acceptor} `{!Disk W}.

(** The key of the service in a keytab, as a service that loads it finds it. *)
Definition service_key (k : Keytab) (service host realm : string) : result (EncryptionKey * Z) :=
  GetEncryptionKey k {| NameType := KRB_NT_PRINCIPAL; NameString := [service; host] |}
    realm 0 AES256_CTS_HMAC_SHA1_96.

(** The key a keytab source gives the minter in the source's own realm. *)
Lemma service_key_source k realm service host key :
  ServiceKey (NewKeytabSource k realm) {| Service := service; Host := host; Realm := realm |}
    AES256_CTS_HMAC_SHA1_96 = Ok key ↔ service_key k service host realm = Ok key.
Proof.
  simpl. unfold KeytabSource_ServiceKey, service_key. rewrite map_err_Ok. simpl.
  by case_bool_decide.
Qed.

(** A service that holds [skey] accepts the token in a file as [client], until
    [expiry], from a ticket that says [P]; and a client that uses the ccache in
    the other file presents the same ticket with its session key. *)
Definition files_usable (P : EncTicketPart → Prop) (skey : EncryptionKey) (client : PrincipalName)
    (realm : string) (expiry : Time) (tokenPath ccachePath : string) (w : W) : Prop :=
  ∃ etp tok,
    P etp ∧ CName etp = client ∧ CRealm etp = realm ∧ etp_EndTime etp = KerberosTime expiry ∧
    file_bytes w tokenPath = Some (EncodeToString tok) ∧
    (len tok < 2 ^ 63 → ∃ auth, accept_token skey tok = Some (etp, auth) ∧
       auth_CName auth = client ∧ auth_CRealm auth = realm) ∧
    (ccachePath ≠ "" → ∃ cc c t,
       file_bytes w ccachePath = Some cc ∧
       Unmarshal_CCache cc = Some (NewPrincipal client realm, [c]) ∧
       Unmarshal_Ticket (cc_Ticket c) = Some t ∧ read_ticket skey t = Some etp ∧
       cc_Key c = Key etp).

Lemma files_usable_same P skey client realm expiry tokenPath ccachePath w w' :
  file_bytes w' tokenPath = file_bytes w tokenPath →
  (ccachePath ≠ "" → file_bytes w' ccachePath = file_bytes w ccachePath) →
  files_usable P skey client realm expiry tokenPath ccachePath w →
  files_usable P skey client realm expiry tokenPath ccachePath w'.
Proof.
  intros Ht Hc (etp & tok & ? & ? & ? & ? & Htok & ? & Hcc). exists etp, tok.
  rewrite Ht. split_and!; try done. intros Hne. rewrite (Hc Hne). by apply Hcc.
Qed.

Context `{!DiskLaws W} `{!AcceptorLaws W}.

Lemma write_ccache_Ok what path mt (w : W) w' :
  write_ccache what path mt w = (Ok tt, w') →
  (path = "" ∧ w' = w) ∨
  (path ≠ "" ∧ ∃ cc, MarshalCCache mt = Ok cc ∧ os_WriteFile path cc private w = (Ok tt, w')).
Proof.
  unfold write_ccache. case_bool_decide as Hp; [intros [_ ->]%ret_Ok; by left|].
  intros Hrun. right. split; [done|]. inv_ok.
  match goal with H : mt_Credential _ _ _ = _ |- _ =>
    apply mt_Credential_inv in H as [(_ & -> & cc & Hcc & ->)|(? & _)]; [|done] end.
  match goal with H : cred_CCache _ = _ |- _ => apply cred_CCache_Ok in H as [<- _] end.
  by exists cc.
Qed.

Lemma write_ccache_other what path mt (w : W) w' p :
  write_ccache what path mt w = (Ok tt, w') → path ≠ p ∨ path = "" →
  file_bytes w' p = file_bytes w p.
Proof.
  intros [[_ ->]|(Hne & cc & _ & Hw)]%write_ccache_Ok Hp; [done|].
  rewrite (file_bytes_write _ _ _ _ _ p Hw). rewrite bool_decide_false; [done|]. naive_solver.
Qed.

(** Minting with a keytab's keys and writing the two files. *)
Lemma minted_files (P : EncryptionKey → EncTicketPart → Prop)
    (m : DirectMinter (K:=KeytabSource)) k realm service host opts w0 mt w1 tok w2 w3 what tokenPath ccachePath w4 :
  dm_keys m = NewKeytabSource k realm → dm_defaultRealm m = realm → mo_ClientRealm opts = realm →
  DirectMinter_Mint m {| Service := service; Host := host; Realm := realm |} opts w0 = (Ok mt, w1) →
  MarshalAPReqToken mt w1 = (Ok tok, w2) →
  os_WriteFile tokenPath (EncodeToString tok) private w2 = (Ok tt, w3) →
  write_ccache what ccachePath mt w3 = (Ok tt, w4) → ccachePath ≠ tokenPath ∨ ccachePath = "" →
  (∀ skey kvno etp, service_key k service host realm = Ok (skey, kvno) →
     read_ticket skey (mt_Ticket mt) = Some etp → P skey etp) →
  ∃ skey kvno, service_key k service host realm = Ok (skey, kvno) ∧
    files_usable (P skey) skey (mo_ClientName opts) realm (mo_EndTime opts) tokenPath ccachePath w4.
Proof.
  intros Hks Hdr Hcr Hmint Htok Hwt Hwc Hne HP.
  destruct (minted_agrees _ _ _ _ _ _ Hmint) as (skey & kvno & etp & Hk & Hr & Hkey & Hn & Hc & He & _).
  destruct (DirectMinter_fields _ _ _ _ _ _ Hmint) as (Hcn & _ & _ & _ & Hend & _).
  assert (mt_ClientRealm mt = realm) as Hmr.
  { destruct (Mint_inv _ _ _ _ _ _ Hmint) as [run _].
    rewrite (run_mt _ _ _ _ _ _ run). cbn [mt_ClientRealm]. rewrite Hcr, Hdr. by case_bool_decide. }
  assert (service_key k service host realm = Ok (skey, kvno)) as Hsk.
  { rewrite Hks in Hk. by rewrite service_key_source in Hk. }
  exists skey, kvno. split; [done|].
  exists etp, tok. split_and!; [by eapply HP|congruence|congruence|by rewrite He, Hend| | |].
  - rewrite (write_ccache_other _ _ _ _ _ _ Hwc) by done.
    rewrite (file_bytes_write _ _ _ _ _ tokenPath Hwt). by rewrite bool_decide_true.
  - intros Hlen. rewrite <- Hcn, <- Hmr. by eapply accept_agreeing.
  - intros Hcp. apply write_ccache_Ok in Hwc as [[? _]|(_ & cc & Hcc & Hw)]; [done|].
    destruct (MarshalCCache_reads _ _ Hcc) as (c & Hu & _ & _ & Hck & _ & Ht & _).
    exists cc, c, (mt_Ticket mt).
    rewrite (file_bytes_write _ _ _ _ _ ccachePath Hw), bool_decide_true by done.
    split_and!; congruence.
Qed.
End consumers.

(** ** Properties *)

Section properties.
Context `{Krb5} {W : Type} `{!Krb5Eff W} `{!Acceptor} `{!Clock W} `{!Disk W}.
Context `{!Krb5Tools} `{!Krb5ToolsEff W}.
Context `{!DiskLaws W} `{!AcceptorLaws W} `{!Krb5ToolsLaws W} `{!Krb5Frame W}.

(** The ticket's PAC verifies under the service's and the realm's key, names the
    client, and grants the default group and the fixture's two groups. *)
Definition carries_pac (k : Keytab) (realm client : string) (skey : EncryptionKey)
    (etp : EncTicketPart) : Prop :=
  ∃ pac kvi ci kdcKey kvno,
    extract_loop (etp_AuthorizationData etp) = Ok pac ∧
    service_key k "krbtgt" realm realm = Ok (kdcKey, kvno) ∧
    VerifyPAC pac skey kdcKey = Some (kvi, ci) ∧ Name ci = client ∧
    pac_rids kvi = [513; ridFromName "mail-users"; ridFromName "staff"].

Definition interop_paths (f : InteropFlags) : list string :=
  if_keytabPath f :: if_tokenPath f :: filter (λ p, p ≠ "") [if_ccachePath f; if_bundlePath f].

(** Everything a successful run did up to the bundle. *)
Lemma interop_main_inv f w w' :
  interop_main f w = (Ok tt, w') →
  ∃ k now pb mt w1 w2 w3 tok w4 w5 w6,
    Now w = (now, w1) ∧ parseDomainSID (if_domainSID f) = Ok (DomainSID pb) ∧
    NewSyntheticPACBuilder (if_domainSID f) = Ok pb ∧
    (∃ b, file_bytes w2 (if_keytabPath f) = Some b ∧
       ∀ path w', file_bytes w' path = Some b → keytab_Load path w' = (Ok k, w')) ∧
    DirectMinter_Mint
      (WithPACBuilder (NewDirectMinter (NewKeytabSource k (if_realm f)) (if_realm f)) (Build pb))
      {| Service := if_service f; Host := if_host f; Realm := if_realm f |}
      (interop_options f now) w2 = (Ok mt, w3) ∧
    MarshalAPReqToken mt w3 = (Ok tok, w4) ∧
    os_WriteFile (if_tokenPath f) (EncodeToString tok) private w4 = (Ok tt, w5) ∧
    write_ccache "ccache credential" (if_ccachePath f) mt w5 = (Ok tt, w6) ∧
    ((if_bundlePath f = "" ∧ w' = w6) ∨
     (if_bundlePath f ≠ "" ∧
      writeBundle (if_bundlePath f) k mt (if_service f) (if_host f) (if_realm f) (if_client f)
        (Add now (-30 * Second)) w6 = (Ok tt, w'))).
Proof.
  unfold interop_main. intros Hrun.
  apply eff_bind_Ok in Hrun as (now & w1 & Hnow%(proj1 (effect_Ok _ _ _ _)) & Hrun).
  apply eff_bind_Ok in Hrun as (k & w1' & [_ ->]%lift_Ok & Hrun).
  apply eff_bind_Ok in Hrun as (ktf & wa & Ho%emap_err_Ok & Hrun).
  apply eff_bind_Ok in Hrun as ([] & wb & Hw%emap_err_Ok & Hrun).
  apply eff_bind_Ok in Hrun as (u & w2 & Hc & Hrun).
  assert (w2 = wb) as -> by by injection Hc.
  apply eff_bind_Ok in Hrun as (pb & w2' & [Hpb%map_err_Ok ->]%lift_Ok & Hrun).
  apply eff_bind_Ok in Hrun as (mt & w3 & Hm%emap_err_Ok & Hrun).
  apply eff_bind_Ok in Hrun as (tok & w4 & Ht%emap_err_Ok & Hrun).
  apply eff_bind_Ok in Hrun as ([] & w5 & Hwt%emap_err_Ok & Hrun).
  apply eff_bind_Ok in Hrun as ([] & w6 & Hcc & Hrun).
  apply OpenFile_Ok in Ho as (-> & md & _ & Hd).
  destruct (write_load k (if_keytabPath f) wa wb {| mode := md; contents := "" |})
    as (b & Hdb & Hload); [by rewrite Hd, lookup_insert_eq|done|done|].
  exists k, now, pb, mt, w1, wb, w3, tok, w4, w5, w6. split_and!; try done.
  - by apply bind_Ok in Hpb as (sid & Hs & [= <-]).
  - exists b. split; [|done]. unfold file_bytes. by rewrite Hdb, lookup_insert_eq.
  - case_bool_decide as Hb; [apply ret_Ok in Hrun as [_ ->]; by left|by right].
Qed.
(** What the builder makes of the fixture's identity. *)
Lemma interop_build s pb f now t kvi ci :
  NewSyntheticPACBuilder s = Ok pb →
  Build pb (mo_Identity (interop_options f now)) t = Ok (kvi, ci) →
  GroupIDs kvi = map membership [513; ridFromName "mail-users"; ridFromName "staff"] ∧
  UserID kvi = ridFromName (if_client f) ∧ Name ci = if_client f ∧
  ClientID ci = GetFileTime (UTC t) ∧ LogonDomainID kvi = DomainSID pb ∧
  ExtraSIDs kvi = [] ∧ ResourceGroupIDs kvi = [].
Proof.
  intros (sid & _ & [= <-])%bind_Ok Hb. apply bind_Ok in Hb as ([[subject groups] scopes] & Hm & Hb).
  assert (build_mapper {| DomainSID := sid; DefaultPrimaryGroupRID := 513; pb_GroupsClaim := "";
                          GroupOverrides := ∅; pb_ScopeFilter := None; pb_Mapper := None |}
            (mo_Identity (interop_options f now)) = Ok (if_client f, ["mail-users"; "staff"], []))
    as Hmap by by vm_compute.
  rewrite Hmap in Hm. injection Hm as <- <- <-. injection Hb as <- <-.
  split_and!; done.
Qed.

(** The acceptor's and the library's reading of one ticket. *)
Lemma interop_mint_pac f k pb now w mt w' skey kvno :
  has_byte "/" (if_realm f) = false → has_byte "@" (if_realm f) = false →
  NewSyntheticPACBuilder (if_domainSID f) = Ok pb →
  DirectMinter_Mint
    (WithPACBuilder (NewDirectMinter (NewKeytabSource k (if_realm f)) (if_realm f)) (Build pb))
    {| Service := if_service f; Host := if_host f; Realm := if_realm f |}
    (interop_options f now) w = (Ok mt, w') →
  service_key k (if_service f) (if_host f) (if_realm f) = Ok (skey, kvno) →
  ∃ plain etp pac kvi ci kdcKey kdcKvno,
    DecryptEncPart (EncPart (mt_Ticket mt)) skey KDC_REP_TICKET = Some plain ∧
    DecryptMessage (Cipher (EncPart (mt_Ticket mt))) skey KDC_REP_TICKET = Ok plain ∧
    read_ticket skey (mt_Ticket mt) = Some etp ∧
    extractPAC plain = Ok pac ∧ extract_loop (etp_AuthorizationData etp) = Ok pac ∧
    service_key k "krbtgt" (if_realm f) (if_realm f) = Ok (kdcKey, kdcKvno) ∧
    Build pb (mo_Identity (interop_options f now)) (UTC (Add now (-30 * Second))) = Ok (kvi, ci) ∧
    VerifyPAC pac skey kdcKey = Some (kvi, ci) ∧
    ∃ pt, PACType_Unmarshal pac = Ok pt ∧ ProcessPACInfoBuffers pt skey = Ok kvi.
Proof.
  intros Hr1 Hr2 Hpb Hm Hk.
  destruct (Mint_inv _ _ _ _ _ _ Hm) as [run _].
  destruct (read_minted _ _ _ _ _ _ run) as [Hd Hu].
  destruct run as [skey' kvno' ad etp plain et w1 Hz Ha Hk' Het Hs Had Heq Hma Henc Hmt].
  cbn in Hd, Hu. apply service_key_source in Hk'. rewrite Hk in Hk'. injection Hk' as <- <-.
  unfold mint_authdata in Had. cbn [WithPACBuilder pacBuilder NewDirectMinter dm_keys] in Had.
  apply bind_Ok in Had as ([kvi ci] & Hb%map_err_Ok & Had).
  apply bind_Ok in Had as ([kdcKey kdcKvno] & Hkdc & Had).
  apply bind_Ok in Had as (pac & Hsign%map_err_Ok & Had).
  apply extract_pacAuthorizationData in Had.
  exists (AddASNAppTag plain EncTicketPartTag), (etp_view etp), pac, kvi, ci, kdcKey, kdcKvno.
  assert (etp_AuthorizationData (etp_view etp) = ad) as Hview by by rewrite Heq.
  split_and!; [done|by eapply decrypt_message| | | | |done|by eapply verify_pac|
    by eapply process_pac].
  - unfold read_ticket. by rewrite Hd.
  - unfold extractPAC. by rewrite Hu, Hview.
  - by rewrite Hview.
  - simpl in Hkdc. unfold KeytabSource_KDCSigningKey in Hkdc.
    cbn [kdcPrincipal NewKeytabSource ks_defaultRealm kt] in Hkdc.
    rewrite parse_krbtgt in Hkdc by done.
    rewrite bool_decide_true in Hkdc by done. by apply map_err_Ok in Hkdc.
Qed.
Lemma writeBundle_inv path k mt service host realm client t (w : W) w' :
  writeBundle path k mt service host realm client t w = (Ok tt, w') →
  ∃ svc sv tgt tv plain pac pt kvi,
    service_key k service host realm = Ok (svc, sv) ∧
    service_key k "krbtgt" realm realm = Ok (tgt, tv) ∧
    DecryptMessage (Cipher (EncPart (mt_Ticket mt))) svc KDC_REP_TICKET = Ok plain ∧
    extractPAC plain = Ok pac ∧ PACType_Unmarshal pac = Ok pt ∧
    ProcessPACInfoBuffers pt svc = Ok kvi ∧
    os_WriteFile path (bundle_text pac svc tgt t client realm
      (SID_String (LogonDomainID kvi) +:+ "-" +:+ pretty (UserID kvi))
      (GetGroupMembershipSIDs kvi)) private w = (Ok tt, w').
Proof.
  unfold writeBundle. intros Hrun.
  apply eff_bind_Ok in Hrun as ([svc v] & w1 & [Hs%map_err_Ok ->]%lift_Ok & Hrun).
  apply eff_bind_Ok in Hrun as ([tgt v'] & w1 & [Ht%map_err_Ok ->]%lift_Ok & Hrun).
  apply eff_bind_Ok in Hrun as (plain & w1 & [Hp%map_err_Ok ->]%lift_Ok & Hrun).
  apply eff_bind_Ok in Hrun as (pac & w1 & [Hx ->]%lift_Ok & Hrun).
  apply eff_bind_Ok in Hrun as ([u g] & w1 & [Hsids ->]%lift_Ok & Hrun).
  apply bind_Ok in Hsids as (pt & Hpt%map_err_Ok & (kvi & Hkvi%map_err_Ok & [= <- <-])%bind_Ok).
  apply emap_err_Ok in Hrun. by exists svc, v, tgt, v', plain, pac, pt, kvi.
Qed.

Lemma writeBundle_other path k mt service host realm client t (w : W) w' p :
  writeBundle path k mt service host realm client t w = (Ok tt, w') → p ≠ path →
  file_bytes w' p = file_bytes w p.
Proof.
  intros (? & ? & ? & ? & ? & ? & ? & ? & _ & _ & _ & _ & _ & _ & Hw)%writeBundle_inv Hp.
  rewrite (file_bytes_write _ _ _ _ _ p Hw). by rewrite bool_decide_false.
Qed.

Lemma interop_paths_ne f :
  NoDup (interop_paths f) →
  if_keytabPath f ≠ if_tokenPath f ∧
  (if_ccachePath f ≠ if_keytabPath f ∨ if_ccachePath f = "") ∧
  (if_ccachePath f ≠ if_tokenPath f ∨ if_ccachePath f = "") ∧
  (if_bundlePath f ≠ "" → if_keytabPath f ≠ if_bundlePath f) ∧
  (if_bundlePath f ≠ "" → if_tokenPath f ≠ if_bundlePath f) ∧
  (if_bundlePath f ≠ "" → if_ccachePath f ≠ "" → if_ccachePath f ≠ if_bundlePath f).
Proof.
  unfold interop_paths. rewrite !filter_cons, filter_nil.
  destruct (decide (if_ccachePath f = "")) as [E|E], (decide (if_bundlePath f = "")) as [E'|E'];
    repeat case_decide; try done; rewrite !NoDup_cons, ?not_elem_of_cons; intuition congruence.
Qed.

Lemma disk_Mint (m : DirectMinter (K:=KeytabSource)) spn opts w mt w' :
  DirectMinter_Mint m spn opts w = (Ok mt, w') → disk w = disk w'.
Proof. intros Hm. pose proof (Mint_frame m spn opts w) as E. by rewrite Hm in E. Qed.

Lemma disk_Token mt w tok w' : MarshalAPReqToken mt w = (Ok tok, w') → disk w' = disk w.
Proof. intros Hm. pose proof (MarshalAPReqToken_frame mt w) as E. by rewrite Hm in E. Qed.

(** The keytab and the earlier files are still there at the end. *)
Lemma interop_keytab_kept f w w' :
  NoDup (interop_paths f) → interop_main f w = (Ok tt, w') →
  ∃ k now pb mt w1 w2 w3 tok w4 w5 w6,
    Now w = (now, w1) ∧ NewSyntheticPACBuilder (if_domainSID f) = Ok pb ∧
    parseDomainSID (if_domainSID f) = Ok (DomainSID pb) ∧
    keytab_Load (if_keytabPath f) w' = (Ok k, w') ∧
    DirectMinter_Mint
      (WithPACBuilder (NewDirectMinter (NewKeytabSource k (if_realm f)) (if_realm f)) (Build pb))
      {| Service := if_service f; Host := if_host f; Realm := if_realm f |}
      (interop_options f now) w2 = (Ok mt, w3) ∧
    MarshalAPReqToken mt w3 = (Ok tok, w4) ∧
    os_WriteFile (if_tokenPath f) (EncodeToString tok) private w4 = (Ok tt, w5) ∧
    write_ccache "ccache credential" (if_ccachePath f) mt w5 = (Ok tt, w6) ∧
    (∀ p, (if_bundlePath f ≠ "" → p ≠ if_bundlePath f) → file_bytes w' p = file_bytes w6 p) ∧
    (if_bundlePath f ≠ "" →
     writeBundle (if_bundlePath f) k mt (if_service f) (if_host f) (if_realm f) (if_client f)
       (Add now (-30 * Second)) w6 = (Ok tt, w')).
Proof.
  intros Hnd Hrun.
  destruct (interop_main_inv _ _ _ Hrun) as (k & now & pb & mt & w1 & w2 & w3 & tok & w4 & w5 & w6
    & Hnow & Hsid & Hpb & (b & Hkf & Hload) & Hm & Ht & Hwt & Hcc & Hend).
  destruct (interop_paths_ne _ Hnd) as (Hkt & Hkc & Htc & Hbk & Hbt & Hbc).
  assert (∀ p, (if_bundlePath f ≠ "" → p ≠ if_bundlePath f) → file_bytes w' p = file_bytes w6 p)
    as Hbundle.
  { intros p Hp. destruct Hend as [[_ ->]|[Hb Hwb]]; [done|].
    apply (writeBundle_other _ _ _ _ _ _ _ _ _ _ _ Hwb). by apply Hp. }
  exists k, now, pb, mt, w1, w2, w3, tok, w4, w5, w6. split_and!; try done.
  - apply Hload. rewrite Hbundle by auto.
    rewrite (write_ccache_other _ _ _ _ _ _ Hcc) by auto.
    rewrite (file_bytes_write _ _ _ _ _ (if_keytabPath f) Hwt), bool_decide_false by done.
    unfold file_bytes in *. rewrite (disk_Mint _ _ _ _ _ _ Hm) in Hkf.
    by rewrite (disk_Token _ _ _ _ Ht).
  - intros Hb. by destruct Hend as [[? _]|[_ Hwb]].
Qed.

(** The token and the ccache of a run, as their consumers read them at its end. *)
Lemma interop_files (P : EncryptionKey → EncTicketPart → Prop)
    f k pb now w2 mt w3 tok w4 w5 w6 w' :
  NoDup (interop_paths f) →
  DirectMinter_Mint
    (WithPACBuilder (NewDirectMinter (NewKeytabSource k (if_realm f)) (if_realm f)) (Build pb))
    {| Service := if_service f; Host := if_host f; Realm := if_realm f |}
    (interop_options f now) w2 = (Ok mt, w3) →
  MarshalAPReqToken mt w3 = (Ok tok, w4) →
  os_WriteFile (if_tokenPath f) (EncodeToString tok) private w4 = (Ok tt, w5) →
  write_ccache "ccache credential" (if_ccachePath f) mt w5 = (Ok tt, w6) →
  (∀ p, (if_bundlePath f ≠ "" → p ≠ if_bundlePath f) → file_bytes w' p = file_bytes w6 p) →
  (∀ skey kvno etp, service_key k (if_service f) (if_host f) (if_realm f) = Ok (skey, kvno) →
     read_ticket skey (mt_Ticket mt) = Some etp → P skey etp) →
  ∃ skey kvno, service_key k (if_service f) (if_host f) (if_realm f) = Ok (skey, kvno) ∧
    files_usable (P skey) skey
      {| NameType := KRB_NT_PRINCIPAL; NameString := [if_client f] |} (if_realm f)
      (Add now (5 * 60 * Second)) (if_tokenPath f) (if_ccachePath f) w'.
Proof.
  intros Hnd Hm Ht Hwt Hcc Hbundle HP.
  destruct (interop_paths_ne _ Hnd) as (_ & _ & Htc & _ & Hbt & Hbc).
  destruct (minted_files P
    (WithPACBuilder (NewDirectMinter (NewKeytabSource k (if_realm f)) (if_realm f)) (Build pb))
    k (if_realm f) (if_service f) (if_host f) (interop_options f now) w2 mt w3 tok w4 w5 _ _ _ w6
    eq_refl eq_refl eq_refl Hm Ht Hwt Hcc Htc HP) as (skey & kvno & Hsk & Hfiles).
  exists skey, kvno. split; [done|].
  eapply files_usable_same; [apply Hbundle; auto| |exact Hfiles].
  intros Hne. apply Hbundle. auto.
Qed.

(** *** Properties *)

(** C15. What the interop minter leaves on the disk works.  When it ends without
    an error and its output paths are distinct, a service that loads the
    keytab finds its key there and accepts the token in the other file - as
    the client and realm of the command line, for five minutes from the
    program's clock reading - from a ticket whose PAC verifies under that key
    and the keytab's krbtgt key and grants the default group and the two
    groups of the fixture; and the ccache, if asked for, holds that ticket with
    the session key the service finds in it. *)
Theorem interop_main_usable f w w' :
  NoDup (interop_paths f) →
  has_byte "/" (if_realm f) = false → has_byte "@" (if_realm f) = false →
  interop_main f w = (Ok tt, w') →
  ∃ k skey kvno,
    keytab_Load (if_keytabPath f) w' = (Ok k, w') ∧
    service_key k (if_service f) (if_host f) (if_realm f) = Ok (skey, kvno) ∧
    files_usable (carries_pac k (if_realm f) (if_client f) skey) skey
      {| NameType := KRB_NT_PRINCIPAL; NameString := [if_client f] |} (if_realm f)
      (Add (Now w).1 (5 * 60 * Second)) (if_tokenPath f) (if_ccachePath f) w'.
Proof.
  intros Hnd Hr1 Hr2 Hrun.
  destruct (interop_keytab_kept _ _ _ Hnd Hrun) as (k & now & pb & mt & w1 & w2 & w3 & tok & w4 & w5
    & w6 & Hnow & Hpb & _ & Hload & Hm & Ht & Hwt & Hcc & Hbundle & _).
  destruct (interop_files (carries_pac k (if_realm f) (if_client f)) _ _ _ _ _ _ _ _ _ _ _ _
    Hnd Hm Ht Hwt Hcc Hbundle) as (skey & kvno & Hsk & Hfiles).
  { intros skey kvno etp Hsk Hread.
    destruct (interop_mint_pac _ _ _ _ _ _ _ _ _ Hr1 Hr2 Hpb Hm Hsk)
      as (plain & etp' & pac & kvi & ci & kdc & kv & _ & _ & Hread' & _ & Hx & Hkdc & Hb & Hv & _).
    rewrite Hread in Hread'. injection Hread' as <-.
    destruct (interop_build _ _ _ _ _ _ _ Hpb Hb) as (Hg & _ & Hn & _).
    exists pac, kvi, ci, kdc, kv. split_and!; try done. unfold pac_rids. by rewrite Hg. }
  exists k, skey, kvno. rewrite Hnow. by split_and!.
Qed.
(** C14. The bundle is a true statement about the token.  The consumers' line reader
    finds one value under each name.  The PAC line is the PAC of the ticket
    in the token file - the ticket the service accepts there - and in the
    ccache; it verifies under the keys whose bytes the next two lines hold,
    and carries the client's name and the authentication time of the following
    lines.  For a domain SID given in its usual form, the user's SID and the
    group SIDs are those of that PAC: its domain, which is the one given, with
    its user RID, the client's, and with its group RIDs - the default group
    and the fixture's two groups - in order. *)
Theorem interop_bundle_true f w w' (auth : N) (subs : list N) :
  NoDup (interop_paths f) → if_bundlePath f ≠ "" →
  has_byte "/" (if_realm f) = false → has_byte "@" (if_realm f) = false →
  has_byte newline (if_realm f) = false → has_byte newline (if_client f) = false →
  if_domainSID f = print_sid auth subs → (4 ≤ List.length subs)%nat → Z.of_N auth ≤ 255 →
  Forall (λ n : N, Z.of_N n < 2 ^ 32) subs →
  interop_main f w = (Ok tt, w') →
  let authTime := Add (Now w).1 (-30 * Second) in
  ∃ k text skey kvno kdcKey kdcKvno pac kvi ci,
    keytab_Load (if_keytabPath f) w' = (Ok k, w') ∧
    file_bytes w' (if_bundlePath f) = Some text ∧
    service_key k (if_service f) (if_host f) (if_realm f) = Ok (skey, kvno) ∧
    service_key k "krbtgt" (if_realm f) (if_realm f) = Ok (kdcKey, kdcKvno) ∧
    files_usable (λ etp, extract_loop (etp_AuthorizationData etp) = Ok pac) skey
      {| NameType := KRB_NT_PRINCIPAL; NameString := [if_client f] |} (if_realm f)
      (Add (Now w).1 (5 * 60 * Second)) (if_tokenPath f) (if_ccachePath f) w' ∧
    read_hex <$> bundle_get "PAC" text = [Some pac] ∧
    read_hex <$> bundle_get "SERVERKEY" text = [Some (KeyValue skey)] ∧
    read_hex <$> bundle_get "KDCKEY" text = [Some (KeyValue kdcKey)] ∧
    VerifyPAC pac skey kdcKey = Some (kvi, ci) ∧
    Name ci = if_client f ∧ ClientID ci = GetFileTime (UTC authTime) ∧
    SID_String (LogonDomainID kvi) = if_domainSID f ∧ UserID kvi = ridFromName (if_client f) ∧
    pac_rids kvi = [513; ridFromName "mail-users"; ridFromName "staff"] ∧
    bundle_get "CLIENT" text = [Name ci +:+ "@" +:+ if_realm f] ∧
    bundle_get "AUTHTIME" text = [pretty (Time_Unix authTime)] ∧
    bundle_get "USERSID" text = [SID_String (LogonDomainID kvi) +:+ "-" +:+ pretty (UserID kvi)] ∧
    bundle_get "GROUPSIDS" text =
      [Join "," (map (λ rid, SID_String (LogonDomainID kvi) +:+ "-" +:+ pretty rid)
                   (pac_rids kvi))].
Proof.
  intros Hnd Hbp Hr1 Hr2 Hr3 Hcl Hsid Hlen Hauth Hsubs Hrun.
  destruct (interop_keytab_kept _ _ _ Hnd Hrun) as (k & now & pb & mt & w1 & w2 & w3 & tok & w4 & w5
    & w6 & -> & Hpb & Hdom & Hload & Hm & Ht & Hwt & Hcc & Hbundle & Hwb). cbn [fst].
  apply writeBundle_inv in Hwb as (skey & sv & kdc & kv & plain & pac & pt & kvi & Hsk & Hkdc & Hdec &
    Hx & Hpt & Hkvi & Hwrite); [|done].
  destruct (interop_mint_pac _ _ _ _ _ _ _ _ _ Hr1 Hr2 Hpb Hm Hsk)
    as (plain' & etp & pac' & kvi' & ci & kdc' & kv' & _ & Hdec' & Hread & Hx' & Hloop & Hkdc' & Hb &
        Hv & pt' & Hpt' & Hkvi').
  rewrite Hdec' in Hdec. injection Hdec as ->. rewrite Hx' in Hx. injection Hx as ->.
  rewrite Hpt' in Hpt. injection Hpt as ->. rewrite Hkvi' in Hkvi. injection Hkvi as ->.
  rewrite Hkdc' in Hkdc. injection Hkdc as -> ->.
  destruct (interop_files (λ _ etp, extract_loop (etp_AuthorizationData etp) = Ok pac)
    _ _ _ _ _ _ _ _ _ _ _ _ Hnd Hm Ht Hwt Hcc Hbundle) as (skey' & sv' & Hsk' & Hfiles).
  { intros skey' sv' etp' Hsk'. rewrite Hsk in Hsk'. injection Hsk' as <- <-. congruence. }
  rewrite Hsk in Hsk'. injection Hsk' as <- <-.
  destruct (interop_build _ _ _ _ _ _ _ Hpb Hb) as (Hg & Hu & Hn & Hci & Hld & He & Hrg).
  rewrite Hsid, parse_print_sid in Hdom by done. injection Hdom as Hdom.
  assert (SID_String (LogonDomainID kvi) = if_domainSID f) as Hss
    by by rewrite Hld, <- Hdom, sid_string.
  assert (pac_rids kvi = [513; ridFromName "mail-users"; ridFromName "staff"]) as Hrids
    by (unfold pac_rids; by rewrite Hg).
  rewrite group_sids, Hg, Hss, Hu in Hwrite by done.
  assert (has_byte newline (if_domainSID f) = false) as Hnl by by rewrite Hsid; apply has_newline_sid.
  edestruct bundle_read as (Hl1 & Hl2 & Hl3 & Hl4 & Hl5 & Hl6 & Hl7);
    [exact Hcl|exact Hr3| | |].
  3:{ eexists k, _, skey, sv, kdc, kv, pac, kvi, ci.
      rewrite Hss, Hn, Hu, Hrids.
      rewrite (file_bytes_write _ _ _ _ _ (if_bundlePath f) Hwrite), bool_decide_true by done.
      split_and!; [done|reflexivity|done|done|exact Hfiles|rewrite Hl1|rewrite Hl2|rewrite Hl3|done..|
        exact Hl5|exact Hl4|exact Hl6|exact Hl7]; cbn; by rewrite read_hex_Encode. }
  - by rewrite !has_byte_app, Hnl, has_newline_pretty.
  - repeat constructor; by rewrite !has_byte_app, Hnl, has_newline_pretty.
Qed.
(** C12. The demo minter needs nothing but the service's key.  When it ends without
    an error, the service whose key is in the keytab it loaded - wherever that
    keytab came from - accepts the token in the file as the client of the
    command line, for five minutes from the clock reading in UTC; the ticket
    holds no authorization data, so it grants no group; and the ccache, if asked
    for, holds the same ticket.  The keytab's own file is left as it was. *)
Theorem ad_main_usable f w w' :
  ad_ccachePath f ≠ ad_tokenPath f ∨ ad_ccachePath f = "" →
  ad_main f w = (Ok tt, w') →
  ∃ k w1 skey kvno,
    keytab_Load (ad_keytabPath f) w = (Ok k, w1) ∧
    service_key k (ad_service f) (ad_host f) (ad_realm f) = Ok (skey, kvno) ∧
    files_usable (λ etp, etp_AuthorizationData etp = []) skey
      {| NameType := KRB_NT_PRINCIPAL; NameString := [ad_client f] |} (ad_realm f)
      (Add (UTC (Now w1).1) (5 * 60 * Second)) (ad_tokenPath f) (ad_ccachePath f) w' ∧
    (disk w1 = disk w → ∀ p, p ∉ [ad_tokenPath f; ad_ccachePath f] →
       file_bytes w' p = file_bytes w p).
Proof.
  intros Hne. unfold ad_main. intros Hrun.
  apply eff_bind_Ok in Hrun as (k & w1 & Hk%emap_err_Ok & Hrun).
  apply eff_bind_Ok in Hrun as (now & w2 & Hnow%(proj1 (effect_Ok _ _ _ _)) & Hrun).
  apply eff_bind_Ok in Hrun as (mt & w3 & Hm%emap_err_Ok & Hrun).
  apply eff_bind_Ok in Hrun as (tok & w4 & Ht%emap_err_Ok & Hrun).
  apply eff_bind_Ok in Hrun as ([] & w5 & Hwt%emap_err_Ok & Hcc).
  pose proof (frame_clock w1) as Hd. rewrite Hnow in Hd. cbn [snd] in Hd.
  destruct (minted_files (λ _ etp, etp_AuthorizationData etp = [])
    (NewDirectMinter (NewKeytabSource k (ad_realm f)) (ad_realm f)) k (ad_realm f) (ad_service f)
    (ad_host f) (ad_options f (UTC now)) w2 mt w3 tok w4 w5 _ _ _ w' eq_refl eq_refl eq_refl Hm Ht
    Hwt Hcc Hne) as (skey & kvno & Hsk & Hfiles).
  { intros skey kvno etp Hsk Hread.
    destruct (minted_pac _ _ _ _ _ _ Hm) as (skey' & kvno' & plain & etp' & Hk' & Hdec & Hu & Had).
    apply service_key_source in Hk'. rewrite Hsk in Hk'. injection Hk' as <- <-.
    unfold read_ticket in Hread. rewrite Hdec in Hread. cbn [mbind option_bind] in Hread. congruence. }
  exists k, w1, skey, kvno. rewrite Hnow. split_and!; [done..|].
  intros Hw1 p Hp. rewrite not_elem_of_cons, list_elem_of_singleton in Hp. destruct Hp as [Hp1 Hp2].
  rewrite (write_ccache_other _ _ _ _ _ _ Hcc) by auto.
  rewrite (file_bytes_write _ _ _ _ _ p Hwt), bool_decide_false by done.
  unfold file_bytes. by rewrite (disk_Token _ _ _ _ Ht), <- (disk_Mint _ _ _ _ _ _ Hm), Hd, Hw1.
Qed.
End properties.

(** ** Witnesses *)

(** The interop program with all four files. *)
Definition sample_interop : InteropFlags :=
  {| if_keytabPath := "/tmp/interop.keytab"; if_tokenPath := "/tmp/interop.token";
     if_ccachePath := "/tmp/interop.ccache"; if_bundlePath := "/tmp/interop.pacbundle";
     if_realm := "EXAMPLE.COM"; if_service := "HTTP"; if_host := "interop.example.com";
     if_client := "alice"; if_password := "interop-secret";
     if_domainSID := "S-1-5-21-1111111111-2222222222-3333333333" |}.

Definition sample_interop_run : result unit * SymWorld := interop_main sample_interop sample_world.

(** The demo program with the keytab the interop program left. *)
Definition sample_ad : AdFlags :=
  {| ad_keytabPath := "/tmp/interop.keytab"; ad_realm := "EXAMPLE.COM"; ad_service := "HTTP";
     ad_host := "interop.example.com"; ad_client := "bob"; ad_tokenPath := "/tmp/ad.token";
     ad_ccachePath := "/tmp/ad.ccache" |}.

Ltac interop_ran w E :=
  destruct sample_interop_run as [[[]|e] w] eqn:E;
  [|apply (f_equal (λ r, is_ok r.1)) in E; by vm_compute in E].

Lemma interop_main_usable_witness :
  match sample_interop_run with
  | (Ok _, w) => ∃ k skey kvno,
      (keytab_Load "/tmp/interop.keytab" w).1 = Ok k ∧
      service_key k "HTTP" "interop.example.com" "EXAMPLE.COM" = Ok (skey, kvno) ∧
      is_Some (file_bytes w "/tmp/interop.token")
  | _ => False
  end.
Proof.
  interop_ran w E.
  destruct (interop_main_usable sample_interop sample_world w) as (k & skey & kvno & Hl & Hk & Hf);
    [by apply (bool_decide_eq_true_1 _)|done|done|exact E|].
  exists k, skey, kvno. split_and!; [|exact Hk|].
  - change (if_keytabPath sample_interop) with "/tmp/interop.keytab" in Hl. by rewrite Hl.
  - destruct Hf as (etp & tok & _ & _ & _ & _ & Ht & _). by exists (EncodeToString tok).
Defined.

Lemma interop_bundle_true_witness :
  match sample_interop_run with
  | (Ok _, w) => ∃ text skey etp tok pac kvi,
      file_bytes w "/tmp/interop.pacbundle" = Some text ∧
      file_bytes w "/tmp/interop.token" = Some (EncodeToString tok) ∧
      (len tok < 2 ^ 63 → ∃ auth, accept_token skey tok = Some (etp, auth)) ∧
      extract_loop (etp_AuthorizationData etp) = Ok pac ∧
      read_hex <$> bundle_get "PAC" text = [Some pac] ∧
      pac_rids kvi = [513; ridFromName "mail-users"; ridFromName "staff"] ∧
      bundle_get "USERSID" text = [SID_String (LogonDomainID kvi) +:+ "-" +:+ pretty (UserID kvi)]
  | _ => False
  end.
Proof.
  interop_ran w E.
  destruct (interop_bundle_true sample_interop sample_world w 5
    [21; 1111111111; 2222222222; 3333333333]%N)
    as (k & text & skey & _ & _ & _ & pac & kvi & _ & _ & Ht & _ & _ & Hf & Hp & _ & _ & _ & _ & _ &
        _ & _ & Hr & _ & _ & Hu & _);
    [by apply (bool_decide_eq_true_1 _)|done|done|done|done|done|by vm_compute|simpl; lia|lia|
     by repeat constructor|exact E|].
  destruct Hf as (etp & tok & Hx & _ & _ & _ & Htok & Ha & _).
  exists text, skey, etp, tok, pac, kvi.
  split_and!; [exact Ht|exact Htok| |exact Hx|exact Hp|exact Hr|exact Hu].
  intros Hl. destruct (Ha Hl) as (auth & Hacc & _). by exists auth.
Defined.

Lemma ad_main_usable_witness :
  match ad_main sample_ad sample_interop_run.2 with
  | (Ok _, w) => ∃ skey etp tok, file_bytes w "/tmp/ad.token" = Some (EncodeToString tok) ∧
      CName etp = {| NameType := 1; NameString := ["bob"] |} ∧
      (len tok < 2 ^ 63 → ∃ auth, accept_token skey tok = Some (etp, auth)) ∧
      etp_AuthorizationData etp = []
  | _ => False
  end.
Proof.
  destruct (ad_main sample_ad sample_interop_run.2) as [[[]|e] w] eqn:E;
    [|apply (f_equal (λ r, is_ok r.1)) in E; by vm_compute in E].
  destruct (ad_main_usable sample_ad sample_interop_run.2 w)
    as (k & w1 & skey & kvno & _ & _ & (etp & tok & Had & Hn & _ & _ & Ht & Ha & _) & _);
    [by left|exact E|].
  exists skey, etp, tok. split_and!; [exact Ht|exact Hn| |exact Had].
  intros Hl. destruct (Ha Hl) as (auth & Hacc & _). by exists auth.
Defined.
