(* ===== verification/Validators.v ===== *)
(** * Validators: access tokens (validator.go, introspection.go, jwksvalidator.go)

    The interface [TokenValidator] and its three implementations: delegation to
    a caller's function, RFC 7662 introspection over HTTP, and local JWT
    verification against a key set.  The JWT library is a parameter. *)
From Stdlib Require Import SpecFloat.
From S2P Require Import Prelude Errors GoText GoTime GoFloat GoJson GoUrl GoHttp Credential Claims.

Definition ErrTokenInvalid : error :=
  Sentinel "ErrTokenInvalid" "kerbexchange: invalid access token".

Class TokenValidator (V W : Type) := {
  Validate : V → string → eff W Identity;
}.

(** ** DelegatedValidator *)

Section delegated.
Context {W : Type}.

Record DelegatedValidator := {
  ValidateFunc : option (string → eff W Identity);
}.

Definition Delegated_Validate (v : DelegatedValidator) (accessToken : string) : eff W Identity :=
  match ValidateFunc v with
  | None => fail (New "kerbexchange: DelegatedValidator has no ValidateFunc")
  | Some f => f accessToken
  end.

#[export] Instance DelegatedValidator_Validator : TokenValidator DelegatedValidator W := {
  Validate := Delegated_Validate;
}.
End delegated.

(** ** IntrospectionValidator *)

Record introspectionResponse := {
  Active : bool;
  ir_Subject : string;
  ir_Expiry : float64;
}.

Definition emptyResponse : introspectionResponse :=
  {| Active := false; ir_Subject := ""; ir_Expiry := S754_zero false |}.

(** One member of the object, decoded into the field its key names.  A type
    error leaves the field and is reported when the whole object is read. *)
Definition decode_member (key : string) (v : json) (ir : introspectionResponse)
    : introspectionResponse + error :=
  if key_matches "active" key then
    match set_bool v (Active ir) with
    | inl b => inl {| Active := b; ir_Subject := ir_Subject ir; ir_Expiry := ir_Expiry ir |}
    | inr e => inr e
    end
  else if key_matches "sub" key then
    match set_string v (ir_Subject ir) with
    | inl s => inl {| Active := Active ir; ir_Subject := s; ir_Expiry := ir_Expiry ir |}
    | inr e => inr e
    end
  else if key_matches "exp" key then
    match set_float v (ir_Expiry ir) with
    | inl f => inl {| Active := Active ir; ir_Subject := ir_Subject ir; ir_Expiry := f |}
    | inr e => inr e
    end
  else inl ir.

Fixpoint decode_members (ms : list (string * (string * json))) (ir : introspectionResponse)
    (saved : option error) : result introspectionResponse :=
  match ms with
  | [] => match saved with None => Ok ir | Some e => Err e end
  | (key, (_, v)) :: ms' =>
    match decode_member key v ir with
    | inl ir' => decode_members ms' ir' saved
    | inr e => decode_members ms' ir (match saved with None => Some e | Some e0 => Some e0 end)
    end
  end.

(** [json.Unmarshal(raw, &ir)] *)
Definition Unmarshal_introspection (raw : bytes) : result introspectionResponse :=
  v ← parse_json raw;
  match v with
  | JObj ms => decode_members ms emptyResponse None
  | JNull => Ok emptyResponse
  | _ => Err UnmarshalTypeError
  end.

Definition intro_err (what : string) (e : error) : error :=
  Errorf [Lit ("kerbexchange: introspection: " +:+ what +:+ ": "); Fw e].

Section introspection.
Context {W : Type} `{Http W}.
(** [int64(f)] of a float outside the int64 range: implementation-defined. *)
Variable out_of_range : float64 → Z.

Record IntrospectionValidator := {
  Endpoint : string;
  iv_ClientID : string;
  ClientSecret : string;
  iv_HTTPClient : option HTTPClient;
}.

Definition intro_expiry (f : float64) : Time :=
  if negb (float_is_zero f) then Unix (int64_of_float out_of_range f) else zeroTime.

(** The decision once the body has been read. *)
Definition intro_identity (status : Z) (raw : bytes) : result Identity :=
  if negb (status =? StatusOK)
  then Err (Errorf [Lit "kerbexchange: introspection: server returned "; Fd status])
  else
    ir ← map_err (intro_err "decode response") (Unmarshal_introspection raw);
    if negb (Active ir) then Err (Errorf [Fw ErrTokenInvalid; Lit ": token not active"])
    else Ok {| Subject := ir_Subject ir; Claims := raw; Expiry := intro_expiry (ir_Expiry ir) |}.

Definition Introspection_Validate (v : IntrospectionValidator) (accessToken : string)
    : eff W Identity :=
  let body := Values_Encode [("token", [accessToken])] in
  req ← lift (map_err (intro_err "build request") (NewRequest MethodPost (Endpoint v) body));
  let req := Header_Set "Content-Type" "application/x-www-form-urlencoded" req in
  let req := if bool_decide (iv_ClientID v ≠ "")
             then SetBasicAuth (iv_ClientID v) (ClientSecret v) req else req in
  let client := default DefaultClient (iv_HTTPClient v) in
  resp ← emap_err (intro_err "request") (Do client req);
  raw ← lift (map_err (intro_err "read body") (resp_Body resp));
  lift (intro_identity (StatusCode resp) raw).

#[export] Instance IntrospectionValidator_Validator : TokenValidator IntrospectionValidator W := {
  Validate := Introspection_Validate;
}.
End introspection.

(** ** JWKSValidator *)

(** github.com/lestrrat-go/jwx, as far as the program calls it. *)
Class Jwx (W : Type) := {
  KeyAlgorithm : Type;
  KeyAlgorithm_eq_dec :: EqDecision KeyAlgorithm;
  RS256 : KeyAlgorithm;
  ES256 : KeyAlgorithm;
  JwkCache : Type;
  JwkSet : Type;
  JwtToken : Type;
  NewCache : eff W JwkCache;
  Register : JwkCache → string → eff W unit;
  Refresh : JwkCache → string → eff W unit;
  NewCachedSet : JwkCache → string → JwkSet;
  (** one pass over the cached set: the algorithm of each element that is a key *)
  Keys : JwkSet → W → list (option KeyAlgorithm) * W;
  (** [jwt.Parse] with the key set, validation on, the skew, and an issuer and
      an audience when given *)
  jwt_Parse : bytes → JwkSet → Duration → option string → option string → eff W JwtToken;
  json_Marshal_token : JwtToken → result bytes;
  tok_Subject : JwtToken → string;
  tok_Expiration : JwtToken → Time;
}.

Record jwksValidatorConfig := {
  issuer : string;
  audience : string;
  clockSkew : Duration;
}.

Definition JWKSOption : Type := jwksValidatorConfig → jwksValidatorConfig.

Definition WithIssuer (iss : string) : JWKSOption := λ c,
  {| issuer := iss; audience := audience c; clockSkew := clockSkew c |}.
Definition WithAudience (aud : string) : JWKSOption := λ c,
  {| issuer := issuer c; audience := aud; clockSkew := clockSkew c |}.
Definition WithClockSkew (d : Duration) : JWKSOption := λ c,
  {| issuer := issuer c; audience := audience c; clockSkew := d |}.

Section jwks.
Context {W : Type} `{Jwx W}.

Record JWKSValidator := {
  keySet : JwkSet;
  cfg : jwksValidatorConfig;
}.

Definition allowedAlgorithms : list KeyAlgorithm := [RS256; ES256].

Definition NewJWKSValidator (jwksURL : string) (opts : list JWKSOption) : eff W JWKSValidator :=
  let cfg := fold_left (λ c o, o c) opts {| issuer := ""; audience := ""; clockSkew := 0 |} in
  cache ← NewCache;
  _ ← emap_err (λ e, Errorf [Lit "kerbexchange: register JWKS URL: "; Fw e])
        (Register cache jwksURL);
  _ ← emap_err (λ e, Errorf [Lit "kerbexchange: initial JWKS fetch: "; Fw e])
        (Refresh cache jwksURL);
  mret {| keySet := NewCachedSet cache jwksURL; cfg := cfg |}.

Fixpoint scan_keys (keys : list (option KeyAlgorithm)) : result unit :=
  match keys with
  | [] => Err (Errorf [Lit "no key with an allowed algorithm (RS256, ES256) found in key set"])
  | None :: keys' => scan_keys keys'
  | Some alg :: keys' =>
    if existsb (λ allowed, bool_decide (alg = allowed)) allowedAlgorithms then Ok tt
    else scan_keys keys'
  end.

Definition requireAllowedKeyAlg (v : JWKSValidator) : eff W unit :=
  keys ← effect (Keys (keySet v)); lift (scan_keys keys).

Definition nonempty (s : string) : option string := if bool_decide (s = "") then None else Some s.

Definition JWKS_Validate (v : JWKSValidator) (accessToken : string) : eff W Identity :=
  _ ← emap_err (λ e, Errorf [Fw ErrTokenInvalid; Lit ": "; Fv e]) (requireAllowedKeyAlg v);
  tok ← emap_err (λ e, Errorf [Fw ErrTokenInvalid; Lit ": "; Fv e])
          (jwt_Parse accessToken (keySet v) (clockSkew (cfg v)) (nonempty (issuer (cfg v)))
             (nonempty (audience (cfg v))));
  claimsJSON ← lift (map_err (λ e, Errorf [Fw ErrTokenInvalid; Lit ": marshal claims: "; Fv e])
                       (json_Marshal_token tok));
  mret {| Subject := tok_Subject tok; Claims := claimsJSON; Expiry := tok_Expiration tok |}.

#[export] Instance JWKSValidator_Validator : TokenValidator JWKSValidator W := {
  Validate := JWKS_Validate;
}.
End jwks.

(** ** Lemmas *)

Lemma decode_member_error key v ir e : decode_member key v ir = inr e → e = UnmarshalTypeError.
Proof.
  unfold decode_member, set_bool, set_string, set_float.
  destruct (key_matches "active" key), (key_matches "sub" key), (key_matches "exp" key), v;
    repeat case_match; intros; simplify_eq; done.
Qed.

Lemma decode_members_error ms ir saved e :
  (∀ e0, saved = Some e0 → e0 = UnmarshalTypeError) →
  decode_members ms ir saved = Err e → e = UnmarshalTypeError.
Proof.
  revert ir saved. induction ms as [|[key [raw v]] ms IH]; intros ir saved Hs H; simpl in H.
  - destruct saved; simplify_eq. by apply Hs.
  - destruct (decode_member key v ir) as [ir'|e'] eqn:E; [by eapply IH|].
    eapply IH, H. intros e0. destruct saved; intros [= <-]; [by apply Hs|by eapply decode_member_error].
Qed.

(** A body that does not decode is not an invalid token. *)
Lemma Unmarshal_introspection_error raw e t :
  Unmarshal_introspection raw = Err e → errors_Is e t = false.
Proof.
  unfold Unmarshal_introspection. destruct (parse_json raw) as [v|e'] eqn:Hp; cbn [mbind result_bind].
  - destruct v; intros He; simplify_eq; try apply errors_Is_External.
    apply decode_members_error in He as ->; [apply errors_Is_External|done].
  - intros [= ->]. unfold parse_json in Hp. repeat case_match; simplify_eq; apply errors_Is_External.
Qed.

(** *** What an object says *)

Abbreviation members := (list (string * (string * json))).

(** Every member whose key names the field, in whatever case, has the value [v]. *)
Definition only_says (ms : members) (field : string) (v : json) : Prop :=
  Forall (λ m, key_matches field m.1 = true → m.2.2 = v) ms.

Definition names (field : string) (ms : members) : bool := existsb (λ m, key_matches field m.1) ms.

Lemma key_matches_fold field key :
  key_matches field key = true → map fold_rune (runes key) = map fold_rune (runes field).
Proof. unfold key_matches. intros [->%bool_decide_eq_true|H%bool_decide_eq_true]%orb_true_iff; done. Qed.

(** A key names one field at most. *)
Lemma key_matches_one f g key :
  map fold_rune (runes f) ≠ map fold_rune (runes g) →
  key_matches f key = true → key_matches g key = false.
Proof.
  intros Hne Hf%key_matches_fold. apply not_true_is_false. intros Hg%key_matches_fold. congruence.
Qed.

(** Decoding an object whose members agree about each field. *)
Lemma decode_members_says ms ir a s lit f :
  only_says ms "active" (JBool a) → only_says ms "sub" (JStr s) → only_says ms "exp" (JNum lit) →
  ParseFloat lit = Some f →
  decode_members ms ir None = Ok {|
    Active := if names "active" ms then a else Active ir;
    ir_Subject := if names "sub" ms then s else ir_Subject ir;
    ir_Expiry := if names "exp" ms then f else ir_Expiry ir |}.
Proof.
  intros Ha Hs He Hf. revert ir. induction ms as [|[k [t v]] ms IH]; intros ir; [by destruct ir|].
  apply Forall_cons_1 in Ha as [Ha Has], Hs as [Hs Hss], He as [He Hes]. cbn [fst snd] in *.
  specialize (IH Has Hss Hes). cbn [decode_members names existsb fst]. unfold decode_member.
  destruct (key_matches "active" k) eqn:Ea.
  { rewrite (key_matches_one "active" "sub") by done. rewrite (key_matches_one "active" "exp") by done.
    rewrite Ha by done. cbn [set_bool orb]. rewrite IH. unfold names. cbn. by destruct (existsb _ ms). }
  destruct (key_matches "sub" k) eqn:Es.
  { rewrite (key_matches_one "sub" "exp") by done.
    rewrite Hs by done. cbn [set_string orb]. rewrite IH. unfold names. cbn.
    f_equal. f_equal. by destruct (existsb (λ m, key_matches "sub" m.1) ms). }
  destruct (key_matches "exp" k) eqn:Ee.
  { rewrite He by done. cbn [set_float orb]. rewrite Hf, IH. unfold names. cbn.
    f_equal. f_equal. by destruct (existsb (λ m, key_matches "exp" m.1) ms). }
  cbn [orb]. by rewrite IH.
Qed.

Section lemmas.
Context {W : Type} `{Http W}.
Variable out_of_range : float64 → Z.

(** The request the validator sends. *)
Definition introspection_request (v : IntrospectionValidator) (accessToken : string)
    : HttpRequest :=
  {| req_Method := MethodPost; req_URL := Endpoint v;
     req_Header := [("Content-Type", "application/x-www-form-urlencoded")];
     req_BasicAuth := if bool_decide (iv_ClientID v = "") then None
                      else Some (iv_ClientID v, ClientSecret v);
     req_Body := "token=" +:+ QueryEscape accessToken |}.

Lemma Introspection_Validate_eq v accessToken w :
  Introspection_Validate out_of_range v accessToken w =
    match NewRequest_check MethodPost (Endpoint v) with
    | Err e => (Err (intro_err "build request" e), w)
    | Ok _ =>
      match Do (default DefaultClient (iv_HTTPClient v)) (introspection_request v accessToken) w with
      | (Err e, w') => (Err (intro_err "request" e), w')
      | (Ok resp, w') =>
        match resp_Body resp with
        | Err e => (Err (intro_err "read body" e), w')
        | Ok raw => (intro_identity out_of_range (StatusCode resp) raw, w')
        end
      end
    end.
Proof.
  unfold Introspection_Validate, NewRequest, mbind, eff_bind, lift, emap_err, result_bind.
  destruct (NewRequest_check _ _) as [u|e]; cbn [map_err]; [|done].
  match goal with |- context [match Do _ ?r w with _ => _ end] =>
    replace r with (introspection_request v accessToken) end.
  - destruct (Do _ _ w) as [[resp|e] w']; [|done].
    cbn [map_err]. by destruct (resp_Body resp).
  - unfold introspection_request. rewrite bool_decide_not.
    by destruct (bool_decide (iv_ClientID v = "")).
Qed.

Lemma intro_identity_Ok status raw id :
  intro_identity out_of_range status raw = Ok id ↔
  status = StatusOK ∧ ∃ ir, Unmarshal_introspection raw = Ok ir ∧ Active ir = true ∧
    id = {| Subject := ir_Subject ir; Claims := raw;
            Expiry := intro_expiry out_of_range (ir_Expiry ir) |}.
Proof.
  unfold intro_identity. destruct (Z.eqb_spec status StatusOK) as [->|]; cbn [negb];
    [|split; [done|tauto]].
  rewrite bind_Ok. setoid_rewrite map_err_Ok. split.
  - intros (ir & Hir & Hid). split; [done|]. exists ir. destruct (Active ir); by simplify_eq/=.
  - intros (_ & ir & Hir & Ha & ->). exists ir. by rewrite Ha.
Qed.

Lemma intro_identity_invalid status raw e :
  intro_identity out_of_range status raw = Err e →
  errors_Is e ErrTokenInvalid = true ↔
    status = StatusOK ∧ ∃ ir, Unmarshal_introspection raw = Ok ir ∧ Active ir = false.
Proof.
  unfold intro_identity. destruct (Z.eqb_spec status StatusOK) as [->|]; cbn [negb].
  - destruct (Unmarshal_introspection raw) as [ir|e'] eqn:E; cbn [map_err mbind result_bind].
    + destruct (Active ir) eqn:Ea; cbn [negb]; intros [= <-]. split; [eauto|done].
    + intros [= <-]. simpl. rewrite (Unmarshal_introspection_error _ _ _ E).
      split; [done|]. by intros (_ & ? & ? & _).
  - intros [= <-]. split; [done|tauto].
Qed.
Lemma intro_expiry_Z n :
  0 ≤ n < 2 ^ 53 →
  intro_expiry out_of_range (float_of_Z n) = if n =? 0 then zeroTime else Unix n.
Proof.
  intros Hn. unfold intro_expiry. destruct (Z.eqb_spec n 0) as [->|Hne]; [done|].
  rewrite float_of_Z_nonzero by lia. cbn [negb]. by rewrite int64_of_float_Z.
Qed.
End lemmas.

Section jwks_lemmas.
Context {W : Type} `{Jwx W}.

Lemma scan_keys_Ok keys :
  scan_keys keys = Ok () ↔ Exists (λ k, ∃ alg, k = Some alg ∧ alg ∈ allowedAlgorithms) keys.
Proof.
  induction keys as [|[alg|] keys IH]; simpl.
  - split; [done|]. by intros ?%Exists_nil.
  - rewrite Exists_cons. destruct (_ || _) eqn:E.
    + split; [|done]. intros _. left. exists alg. split; [done|].
      unfold allowedAlgorithms. rewrite !orb_true_iff, !bool_decide_eq_true in E. set_solver.
    + rewrite IH. split; [by right|]. intros [(a & [= <-] & Ha)|?]; [|done].
      rewrite !orb_false_iff, !bool_decide_eq_false in E. unfold allowedAlgorithms in Ha. set_solver.
  - rewrite IH, Exists_cons. split; [by right|]. by intros [(? & ? & _)|?].
Qed.

Lemma scan_keys_dec keys : scan_keys keys = Ok () ∨ ∃ e, scan_keys keys = Err e.
Proof. destruct (scan_keys keys) as [[]|]; eauto. Qed.
End jwks_lemmas.

(** ** Properties *)

Section properties.
Context {W : Type} `{Http W}.
Variable out_of_range : float64 → Z.

(** C22. Introspection accepts exactly the tokens the endpoint calls active.  The
    validator returns an identity if and only if the endpoint answered the one
    request it sends - a POST of the escaped token, authenticated when a
    client id is configured - with status 200 and a JSON object whose active
    member is true; the identity is that object's subject, expiry and raw text.
    And a failure is reported as an invalid token if and only if such an
    answer said the token is not active: transport failures, error statuses
    and undecodable bodies never are. *)
Theorem Introspection_Validate_spec v accessToken w :
  (∀ c r w e w', Do c r w = (Err e, w') → errors_Is e ErrTokenInvalid = false) →
  (∀ c r w resp w' e, Do c r w = (Ok resp, w') → resp_Body resp = Err e →
     errors_Is e ErrTokenInvalid = false) →
  (∀ m u e, NewRequest_check m u = Err e → errors_Is e ErrTokenInvalid = false) →
  let answered resp raw ir w' :=
    NewRequest_check MethodPost (Endpoint v) = Ok () ∧
    Do (default DefaultClient (iv_HTTPClient v)) (introspection_request v accessToken) w
      = (Ok resp, w') ∧
    StatusCode resp = StatusOK ∧ resp_Body resp = Ok raw ∧ Unmarshal_introspection raw = Ok ir in
  (∀ id w', Introspection_Validate out_of_range v accessToken w = (Ok id, w') ↔
     ∃ resp raw ir, answered resp raw ir w' ∧ Active ir = true ∧
       id = {| Subject := ir_Subject ir; Claims := raw;
               Expiry := intro_expiry out_of_range (ir_Expiry ir) |}) ∧
  (∀ e w', Introspection_Validate out_of_range v accessToken w = (Err e, w') →
     errors_Is e ErrTokenInvalid = true ↔
     ∃ resp raw ir, answered resp raw ir w' ∧ Active ir = false).
Proof.
  intros HDo Hbody Hnew answered. unfold answered. rewrite Introspection_Validate_eq.
  destruct (NewRequest_check _ _) as [[]|e0] eqn:En.
  2:{ split; [split; [done|by intros (? & ? & ? & (? & _) & _)]|].
      intros e w' [= <- <-]. simpl. rewrite (Hnew _ _ _ En). split; [done|].
      by intros (? & ? & ? & (? & _) & _). }
  destruct (Do _ _ w) as [[resp|e0] w0] eqn:Ed.
  2:{ split; [split; [done|by intros (? & ? & ? & (_ & ? & _) & _)]|].
      intros e w' [= <- <-]. simpl. rewrite (HDo _ _ _ _ _ Ed). split; [done|].
      by intros (? & ? & ? & (_ & ? & _) & _). }
  destruct (resp_Body resp) as [raw|e0] eqn:Eb.
  2:{ split; [split; [done|]; intros (? & ? & ? & (_ & [= <- <-] & _ & ? & _) & _); congruence|].
      intros e w' [= <- <-]. simpl. rewrite (Hbody _ _ _ _ _ _ Ed Eb). split; [done|].
      intros (? & ? & ? & (_ & [= <-] & _ & ? & _) & _). congruence. }
  split.
  - intros id w'. split.
    + intros [= Hid ->]. apply intro_identity_Ok in Hid as (Hs & ir & Hir & Ha & ->). by exists resp, raw, ir.
    + intros (resp' & raw' & ir & (_ & [= <- <-] & Hs & Hraw & Hir) & Ha & ->).
      rewrite Eb in Hraw. injection Hraw as <-. f_equal. apply intro_identity_Ok. eauto.
  - intros e w' [= He ->]. rewrite (intro_identity_invalid _ _ _ _ He). split.
    + intros (Hs & ir & Hir & Ha). by exists resp, raw, ir.
    + intros (resp' & raw' & ir & (_ & [= <-] & Hs & Hraw & Hir) & Ha).
      rewrite Eb in Hraw. injection Hraw as <-. eauto.
Qed.

(** The expiry of an introspected token: absent or zero means no expiry (the
    zero time), and every whole number of seconds up to 2^53 - the times a
    JSON number carries exactly - becomes exactly that Unix time, without
    loss in the float64 the field is decoded into. *)
Theorem intro_expiry_exact n :
  0 ≤ n < 2 ^ 53 →
  intro_expiry out_of_range (float_of_Z n) = if n =? 0 then zeroTime else Unix n.
Proof. apply intro_expiry_Z. Qed.

(** The response an object of these members decodes to. *)
Definition says_response (ms : members) (a : bool) (sub : string) (exp : N)
    : introspectionResponse :=
  {| Active := names "active" ms && a;
     ir_Subject := if names "sub" ms then sub else "";
     ir_Expiry := if names "exp" ms then float_of_Z (Z.of_N exp) else S754_zero false |}.

Lemma Unmarshal_says ms a sub exp :
  Forall good_member ms →
  only_says ms "active" (JBool a) → only_says ms "sub" (JStr sub) →
  only_says ms "exp" (JNum (pretty exp)) → Z.of_N exp < 2 ^ 53 →
  Unmarshal_introspection (print_object (map member_text ms)) = Ok (says_response ms a sub exp).
Proof.
  intros Hms Ha Hs He Hexp. unfold Unmarshal_introspection. rewrite parse_json_object by done.
  cbn [mbind result_bind].
  rewrite (decode_members_says ms _ a sub (pretty exp) _ Ha Hs He (ParseFloat_pretty exp Hexp)).
  unfold says_response. cbn [Active ir_Subject ir_Expiry emptyResponse].
  by destruct (names "active" ms).
Qed.

(** C23. What the authorization server says of a token is what the exchange acts on.
    When it answers with status 200 and a JSON object - members in any order,
    field names in any case, other members beside them - that says the token
    is active, the validator's identity has the object's subject, and expires
    at exactly its whole number of seconds (never, if there is none or it is
    zero); and the claims mapper reads from that identity the object's groups
    that are not blank and the scopes of its scope string.  When the object
    does not say that the token is active, the token is invalid. *)
Theorem introspection_roundtrip v accessToken w resp w' ms a sub exp groups scopes :
  NewRequest_check MethodPost (Endpoint v) = Ok () →
  Do (default DefaultClient (iv_HTTPClient v)) (introspection_request v accessToken) w
    = (Ok resp, w') →
  StatusCode resp = StatusOK → resp_Body resp = Ok (print_object (map member_text ms)) →
  Forall good_member ms →
  only_says ms "active" (JBool a) → only_says ms "sub" (JStr sub) →
  only_says ms "exp" (JNum (pretty exp)) → Z.of_N exp < 2 ^ 53 →
  members_map ms !! "groups" = Some (print_strings groups) → Forall plain groups →
  members_map ms !! "scope" = Some (print_string (Join " " scopes)) → Forall scope_token scopes →
  match Introspection_Validate out_of_range v accessToken w with
  | (Ok id, w1) =>
    w1 = w' ∧ names "active" ms = true ∧ a = true ∧
    Subject id = (if names "sub" ms then sub else "") ∧
    Expiry id = (if names "exp" ms && negb (N.eqb exp 0) then Unix (Z.of_N exp) else zeroTime) ∧
    Map {| GroupsClaim := "" |} id =
      Ok (Subject id, filter (λ g, TrimSpace g ≠ "") groups, scopes)
  | (Err e, w1) =>
    w1 = w' ∧ errors_Is e ErrTokenInvalid = true ∧ names "active" ms && a = false
  end.
Proof.
  intros Hnew Hdo Hst Hbody Hms Ha Hs He Hexp Hgl Hg Hsl Hsc.
  rewrite Introspection_Validate_eq, Hnew, Hdo, Hbody, Hst. unfold intro_identity.
  rewrite Z.eqb_refl. cbn [negb].
  rewrite (Unmarshal_says ms a sub exp) by done. cbn [map_err mbind result_bind].
  cbn [Active says_response].
  destruct (names "active" ms && a) eqn:Eact; cbn [negb]; [|done].
  apply andb_true_iff in Eact as [-> ->]. split_and!; try done.
  - cbn [Expiry ir_Expiry says_response]. destruct (names "exp" ms); [|done].
    rewrite intro_expiry_Z by lia. destruct exp; done.
  - by eapply Map_members.
Qed.
End properties.

Section jwks_properties.
Context {W : Type} `{Jwx W}.

(** C24. JWT validation: an identity is returned if and only if some key of the set
    has an allowed algorithm and the library verified the token against that
    same set under the configured issuer, audience and skew, and the identity
    is the verified token's.  Every failure is an invalid token; and a set
    without an allowed key rejects every token before the library sees it. *)
Theorem JWKS_Validate_spec v accessToken w keys w1 :
  Keys (keySet v) w = (keys, w1) →
  let allowed := Exists (λ k, ∃ alg, k = Some alg ∧ (alg = RS256 ∨ alg = ES256)) keys in
  let parse := jwt_Parse accessToken (keySet v) (clockSkew (cfg v))
                 (nonempty (issuer (cfg v))) (nonempty (audience (cfg v))) in
  (∀ id w', JWKS_Validate v accessToken w = (Ok id, w') ↔
     allowed ∧ ∃ tok claims, parse w1 = (Ok tok, w') ∧ json_Marshal_token tok = Ok claims ∧
       id = {| Subject := tok_Subject tok; Claims := claims; Expiry := tok_Expiration tok |}) ∧
  (∀ e w', JWKS_Validate v accessToken w = (Err e, w') → errors_Is e ErrTokenInvalid = true) ∧
  (¬ allowed → ∃ e, JWKS_Validate v accessToken w = (Err e, w1)).
Proof.
  intros Hkeys allowed parse.
  assert (allowed ↔ scan_keys keys = Ok ()) as Hal.
  { rewrite scan_keys_Ok. unfold allowed, allowedAlgorithms.
    split; (intros Hex; eapply Exists_impl; [exact Hex|]); intros k (alg & -> & Ha); exists alg; set_solver. }
  unfold JWKS_Validate, requireAllowedKeyAlg, mbind, eff_bind, emap_err, effect, lift, result_bind.
  rewrite Hkeys. setoid_rewrite Hal. fold parse.
  destruct (scan_keys_dec keys) as [Hs|[e0 Hs]]; rewrite Hs; cbn [map_err].
  - split_and!; [| |by intros []].
    + intros id w'. destruct (parse w1) as [[tok|e] w2]; cbn [map_err].
      * destruct (json_Marshal_token tok) as [claims|e] eqn:Em; cbn [map_err]; split.
        -- intros [= <- <-]. split; [done|]. by exists tok, claims.
        -- intros (_ & ? & ? & [= <- <-] & Hm & ->). rewrite Em in Hm. by injection Hm as <-.
        -- done.
        -- intros (_ & ? & ? & [= <- <-] & Hm & _). congruence.
      * split; [done|]. by intros (_ & ? & ? & ? & _).
    + intros e w'. destruct (parse w1) as [[tok|e1] w2]; cbn [map_err].
      * destruct (json_Marshal_token tok) as [claims|e1]; cbn [map_err]; by intros [= <- _].
      * by intros [= <- _].
  - split_and!; [|by intros e w' [= <- _]|by eauto].
    intros id w'. split; [done|]. by intros [? _].
Qed.
End jwks_properties.

(** ** Witnesses *)

(** An endpoint that knows one token. *)
Definition sample_body : bytes :=
  String "{" (print_string "active" +:+ ":true," +:+ print_string "sub" +:+ ":" +:+
    print_string "alice" +:+ "," +:+ print_string "exp" +:+ ":2000}").

Section samples.
#[local] Instance sample_http : Http unit := {
  HTTPClient := unit;
  DefaultClient := ();
  NewRequest_check _ _ := Ok ();
  Do _ r w := (Ok (if bool_decide (req_Body r = "token=t%26k")
                   then {| StatusCode := 200; resp_Body := Ok sample_body |}
                   else {| StatusCode := 401; resp_Body := Ok "" |}), w);
}.

Definition sample_introspection : IntrospectionValidator :=
  {| Endpoint := "https://as/introspect"; iv_ClientID := ""; ClientSecret := "";
     iv_HTTPClient := None |}.

Lemma Introspection_Validate_spec_witness :
  Introspection_Validate (λ _, 0) sample_introspection "t&k" () =
    (Ok {| Subject := "alice"; Claims := sample_body; Expiry := Unix 2000 |}, ()).
Proof.
  apply (Introspection_Validate_spec (λ _, 0) sample_introspection "t&k" ()).
  - done.
  - intros c r w resp w' e [= <- <-]. by case_bool_decide.
  - done.
  - eexists _, sample_body, {| Active := true; ir_Subject := "alice"; ir_Expiry := _ |}.
    split_and!; [reflexivity..|by vm_compute|by vm_compute|by vm_compute|done|by vm_compute].
Defined.
End samples.

(** An endpoint whose answer has the fields in its own order and case. *)
Definition sample_members : members :=
  [("scope", (print_string "s.read s.write", JStr "s.read s.write"));
   ("client_id", (print_string "app", JStr "app"));
   ("Active", ("true", JBool true));
   ("exp", (pretty 1800000000%N, JNum (pretty 1800000000%N)));
   ("groups", (print_strings ["mail-users"; " "], JArr [JStr "mail-users"; JStr " "]));
   ("sub", (print_string "alice", JStr "alice"))].

Section member_samples.
#[local] Instance members_http : Http unit := {
  HTTPClient := unit;
  DefaultClient := ();
  NewRequest_check _ _ := Ok ();
  Do _ _ w := (Ok {| StatusCode := 200;
                     resp_Body := Ok (print_object (map member_text sample_members)) |}, w);
}.

Definition members_introspection : IntrospectionValidator :=
  {| Endpoint := "https://as/introspect"; iv_ClientID := "c"; ClientSecret := "s";
     iv_HTTPClient := Some () |}.

Lemma introspection_roundtrip_witness :
  match Introspection_Validate (λ _, 0) members_introspection "t" () with
  | (Ok id, _) => Subject id = "alice" ∧ Expiry id = Unix 1800000000 ∧
      Map {| GroupsClaim := "" |} id = Ok ("alice", ["mail-users"], ["s.read"; "s.write"])
  | _ => False
  end.
Proof.
  pose proof (introspection_roundtrip (λ _, 0) members_introspection "t" () _ () sample_members
    true "alice" 1800000000 ["mail-users"; " "] ["s.read"; "s.write"] eq_refl eq_refl eq_refl eq_refl)
    as Hr.
  destruct (Introspection_Validate _ _ _ _) as [[id|e] w] eqn:E.
  - destruct Hr as (_ & _ & _ & Hs & He & Hm).
    + repeat constructor; first [apply reads_as_string | apply reads_as_strings | apply reads_as_N |
        apply reads_as_true]; repeat constructor.
    + repeat constructor; by intros ?%bool_decide_eq_true.
    + repeat constructor; done.
    + repeat constructor; done.
    + done.
    + by vm_compute.
    + repeat constructor.
    + by vm_compute.
    + repeat constructor; discriminate.
    + split_and!; [exact Hs|exact He|]. rewrite Hm, Hs. done.
  - apply (f_equal (λ r, is_ok r.1)) in E. by vm_compute in E.
Defined.
End member_samples.

Lemma intro_expiry_exact_witness :
  intro_expiry (λ _, 0) (float_of_Z 1800000000) = Unix 1800000000.
Proof. apply (intro_expiry_exact (λ _, 0) 1800000000). lia. Defined.

Section jwx_samples.
(** A library whose only key signs with ES256 and that verifies one token. *)
#[local] Instance sample_jwx : Jwx unit := {
  KeyAlgorithm := string;
  RS256 := "RS256";
  ES256 := "ES256";
  JwkCache := unit;
  JwkSet := unit;
  JwtToken := string;
  NewCache w := (Ok (), w);
  Register _ _ w := (Ok (), w);
  Refresh _ _ w := (Ok (), w);
  NewCachedSet _ _ := ();
  Keys _ w := ([None; Some "ES256"], w);
  jwt_Parse tok _ _ _ _ w :=
    (if bool_decide (tok = "good") then Ok "alice" else Err (External "bad signature"), w);
  json_Marshal_token tok := Ok (print_string tok);
  tok_Subject tok := tok;
  tok_Expiration _ := Unix 2000;
}.

Lemma JWKS_Validate_spec_witness :
  let v := {| keySet := (); cfg := {| issuer := ""; audience := ""; clockSkew := 0 |} |} in
  JWKS_Validate v "good" () =
    (Ok {| Subject := "alice"; Claims := print_string "alice"; Expiry := Unix 2000 |}, ()).
Proof.
  intros v. apply (JWKS_Validate_spec v "good" () [None; Some "ES256"] () eq_refl).
  split.
  - apply Exists_cons. right. apply Exists_cons. left. exists "ES256". by split; [|right].
  - by exists "alice", (print_string "alice").
Defined.
End jwx_samples.
