(* ===== verification/Service.v ===== *)
(** * Service: the exchange itself (resolver.go, service.go)

    [Service.Exchange] validates the token, looks in the cache, resolves the
    principals, mints a ticket and issues the credential.  It is written and
    proved against the interfaces of its parts; the state it runs on is the
    cache, if there is one, and the environment. *)
From S2P Require Import Prelude Errors GoText GoTime GoFloat GoJson GoUrl GoHttp Principal.
From S2P Require Import Request Krb5 Symbolic Credential Cache Claims Pac KeySource Minter Issue.
From S2P Require Import Validators.

(** ** resolver.go *)

Class Resolver (R W : Type) := {
  Resolve : R → Identity → ServicePrincipal → eff W (PrincipalName * string * ServicePrincipal);
}.

Record StaticResolver := {
  DefaultRealm : string;
}.

Section static.
Context `{Krb5Types} {W : Type}.

Definition StaticResolver_Resolve (r : StaticResolver) (id : Identity)
    (requested : ServicePrincipal) : eff W (PrincipalName * string * ServicePrincipal) :=
  let cname := {| NameType := KRB_NT_PRINCIPAL; NameString := [Subject id] |} in
  let target := {| Service := Service requested; Host := Host requested;
                   Realm := if bool_decide (Realm requested = "") then DefaultRealm r
                            else Realm requested |} in
  mret (cname, DefaultRealm r, target).

#[export] Instance StaticResolver_Resolver : Resolver StaticResolver W := {
  Resolve := StaticResolver_Resolve;
}.
End static.

(** ** service.go *)

(** The interface [Exchanger]. *)
Class Exchanger (X S : Type) := {
  Exchange : X → ExchangeRequest → eff S Credential;
}.

Section service.
Context `{Krb5} {W : Type} `{!Krb5Eff W} `{!Clock W}.
Context {V R M C : Type} `{!TokenValidator V W} `{!Resolver R W} `{!Minter M W} `{!Cache C W}.

Record ExchangeService := {
  svc_Validator : V;
  svc_Resolver : R;
  svc_Minter : M;
  MaxLifetime : Duration;
}.

(** The field [Cache] and what it points to, with the environment; [None] is
    a nil cache. *)
Definition svc_state : Type := option C * W.

Definition env {A} (m : eff W A) : eff svc_state A := λ '(c, w),
  let '(r, w') := m w in (r, (c, w')).

Definition cache_lookup (key : string) : eff svc_state (option Credential) := λ '(c, w),
  match c with
  | None => (Ok None, (None, w))
  | Some c => let '(r, c', w') := cache_Get key c w in (Ok r, (Some c', w'))
  end.

Definition cache_store (key : string) (cred : Credential) : eff svc_state unit := λ '(c, w),
  match c with
  | None => (Ok tt, (None, w))
  | Some c => let '(c', w') := cache_Put key cred c w in (Ok tt, (Some c', w'))
  end.

(** [end]: the token's expiry capped at the maximal lifetime. *)
Definition ticket_end (s : ExchangeService) (id : Identity) (now : Time) : Time :=
  let e := Expiry id in
  if 0 <? MaxLifetime s then
    let capT := Add now (MaxLifetime s) in
    if IsZero e || Before capT e then capT else e
  else e.

Definition mint_options (s : ExchangeService) (id : Identity) (cname : PrincipalName)
    (crealm : string) (now : Time) : MintOptions :=
  {| mo_ClientName := cname; mo_ClientRealm := crealm; mo_Identity := id; mo_AuthTime := now;
     mo_StartTime := zeroTime; mo_EndTime := ticket_end s id now; mo_RenewTill := zeroTime |}.

Definition Service_Exchange (s : ExchangeService) (req : ExchangeRequest)
    : eff svc_state Credential :=
  id ← env (Validate (svc_Validator s) (AccessToken req));
  let key := CacheKey (Subject id) (Target req) (Output req) in
  hit ← cache_lookup key;
  match hit with
  | Some c => mret c
  | None =>
    '(cname, crealm, target) ← env (Resolve (svc_Resolver s) id (Target req));
    now ← env (effect Now);
    mt ← env (Mint (svc_Minter s) target (mint_options s id cname crealm now));
    cred ← env (mt_Credential mt (Output req));
    _ ← cache_store key cred;
    mret cred
  end.

#[export] Instance ExchangeService_Exchanger : Exchanger ExchangeService svc_state := {
  Exchange := Service_Exchange;
}.

(** *** Lemmas *)

Lemma env_Ok {A} (m : eff W A) c w a st :
  env m (c, w) = (Ok a, st) ↔ ∃ w', m w = (Ok a, w') ∧ st = (c, w').
Proof.
  unfold env. destruct (m w) as [r w']. split.
  - intros [= -> <-]. eauto.
  - by intros (? & [= -> ->] & ->).
Qed.

Lemma env_Err {A} (m : eff W A) c w e st :
  env m (c, w) = (Err e, st) ↔ ∃ w', m w = (Err e, w') ∧ st = (c, w').
Proof.
  unfold env. destruct (m w) as [r w']. split.
  - intros [= -> <-]. eauto.
  - by intros (? & [= -> ->] & ->).
Qed.

Lemma cache_lookup_Ok key c w :
  ∃ r c' w', cache_lookup key (c, w) = (Ok r, (c', w')) ∧
    match c with
    | None => r = None ∧ c' = None ∧ w' = w
    | Some c0 => ∃ c0', c' = Some c0' ∧ cache_Get key c0 w = (r, c0', w')
    end.
Proof.
  unfold cache_lookup. destruct c as [c|].
  - destruct (cache_Get key c w) as [[r c'] w'] eqn:E. eexists _, _, _. split; eauto.
  - by eexists _, _, _.
Qed.

Lemma cache_store_Ok key cred c w :
  ∃ c' w', cache_store key cred (c, w) = (Ok (), (c', w')) ∧
    match c with
    | None => c' = None ∧ w' = w
    | Some c0 => ∃ c0', c' = Some c0' ∧ cache_Put key cred c0 w = (c0', w')
    end.
Proof.
  unfold cache_store. destruct c as [c|].
  - destruct (cache_Put key cred c w) as [c' w'] eqn:E. eexists _, _. split; eauto.
  - by eexists _, _.
Qed.

(** What minting and issuing for an identity and a request is. *)
Definition issued (s : ExchangeService) (req : ExchangeRequest) (id : Identity)
    (now : Time) (cred : Credential) : Prop :=
  ∃ cname crealm target mt w1 w2 w3 w4 w5 w6,
    Resolve (svc_Resolver s) id (Target req) w1 = (Ok (cname, crealm, target), w2) ∧
    Mint (svc_Minter s) target (mint_options s id cname crealm now) w3 = (Ok mt, w4) ∧
    mt_Credential mt (Output req) w5 = (Ok cred, w6).

(** A successful run: the credential was in the cache, or it was issued for
    this very identity and request at an instant of this run and stored. *)
Lemma Exchange_inv s req c0 w0 cred st :
  Service_Exchange s req (c0, w0) = (Ok cred, st) →
  ∃ id w1 hit c1 w2,
    Validate (svc_Validator s) (AccessToken req) w0 = (Ok id, w1) ∧
    cache_lookup (CacheKey (Subject id) (Target req) (Output req)) (c0, w1)
      = (Ok hit, (c1, w2)) ∧
    ((hit = Some cred ∧ st = (c1, w2)) ∨
     (hit = None ∧ ∃ names now w3 w4 w5,
        Resolve (svc_Resolver s) id (Target req) w2 = (Ok names, w3) ∧
        Now w3 = (now, w4) ∧ issued s req id now cred ∧
        cache_store (CacheKey (Subject id) (Target req) (Output req)) cred (c1, w5)
          = (Ok (), st))).
Proof.
  unfold Service_Exchange. intros Hrun.
  apply eff_bind_Ok in Hrun as (id & st1 & (w1 & Hv & ->)%env_Ok & Hrun).
  apply eff_bind_Ok in Hrun as (hit & [c1 w2] & Hl & Hrun).
  exists id, w1, hit, c1, w2. split_and!; [done..|].
  destruct hit as [c|].
  - apply ret_Ok in Hrun as [-> ->]. by left.
  - right. split; [done|].
    apply eff_bind_Ok in Hrun as ([[cname crealm] target] & st2 & (w3 & Hr & ->)%env_Ok & Hrun).
    apply eff_bind_Ok in Hrun as (now & st3 & (w4 & Hn & ->)%env_Ok & Hrun).
    apply (proj1 (effect_Ok _ _ _ _)) in Hn.
    apply eff_bind_Ok in Hrun as (mt & st4 & (w5 & Hm & ->)%env_Ok & Hrun).
    apply eff_bind_Ok in Hrun as (cr & st5 & (w6 & Hc & ->)%env_Ok & Hrun).
    apply eff_bind_Ok in Hrun as ([] & st6 & Hs & [-> ->]%ret_Ok).
    exists (cname, crealm, target), now, w3, w4, w6. split_and!; [done|done| |done].
    by exists cname, crealm, target, mt, w2, w3, w4, w5, w5, w6.
Qed.

(** A run that fails leaves in the cache what its one lookup left there. *)
Lemma Exchange_Err s req c0 w0 e st :
  Service_Exchange s req (c0, w0) = (Err e, st) →
  (∃ w', Validate (svc_Validator s) (AccessToken req) w0 = (Err e, w') ∧ st = (c0, w')) ∨
  (∃ id w1 w2, Validate (svc_Validator s) (AccessToken req) w0 = (Ok id, w1) ∧
     cache_lookup (CacheKey (Subject id) (Target req) (Output req)) (c0, w1)
       = (Ok None, (st.1, w2))).
Proof.
  unfold Service_Exchange, mbind, eff_bind.
  destruct (env (Validate _ _) (c0, w0)) as [[id|e0] st1] eqn:Ev.
  2:{ intros [= -> ->]. apply env_Err in Ev as (w' & ? & ->). left. eauto. }
  apply env_Ok in Ev as (w1 & Ev & ->).
  destruct (cache_lookup_Ok (CacheKey (Subject id) (Target req) (Output req)) c0 w1)
    as (hit & c1 & w2 & El & _). rewrite El.
  destruct hit as [c|]; [done|]. intros Hrun. right. exists id, w1, w2. split; [done|].
  rewrite El. do 2 f_equal. clear El Ev.
  destruct (env (Resolve _ _ _) (c1, w2)) as [[[[cname crealm] target]|e1] st2] eqn:Er.
  2:{ apply env_Err in Er as (? & _ & ->). by injection Hrun as _ <-. }
  apply env_Ok in Er as (w3 & _ & ->).
  destruct (env (effect Now) (c1, w3)) as [[now|e1] st3] eqn:En.
  2:{ apply env_Err in En as (? & _ & ->). by injection Hrun as _ <-. }
  apply env_Ok in En as (w4 & _ & ->).
  destruct (env (Mint _ _ _) (c1, w4)) as [[mt|e1] st4] eqn:Em.
  2:{ apply env_Err in Em as (? & _ & ->). by injection Hrun as _ <-. }
  apply env_Ok in Em as (w5 & _ & ->).
  destruct (env (mt_Credential _ _) (c1, w5)) as [[cr|e1] st5] eqn:Ec.
  2:{ apply env_Err in Ec as (? & _ & ->). by injection Hrun as _ <-. }
  apply env_Ok in Ec as (w6 & _ & ->).
  destruct (cache_store_Ok (CacheKey (Subject id) (Target req) (Output req)) cr c1 w6)
    as (c2 & w7 & Es & _). by rewrite Es in Hrun.
Qed.

(** *** Lifetimes *)

(** A clock reading in the present: in range, and far from the ends of int64. *)
Definition sane (now : Time) : Prop := Time_ok now ∧ 0 ≤ sec now ≤ 2 ^ 61.

Lemma ticket_end_instant s id now :
  Time_ok (Expiry id) → wall_only (Expiry id) → sane now → in_int64 (MaxLifetime s) →
  instant (ticket_end s id now) =
    (if 0 <? MaxLifetime s then
       if IsZero (Expiry id) then instant now + MaxLifetime s
       else Z.min (instant now + MaxLifetime s) (instant (Expiry id))
     else instant (Expiry id)).
Proof.
  intros He Hw [Hn Hs] Hm. unfold ticket_end.
  destruct (0 <? MaxLifetime s) eqn:Hpos; [|done].
  assert (minInt64 + 10 ^ 10 ≤ sec now ≤ maxInt64 - 10 ^ 10) as Hr
    by (unfold minInt64, maxInt64; lia).
  pose proof (instant_Add now (MaxLifetime s) Hn Hm Hr) as Hadd.
  destruct (IsZero (Expiry id)); cbn [orb]; [done|].
  pose proof (Before_instant (Add now (MaxLifetime s)) (Expiry id)
    (Add_ok _ _ Hn Hm Hr) He (or_intror Hw)) as Hb.
  destruct (Before _ _); [pose proof (proj1 Hb eq_refl); lia|].
  destruct (Z.le_gt_cases (instant (Expiry id)) (instant now + MaxLifetime s)); [lia|].
  rewrite <- Hadd in *. by discriminate (proj2 Hb ltac:(lia)).
Qed.

(** An end time that is after the clock reading is later on the wall clock. *)
Lemma ticket_end_after s id now :
  Time_ok (Expiry id) → wall_only (Expiry id) → sane now → in_int64 (MaxLifetime s) →
  After (ticket_end s id now) now = true → instant now < instant (ticket_end s id now).
Proof.
  intros He Hw [Hn Hs] Hm Ha.
  assert (ticket_end s id now = Expiry id ∨
          0 < MaxLifetime s ∧ ticket_end s id now = Add now (MaxLifetime s)) as [E|[Hpos E]].
  { unfold ticket_end. destruct (Z.ltb_spec 0 (MaxLifetime s)); [|by left].
    destruct (_ || _); [by right|by left]. }
  - rewrite E in *. by apply Before_instant; [..|right|].
  - rewrite E, instant_Add; [lia|done|done|unfold minInt64, maxInt64; lia].
Qed.

Context `{!MinterLaws M W}.

(** An issued credential names the ticket it was minted with. *)
Lemma issued_fields s req id now cred :
  issued s req id now cred →
  valid_output (Output req) ∧ cred_expiry cred = UTC (ticket_end s id now) ∧
  IsZero (ticket_end s id now) = false ∧ After (ticket_end s id now) now = true ∧
  ∃ cname crealm target w1 w2,
    Resolve (svc_Resolver s) id (Target req) w1 = (Ok (cname, crealm, target), w2) ∧
    cred_subject cred = match NameString cname with n :: _ => n | [] => "" end ∧
    (Realm target ≠ "" → cred_target cred = target).
Proof.
  intros (cname & crealm & target & mt & w1 & w2 & w3 & w4 & w5 & w6 & Hr & Hm & Hc).
  destruct (mt_Credential_fields _ _ _ _ _ Hc) as (Hv & Hs & Ht & He).
  destruct (Mint_fields _ _ _ _ _ _ Hm) as (Hn & _ & Htgt & _ & Hend & Hz & Ha).
  split_and!; [done|by rewrite He, Hend|done|done|].
  exists cname, crealm, target, w1, w2. split_and!; [done| |].
  - rewrite Hs. unfold mt_subject. by rewrite Hn.
  - intros Hne. by rewrite Ht, Htgt.
Qed.

(** *** Properties *)

(** C5. A freshly issued credential lives exactly as long as it may: it expires
    after the clock reading of the exchange, at the token's expiry or at the
    maximal lifetime from that reading, whichever is earlier; without a
    token expiry, at the maximal lifetime; and with neither there is no
    credential at all. *)
Theorem Exchange_lifetime s req c0 w0 cred st id w1 c1 w2 names w3 now w4 :
  Service_Exchange s req (c0, w0) = (Ok cred, st) →
  Validate (svc_Validator s) (AccessToken req) w0 = (Ok id, w1) →
  cache_lookup (CacheKey (Subject id) (Target req) (Output req)) (c0, w1)
    = (Ok None, (c1, w2)) →
  Resolve (svc_Resolver s) id (Target req) w2 = (Ok names, w3) → Now w3 = (now, w4) →
  Time_ok (Expiry id) → wall_only (Expiry id) → sane now → in_int64 (MaxLifetime s) →
  (0 < MaxLifetime s ∨ IsZero (Expiry id) = false) ∧
  let expiry := instant (cred_Expiry cred) in
  instant now < expiry ∧
  expiry = (if 0 <? MaxLifetime s then
              if IsZero (Expiry id) then instant now + MaxLifetime s
              else Z.min (instant now + MaxLifetime s) (instant (Expiry id))
            else instant (Expiry id)).
Proof.
  intros Hrun Hv Hl Hr Hn He Hw Hsane Hm.
  destruct (Exchange_inv _ _ _ _ _ _ Hrun) as (id' & w1' & hit & c1' & w2' & Hv' & Hl' & Hcase).
  rewrite Hv in Hv'. injection Hv' as <- <-. rewrite Hl in Hl'. injection Hl' as <- <- <-.
  destruct Hcase as [[? _]|(_ & names' & now' & w3' & w4' & w5 & Hr' & Hn' & Hi & _)]; [done|].
  rewrite Hr in Hr'. injection Hr' as <- <-. rewrite Hn in Hn'. injection Hn' as <- <-.
  apply issued_fields in Hi as (_ & Hexp & Hz & Ha & _). split.
  - destruct (Z.lt_ge_cases 0 (MaxLifetime s)); [by left|right].
    unfold ticket_end in Hz. by rewrite (proj2 (Z.ltb_ge _ _)) in Hz.
  - unfold cred_Expiry. rewrite Hexp, instant_UTC.
    split; [by apply ticket_end_after|by apply ticket_end_instant].
Qed.

(** C18. A failed exchange leaves nothing behind: every credential the cache may
    return afterwards, it could have returned before. *)
Theorem Exchange_error_no_store `{!CacheLaws C W} s req c0 w0 e st :
  Service_Exchange s req (Some c0, w0) = (Err e, st) →
  ∃ c1 w1, st = (Some c1, w1) ∧ ∀ k r, cache_holds c1 k r → cache_holds c0 k r.
Proof.
  intros [(w' & _ & ->)|(id & w1 & w2 & _ & Hl)]%Exchange_Err; [by eauto|].
  destruct st as [c1 w3].
  destruct (cache_lookup_Ok (CacheKey (Subject id) (Target req) (Output req)) (Some c0) w1)
    as (r & c' & w' & El & c0' & -> & Hg).
  rewrite Hl in El. injection El as _ -> _. exists c0', w3. split; [done|].
  intros k x. by eapply cache_Get_frame.
Qed.
End service.

Section memory.
Context `{Krb5} {W : Type} `{!Krb5Eff W} `{!Clock W}.
Context {V R M : Type} `{!TokenValidator V W} `{!Resolver R W} `{!Minter M W}.

(** What can happen between two exchanges that run one after the other: the
    environment moves on, and whole exchanges run - of any token, target and
    representation, failing or not - none of which reads the clock after
    [cred]'s expiry when it looks in the cache. *)
Inductive later (s : ExchangeService (V:=V) (R:=R) (M:=M)) (cred : Credential)
    : MemoryCache * W → MemoryCache * W → Prop :=
| later_refl st : later s cred st st
| later_env m w w' st : later s cred (m, w') st → later s cred (m, w) st
| later_exchange req r m w m1 w1 st :
    Service_Exchange s req (Some m, w) = (r, (Some m1, w1)) →
    (∀ id v, Validate (svc_Validator s) (AccessToken req) w = (Ok id, v) →
       Before (cred_Expiry cred) (Now v).1 = false) →
    later s cred (m1, w1) st → later s cred (m, w) st.

(** A [Get] keeps an entry that has not expired, and finds it under its key. *)
Lemma Get_keeps key key' cred m (w : W) r m' w' :
  MemoryCache_Get key' m w = (r, m', w') → store m !! key = Some cred →
  Before (cred_Expiry cred) (Now w).1 = false →
  store m' !! key = Some cred ∧ (key' = key → r = Some cred).
Proof.
  unfold MemoryCache_Get. intros Hg Hin Hb. destruct (decide (key' = key)) as [->|Hne].
  - rewrite Hin in Hg. destruct (Now w) as [now v]. cbn in Hb. rewrite Hb in Hg. by simplify_eq.
  - split; [|done]. destruct (store m !! key'); [|by simplify_eq].
    destruct (Now w), (Before _ _); simplify_eq; [|done]. cbn. by rewrite lookup_delete_ne.
Qed.

(** The lookup is the memory cache's [Get]. *)
Lemma memory_lookup key m (w : W) hit c1 w2 :
  cache_lookup key (Some m, w) = (Ok hit, (c1, w2)) →
  ∃ m1, c1 = Some m1 ∧ MemoryCache_Get key m w = (hit, m1, w2).
Proof.
  cbn. destruct (MemoryCache_Get key m w) as [[r m1] w1] eqn:E. intros; simplify_eq. eauto.
Qed.

(** An exchange that does not read the clock after the expiry of an entry
    keeps the entry: it finds it, or works under another key. *)
Lemma Exchange_keeps (s : ExchangeService (V:=V) (R:=R) (M:=M)) req r m w m1 w1 key cred :
  Service_Exchange s req (Some m, w) = (r, (Some m1, w1)) →
  (∀ id v, Validate (svc_Validator s) (AccessToken req) w = (Ok id, v) →
     Before (cred_Expiry cred) (Now v).1 = false) →
  store m !! key = Some cred → store m1 !! key = Some cred.
Proof.
  intros Hrun Hb Hin. destruct r as [c|e].
  - apply Exchange_inv in Hrun as (id & v & hit & c1 & w2 & Hv & Hl & Hcase).
    apply memory_lookup in Hl as (m' & -> & Hg).
    eapply Get_keeps in Hg as [Hk Hhit]; [|done|by eapply Hb].
    destruct Hcase as [[_ [= -> _]]|(-> & nms & nw & w5 & w6 & w7 & _ & _ & _ & Hst)]; [done|].
    cbn in Hst. injection Hst as <- _. cbn. rewrite lookup_insert_ne; [done|].
    intros E. by discriminate (Hhit E).
  - apply Exchange_Err in Hrun as [(w' & _ & [= -> _])|(id & v & w2 & Hv & Hl)]; [done|].
    apply memory_lookup in Hl as (m' & [= <-] & Hg).
    eapply Get_keeps in Hg as [Hk _]; [done..|by eapply Hb].
Qed.

Lemma later_keeps s cred key st st' :
  later s cred st st' → store st.1 !! key = Some cred → store st'.1 !! key = Some cred.
Proof.
  induction 1 as [| |req r m w m1 w1 st Hrun Hb _ IH]; [done..|].
  intros Hin. apply IH. by eapply Exchange_keeps.
Qed.

(** The cache after an exchange holds what the exchange returned. *)
Lemma Exchange_stores (s : ExchangeService (V:=V) (R:=R) (M:=M)) req m0 w0 cred m1 w1 id v :
  Service_Exchange s req (Some m0, w0) = (Ok cred, (Some m1, w1)) →
  Validate (svc_Validator s) (AccessToken req) w0 = (Ok id, v) →
  store m1 !! CacheKey (Subject id) (Target req) (Output req) = Some cred.
Proof.
  intros Hrun Hv. apply Exchange_inv in Hrun as (id0 & x1 & hit & c1 & x2 & Hv0 & Hl & Hcase).
  rewrite Hv in Hv0. injection Hv0 as <- <-.
  apply memory_lookup in Hl as (m' & -> & Hg).
  destruct Hcase as [[-> [= <- _]]|(-> & nms & nw & w5 & w6 & w7 & _ & _ & _ & Hst)].
  - unfold MemoryCache_Get in Hg.
    destruct (store m0 !! _) as [c|] eqn:E; [|done].
    destruct (Now v) as [nw ww], (Before (cred_Expiry c) nw); by simplify_eq.
  - cbn in Hst. injection Hst as <- _. apply lookup_insert_eq.
Qed.

(** C19. Caching, for exchanges that run one after the other: once an exchange has
    returned a credential, then however many exchanges of whatever requests
    run after it, a request for the same target and representation with any
    token of the same subject gets that very credential, from the cache as it
    is and without minting, until the credential has expired.  Nothing else
    of the later token - its scopes, its groups, its expiry - plays a part.
    Exchanges that overlap are outside the claim: a concurrent miss of the
    same key stores its own credential over the entry. *)
Theorem Exchange_caches (s : ExchangeService (V:=V) (R:=R) (M:=M)) req req' m0 w0 cred m1 w1
    id v1 m2 w2 id' w3 now w4 :
  Service_Exchange s req (Some m0, w0) = (Ok cred, (Some m1, w1)) →
  Validate (svc_Validator s) (AccessToken req) w0 = (Ok id, v1) →
  later s cred (m1, w1) (m2, w2) →
  Validate (svc_Validator s) (AccessToken req') w2 = (Ok id', w3) →
  Subject id' = Subject id → Target req' = Target req → Output req' = Output req →
  Now w3 = (now, w4) → Before (cred_Expiry cred) now = false →
  Service_Exchange s req' (Some m2, w2) = (Ok cred, (Some m2, w4)).
Proof.
  intros Hrun Hv Hlater Hv' Hs Ht Ho Hnow Hb.
  pose proof (later_keeps _ _ _ _ _ Hlater (Exchange_stores _ _ _ _ _ _ _ _ _ Hrun Hv)) as Hin.
  unfold Service_Exchange, mbind, eff_bind, env. rewrite Hv', Hs, Ht, Ho.
  cbn in *. unfold MemoryCache_Get. by rewrite Hin, Hnow, Hb.
Qed.
End memory.

(** ** What a service grants to the holder of a credential *)

Definition to_option {A} (r : result A) : option A :=
  match r with Ok a => Some a | Err _ => None end.

Section grants.
Context `{Krb5} `{!Acceptor}.

(** The group RIDs a service that holds [skey] reads from the ticket of a
    ccache credential, when its PAC verifies. *)
Definition granted_rids (skey kdcKey : EncryptionKey) (c : Credential) : option (list Z) :=
  cc ← to_option (cred_CCache c);
  '(_, entries) ← Unmarshal_CCache cc;
  entry ← head entries;
  t ← Unmarshal_Ticket (cc_Ticket entry);
  plain ← DecryptEncPart (EncPart t) skey KDC_REP_TICKET;
  pac ← to_option (extractPAC plain);
  '(kvi, _) ← VerifyPAC pac skey kdcKey;
  Some (pac_rids kvi).

Context {W : Type} `{!Krb5Eff W} `{!AcceptorLaws W} `{!Clock W}.
Context {V R K C : Type} `{!TokenValidator V W} `{!Resolver R W} `{!KeySource K} `{!Cache C W}.

(** What a ccache issued from a minted ticket grants. *)
Lemma granted_minted (m : DirectMinter (K:=K)) b spn opts w mt w1 w2 cred w3 cc :
  pacBuilder m = Some b →
  DirectMinter_Mint m spn opts w = (Ok mt, w1) →
  mt_Credential mt OutputCCache w2 = (Ok cred, w3) → cred_CCache cred = Ok cc →
  ∃ skey kvno kdcKey kdcKvno kvi ci,
    ServiceKey (dm_keys m) spn AES256_CTS_HMAC_SHA1_96 = Ok (skey, kvno) ∧
    KDCSigningKey (dm_keys m) AES256_CTS_HMAC_SHA1_96 = Ok (kdcKey, kdcKvno) ∧
    b (mo_Identity opts) (UTC (mo_AuthTime opts)) = Ok (kvi, ci) ∧
    granted_rids skey kdcKey cred = Some (pac_rids kvi).
Proof.
  intros Hb Hm Hc Hcc.
  destruct (minted_pac _ _ _ _ _ _ Hm) as (skey & kvno & plain & etp & Hk & Hd & _ & Hp).
  rewrite Hb in Hp. destruct Hp as (kvi & ci & kdcKey & kdcKvno & pac & Hbuild & Hkdc & Hx & Hv).
  apply mt_Credential_inv in Hc as [(_ & _ & cc' & Hmar & ->)|(? & _)]; [|done].
  destruct (MarshalCCache_entry _ _ Hmar) as (p & c & Hu & Ht).
  exists skey, kvno, kdcKey, kdcKvno, kvi, ci. split_and!; [done..|].
  unfold granted_rids. rewrite Hcc. apply cred_CCache_Ok in Hcc as [<- _].
  cbn [to_option mbind option_bind cred_ccache NewCredential]. rewrite Hu.
  cbn [mbind option_bind head]. rewrite Ht. cbn [mbind option_bind]. rewrite Hd.
  cbn [mbind option_bind]. rewrite Hx. cbn [to_option mbind option_bind]. by rewrite Hv.
Qed.

(** C7. End to end, a fresh credential grants what its token admits and nothing
    else.  When the minter builds synthetic PACs, the service that receives the
    ticket of a newly issued ccache verifies the PAC under its own and the KDC's
    key and reads from it exactly the primary group and the groups of the
    token that its scopes admit. *)
Theorem Exchange_grants_admitted (s : ExchangeService (V:=V) (R:=R) (M:=DirectMinter (K:=K))) b
    req (c0 : option C) w0 cred st id w1 c1 w2 cc subject groups scopes :
  pacBuilder (svc_Minter s) = Some (Build b) →
  Service_Exchange s req (c0, w0) = (Ok cred, st) →
  Validate (svc_Validator s) (AccessToken req) w0 = (Ok id, w1) →
  cache_lookup (CacheKey (Subject id) (Target req) (Output req)) (c0, w1) = (Ok None, (c1, w2)) →
  cred_CCache cred = Ok cc →
  build_mapper b id = Ok (subject, groups, scopes) →
  ∃ w3 cname crealm target w4 skey kvno kdcKey kdcKvno rids,
    Resolve (svc_Resolver s) id (Target req) w3 = (Ok (cname, crealm, target), w4) ∧
    ServiceKey (dm_keys (svc_Minter s)) target AES256_CTS_HMAC_SHA1_96 = Ok (skey, kvno) ∧
    KDCSigningKey (dm_keys (svc_Minter s)) AES256_CTS_HMAC_SHA1_96 = Ok (kdcKey, kdcKvno) ∧
    granted_rids skey kdcKey cred = Some rids ∧
    ∀ rid, rid ∈ rids ↔ rid = DefaultPrimaryGroupRID b ∨
      ∃ g, g ∈ build_admitted b scopes groups ∧ rid = groupRID b g.
Proof.
  intros Hb Hrun Hv Hl Hcc Hmap.
  destruct (Exchange_inv _ _ _ _ _ _ Hrun) as (id' & w1' & hit & c1' & w2' & Hv' & Hl' & Hcase).
  rewrite Hv in Hv'. injection Hv' as <- <-. rewrite Hl in Hl'. injection Hl' as <- <- <-.
  destruct Hcase as [[? _]|(_ & _ & now & _ & _ & _ & _ & _ & Hi & _)]; [done|].
  destruct Hi as (cname & crealm & target & mt & w3 & w4 & w5 & w6 & w7 & w8 & Hr & Hm & Hc).
  assert (Output req = OutputCCache) as Ho.
  { apply mt_Credential_inv in Hc as [[? _]|(_ & ap & _ & ->)]; [done|]. by cbn in Hcc. }
  rewrite Ho in Hc.
  destruct (granted_minted _ _ _ _ _ _ _ _ _ _ _ Hb Hm Hc Hcc)
    as (skey & kvno & kdcKey & kdcKvno & kvi & ci & Hk & Hkdc & Hbuild & Hg).
  exists w3, cname, crealm, target, w4, skey, kvno, kdcKey, kdcKvno, (pac_rids kvi).
  split_and!; [done..|]. intros rid.
  destruct (Build_groups _ _ _ _ _ Hbuild) as (? & ? & ? & Hmap' & Hgr & _).
  cbn [mo_Identity mint_options] in Hmap'. rewrite Hmap in Hmap'. injection Hmap' as <- <- <-.
  unfold pac_rids. rewrite Hgr.
  destruct (primary_spec b (build_admitted b scopes groups)) as (_ & _ & Hs & _).
  rewrite Hs, list_elem_of_fmap. naive_solver.
Qed.
End grants.

(** ** When an exchange succeeds *)

Section liveness.
Context `{Krb5} {W : Type} `{!Krb5Eff W} `{!Clock W}.
Context {V K C : Type} `{!TokenValidator V W} `{!KeySource K} `{!Cache C W}.

(** The libraries and the entropy source do their work for a key. *)
Record library_works (skey : EncryptionKey) (kvno : Z) (et : Etype) : Prop := {
  works_etype : GetEtype (KeyType skey) = Ok et;
  works_session (w : W) : ∃ k w', GenerateEncryptionKey et w = (Ok k, w');
  works_marshal etp : etp_utc etp →
    Forall representable [etp_AuthTime etp; etp_StartTime etp; etp_EndTime etp; etp_RenewTill etp] →
    ∃ b, Marshal_EncTicketPart etp = Ok b;
  works_encrypt b (w : W) : ∃ ed w', GetEncryptedData b skey KDC_REP_TICKET kvno w = (Ok ed, w');
  works_ticket t : ∃ b, Ticket_Marshal t = Ok b;
  works_ccache c : ∃ b, CCache_Marshal c = Ok b;
  works_authenticator r n (w : W) : ∃ a w', NewAuthenticator r n w = (Ok a, w');
  works_apreq t k a (w : W) : ∃ ap w', NewAPReq t k a w = (Ok ap, w');
  works_apreq_marshal ap : ∃ b, APReq_Marshal ap = Ok b;
}.

Lemma mt_Credential_succeeds skey kvno et mt o (w : W) :
  library_works skey kvno et → valid_output o → ∃ c w', mt_Credential mt o w = (Ok c, w').
Proof.
  intros Hw [-> | ->]; unfold mt_Credential.
  - change (OutputCCache =? OutputCCache) with true. cbv iota.
    unfold MarshalCCache. destruct (works_ticket _ _ _ Hw (mt_Ticket mt)) as (t & Ht).
    rewrite Ht. cbn [mbind result_bind].
    match goal with |- context [CCache_Marshal ?c] => destruct (works_ccache _ _ _ Hw c) as (b & ->) end.
    by do 2 eexists.
  - change (OutputAPReq =? OutputCCache) with false. change (OutputAPReq =? OutputAPReq) with true.
    cbv iota. unfold MarshalAPReqToken, mbind, eff_bind, emap_err, lift.
    destruct (works_authenticator _ _ _ Hw (mt_ClientRealm mt) (mt_ClientName mt) w) as (a & w1 & ->).
    cbn [map_err].
    destruct (works_apreq _ _ _ Hw (mt_Ticket mt) (mt_SessionKey mt) a w1) as (ap & w2 & ->).
    cbn [map_err]. destruct (works_apreq_marshal _ _ _ Hw ap) as (b & ->). by do 2 eexists.
Qed.

(** A token that is still valid, or that has no expiry, gets an end time after
    the clock reading when lifetimes are capped. *)
Lemma ticket_end_live {R M} `{!Resolver R W} `{!Minter M W}
    (s : ExchangeService (V:=V) (R:=R) (M:=M)) id now :
  Time_ok (Expiry id) → wall_only (Expiry id) → sane now → in_int64 (MaxLifetime s) →
  0 < MaxLifetime s → IsZero (Expiry id) = true ∨ instant now < instant (Expiry id) →
  After (ticket_end s id now) now = true.
Proof.
  intros He Hwall [Hn Hs] Hm Hpos Hlive.
  assert (minInt64 + 10 ^ 10 ≤ sec now ≤ maxInt64 - 10 ^ 10) as Hr
    by (unfold minInt64, maxInt64; lia).
  pose proof (Add_After now (MaxLifetime s) Hn Hm Hpos Hr) as Hcap.
  unfold ticket_end. rewrite (proj2 (Z.ltb_lt _ _)) by done.
  destruct (IsZero (Expiry id)) eqn:Hz; cbn [orb]; [done|].
  destruct (Before _ _); [done|]. destruct Hlive as [?|Hlive]; [done|].
  apply Before_instant; [done|done|by right|done].
Qed.

(** C6. The service delivers.  For a validated token that is still valid (or has
    no expiry), a supported representation, a target the keytab has a key
    for, and a PAC that can be made, an exchange under a positive lifetime
    cap returns a credential - from the cache or freshly minted - unless the
    entropy source or one of the encoders fails; no other guard of the code
    stands in the way. *)
Theorem Exchange_succeeds
    (s : ExchangeService (V:=V) (R:=StaticResolver) (M:=DirectMinter (K:=K)))
    req (c0 : option C) w0 id w1 hit c1 w2 now w3 skey kvno et ad :
  Validate (svc_Validator s) (AccessToken req) w0 = (Ok id, w1) →
  cache_lookup (CacheKey (Subject id) (Target req) (Output req)) (c0, w1) = (Ok hit, (c1, w2)) →
  Now w2 = (now, w3) → valid_output (Output req) →
  Time_ok (Expiry id) → wall_only (Expiry id) → sane now →
  in_int64 (MaxLifetime s) → 0 < MaxLifetime s →
  IsZero (Expiry id) = true ∨ instant now < instant (Expiry id) →
  representable now → representable (ticket_end s id now) →
  ServiceKey (dm_keys (svc_Minter s))
    (resolve_realm (DefaultRealm (svc_Resolver s)) (Target req)) AES256_CTS_HMAC_SHA1_96
    = Ok (skey, kvno) →
  mint_authdata (svc_Minter s) id (UTC now) skey = Ok ad →
  library_works skey kvno et →
  ∃ cred st, Service_Exchange s req (c0, w0) = (Ok cred, st).
Proof.
  intros Hv Hl Hnow Ho He Hwall Hsane Hm Hpos Hlive Hrn Hre Hk Had Hw.
  pose proof (ticket_end_live s id now He Hwall Hsane Hm Hpos Hlive) as Hafter.
  assert (IsZero (ticket_end s id now) = false) as Hz.
  { pose proof (ticket_end_after s id now He Hwall Hsane Hm Hafter) as Hlt.
    destruct Hsane as [[Hns _ _] Hsec]. destruct (IsZero (ticket_end s id now)) eqn:Hz; [|done].
    unfold IsZero in Hz. unfold instant, Second in *. lia. }
  unfold Service_Exchange, mbind, eff_bind, env. rewrite Hv, Hl.
  destruct hit as [c|]; [by do 2 eexists|].
  cbn [Resolve StaticResolver_Resolver]. unfold StaticResolver_Resolve, mret, eff_ret, effect.
  rewrite Hnow. fold (resolve_realm (DefaultRealm (svc_Resolver s)) (Target req)).
  edestruct (Mint_succeeds (svc_Minter s)
    (resolve_realm (DefaultRealm (svc_Resolver s)) (Target req))
    (mint_options s id {| NameType := KRB_NT_PRINCIPAL; NameString := [Subject id] |}
       (DefaultRealm (svc_Resolver s)) now) w3 skey kvno et ad)
    as (mt & w4 & Hmint); [exact Hz|exact Hafter|exact Hk|
      by eapply works_etype|exact Had| |by eapply works_session|by eapply works_marshal|
      intros; by eapply works_encrypt|].
  { cbn. rewrite !Forall_cons. split_and!; done. }
  cbn [Mint DirectMinter_Minter]. rewrite Hmint.
  destruct (mt_Credential_succeeds _ _ _ mt (Output req) w4 Hw Ho) as (c & w5 & ->).
  destruct (cache_store_Ok (CacheKey (Subject id) (Target req) (Output req)) c c1 w5)
    as (c2 & w6 & -> & _).
  by do 2 eexists.
Qed.
End liveness.

(** ** A sample service *)

(** Unix time of the sample world's clock. *)
Definition sample_now : Z := 63000000000 - unixToInternal.

Definition wide_id : Identity :=
  {| Subject := "alice"; Claims := sample_claims ["mail"; "files"]; Expiry := Unix (sample_now + 3600) |}.
Definition narrow_id : Identity :=
  {| Subject := "alice"; Claims := sample_claims ["mail"]; Expiry := Unix (sample_now + 600) |}.

Definition sample_validate (tok : string) : eff SymWorld Identity :=
  if bool_decide (tok = "wide") then mret wide_id
  else if bool_decide (tok = "narrow") then mret narrow_id
  else fail (Errorf [Fw ErrTokenInvalid; Lit ": token not active"]).

Definition sample_service : ExchangeService (V:=DelegatedValidator (W:=SymWorld))
    (R:=StaticResolver) (M:=DirectMinter (K:=KeytabSource)) :=
  {| svc_Validator := {| ValidateFunc := Some sample_validate |};
     svc_Resolver := {| DefaultRealm := "R" |};
     svc_Minter := sample_minter;
     MaxLifetime := 7200 * Second |}.

Definition sample_request (tok : string) (o : OutputType) : ExchangeRequest :=
  {| AccessToken := tok; Target := imap_h; Output := o |}.

Definition sample_exchange (tok : string) : eff (svc_state (C:=MemoryCache) (W:=SymWorld)) Credential :=
  Service_Exchange sample_service (sample_request tok OutputCCache).

Definition empty_state : svc_state (C:=MemoryCache) (W:=SymWorld) := (Some NewMemoryCache, sample_world).

Definition sample_kdcKey : @EncryptionKey sym_types := (18, 7).

(** C16. The cache defeats least privilege and expiry: after an exchange of a wide
      token, a narrow token of the same subject - fewer scopes, earlier expiry -
      gets the wide token's credential.  Its ticket grants the group the narrow
      token's scopes refuse, and it expires later than the narrow token; with
      an empty cache the same narrow token gets neither. *)
Theorem Exchange_exceeds_token :
  ∃ cred fresh st st' st0,
    sample_exchange "wide" empty_state = (Ok cred, st) ∧
    sample_exchange "narrow" st = (Ok cred, st') ∧
    sample_exchange "narrow" empty_state = (Ok fresh, st0) ∧
    instant (cred_Expiry cred) > instant (Expiry narrow_id) ∧
    instant (cred_Expiry fresh) = instant (Expiry narrow_id) ∧
    granted_rids sample_skey sample_kdcKey cred = Some [513; ridFromName "mail-users"; 2000] ∧
    granted_rids sample_skey sample_kdcKey fresh = Some [513; ridFromName "mail-users"].
Proof.
  assert (match sample_exchange "wide" empty_state, sample_exchange "narrow" empty_state with
          | (Ok cred, st), (Ok fresh, _) =>
              bool_decide (to_option (sample_exchange "narrow" st).1 = Some cred) &&
              (instant (Expiry narrow_id) <? instant (cred_Expiry cred)) &&
              (instant (cred_Expiry fresh) =? instant (Expiry narrow_id)) &&
              bool_decide (granted_rids sample_skey sample_kdcKey cred =
                           Some [513; ridFromName "mail-users"; 2000]) &&
              bool_decide (granted_rids sample_skey sample_kdcKey fresh =
                           Some [513; ridFromName "mail-users"])
          | _, _ => false
          end = true) as Hc by by vm_compute.
  destruct (sample_exchange "wide" empty_state) as [[cred|e] st]; [|done].
  destruct (sample_exchange "narrow" empty_state) as [[fresh|e] st0]; [|done].
  rewrite !andb_true_iff, !bool_decide_eq_true, Z.ltb_lt, Z.eqb_eq in Hc.
  destruct Hc as ((((Hr & Hlt) & Heq) & Hg) & Hg0).
  destruct (sample_exchange "narrow" st) as [[c|e] st'] eqn:E; simplify_eq/=.
  exists cred, fresh, st, st', st0. split_and!; [done|done|done|lia|done|done|done].
Qed.

(** A validator of two tokens, one of them of a subject that holds a NUL byte. *)
Definition nul_validate (tok : string) : eff SymWorld Identity :=
  mret {| Subject := if bool_decide (tok = "victim") then "alice" +:+ NUL +:+ "smtp" else "alice";
          Claims := sample_claims ["mail"]; Expiry := Unix (sample_now + 3600) |}.

Definition nul_exchange (tok : string) (target : ServicePrincipal)
    : eff (svc_state (C:=MemoryCache) (W:=SymWorld)) Credential :=
  Service_Exchange {| svc_Validator := {| ValidateFunc := Some nul_validate |};
                      svc_Resolver := svc_Resolver sample_service;
                      svc_Minter := svc_Minter sample_service;
                      MaxLifetime := MaxLifetime sample_service |}
    {| AccessToken := tok; Target := target; Output := OutputCCache |}.

(** A target the parser accepts and the keytab has no key for. *)
Definition nul_target : ServicePrincipal :=
  {| Service := "smtp" +:+ NUL +:+ "imap"; Host := "h"; Realm := "" |}.

(** C17. Isolation needs its hypothesis.  When a subject can hold a NUL byte, another
    user is handed that subject's credential: after the exchange of the subject
    "alice NUL smtp" for imap/h, a request of "alice" for the principal
    "smtp NUL imap/h" - which the parser accepts, and for which she would get
    an error otherwise - returns that very credential from the cache, with
    the other subject's name and groups. *)
Theorem Exchange_leaks_through_nul :
  ∃ cred st st' e st0,
    nul_exchange "victim" imap_h empty_state = (Ok cred, st) ∧
    nul_exchange "alice" nul_target st = (Ok cred, st') ∧
    nul_exchange "alice" nul_target empty_state = (Err e, st0) ∧
    cred_Subject cred = "alice" +:+ NUL +:+ "smtp" ∧ Service (cred_Target cred) = "imap" ∧
    ParseServicePrincipal (SPN_String nul_target) = Ok nul_target ∧
    granted_rids sample_skey sample_kdcKey cred = Some [513; ridFromName "mail-users"].
Proof.
  assert (match nul_exchange "victim" imap_h empty_state with
          | (Ok cred, st) =>
              bool_decide (to_option (nul_exchange "alice" nul_target st).1 = Some cred) &&
              negb (is_ok (nul_exchange "alice" nul_target empty_state).1) &&
              bool_decide (cred_Subject cred = "alice" +:+ NUL +:+ "smtp") &&
              bool_decide (Service (cred_Target cred) = "imap") &&
              bool_decide (granted_rids sample_skey sample_kdcKey cred =
                           Some [513; ridFromName "mail-users"])
          | _ => false
          end = true) as Hc by by vm_compute.
  destruct (nul_exchange "victim" imap_h empty_state) as [[cred|e] st]; [|done].
  rewrite !andb_true_iff, !bool_decide_eq_true in Hc. destruct Hc as ((((Hr & Hn) & Hs) & Ht) & Hg).
  destruct (nul_exchange "alice" nul_target st) as [[c|e] st'] eqn:E; [|discriminate Hr].
  injection Hr as ->.
  destruct (nul_exchange "alice" nul_target empty_state) as [[c|e] st0] eqn:E0; [done|].
  exists cred, st, st', e, st0.
  split_and!; [reflexivity|exact E|reflexivity|exact Hs|exact Ht|by vm_compute|exact Hg].
Qed.

(** ** Witnesses *)

Lemma sample_expiry n : Time_ok (Unix n) ∧ wall_only (Unix n).
Proof. split; [apply Unix_ok|done]. Qed.

Lemma sample_now_sane : sane (fst (Now sample_world)).
Proof.
  unfold sample_world. cbn [Now sym_clock fst sw_clock].
  split; [constructor|]; cbn [sec nsec mono];
    unfold in_int64, minInt64, maxInt64, wallToInternal, maxWall, Second; [lia| |intros m [= <-]|];
    unfold sym_boot; lia.
Qed.

Lemma Exchange_lifetime_witness :
  match sample_exchange "narrow" empty_state with
  | (Ok cred, _) => instant (cred_Expiry cred) = instant (Expiry narrow_id)
  | _ => False
  end.
Proof.
  assert (is_ok (sample_exchange "narrow" empty_state).1 = true) as Hc by by vm_compute.
  destruct (sample_exchange "narrow" empty_state) as [[cred|e] st] eqn:E; [|done].
  set (now := fst (Now sample_world)).
  destruct (Exchange_lifetime sample_service (sample_request "narrow" OutputCCache) (Some NewMemoryCache)
    sample_world cred st narrow_id sample_world (Some NewMemoryCache) sample_world
    ({| NameType := 1; NameString := ["alice"] |}, "R",
     {| Service := "imap"; Host := "h"; Realm := "R" |}) sample_world now (snd (Now sample_world)))
    as (_ & _ & ->); [exact E|reflexivity|reflexivity|reflexivity|reflexivity|
      apply sample_expiry|apply sample_expiry|exact sample_now_sane|by vm_compute|by vm_compute].
Defined.

Lemma sample_library_works : library_works (W:=SymWorld) sample_skey 3 18.
Proof. constructor; intros; by repeat eexists. Qed.

Lemma Exchange_succeeds_witness :
  ∃ cred st, sample_exchange "narrow" empty_state = (Ok cred, st).
Proof.
  destruct (mint_authdata sample_minter narrow_id (UTC (fst (Now sample_world))) sample_skey)
    as [ad|e] eqn:Ead; [|apply (f_equal is_ok) in Ead; by vm_compute in Ead].
  apply (Exchange_succeeds sample_service (sample_request "narrow" OutputCCache)
    (Some NewMemoryCache) sample_world narrow_id sample_world None (Some NewMemoryCache) sample_world
    (fst (Now sample_world)) (snd (Now sample_world)) sample_skey 3 18 ad);
    [reflexivity..|by left|apply sample_expiry|apply sample_expiry|exact sample_now_sane|
     by vm_compute|by vm_compute|right; by vm_compute|by vm_compute|by vm_compute|reflexivity|
     exact Ead|exact sample_library_works].
Defined.

Lemma Exchange_error_no_store_witness :
  ∃ e c1 w1, sample_exchange "stolen" empty_state = (Err e, (Some c1, w1)) ∧
    ∀ k r, cache_holds (W:=SymWorld) c1 k r → cache_holds (W:=SymWorld) NewMemoryCache k r.
Proof.
  destruct (sample_exchange "stolen" empty_state) as [[cred|e] st] eqn:E.
  - apply (f_equal (λ r, is_ok r.1)) in E. by vm_compute in E.
  - destruct (Exchange_error_no_store _ _ _ _ _ _ E) as (c1 & w1 & -> & H). by exists e, c1, w1.
Defined.

(** The credential of the first exchange, after the same user fetched another
    representation and an unknown token was refused. *)
Lemma Exchange_caches_witness :
  match sample_exchange "wide" empty_state with
  | (Ok cred, st) =>
    ∃ m w, (sample_exchange "stolen"
              (Service_Exchange sample_service (sample_request "wide" OutputAPReq) st).2).2
             = (Some m, w) ∧
      ∃ w', sample_exchange "narrow" (Some m, w) = (Ok cred, (Some m, w'))
  | _ => False
  end.
Proof.
  set (other := Service_Exchange sample_service (sample_request "wide" OutputAPReq)).
  assert (match sample_exchange "wide" empty_state with
          | (Ok cred, (Some m1, w1)) =>
              match other (Some m1, w1) with
              | (r, (Some m2, w2)) =>
                  match sample_exchange "stolen" (Some m2, w2) with
                  | (r', (Some m3, w3)) =>
                      negb (Before (cred_Expiry cred) (fst (Now w1))) &&
                      negb (Before (cred_Expiry cred) (fst (Now w3)))
                  | _ => false end
              | _ => false end
          | _ => false end = true) as Hc by by vm_compute.
  destruct (sample_exchange "wide" empty_state) as [[cred|e] [[m1|] w1]] eqn:E; [|done..].
  destruct (other (Some m1, w1)) as [r [[m2|] w2]] eqn:E2; [|done].
  destruct (sample_exchange "stolen" (Some m2, w2)) as [r' [[m3|] w3]] eqn:E3; [|done].
  apply andb_true_iff in Hc as [H1%negb_true_iff H3%negb_true_iff].
  exists m3, w3. cbn [snd]. rewrite E3. split; [done|]. eexists.
  apply (Exchange_caches sample_service (sample_request "wide" OutputCCache)
    (sample_request "narrow" OutputCCache) NewMemoryCache sample_world cred m1 w1
    wide_id sample_world m3 w3 narrow_id w3 (fst (Now w3)) (snd (Now w3)));
    [exact E|reflexivity| |reflexivity..|exact H3].
  eapply later_exchange; [exact E2| |eapply later_exchange; [exact E3| |apply later_refl]].
  - intros id v [= <- <-]. exact H1.
  - intros id v [=].
Defined.

Lemma Exchange_grants_admitted_witness :
  match sample_exchange "narrow" empty_state with
  | (Ok cred, _) => ∃ skey kdcKey rids, granted_rids skey kdcKey cred = Some rids ∧ 2000 ∉ rids
  | _ => False
  end.
Proof.
  assert (match sample_exchange "narrow" empty_state with
          | (Ok cred, _) => is_ok (cred_CCache cred) | _ => false end = true) as Hc by by vm_compute.
  destruct (sample_exchange "narrow" empty_state) as [[cred|e] st] eqn:E; [|done].
  destruct (cred_CCache cred) as [cc|e] eqn:Ecc; [|done].
  destruct (Exchange_grants_admitted sample_service sample_builder
    (sample_request "narrow" OutputCCache) (Some NewMemoryCache) sample_world cred st narrow_id
    sample_world (Some NewMemoryCache) sample_world cc "alice" ["mail-users"; "staff"] ["mail"])
    as (_ & _ & _ & _ & _ & skey & _ & kdcKey & _ & rids & _ & _ & _ & Hg & Hrids);
    [reflexivity|exact E|reflexivity|reflexivity|exact Ecc|by vm_compute|].
  exists skey, kdcKey, rids. split; [exact Hg|]. rewrite Hrids.
  assert (build_admitted sample_builder ["mail"] ["mail-users"; "staff"] = ["mail-users"]) as ->
    by by vm_compute.
  intros [?|(g & Hin & Hr)]; [done|]. apply list_elem_of_singleton in Hin as ->. by vm_compute in Hr.
Defined.
