(* ===== verification/Concurrency.v ===== *)
(** * Concurrency: exchanges that run at the same time

    One [Service] serves many requests at once, and the exchanges share its
    cache and its environment.  Here an exchange is a thread whose every call
    to a component is one step, and a configuration steps when any of its
    threads does, when a request arrives, or when the environment changes on
    its own.  A thread that runs alone is [Service.Exchange]; whatever the
    interleaving, a credential only ever reaches a requester it was issued
    for. *)
From S2P Require Import Prelude Errors GoText GoTime GoFloat GoJson GoUrl GoHttp Principal.
From S2P Require Import Request Krb5 Symbolic Credential Cache Claims Pac KeySource Minter Issue.
From S2P Require Import Validators Service.
From stdpp Require Import relations.

(** A run, with the states it passes, from the first to the last. *)
Inductive path {A} (R : relation A) : A → list A → A → Prop :=
| path_here x : path R x [x] x
| path_step x y z l : R x y → path R y l z → path R x (x :: l) z.

Lemma path_rtc {A} (R : relation A) x l y : path R x l y → rtc R x y.
Proof. induction 1; [done|by eapply rtc_l]. Qed.

Lemma rtc_path {A} (R : relation A) x y : rtc R x y → ∃ l, path R x l y.
Proof.
  induction 1 as [x|x y z Hxy _ [l Hl]]; [by exists [x]; constructor|].
  exists (x :: l). by eapply path_step.
Qed.

(** What holds at the end of a run held at its start, or began somewhere in it. *)
Lemma path_origin {A} (R : relation A) (P Q : A → Prop) x l y :
  (∀ u v, R u v → P v → P u ∨ Q u) → path R x l y → P y → P x ∨ ∃ u, u ∈ l ∧ Q u.
Proof.
  intros Hback. induction 1 as [x|x y z l Hxy _ IH]; [by left|]. intros Hz.
  destruct (IH Hz) as [Hy|(u & Hu & Hq)].
  - destruct (Hback _ _ Hxy Hy) as [?|Hq]; [by left|right]. exists x. split; [left|done].
  - right. exists u. split; [by right|done].
Qed.

(** What is in a list after an update was put there or was there before. *)
Lemma elem_of_update {A} (l : list A) i x y : y ∈ <[i := x]> l → y = x ∨ y ∈ l.
Proof.
  intros (j & Hj)%list_elem_of_lookup.
  apply list_lookup_insert_Some in Hj as [(_ & -> & _)|[_ Hj]]; [by left|right].
  by eapply list_elem_of_lookup_2.
Qed.

Section concurrency.
Context `{Krb5} {W : Type} `{!Krb5Eff W} `{!Clock W}.
Context {V R M C : Type} `{!TokenValidator V W} `{!Resolver R W} `{!Minter M W} `{!Cache C W}.
Variable s : ExchangeService (V:=V) (R:=R) (M:=M).

(** Where an exchange stands: the values it has computed so far. *)
Inductive pc :=
| PStart (req : ExchangeRequest)
| PValidated (req : ExchangeRequest) (id : Identity)
| PMissed (req : ExchangeRequest) (id : Identity)
| PResolved (req : ExchangeRequest) (id : Identity)
    (names : PrincipalName * string * ServicePrincipal)
| PTimed (req : ExchangeRequest) (id : Identity)
    (names : PrincipalName * string * ServicePrincipal) (now : Time)
| PMinted (req : ExchangeRequest) (id : Identity) (mt : MintedTicket)
| PIssued (req : ExchangeRequest) (id : Identity) (cred : Credential)
| PReturned (req : ExchangeRequest) (id : Identity) (cred : Credential)
| PFailed (req : ExchangeRequest) (e : error).

Definition state : Type := svc_state (C:=C) (W:=W).

Definition request_key (req : ExchangeRequest) (id : Identity) : string :=
  CacheKey (Subject id) (Target req) (Output req).

(** One call, and where its result leads. *)
Definition call {A} (req : ExchangeRequest) (m : eff state A) (k : A → pc) (st : state)
    : pc * state :=
  match m st with
  | (Ok a, st') => (k a, st')
  | (Err e, st') => (PFailed req e, st')
  end.

Definition next (p : pc) (st : state) : pc * state :=
  match p with
  | PStart req =>
      call req (env (Validate (svc_Validator s) (AccessToken req))) (PValidated req) st
  | PValidated req id =>
      call req (cache_lookup (request_key req id))
        (λ hit, match hit with Some c => PReturned req id c | None => PMissed req id end) st
  | PMissed req id =>
      call req (env (Resolve (svc_Resolver s) id (Target req))) (PResolved req id) st
  | PResolved req id names => call req (env (effect Now)) (PTimed req id names) st
  | PTimed req id (cname, crealm, target) now =>
      call req (env (Mint (svc_Minter s) target (mint_options s id cname crealm now)))
        (PMinted req id) st
  | PMinted req id mt => call req (env (mt_Credential mt (Output req))) (PIssued req id) st
  | PIssued req id cred =>
      call req (cache_store (request_key req id) cred) (λ _, PReturned req id cred) st
  | PReturned _ _ _ | PFailed _ _ => (p, st)
  end.

(** The value an exchange that has ended returned. *)
Definition returned (p : pc) : option (result Credential) :=
  match p with
  | PReturned _ _ cred => Some (Ok cred)
  | PFailed _ e => Some (Err e)
  | _ => None
  end.

Fixpoint run (n : nat) (p : pc) (st : state) : pc * state :=
  match n with
  | O => (p, st)
  | S n' => let '(p', st') := next p st in run n' p' st'
  end.

(** *** Configurations *)

Definition config : Type := list pc * state.

Inductive step : config → config → Prop :=
| step_arrive ts st req : step (ts, st) (ts ++ [PStart req], st)
| step_thread ts st i p p' st' :
    ts !! i = Some p → next p st = (p', st') → step (ts, st) (<[i := p']> ts, st')
| step_env ts c w w' : step (ts, (c, w)) (ts, (c, w')).

(** *** Invariant *)

(** The request and the identity an exchange works for, once it has one. *)
Definition holder (p : pc) : option (ExchangeRequest * Identity) :=
  match p with
  | PStart _ | PFailed _ _ => None
  | PValidated req id | PMissed req id | PResolved req id _ | PTimed req id _ _
  | PMinted req id _ | PIssued req id _ | PReturned req id _ => Some (req, id)
  end.

(** In this state of the system the request's token is validated as this identity. *)
Definition validates (req : ExchangeRequest) (id : Identity) (st : state) : Prop :=
  ∃ w', Validate (svc_Validator s) (AccessToken req) st.2 = (Ok id, w').

(** A run that passed the states [tr] passed such a state. *)
Definition validated_in {A} (tr : list (A * state)) (req : ExchangeRequest) (id : Identity) : Prop :=
  ∃ cf, cf ∈ tr ∧ validates req id cf.2.

Lemma next_holder p st p' st' req id :
  next p st = (p', st') → holder p' = Some (req, id) →
  holder p = Some (req, id) ∨ validates req id st.
Proof.
  destruct st as [c w].
  destruct p as [r|? ?|? ?|? ? ?|? ? [[? ?] ?] ?|? ? ?|? ? ?|? ? ?|? ?]; cbn [next]; unfold call.
  { unfold env. destruct (Validate _ _ w) as [[i|e] w1] eqn:Ev; intros [= <- _] [= <- <-].
    right. by exists w1. }
  all: intros Hn Hh; left; repeat case_match; by simplify_eq/=.
Qed.

Lemma run_holder st0 tr cf p req id :
  path step ([], st0) tr cf → p ∈ cf.1 → holder p = Some (req, id) → validated_in tr req id.
Proof.
  intros Hr Hp Hh.
  destruct (path_origin step (λ cf, ∃ p, p ∈ cf.1 ∧ holder p = Some (req, id))
    (λ cf, validates req id cf.2) ([], st0) tr cf) as [(? & ?%not_elem_of_nil & _)|Hv];
    [|exact Hr|by exists p|done|exact Hv].
  clear.
  intros u v Huv (p & Hp & Hh).
  destruct Huv as [ts st r|ts st i q q' st' Hi Hn|ts c w w']; cbn [fst snd] in *; [| |by eauto].
  - left. exists p. split; [|done].
    apply elem_of_app in Hp as [Hp|Hp]; [done|]. by apply list_elem_of_singleton in Hp as ->.
  - apply elem_of_update in Hp as [->|Hp]; [|by eauto].
    destruct (next_holder _ _ _ _ _ _ Hn Hh) as [Hq|Hv]; [left|by right].
    exists q. split; [by eapply list_elem_of_lookup_2|done].
Qed.

(** The run of [ts] issued this credential for [key]: one of its exchanges
    minted it for its own requester, stored it and returned it. *)
Definition issued_in (ts : list pc) (key : string) (cred : Credential) : Prop :=
  ∃ req id now, PReturned req id cred ∈ ts ∧ issued s req id now cred ∧ key = request_key req id.

Definition resolved (req : ExchangeRequest) (id : Identity)
    (names : PrincipalName * string * ServicePrincipal) : Prop :=
  ∃ w w', Resolve (svc_Resolver s) id (Target req) w = (Ok names, w').

Definition thread_ok (ts : list pc) (p : pc) : Prop :=
  match p with
  | PStart _ | PValidated _ _ | PMissed _ _ | PFailed _ _ => True
  | PResolved req id names | PTimed req id names _ => resolved req id names
  | PMinted req id mt =>
      ∃ cname crealm target now w w', resolved req id (cname, crealm, target) ∧
        Mint (svc_Minter s) target (mint_options s id cname crealm now) w = (Ok mt, w')
  | PIssued req id cred => ∃ now, issued s req id now cred
  | PReturned req id cred => issued_in ts (request_key req id) cred
  end.

(** The cache key tells this exchange from the others: if it returned a
    credential, its subject holds no NUL byte and its target is well formed. *)
Definition separable (p : pc) : Prop :=
  match p with
  | PReturned req id _ => has_byte Ascii.zero (Subject id) = false ∧ wf_spn (Target req)
  | _ => True
  end.

(** Later in a run there are more exchanges that have returned. *)
Definition grows (ts ts' : list pc) : Prop :=
  ∀ req id cred, PReturned req id cred ∈ ts → PReturned req id cred ∈ ts'.

Lemma issued_in_grows ts ts' key cred : grows ts ts' → issued_in ts key cred → issued_in ts' key cred.
Proof. intros Hg (req & id & now & Hin & Hrest). exists req, id, now. split; [by apply Hg|done]. Qed.

Lemma thread_ok_grows ts ts' p : grows ts ts' → thread_ok ts p → thread_ok ts' p.
Proof. intros Hg. destruct p; cbn; try done. eauto using issued_in_grows. Qed.

Lemma grows_next ts i p st p' st' :
  ts !! i = Some p → next p st = (p', st') → grows ts (<[i := p']> ts).
Proof.
  intros Hi Hn req id cred (j & Hj)%list_elem_of_lookup.
  apply list_elem_of_lookup. exists j. destruct (decide (i = j)) as [<-|Hne].
  - rewrite Hi in Hj. injection Hj as ->. injection Hn as <- _.
    by rewrite list_insert_id.
  - by rewrite list_lookup_insert_ne.
Qed.

(** A schedule: which thread takes the next step. *)
Fixpoint schedule (is_ : list nat) (cf : config) : config :=
  match is_ with
  | [] => cf
  | i :: rest =>
    match cf.1 !! i with
    | Some p => let '(p', st') := next p cf.2 in schedule rest (<[i := p']> cf.1, st')
    | None => schedule rest cf
    end
  end.

Lemma schedule_reachable is_ cf : rtc step cf (schedule is_ cf).
Proof.
  revert cf. induction is_ as [|i rest IH]; intros [ts st]; [done|]. cbn [schedule fst snd].
  destruct (ts !! i) as [p|] eqn:Hi; [|apply IH].
  destruct (next p st) as [p' st'] eqn:Hn.
  eapply rtc_l; [by eapply step_thread|apply IH].
Qed.

Context `{!CacheLaws C W}.

Definition cache_ok (ts : list pc) (c : option C) : Prop :=
  ∀ c0, c = Some c0 → ∀ k r, cache_holds c0 k r → issued_in ts k r.

Definition config_ok (cf : config) : Prop :=
  Forall (thread_ok cf.1) cf.1 ∧ cache_ok cf.1 cf.2.1.

(** A call to the environment leaves the cache alone. *)
Lemma call_env {A} req (m : eff W A) k c w p st :
  call req (env m) k (c, w) = (p, st) →
  ∃ w', st = (c, w') ∧
    ((∃ a, m w = (Ok a, w') ∧ p = k a) ∨ (∃ e, m w = (Err e, w') ∧ p = PFailed req e)).
Proof.
  unfold call, env. destruct (m w) as [[a|e] w']; intros [= <- <-]; eauto 6.
Qed.

Lemma next_ok ts i p c w p' c' w' :
  ts !! i = Some p → thread_ok ts p → cache_ok ts c → next p (c, w) = (p', (c', w')) →
  thread_ok (<[i := p']> ts) p' ∧ cache_ok (<[i := p']> ts) c'.
Proof.
  intros Hi Hp Hc Hn. pose proof (grows_next _ _ _ _ _ _ Hi Hn) as Hg.
  set (ts' := <[i := p']> ts) in *.
  assert (p' ∈ ts') as Hin.
  { apply list_elem_of_lookup. exists i. apply list_lookup_insert_eq. by eapply lookup_lt_Some. }
  assert (cache_ok ts' c) as Hc'
    by (intros c0 E k r Hh; eapply issued_in_grows; [done|by eapply Hc]).
  clearbody ts'.
  destruct p as [req|req id|req id|req id names|req id [[cname crealm] target] now
                |req id mt|req id cred|req id cred|req e]; cbn [next] in Hn.
  - by apply call_env in Hn as (w1 & [= -> ->] & [(id & Hv & ->)|(e & _ & ->)]).
  - destruct (cache_lookup_Ok (request_key req id) c w) as (hit & c1 & w1 & Hl & Hget).
    unfold call in Hn. rewrite Hl in Hn. injection Hn as <- <- <-. destruct c as [c|].
    + destruct Hget as (c2 & -> & Hget). split.
      * destruct hit as [cred|]; [|done].
        eapply Hc'; [done|]. by eapply cache_Get_holds.
      * intros c0 [= <-] k r Hh. eapply Hc'; [done|]. by eapply cache_Get_frame.
    + by destruct Hget as (-> & -> & ->).
  - apply call_env in Hn as (w1 & [= -> ->] & [(names & Hr & ->)|(e & _ & ->)]); [|done].
    split; [|done]. by exists w, w1.
  - by apply call_env in Hn as (w1 & [= -> ->] & [(now & _ & ->)|(e & _ & ->)]).
  - apply call_env in Hn as (w1 & [= -> ->] & [(mt & Hm & ->)|(e & _ & ->)]); [|done].
    split; [|done]. by exists cname, crealm, target, now, w, w1.
  - destruct Hp as (cname & crealm & target & now & w1 & w2 & (w3 & w4 & Hr) & Hm).
    apply call_env in Hn as (w5 & [= -> ->] & [(cred & Hcr & ->)|(e & _ & ->)]); [|done].
    split; [|done]. exists now.
    by exists cname, crealm, target, mt, w3, w4, w1, w2, w, w5.
  - destruct Hp as (now & Hiss).
    destruct (cache_store_Ok (request_key req id) cred c w) as (c1 & w1 & Hs & Hput).
    unfold call in Hn. rewrite Hs in Hn. injection Hn as <- <- <-.
    assert (issued_in ts' (request_key req id) cred) as Hfor by by exists req, id, now.
    split; [done|]. intros c0 -> k r Hh. destruct c as [c|]; [|by destruct Hput].
    destruct Hput as (c2 & [= <-] & Hput).
    destruct (cache_Put_frame _ _ _ _ _ _ _ _ Hput Hh) as [[-> ->]|Hh']; [done|by eapply Hc'].
  - injection Hn as <- <- <-. split; [by eapply thread_ok_grows|done].
  - by injection Hn as <- <- <-.
Qed.

Lemma step_ok cf cf' : config_ok cf → step cf cf' → config_ok cf'.
Proof.
  intros [Ht Hc] Hstep. destruct Hstep as [ts st req|ts [c w] i p p' [c' w'] Hi Hn|ts c w w'];
    cbn [fst snd] in *; [| |by split].
  - assert (grows ts (ts ++ [PStart req])) as Hg by (intros ???; rewrite elem_of_app; by left).
    split.
    + apply Forall_app. split; [|by constructor].
      eapply Forall_impl; [exact Ht|]. intros. by eapply thread_ok_grows.
    + intros c0 E k r Hh. eapply issued_in_grows; [done|by eapply Hc].
  - destruct (next_ok ts i p c w p' c' w') as [Hp' Hc']; [done|by eapply Forall_lookup_1|done|done|].
    split; [|done]. apply Forall_insert; [|done].
    eapply Forall_impl; [exact Ht|]. intros q. eapply thread_ok_grows. by eapply grows_next.
Qed.

Lemma reachable_ok c0 w0 cf :
  (∀ k r, ¬ cache_holds c0 k r) → rtc step ([], (Some c0, w0)) cf → config_ok cf.
Proof.
  intros Hempty Hr. apply (rtc_ind_r config_ok ([], (Some c0, w0))) in Hr; [done| |].
  - split; [constructor|]. by intros ? [= <-] k r ?%Hempty.
  - intros x y _ Hxy Hx. by eapply step_ok.
Qed.

(** What an exchange of a run returned, one of its exchanges issued for the
    same subject, target and output. *)
Lemma returned_issued ts req id cred :
  Forall separable ts → PReturned req id cred ∈ ts → thread_ok ts (PReturned req id cred) →
  ∃ req' id' now, PReturned req' id' cred ∈ ts ∧ issued s req' id' now cred ∧
    Subject id' = Subject id ∧ Target req' = Target req ∧ Output req' = Output req.
Proof.
  intros Hsep Hin (req' & id' & now & Hin' & Hiss & Hkey).
  pose proof (proj1 (Forall_forall _ _) Hsep _ Hin) as [Hn Hwf].
  pose proof (proj1 (Forall_forall _ _) Hsep _ Hin') as [Hn' Hwf'].
  exists req', id', now. unfold request_key in Hkey.
  destruct (CacheKey_inj (Subject id) (Target req) (Output req) (Subject id') (Target req')
              (Output req')) as (-> & Hp & ->); [done..|].
  split_and!; [done..| |done]. by apply SPN_String_inj.
Qed.

(** A thread that runs alone. *)
Lemma run_alone req st :
  let '(r, st') := Service_Exchange s req st in
  ∃ p, run 7 (PStart req) st = (p, st') ∧ returned p = Some r.
Proof.
  assert (∀ n e st, run n (PFailed req e) st = (PFailed req e, st)) as Hfail
    by (by induction n).
  assert (∀ n id c st, run n (PReturned req id c) st = (PReturned req id c, st)) as Hret
    by (by induction n).
  unfold Service_Exchange, mbind, eff_bind.
  change (run 7 (PStart req) st) with
    (let '(p, st') := call req (env (Validate (svc_Validator s) (AccessToken req)))
                        (PValidated req) st in run 6 p st').
  unfold call. destruct (env (Validate _ _) st) as [[id|e] st1];
    [|rewrite Hfail; by eexists].
  cbn [run next]. unfold call. fold (request_key req id).
  destruct (cache_lookup _ st1) as [[[c|]|e] st2]; cbn [run next];
    [by eexists| |by eexists].
  unfold call. destruct (env (Resolve _ _ _) st2) as [[[[cname crealm] target]|e] st3];
    cbn [run next]; [|by eexists].
  unfold call. destruct (env (effect Now) st3) as [[now|e] st4]; cbn [run next]; [|by eexists].
  unfold call. destruct (env (Mint _ _ _) st4) as [[mt|e] st5]; cbn [run next]; [|by eexists].
  unfold call. destruct (env (mt_Credential _ _) st5) as [[cred|e] st6]; cbn [run next];
    [|by eexists].
  unfold call. destruct (cache_store _ _ st6) as [[u|e] st7]; by eexists.
Qed.

(** An exchange that has ended stays as it is. *)
Lemma next_returned p st r : returned p = Some r → next p st = (p, st).
Proof. by destruct p. Qed.

(** *** Properties *)

(** C2. Isolation, under every interleaving of a run that starts with an empty
    cache.  As long as the exchanges
    of the run that have returned are for subjects without a NUL byte and for
    well-formed targets (those the parser makes are), a credential that an
    exchange returns - freshly minted, or put in the cache by whoever - was
    issued, in this run, by an exchange that named the same target and the
    same representation, to a requester with the same subject; and the tokens
    of both were validated, as these identities, in the course of the run. *)
Theorem isolation c0 w0 tr ts st i req id cred :
  (∀ k r, ¬ cache_holds c0 k r) →
  path step ([], (Some c0, w0)) tr (ts, st) → Forall separable ts →
  ts !! i = Some (PReturned req id cred) →
  validated_in tr req id ∧
  ∃ req' id' now, PReturned req' id' cred ∈ ts ∧ validated_in tr req' id' ∧ issued s req' id' now cred ∧
    Subject id' = Subject id ∧ Target req' = Target req ∧ Output req' = Output req.
Proof.
  intros Hempty Hpath Hsep Hi.
  destruct (reachable_ok _ _ _ Hempty (path_rtc _ _ _ _ Hpath)) as [Hts _].
  pose proof (list_elem_of_lookup_2 _ _ _ Hi) as Hin.
  destruct (returned_issued ts req id cred Hsep Hin (Forall_lookup_1 _ _ _ _ Hts Hi))
    as (req' & id' & now & Hin' & Hrest).
  split; [exact (run_holder _ _ _ _ _ _ Hpath Hin eq_refl)|].
  exists req', id', now. split; [done|]. split; [exact (run_holder _ _ _ _ _ _ Hpath Hin' eq_refl)|done].
Qed.
End concurrency.

Lemma new_cache_empty `{Clock W} k r : ¬ cache_holds (C:=MemoryCache) (W:=W) NewMemoryCache k r.
Proof. intros Hk. change ((∅ : gmap string Credential) !! k = Some r) in Hk. by rewrite lookup_empty in Hk. Qed.

(** With the static resolver, the subject of the credential is the requester. *)
Section static.
Context `{Krb5} {W : Type} `{!Krb5Eff W} `{!Clock W}.
Context {V M C : Type} `{!TokenValidator V W} `{!Minter M W} `{!Cache C W}.
Context `{!MinterLaws M W} `{!CacheLaws C W}.
Variable s : ExchangeService (V:=V) (R:=StaticResolver) (M:=M).

(** C1. Nobody gets another's credential: with the static resolver, whatever the
    interleaving of a run, the credential an exchange returns is for the
    subject its token was validated for in a state of that run, for the target
    it asked for with the realm filled in, and in the representation it asked
    for.  This needs that the cache is empty at the start of the run, that the
    default realm is set, and that the exchanges of the run that have returned are for subjects without a NUL byte and
    well-formed targets; with a NUL byte in a subject it is false
    ([Service.Exchange_leaks_through_nul]). *)
Theorem returned_is_for_requester c0 w0 tr ts st i req id cred :
  (∀ k r, ¬ cache_holds c0 k r) →
  DefaultRealm (svc_Resolver s) ≠ "" →
  path (step s) ([], (Some c0, w0)) tr (ts, st) → Forall separable ts →
  ts !! i = Some (PReturned req id cred) →
  validated_in s tr req id ∧
  cred_Subject cred = Subject id ∧
  cred_Target cred = resolve_realm (DefaultRealm (svc_Resolver s)) (Target req) ∧
  ((Output req = OutputCCache ∧ cred_apreq cred = "") ∨
   (Output req = OutputAPReq ∧ cred_ccache cred = "")).
Proof.
  intros Hempty Hrealm Hpath Hsep Hi.
  destruct (reachable_ok _ _ _ _ Hempty (path_rtc _ _ _ _ Hpath)) as [Hts _].
  destruct (returned_issued s ts req id cred Hsep (list_elem_of_lookup_2 _ _ _ Hi)
              (Forall_lookup_1 _ _ _ _ Hts Hi))
    as (req' & id' & now & _ & Hiss & <- & <- & <-).
  split; [exact (run_holder _ _ _ _ _ _ _ Hpath (list_elem_of_lookup_2 _ _ _ Hi) eq_refl)|].
  destruct (issued_fields _ _ _ _ _ Hiss)
    as (_ & _ & _ & _ & cname & crealm & target & w1 & w2 & Hr & Hs & Ht).
  cbn in Hr. unfold StaticResolver_Resolve in Hr. apply ret_Ok in Hr as [[= -> -> ->] _].
  cbn in Hs, Ht. split_and!; [done| |].
  - apply Ht. case_bool_decide; done.
  - destruct Hiss as (? & ? & ? & mt & _ & _ & _ & _ & w5 & w6 & _ & _ & Hc).
    apply mt_Credential_inv in Hc as [(-> & _ & cc & _ & ->)|(-> & ap & _ & ->)]; [left|right]; done.
Qed.
End static.

(** ** Witnesses *)

(** Two tokens of one subject ask for the same ticket at the same time: both
    exchanges miss, both mint, and each returns its own credential. *)
Definition sample_threads : list pc :=
  [PStart (sample_request "wide" OutputCCache); PStart (sample_request "narrow" OutputCCache)].

Definition sample_schedule : list nat := [0; 0; 1; 1; 0; 0; 1; 0; 0; 0; 1; 1; 1; 1]%nat.

Definition sample_final : config (C:=MemoryCache) (W:=SymWorld) :=
  schedule sample_service sample_schedule (sample_threads, empty_state).

Lemma sample_reachable :
  rtc (step sample_service) ([], empty_state) sample_final.
Proof.
  eapply rtc_l; [by apply (step_arrive _ _ _ (sample_request "wide" OutputCCache))|].
  eapply rtc_l; [by apply (step_arrive _ _ _ (sample_request "narrow" OutputCCache))|].
  apply schedule_reachable.
Qed.

#[export] Instance separable_dec p : Decision (separable p).
Proof. destruct p; apply _. Defined.

Lemma sample_separable : Forall separable sample_final.1.
Proof. refine (bool_decide_eq_true_1 _ _). by vm_compute. Qed.

Lemma sample_returns :
  match sample_final.1 with
  | [PReturned _ id0 _; PReturned _ id1 _] => Expiry id0 = Unix (sample_now + 3600) ∧
                                              Expiry id1 = Unix (sample_now + 600)
  | _ => False
  end.
Proof. by vm_compute. Qed.

Lemma isolation_witness :
  match sample_final.1 with
  | [_; PReturned req id cred] =>
      ∃ tr req' id' now, path (step sample_service) ([], empty_state) tr sample_final ∧
        validated_in sample_service tr req' id' ∧ issued sample_service req' id' now cred ∧
        Subject id' = Subject id ∧ Target req' = Target req ∧ Output req' = Output req
  | _ => False
  end.
Proof.
  pose proof sample_returns as Hret. destruct (rtc_path _ _ _ sample_reachable) as [tr Hr].
  pose proof sample_separable as Hsep.
  destruct sample_final as [ts st]. cbn [fst] in *.
  destruct ts as [|p [|[] [|]]]; try done; try (by destruct p).
  destruct (isolation sample_service NewMemoryCache sample_world tr _ st 1 req id cred
    (new_cache_empty (W:=SymWorld)) Hr Hsep eq_refl)
    as (_ & req' & id' & now & _ & Hex).
  exists tr, req', id', now. split; [exact Hr|exact Hex].
Defined.

Lemma returned_is_for_requester_witness :
  match sample_final.1 with
  | [_; PReturned req id cred] =>
      cred_Subject cred = Subject id ∧ cred_Target cred = resolve_realm "R" (Target req)
  | _ => False
  end.
Proof.
  pose proof sample_returns as Hret. destruct (rtc_path _ _ _ sample_reachable) as [tr Hr].
  pose proof sample_separable as Hsep.
  destruct sample_final as [ts st]. cbn [fst] in *.
  destruct ts as [|p [|[] [|]]]; try done; try (by destruct p).
  destruct (returned_is_for_requester sample_service NewMemoryCache sample_world tr _ st 1 req id cred
    (new_cache_empty (W:=SymWorld)) ltac:(done) Hr Hsep eq_refl)
    as (_ & Hs & Ht & _).
  by split.
Defined.
