(* ===== verification/Http.v ===== *)
(** * Http: the token-exchange endpoint and its client (httpexchange)

    handler.go ([NewHandler]) and client.go ([NewClient], [Client.Exchange]).
    The RFC 8693 message library is a parameter: parsing a form into the wire
    request, writing a reply and reading it back.  The two sides are shown to
    fit: over a transport that delivers requests to the handler, the client
    gets the credential the exchanger issued. *)
From S2P Require Import Prelude Errors GoText GoTime GoFloat GoJson GoUrl GoHttp Principal.
From S2P Require Import Request Krb5 Symbolic Credential Cache Claims Pac KeySource Minter Issue.
From S2P Require Import Validators Service.

(** ** github.com/hstern/go-token-exchange *)

Record TokenExchangeError := { Code : string; Description : string }.

Record TokenExchangeResponse := {
  ter_AccessToken : string;
  IssuedTokenType : string;
  ter_TokenType : string;
  ExpiresIn : Z;
}.

Abbreviation Headers := (list (string * string)).

Class TokenExchangeHTTP `{TokenExchange} := {
  ParseTokenExchangeRequest : HttpRequest → result TokenExchangeRequest;
  (** the response the two writers send, given the header fields set before *)
  WriteTokenExchangeError : Headers → TokenExchangeError → HttpResponse;
  WriteTokenExchangeResponse : Headers → TokenExchangeResponse → HttpResponse;
  (** [json.NewDecoder(body).Decode] into the two structs *)
  Decode_TokenExchangeError : result bytes → result TokenExchangeError;
  Decode_TokenExchangeResponse : result bytes → result TokenExchangeResponse;
  (** [*TokenExchangeError] as an error *)
  te_error : TokenExchangeError → error;
  (** [err.Error()] *)
  Error : error → string;
}.

(** The library reads what it writes, and a request form by its field names
    (RFC 8693 2.1); an error is a status other than 200. *)
Class TokenExchangeHTTPLaws `{TokenExchangeHTTP} := {
  parse_form url body fields :
    ParseQuery body = Ok fields →
    get_first "grant_type" fields ≠ "" → get_first "subject_token" fields ≠ "" →
    get_first "subject_token_type" fields ≠ "" →
    ParseTokenExchangeRequest (form_request url body) = Ok {|
      GrantType := get_first "grant_type" fields;
      SubjectToken := get_first "subject_token" fields;
      SubjectTokenType := get_first "subject_token_type" fields;
      RequestedTokenType := get_first "requested_token_type" fields;
      Resource := get_all "resource" fields;
      Audience := get_all "audience" fields |};
  response_status h r : StatusCode (WriteTokenExchangeResponse h r) = StatusOK;
  response_decode h r :
    Decode_TokenExchangeResponse (resp_Body (WriteTokenExchangeResponse h r)) = Ok r;
  error_status h e : StatusCode (WriteTokenExchangeError h e) ≠ StatusOK;
  error_decode h e :
    Decode_TokenExchangeError (resp_Body (WriteTokenExchangeError h e)) = Ok e;
  constants_nonempty : GrantTypeTokenExchange ≠ "" ∧ TokenTypeAccessToken ≠ "";
}.

(** ** handler.go *)

(** What the handler sends: exactly one of the two messages. *)
Inductive reply :=
| ReplyError (h : Headers) (e : TokenExchangeError)
| ReplyToken (h : Headers) (r : TokenExchangeResponse).

Definition render `{TokenExchangeHTTP} (r : reply) : HttpResponse :=
  match r with
  | ReplyError h e => WriteTokenExchangeError h e
  | ReplyToken h r => WriteTokenExchangeResponse h r
  end.

Section expires.
Variable out_of_range : float64 → Z.

(** [int(time.Until(expiry).Seconds())] *)
Definition expires_in (expiry now : Time) : Z :=
  int64_of_float out_of_range (Seconds (Until expiry now)).
End expires.

Section handler.
Context `{TokenExchangeHTTP} {X St : Type} `{!Exchanger X St} `{!Clock St}.
Variable out_of_range : float64 → Z.

(** The representation the handler sends for a request. *)
Definition representation (o : OutputType) (cred : Credential) : result bytes :=
  if o =? OutputAPReq then cred_APReq cred else cred_CCache cred.

(** [WriteTokenExchangeError(w, &TokenExchangeError{Code: code, Description: err.Error()})] *)
Definition error_reply (code : string) (err : error) : reply :=
  ReplyError [] {| Code := code; Description := Error err |}.

(** From the HTTP request to the exchange's request, or the reply that refuses it. *)
Definition read_request (r : HttpRequest) : ExchangeRequest + reply :=
  match ParseTokenExchangeRequest r with
  | Err err => inr (error_reply ErrCodeInvalidRequest err)
  | Ok wire =>
    match ExchangeRequestFromWire wire with
    | Err err => inr (error_reply (TokenExchangeErrorCode err) err)
    | Ok req => inl req
    end
  end.

(** What the exchange returned: the bytes to send, or the reply that says why not. *)
Definition granted_bytes (req : ExchangeRequest) (res : result Credential)
    : Credential * bytes + reply :=
  match res with
  | Err err => inr (error_reply (TokenExchangeErrorCode err) err)
  | Ok cred =>
    match representation (Output req) cred with
    | Err err => inr (error_reply ErrCodeInvalidRequest err)
    | Ok raw => inl (cred, raw)
    end
  end.

Definition token_reply (req : ExchangeRequest) (cred : Credential) (raw : bytes) (now : Time)
    : reply :=
  ReplyToken [("Cache-Control", "no-store")] {|
    ter_AccessToken := EncodeToString raw;
    IssuedTokenType := TokenType (Output req);
    ter_TokenType := "N_A";
    ExpiresIn := expires_in out_of_range (cred_Expiry cred) now |}.

Definition Handler (ex : X) (r : HttpRequest) (st : St) : reply * St :=
  match read_request r with
  | inr rep => (rep, st)
  | inl req =>
    let '(res, st') := Exchange ex req st in
    match granted_bytes req res with
    | inr rep => (rep, st')
    | inl (cred, raw) => let '(now, st'') := Now st' in (token_reply req cred raw now, st'')
    end
  end.
End handler.

(** ** client.go *)

Section client.
Context `{TokenExchangeHTTP} {W : Type} `{!Http W} `{!Clock W}.

Record Client := {
  endpoint : string;
  hc : HTTPClient;
}.

Definition NewClient (tokenEndpoint : string) (hc : option HTTPClient) : Client :=
  {| endpoint := tokenEndpoint; hc := default DefaultClient hc |}.

Definition client_form (accessToken : string) (target : ServicePrincipal) (output : OutputType)
    : Values :=
  [("grant_type", [GrantTypeTokenExchange]);
   ("subject_token", [accessToken]);
   ("subject_token_type", [TokenTypeAccessToken]);
   ("requested_token_type", [TokenType output]);
   ("resource", [SPN_String target])].

Definition httpexchange_err (what : string) (e : error) : error :=
  Errorf [Lit ("httpexchange: " +:+ what +:+ ": "); Fw e].

Definition Client_Exchange (c : Client) (accessToken : string) (target : ServicePrincipal)
    (output : OutputType) : eff W Credential :=
  req ← lift (map_err (httpexchange_err "build request")
                (NewRequest MethodPost (endpoint c)
                   (Values_Encode (client_form accessToken target output))));
  let req := Header_Set "Content-Type" "application/x-www-form-urlencoded" req in
  resp ← emap_err (httpexchange_err "do request") (Do (hc c) req);
  if negb (StatusCode resp =? StatusOK) then
    match Decode_TokenExchangeError (resp_Body resp) with
    | Err e => fail (Errorf [Lit "httpexchange: decode error response (status ";
                             Fd (StatusCode resp); Lit "): "; Fw e])
    | Ok te => fail (te_error te)
    end
  else
    ter ← lift (map_err (httpexchange_err "decode response")
                  (Decode_TokenExchangeResponse (resp_Body resp)));
    raw ← lift (map_err (httpexchange_err "base64-decode issued token")
                  (DecodeString (ter_AccessToken ter)));
    now ← effect Now;
    let expiry := Add now (int64 (ExpiresIn ter * Second)) in
    if output =? OutputCCache then mret (NewCredential "" target expiry raw "")
    else mret (NewCredential "" target expiry "" raw).
End client.

(** ** Lemmas *)

(** A whole number of seconds is not rounded. *)
Lemma Seconds_whole k : 0 ≤ k < 2 ^ 53 → Seconds (k * Second) = float_of_Z k.
Proof.
  intros [Hk Hlt]. unfold Seconds. rewrite Z.quot_mul, Z.rem_mul by done.
  change (fdiv (float_of_Z 0) (float_of_Z 1000000000)) with (SpecFloat.S754_zero false).
  destruct k as [|p|p]; [done| |lia].
  by destruct (float_of_Z_exact p Hlt) as (m & e & -> & _).
Qed.

Section lemmas.
Context `{TokenExchangeHTTP}.

Lemma client_fields accessToken target output :
  ParseQuery (Values_Encode (client_form accessToken target output)) = Ok
    [("grant_type", GrantTypeTokenExchange); ("requested_token_type", TokenType output);
     ("resource", SPN_String target); ("subject_token", accessToken);
     ("subject_token_type", TokenTypeAccessToken)].
Proof. by rewrite ParseQuery_Encode. Qed.

(** The handler's view of the client's request. *)
Lemma client_request_parsed `{!TokenExchangeHTTPLaws} url accessToken target output :
  accessToken ≠ "" → wf_spn target →
  ∃ wire,
    ParseTokenExchangeRequest
      (form_request url (Values_Encode (client_form accessToken target output))) = Ok wire ∧
    ExchangeRequestFromWire wire =
      Ok {| AccessToken := accessToken; Target := target; Output := requested output |}.
Proof.
  intros Htok Hwf. destruct constants_nonempty as [Hg Ht].
  eexists. split; [eapply parse_form; [apply client_fields|done..]|].
  apply FromWire_Ok.
  change (get_first "grant_type" _) with GrantTypeTokenExchange.
  change (get_first "subject_token" _) with accessToken.
  change (get_first "requested_token_type" _) with (TokenType output).
  change (get_all "resource" _) with [SPN_String target].
  change (get_all "audience" _) with (@nil string). cbn.
  assert (SPN_String target ≠ "") as Hne.
  { intros E. pose proof (parse_print target Hwf) as Hp. rewrite E in Hp. by vm_compute in Hp. }
  rewrite bool_decide_false by done.
  split_and!; try done; [apply requested_TokenType|by apply parse_print].
Qed.
End lemmas.

(** A network that hands every request to the handler. *)
Definition loopback `{TokenExchangeHTTP} {X St} `{!Exchanger X St} `{!Clock St}
    (out_of_range : float64 → Z) (ex : X) : Http St := {|
  HTTPClient := unit;
  DefaultClient := ();
  NewRequest_check _ _ := Ok ();
  Do _ r st := let '(rep, st') := Handler out_of_range ex r st in (Ok (render rep), st');
|}.

(** The clock of the environment, read through the state of a [Service]. *)
#[export] Instance svc_clock {C W} `{Clock W} : Clock (svc_state (C:=C) (W:=W)) := {
  Now st := let '(now, w') := Now st.2 in (now, (st.1, w'));
}.

Section properties.
Context `{TokenExchangeHTTP} {X St : Type} `{!Exchanger X St} `{!Clock St}.
Variable out_of_range : float64 → Z.

(** C25. The endpoint hands out a token only for a well-formed request that the
    exchanger granted: the body is the base-64 form of the representation that
    was asked for, it is labelled with the matching token type, and it must
    not be cached.  Every other request is answered by an error - without
    calling the exchanger when the request itself is at fault. *)
Theorem Handler_spec (ex : X) r st :
  (∀ h t st', Handler out_of_range ex r st = (ReplyToken h t, st') ↔
     ∃ wire req cred raw st1 now,
       ParseTokenExchangeRequest r = Ok wire ∧ ExchangeRequestFromWire wire = Ok req ∧
       Exchange ex req st = (Ok cred, st1) ∧ representation (Output req) cred = Ok raw ∧
       Now st1 = (now, st') ∧ h = [("Cache-Control", "no-store")] ∧
       t = {| ter_AccessToken := EncodeToString raw; IssuedTokenType := TokenType (Output req);
              ter_TokenType := "N_A";
              ExpiresIn := expires_in out_of_range (cred_Expiry cred) now |}) ∧
  (∀ h e st', Handler out_of_range ex r st = (ReplyError h e, st') →
     match wire ← ParseTokenExchangeRequest r; ExchangeRequestFromWire wire with
     | Err _ => st' = st
     | Ok req => (Exchange ex req st).2 = st'
     end).
Proof.
  unfold Handler, read_request. destruct (ParseTokenExchangeRequest r) as [wire|e1] eqn:Ep; cbn [mbind result_bind].
  2:{ split; [split; [done|by intros (? & ? & ? & ? & ? & ? & ? & _)]|].
      by intros h e st' [= _ _ <-]. }
  destruct (ExchangeRequestFromWire wire) as [req|e1] eqn:Ew.
  2:{ split; [split; [done|]|by intros h e st' [= _ _ <-]].
      intros (? & ? & ? & ? & ? & ? & [= <-] & ? & _). congruence. }
  destruct (Exchange ex req st) as [[cred|e1] st1] eqn:Ex; cbn [granted_bytes].
  2:{ split; [split; [done|]|by intros h e st' [= _ _ <-]].
      intros (? & ? & ? & ? & ? & ? & [= <-] & Hw & Hx & _). rewrite Ew in Hw. simplify_eq. congruence. }
  destruct (representation (Output req) cred) as [raw|e1] eqn:Er.
  2:{ split; [split; [done|]|by intros h e st' [= _ _ <-]].
      intros (? & ? & ? & ? & ? & ? & [= <-] & Hw & Hx & Hr & _). rewrite Ew in Hw. simplify_eq.
      rewrite Ex in Hx. injection Hx as <- <-. congruence. }
  destruct (Now st1) as [now st2] eqn:En. split; [|done]. intros h t st'. split.
  - intros [= <- <- <-]. by exists wire, req, cred, raw, st1, now.
  - intros (? & ? & ? & ? & ? & ? & [= <-] & Hw & Hx & Hr & Hn & -> & ->).
    rewrite Ew in Hw. simplify_eq. rewrite Ex in Hx. simplify_eq.
    rewrite Er in Hr. simplify_eq. rewrite En in Hn. by simplify_eq.
Qed.

Context `{!TokenExchangeHTTPLaws}.

(** The client over the handler, for any output: the server is asked for what
    the output's token type stands for, and the client files what it gets
    under its own output. *)
Lemma client_exchange (ex : X) c accessToken target output st r st1 :
  accessToken ≠ "" → wf_spn target →
  Exchange ex {| AccessToken := accessToken; Target := target; Output := requested output |} st
    = (r, st1) →
  let client := Client_Exchange (Http0:=loopback out_of_range ex) c accessToken target output st in
  match r with
  | Err e =>
      client = (Err (te_error {| Code := TokenExchangeErrorCode e; Description := Error e |}), st1)
  | Ok cred =>
      match representation (requested output) cred with
      | Err e => client = (Err (te_error {| Code := ErrCodeInvalidRequest; Description := Error e |}), st1)
      | Ok raw =>
          ∃ now st2 now' st3,
            Now st1 = (now, st2) ∧ Now st2 = (now', st3) ∧
            let expiry := Add now' (int64 (expires_in out_of_range (cred_Expiry cred) now * Second)) in
            client = (Ok (if output =? OutputCCache then NewCredential "" target expiry raw ""
                          else NewCredential "" target expiry "" raw), st3)
      end
  end.
Proof.
  intros Htok Hwf Hex client.
  destruct (client_request_parsed (endpoint (Http0:=loopback out_of_range ex) c) accessToken
              target output Htok Hwf) as (wire & Hp & Hw).
  unfold client, Client_Exchange, form_request in *.
  set (body := Values_Encode _) in *. clearbody body. clear client.
  unfold mbind, eff_bind, lift, emap_err, NewRequest. cbn.
  unfold Handler, read_request, Header_Set. cbn. rewrite Hp, Hw, Hex. clear Hex. unfold granted_bytes.
  cbn [Output].
  destruct r as [cred|e]; [destruct (representation (requested output) cred) as [raw|e] eqn:Er|];
    cbn [error_reply render map_err].
  2,3: by rewrite (proj2 (Z.eqb_neq _ _) (error_status _ _)), error_decode.
  destruct (Now st1) as [now st2]. cbn [token_reply render map_err]. destruct (Now st2) as [now' st3] eqn:En.
  exists now, st2, now', st3. split; [done|]. split; [done|].
  rewrite response_status, response_decode. cbn [negb StatusOK Z.eqb map_err ter_AccessToken ExpiresIn].
  rewrite Decode_Encode. cbn [map_err]. unfold effect. cbn. rewrite En. by destruct (output =? OutputCCache).
Qed.

(** C13. Client and endpoint fit together, end to end.  For a non-empty token, a
    well-formed target and a known output type, [Client.Exchange] over the
    handler's form and JSON encodings makes exactly the exchange request it
    was called with; when the exchange grants it the client holds the very
    bytes the service issued, as the representation asked for, with the
    expiry the server announced counted from the client's clock, and when
    the exchange refuses it the client gets the error's code. *)
Theorem Client_Exchange_end_to_end (ex : X) c accessToken target output st r st1 :
  accessToken ≠ "" → wf_spn target → valid_output output →
  Exchange ex {| AccessToken := accessToken; Target := target; Output := output |} st = (r, st1) →
  let client := Client_Exchange (Http0:=loopback out_of_range ex) c accessToken target output st in
  match r with
  | Err e =>
      client = (Err (te_error {| Code := TokenExchangeErrorCode e; Description := Error e |}), st1)
  | Ok cred =>
      match representation output cred with
      | Err e => client = (Err (te_error {| Code := ErrCodeInvalidRequest; Description := Error e |}), st1)
      | Ok raw =>
          ∃ now st2 now' st3 cred',
            Now st1 = (now, st2) ∧ Now st2 = (now', st3) ∧ client = (Ok cred', st3) ∧
            cred_Target cred' = target ∧ representation output cred' = Ok raw ∧
            cred_Expiry cred' =
              Add now' (int64 (expires_in out_of_range (cred_Expiry cred) now * Second))
      end
  end.
Proof.
  intros Htok Hwf Hout Hex client.
  rewrite <- (requested_valid output) in Hex by done.
  pose proof (client_exchange ex c accessToken target output st r st1 Htok Hwf Hex) as Hc.
  rewrite requested_valid in Hc by done.
  destruct r as [cred|e]; [|exact Hc].
  destruct (representation output cred) as [raw|e] eqn:Er; [|exact Hc].
  destruct Hc as (now & st2 & now' & st3 & Hn & Hn' & Hc).
  exists now, st2, now', st3. eexists. split; [done|]. split; [done|]. split; [exact Hc|].
  destruct Hout as [-> | ->]; cbn in *; (split; [done|]); (split; [|done]).
  - apply cred_CCache_Ok in Er as [_ ?]. by apply cred_CCache_Ok.
  - apply cred_APReq_Ok in Er as [_ ?]. by apply cred_APReq_Ok.
Qed.

(** For an output type that is not one of the two constants the server is asked
    for the default, a ccache, and the client hands those bytes out as an
    AP-REQ token. *)
Theorem Client_Exchange_mislabels (ex : X) c accessToken target output st cred st1 raw :
  accessToken ≠ "" → wf_spn target → ¬ valid_output output →
  Exchange ex {| AccessToken := accessToken; Target := target; Output := OutputCCache |} st
    = (Ok cred, st1) →
  cred_CCache cred = Ok raw →
  ∃ cred' st2,
    Client_Exchange (Http0:=loopback out_of_range ex) c accessToken target output st
      = (Ok cred', st2) ∧
    cred_APReq cred' = Ok raw ∧ cred_CCache cred' = Err ErrNoCCache.
Proof.
  intros Htok Hwf Hout Hex Hraw.
  assert (requested output = OutputCCache ∧ (output =? OutputCCache) = false) as [Hreq Hne].
  { unfold valid_output in Hout. unfold requested. split; [|apply Z.eqb_neq; tauto].
    rewrite (proj2 (Z.eqb_neq output OutputAPReq)); tauto. }
  pose proof (client_exchange ex c accessToken target output st (Ok cred) st1 Htok Hwf) as Hc.
  rewrite Hreq in Hc. specialize (Hc Hex). cbn in Hc. unfold representation in Hc.
  cbn [Z.eqb OutputCCache OutputAPReq] in Hc. rewrite Hraw in Hc.
  destruct Hc as (now & st2 & now' & st3 & _ & _ & Hc). fold OutputCCache in Hc. rewrite Hne in Hc.
  eexists _, _. split; [exact Hc|]. split; [|done].
  apply cred_CCache_Ok in Hraw as [_ ?]. by apply cred_APReq_Ok.
Qed.
End properties.

(** The longest time.Duration, in whole seconds. *)
Definition maxSeconds : Z := 9223372036.

(** C40. The announced lifetime.  When a whole number [k] of seconds is left,
    [ExpiresIn] is [k], although it is computed in float64 - up to the
    9223372036 seconds a time.Duration can hold, where it saturates; and below
    that the client's expiry is the credential's, moved by the time between
    the two clock readings.  Clock and expiry are later than the year 1 and no
    more than 2^61 seconds from it, and the expiry is a wall-clock time. *)
Theorem expires_in_exact out_of_range expiry now now' k :
  Time_ok expiry → Time_ok now → wall_only expiry →
  0 ≤ sec now ≤ 2 ^ 61 → 0 ≤ sec expiry ≤ 2 ^ 61 → 0 ≤ k →
  Time_ok now' → 0 ≤ sec now' ≤ 2 ^ 61 →
  instant expiry - instant now = k * Second →
  expires_in out_of_range expiry now = Z.min k maxSeconds ∧
  (k ≤ maxSeconds →
   instant (Add now' (int64 (expires_in out_of_range expiry now * Second))) =
     instant expiry + (instant now' - instant now)).
Proof.
  intros He Hn Hw Hsn Hse Hk Hn' Hsn' Hd.
  assert (expires_in out_of_range expiry now = Z.min k maxSeconds) as E.
  { unfold expires_in, Until. destruct (Z.le_gt_cases k maxSeconds) as [Hle|Hgt].
    - rewrite Sub_instant, Hd by (done || rewrite ?Hd; unfold in_int64, minInt64, maxInt64, maxSeconds, Second in *; lia).
      unfold maxSeconds in *. rewrite Seconds_whole by lia. rewrite int64_of_float_Z by lia. lia.
    - rewrite Sub_saturates by
        (done || rewrite ?Hd; unfold maxInt64, maxSeconds, Second in *; lia).
      rewrite Z.min_r by lia. by vm_compute. }
  split; [done|]. intros Hle. rewrite E, Z.min_l by done.
  assert (in_int64 (k * Second)) as Hin
    by (unfold in_int64, minInt64, maxInt64, maxSeconds, Second in *; lia).
  rewrite int64_small by done.
  rewrite instant_Add by (done || (unfold minInt64, maxInt64; lia)). lia.
Qed.

(** A lifetime that is not a whole number of seconds may be rounded up, from
    2^24 seconds on: the client would keep the credential too long. *)
Lemma expires_in_rounds_up :
  let expiry := {| sec := 2 ^ 24; nsec := 999999999; mono := None; loc := UTC_loc |} in
  expires_in (λ _, 0) expiry zeroTime * Second > instant expiry - instant zeroTime.
Proof. by vm_compute. Qed.

(** ** Witnesses *)

(** A message library: forms by [net/url], replies in the symbolic encoding. *)
#[local] Existing Instance rfc8693.

#[local] Instance sample_http : TokenExchangeHTTP := {
  ParseTokenExchangeRequest r :=
    fields ← ParseQuery (req_Body r);
    Ok {| GrantType := get_first "grant_type" fields;
          SubjectToken := get_first "subject_token" fields;
          SubjectTokenType := get_first "subject_token_type" fields;
          RequestedTokenType := get_first "requested_token_type" fields;
          Resource := get_all "resource" fields;
          Audience := get_all "audience" fields |};
  WriteTokenExchangeError h e :=
    {| StatusCode := 400; resp_Body := Ok (enc (Code e, Description e)) |};
  WriteTokenExchangeResponse h r :=
    {| StatusCode := 200;
       resp_Body := Ok (enc (ter_AccessToken r, IssuedTokenType r, ter_TokenType r, ExpiresIn r)) |};
  Decode_TokenExchangeError b :=
    b ← b; match dec b with
           | Some (c, d) => Ok {| Code := c; Description := d |}
           | None => Err SyntaxError
           end;
  Decode_TokenExchangeResponse b :=
    b ← b; match dec b with
           | Some (a, i, t, e) =>
               Ok {| ter_AccessToken := a; IssuedTokenType := i; ter_TokenType := t; ExpiresIn := e |}
           | None => Err SyntaxError
           end;
  te_error e := External (Code e);
  Error _ := "";
}.

#[local] Instance sample_http_laws : TokenExchangeHTTPLaws.
Proof.
  constructor.
  - intros url body fields Hq _ _ _. cbn [ParseTokenExchangeRequest sample_http form_request req_Body].
    by rewrite Hq.
  - done.
  - intros h []. cbn. by rewrite dec_enc.
  - done.
  - intros h []. cbn. by rewrite dec_enc.
  - done.
Qed.

#[local] Instance sample_net : Http (svc_state (C:=MemoryCache) (W:=SymWorld)) :=
  loopback (λ _, 0) sample_service.

Definition sample_client : Client := {| endpoint := "https://kx/token"; hc := () |}.

(** The client asks the sample service for a ccache, over the wire. *)
Lemma Client_Exchange_end_to_end_witness :
  match sample_exchange "wide" empty_state with
  | (Ok cred, st1) =>
    match cred_CCache cred with
    | Ok raw => ∃ cred' st3,
        Client_Exchange sample_client "wide" imap_h OutputCCache empty_state = (Ok cred', st3) ∧ cred_CCache cred' = Ok raw
    | Err _ => False
    end
  | _ => False
  end.
Proof.
  assert (match sample_exchange "wide" empty_state with
          | (Ok cred, _) => is_ok (cred_CCache cred) | _ => false end = true) as Hc by by vm_compute.
  destruct (sample_exchange "wide" empty_state) as [[cred|e] st1] eqn:E; [|done].
  assert (wf_spn imap_h) as Hwf by (refine (bool_decide_eq_true_1 _ _); by vm_compute).
  destruct (cred_CCache cred) as [raw|e] eqn:Ec; [|done].
  assert (representation OutputCCache cred = Ok raw) as Er by exact Ec.
  pose proof (Client_Exchange_end_to_end (λ _, 0) sample_service sample_client "wide" imap_h
    OutputCCache empty_state (Ok cred) st1 ltac:(done) Hwf ltac:(by left) E) as Hend.
  cbv beta iota zeta in Hend. rewrite Er in Hend.
  destruct Hend as (now & st2 & now' & st3 & cred' & _ & _ & Hrun & _ & Hrep & _).
  exists cred', st3. split; [exact Hrun|exact Hrep].
Defined.

Lemma expires_in_exact_witness :
  expires_in (λ _, 0) (UTC (Unix 1300)) (UTC (Unix 1000)) = 300 ∧
  instant (Add (UTC (Unix 1001)) (int64 (expires_in (λ _, 0) (UTC (Unix 1300)) (UTC (Unix 1000)) * Second)))
    = instant (UTC (Unix 1300)) + (instant (UTC (Unix 1001)) - instant (UTC (Unix 1000))).
Proof.
  assert (∀ n, bool_decide (0 ≤ sec (UTC (Unix n)) ≤ 2 ^ 61) = true →
            0 ≤ sec (UTC (Unix n)) ≤ 2 ^ 61) as Hsec by (intros n; apply bool_decide_eq_true_1).
  destruct (expires_in_exact (λ _, 0) (UTC (Unix 1300)) (UTC (Unix 1000)) (UTC (Unix 1001)) 300)
    as [He Hi];
    [apply UTC_ok, Unix_ok|apply UTC_ok, Unix_ok|done|by apply Hsec|by apply Hsec|lia
    |apply UTC_ok, Unix_ok|by apply Hsec|by vm_compute|].
  split; [exact He|]. apply Hi. unfold maxSeconds. lia.
Defined.

(** The same exchange asked for with the output 7. *)
Lemma Client_Exchange_mislabels_witness :
  match sample_exchange "wide" empty_state with
  | (Ok cred, _) => ∃ raw cred' st2,
      Client_Exchange sample_client "wide" imap_h 7 empty_state = (Ok cred', st2) ∧
      cred_CCache cred = Ok raw ∧ cred_APReq cred' = Ok raw
  | _ => False
  end.
Proof.
  assert (match sample_exchange "wide" empty_state with
          | (Ok cred, _) => is_ok (cred_CCache cred) | _ => false end = true) as Hc by by vm_compute.
  destruct (sample_exchange "wide" empty_state) as [[cred|e] st1] eqn:E; [|done].
  assert (wf_spn imap_h) as Hwf by (refine (bool_decide_eq_true_1 _ _); by vm_compute).
  destruct (cred_CCache cred) as [raw|e] eqn:Ec; [|done].
  destruct (Client_Exchange_mislabels (λ _, 0) sample_service sample_client "wide" imap_h 7
    empty_state cred st1 raw ltac:(done) Hwf ltac:(by intros [|]) E Ec)
    as (cred' & st2 & Hrun & Hap & _).
  exists raw, cred', st2. split; [exact Hrun|]. split; [done|exact Hap].
Defined.
