(* ===== verification/Daemon.v ===== *)
(** * Daemon: the standalone server (cmd/kerbexchanged/main.go)

    [main] as a function of the parsed command line: the checks it makes, the
    parts it builds and how it wires them.  [log.Fatal] and the panic of
    [mux.Handle] end the program and are errors; what is served is the value
    the function returns. *)
From Stdlib Require Import SpecFloat.
From S2P Require Import Prelude Errors GoText GoTime GoFloat GoJson GoUrl GoHttp Principal.
From S2P Require Import Request Krb5 Symbolic Credential Cache Claims Pac KeySource Minter Issue.
From S2P Require Import Validators Service Http.

(** The command line after [flag.Parse]. *)
Record Flags := {
  flag_addr : string;
  flag_keytab : string;
  flag_realm : string;
  flag_jwksURL : string;
  flag_domainSID : string;
  flag_tokenPath : string;
  flag_maxLifetime : Duration;
}.

(** The defaults of the flags that are not given. *)
Definition default_flags : Flags :=
  {| flag_addr := ":8080"; flag_keytab := ""; flag_realm := ""; flag_jwksURL := "";
     flag_domainSID := ""; flag_tokenPath := "/token"; flag_maxLifetime := 300 * Second |}.

Definition fatal (msg : string) : error := New ("kerbexchanged: " +:+ msg).
Definition fatal_with (msg : string) (e : error) : error :=
  Errorf [Lit ("kerbexchanged: " +:+ msg +:+ ": "); Fv e].

Section daemon.
Context `{Krb5} {W : Type} `{!Krb5Eff W} `{!Clock W} `{!Jwx W} `{TokenExchangeHTTP} `{!Unicode}.
Variable out_of_range : float64 → Z.

Definition DaemonService : Type :=
  ExchangeService (V:=JWKSValidator) (R:=StaticResolver) (M:=DirectMinter (K:=KeytabSource)).

(** The HTTP server: its address, the one route of its mux, and the shared
    state the handler's exchanges start from. *)
Record Server := {
  srv_Addr : string;
  srv_Path : string;
  srv_Service : DaemonService;
  srv_Cache : MemoryCache;
  srv_ReadHeaderTimeout : Duration;
}.

Definition daemon_main (f : Flags) : eff W Server :=
  if bool_decide (flag_keytab f = "") then fail (fatal "-keytab is required")
  else if bool_decide (flag_realm f = "") then fail (fatal "-realm is required")
  else if bool_decide (flag_jwksURL f = "") then fail (fatal "-jwks-url is required")
  else if bool_decide (flag_domainSID f = "") then fail (fatal "-domain-sid is required")
  else
    ks ← emap_err (fatal_with "loading keytab") (LoadKeytabSource (flag_keytab f) (flag_realm f));
    pb ← lift (map_err (fatal_with "creating PAC builder")
                 (NewSyntheticPACBuilder (flag_domainSID f)));
    v ← emap_err (fatal_with "creating JWKS validator") (NewJWKSValidator (flag_jwksURL f) []);
    let svc : DaemonService := {|
      svc_Validator := v;
      svc_Resolver := {| DefaultRealm := flag_realm f |};
      svc_Minter := WithPACBuilder (NewDirectMinter ks (flag_realm f)) (Build pb);
      MaxLifetime := flag_maxLifetime f;
    |} in
    _ ← lift (mux_Handle (flag_tokenPath f));
    mret {| srv_Addr := flag_addr f; srv_Path := flag_tokenPath f; srv_Service := svc;
            srv_Cache := NewMemoryCache; srv_ReadHeaderTimeout := 10 * Second |}.

(** The handler at the server's path; the cache is shared by all requests. *)
Definition serve (srv : Server) : HttpRequest → svc_state (C:=MemoryCache) (W:=W) →
    reply * svc_state (C:=MemoryCache) (W:=W) :=
  Handler out_of_range (srv_Service srv).

(** How a server that came up is wired. *)
Lemma daemon_wiring f w srv w' :
  daemon_main f w = (Ok srv, w') →
  flag_realm f ≠ "" ∧ DefaultRealm (svc_Resolver (srv_Service srv)) = flag_realm f ∧
  srv_Cache srv = NewMemoryCache ∧
  dm_defaultRealm (svc_Minter (srv_Service srv)) = flag_realm f ∧
  ∃ kt w1, keytab_Load (flag_keytab f) w = (Ok kt, w1) ∧
           dm_keys (svc_Minter (srv_Service srv)) = NewKeytabSource kt (flag_realm f).
Proof.
  unfold daemon_main. do 4 (case_bool_decide; [done|]). intros Hrun.
  apply eff_bind_Ok in Hrun as (ks & w1 & Hk%emap_err_Ok & Hrun).
  apply eff_bind_Ok in Hrun as (pb & w2 & [_ ->]%lift_Ok & Hrun).
  apply eff_bind_Ok in Hrun as (v & w3 & _ & Hrun).
  apply eff_bind_Ok in Hrun as (u & w4 & _ & [-> _]%ret_Ok).
  apply eff_bind_Ok in Hk as (kt & w5 & Hk%emap_err_Ok & [-> ->]%ret_Ok).
  split_and!; try done. by exists kt, w5.
Qed.

(** The flags the daemon requires, in the order it checks them. *)
Definition required_flags (f : Flags) : list (string * string) :=
  [("keytab", flag_keytab f); ("realm", flag_realm f); ("jwks-url", flag_jwksURL f);
   ("domain-sid", flag_domainSID f)].

(** The first flag that is missing, if there is one. *)
Definition missing_flag (f : Flags) : option string :=
  fst <$> head (filter (λ p, p.2 = "") (required_flags f)).

(** [main] past the checks. *)
Lemma daemon_main_missing f w name :
  missing_flag f = Some name →
  daemon_main f w = (Err (fatal ("-" +:+ name +:+ " is required")), w).
Proof.
  unfold missing_flag, required_flags, daemon_main. rewrite !filter_cons, filter_nil. cbn [snd].
  repeat (case_decide; [rewrite bool_decide_true by done; by intros [= <-]|
                        rewrite bool_decide_false by done]).
  by intros [=].
Qed.

Lemma missing_flag_None f :
  missing_flag f = None ↔
  flag_keytab f ≠ "" ∧ flag_realm f ≠ "" ∧ flag_jwksURL f ≠ "" ∧ flag_domainSID f ≠ "".
Proof.
  unfold missing_flag, required_flags. rewrite !filter_cons, filter_nil. cbn [snd].
  repeat case_decide; cbn; naive_solver.
Qed.

(** *** Properties *)

(** C26. The daemon starts only when it can serve.  If required flags are
    missing it ends with the name of the first of them before it touches the
    keytab or the network; a server comes up if and only if the keytab loads,
    the domain SID parses, the key set is fetched and the token path is a
    pattern the mux takes - for a plain path, when it has a slash - and then it
    serves the flags' realm, keytab, SID, key set and lifetime cap with an
    empty cache - checking no issuer and no audience, and filtering no groups
    by scope. *)
Theorem daemon_main_spec f w :
  (∀ name, missing_flag f = Some name →
     daemon_main f w = (Err (fatal ("-" +:+ name +:+ " is required")), w)) ∧
  (plain_path (flag_tokenPath f) →
     mux_Handle (flag_tokenPath f) = Ok tt ↔ has_byte "/" (flag_tokenPath f) = true) ∧
  (∀ srv w', daemon_main f w = (Ok srv, w') ↔
     missing_flag f = None ∧
     ∃ kt w1 sid cache w2 w3 w4,
       keytab_Load (flag_keytab f) w = (Ok kt, w1) ∧
       parseDomainSID (flag_domainSID f) = Ok sid ∧
       NewCache w1 = (Ok cache, w2) ∧ Register cache (flag_jwksURL f) w2 = (Ok (), w3) ∧
       Refresh cache (flag_jwksURL f) w3 = (Ok (), w4) ∧ w' = w4 ∧
       mux_Handle (flag_tokenPath f) = Ok tt ∧
       srv = {|
         srv_Addr := flag_addr f; srv_Path := flag_tokenPath f;
         srv_Service := {|
           svc_Validator := {| keySet := NewCachedSet cache (flag_jwksURL f);
                               cfg := {| issuer := ""; audience := ""; clockSkew := 0 |} |};
           svc_Resolver := {| DefaultRealm := flag_realm f |};
           svc_Minter := {| dm_keys := NewKeytabSource kt (flag_realm f);
                            dm_defaultRealm := flag_realm f;
                            pacBuilder := Some (Build {|
                              DomainSID := sid; DefaultPrimaryGroupRID := 513;
                              pb_GroupsClaim := ""; GroupOverrides := ∅;
                              pb_ScopeFilter := None; pb_Mapper := None |}) |};
           MaxLifetime := flag_maxLifetime f |};
         srv_Cache := NewMemoryCache; srv_ReadHeaderTimeout := 10 * Second |}).
Proof.
  split; [apply daemon_main_missing|]. split; [apply mux_Handle_plain|]. intros srv w'.
  destruct (missing_flag f) as [name|] eqn:Em.
  { rewrite (daemon_main_missing _ w _ Em). split; [done|by intros [? _]]. }
  apply missing_flag_None in Em as (E1 & E2 & E3 & E4). unfold daemon_main.
  rewrite !bool_decide_false by done. split.
  - intros Hrun. split; [done|].
    unfold LoadKeytabSource, NewSyntheticPACBuilder, NewJWKSValidator in Hrun. inv_ok.
    repeat match goal with u : () |- _ => destruct u end.
    by do 7 eexists.
  - intros (_ & kt & w1 & sid & cache & w2 & w3 & w4 & Hk & Hs & Hc & Hr & Hf & -> & Hm & ->).
    unfold LoadKeytabSource, NewSyntheticPACBuilder, NewJWKSValidator,
      mbind, eff_bind, emap_err, lift, result_bind, mret, eff_ret.
    rewrite Hk. cbn [map_err]. rewrite Hs. cbn [map_err]. rewrite Hc. rewrite Hr.
    cbn [map_err]. rewrite Hf, Hm. done.
Qed.
End daemon.
