(* ===== verification/Server.v ===== *)
(** * Server: the endpoint serving many requests at once

    The HTTP server runs one handler per request, and the handlers share the
    service's cache and environment.  Here a handler is a thread - it parses,
    runs the exchange call by call (Concurrency.v), and writes one reply - and
    the server steps when a request arrives, when any handler makes its next
    move, or when the environment changes.  The server refines the system of
    concurrent exchanges, so what is proved of every interleaving there holds
    of every reply here; and a daemon that has come up (Daemon.v) is such a
    server. *)
From S2P Require Import Prelude Errors GoText GoTime GoOs GoFloat GoJson GoUrl GoHttp Principal.
From S2P Require Import Request Krb5 Symbolic Credential Cache Claims Pac KeySource Minter Issue.
From S2P Require Import Validators Service Concurrency Http Daemon.
From stdpp Require Import relations.

Section server.
Context `{Krb5} {W : Type} `{!Krb5Eff W} `{!Clock W} `{TokenExchangeHTTP}.
Context {V R M C : Type} `{!TokenValidator V W} `{!Resolver R W} `{!Minter M W} `{!Cache C W}.
Variable out_of_range : float64 → Z.
Variable s : ExchangeService (V:=V) (R:=R) (M:=M).

Abbreviation state := (svc_state (C:=C) (W:=W)).

(** Where a handler stands.  A handler that has replied remembers how its
    exchange ended, if it made one. *)
Inductive handler :=
| HStart (r : HttpRequest)
| HExchange (r : HttpRequest) (req : ExchangeRequest) (p : pc)
| HGranted (r : HttpRequest) (req : ExchangeRequest) (p : pc) (cred : Credential) (raw : bytes)
| HReplied (r : HttpRequest) (p : option pc) (rep : reply).

Definition hnext (h : handler) (st : state) : handler * state :=
  match h with
  | HStart r =>
    match read_request r with
    | inr rep => (HReplied r None rep, st)
    | inl req => (HExchange r req (PStart req), st)
    end
  | HExchange r req p =>
    match returned p with
    | None => let '(p', st') := next s p st in (HExchange r req p', st')
    | Some res =>
      match granted_bytes req res with
      | inr rep => (HReplied r (Some p) rep, st)
      | inl (cred, raw) => (HGranted r req p cred raw, st)
      end
    end
  | HGranted r req p cred raw =>
    let '(now, st') := Now st in (HReplied r (Some p) (token_reply out_of_range req cred raw now), st')
  | HReplied _ _ _ => (h, st)
  end.

Definition replied (h : handler) : option reply :=
  match h with HReplied _ _ rep => Some rep | _ => None end.

Fixpoint hrun (n : nat) (h : handler) (st : state) : handler * state :=
  match n with
  | O => (h, st)
  | S n' => let '(h', st') := hnext h st in hrun n' h' st'
  end.

(** *** Configurations of the server *)

Definition server_config : Type := list handler * state.

Inductive hstep : server_config → server_config → Prop :=
| hstep_arrive hs st r : hstep (hs, st) (hs ++ [HStart r], st)
| hstep_handler hs st i h h' st' :
    hs !! i = Some h → hnext h st = (h', st') → hstep (hs, st) (<[i := h']> hs, st')
| hstep_env hs c w w' : hstep (hs, (c, w)) (hs, (c, w')).

(** The exchange a handler made. *)
Definition exchange_of (h : handler) : option pc :=
  match h with
  | HStart _ => None
  | HExchange _ _ p | HGranted _ _ p _ _ => Some p
  | HReplied _ p _ => p
  end.

(** *** Lemmas *)

(** The request of a thread. *)
Definition pc_req (p : pc) : ExchangeRequest :=
  match p with
  | PStart req | PValidated req _ | PMissed req _ | PResolved req _ _ | PTimed req _ _ _
  | PMinted req _ _ | PIssued req _ _ | PReturned req _ _ | PFailed req _ => req
  end.

Lemma next_req p st p' st' : next s p st = (p', st') → pc_req p' = pc_req p.
Proof.
  assert (∀ A req (m : eff state A) k, (∀ a, pc_req (k a) = req) →
            ∀ q st1, call req m k st = (q, st1) → pc_req q = req) as Hcall.
  { intros A req m k Hk q st1. unfold call. destruct (m st) as [[a|e] st2]; by intros [= <- _]. }
  destruct p as [| | | |? ? [[? ?] ?] ?| | | |]; cbn [next pc_req]; intros Hn;
    first [by injection Hn as <- _ | eapply Hcall in Hn; [exact Hn|]]; try done.
  by intros [c|].
Qed.

(** The HTTP request of a handler. *)
Definition hreq (h : handler) : HttpRequest :=
  match h with
  | HStart r | HExchange r _ _ | HGranted r _ _ _ _ | HReplied r _ _ => r
  end.

(** What the state of a handler says about its request. *)
Definition parsed (r : HttpRequest) (req : ExchangeRequest) : Prop :=
  ∃ wire, ParseTokenExchangeRequest r = Ok wire ∧ ExchangeRequestFromWire wire = Ok req.

Lemma read_request_parsed r req : read_request r = inl req → parsed r req.
Proof.
  unfold read_request. destruct (ParseTokenExchangeRequest r) as [wire|e] eqn:Ep; [|done].
  destruct (ExchangeRequestFromWire wire) eqn:Ew; [|done]. intros [= <-]. by exists wire.
Qed.

Lemma parsed_wf r req : parsed r req → wf_spn (Target req).
Proof.
  intros (wire & _ & (_ & _ & _ & _ & _ & Ht)%FromWire_Ok). by apply parse_Ok in Ht as [? _].
Qed.

(** A refusal is an error reply. *)
Lemma read_request_refuses r rep : read_request r = inr rep → ∃ h e, rep = ReplyError h e.
Proof. unfold read_request, error_reply. repeat case_match; intros [= <-]; eauto. Qed.

Lemma granted_bytes_refuses req res rep :
  granted_bytes req res = inr rep → ∃ h e, rep = ReplyError h e.
Proof. unfold granted_bytes, error_reply. repeat case_match; intros [= <-]; eauto. Qed.

Lemma granted_bytes_Ok req res cred raw :
  granted_bytes req res = inl (cred, raw) → res = Ok cred ∧ representation (Output req) cred = Ok raw.
Proof.
  unfold granted_bytes. destruct res as [c|e]; [|done].
  destruct (representation _ c) eqn:Er; [|done]. by intros [= <- <-].
Qed.

Definition handler_ok (h : handler) : Prop :=
  (∀ p, exchange_of h = Some p → parsed (hreq h) (pc_req p)) ∧
  match h with
  | HStart _ | HReplied _ _ (ReplyError _ _) => True
  | HExchange r req p => pc_req p = req
  | HGranted r req p cred raw =>
      representation (Output req) cred = Ok raw ∧ ∃ id, p = PReturned req id cred
  | HReplied r p (ReplyToken h t) =>
      ∃ req id cred raw now, p = Some (PReturned req id cred) ∧
        representation (Output req) cred = Ok raw ∧
        ReplyToken h t = token_reply out_of_range req cred raw now
  end.

Lemma hnext_ok h st h' st' : handler_ok h → hnext h st = (h', st') → handler_ok h'.
Proof.
  destruct h as [r|r req p|r req p cred raw|r p rep]; cbn [hnext]; intros [Hp Hh] Hn.
  - destruct (read_request r) as [req|rep] eqn:Er; injection Hn as <- _.
    + split; [|done]. intros p [= <-]. by apply read_request_parsed.
    + apply read_request_refuses in Er as (h & e & ->). done.
  - destruct (returned p) as [res|] eqn:Er.
    + destruct (granted_bytes req res) as [[cred raw]|rep] eqn:Eg; injection Hn as <- _.
      * apply granted_bytes_Ok in Eg as [-> Hrep]. split; [done|]. split; [done|].
        cbn in Hh. destruct p; simplify_eq/=. by eexists.
      * apply granted_bytes_refuses in Eg as (h & e & ->). done.
    + destruct (next s p st) as [p' st1] eqn:En. injection Hn as <- _.
      apply next_req in En. split; [|by rewrite En]. intros q [= <-]. rewrite En. by apply Hp.
  - destruct (Now st) as [now st1]. injection Hn as <- _. destruct Hh as (Hrep & id & ->).
    split; [done|]. by exists req, id, cred, raw, now.
  - by injection Hn as <- _.
Qed.

(** A handler that has replied stays as it is, and runs split. *)
Lemma hrun_replied n r p rep st : hrun n (HReplied r p rep) st = (HReplied r p rep, st).
Proof. induction n; [done|]. exact IHn. Qed.

Lemma hrun_S n h st : hrun (S n) h st = let '(h', st') := hnext h st in hrun n h' st'.
Proof. done. Qed.

Lemma hrun_add n k h st :
  hrun (n + k) h st = let '(h', st') := hrun n h st in hrun k h' st'.
Proof.
  revert h st. induction n as [|n IH]; intros h st; [done|].
  change (S n + k)%nat with (S (n + k)). rewrite !hrun_S. destruct (hnext h st). apply IH.
Qed.

(** While its exchange runs, the handler's moves are the exchange's calls; an
    exchange that ends early lets the handler go on. *)
Lemma hrun_exchange n r req p st p' st' :
  run s n p st = (p', st') → returned p' ≠ None →
  ∃ k, (k ≤ n)%nat ∧ hrun k (HExchange r req p) st = (HExchange r req p', st').
Proof.
  revert p st. induction n as [|n IH]; intros p st Hrun Hret.
  - injection Hrun as -> ->. by exists 0%nat.
  - cbn [run] in Hrun. destruct (returned p) as [o|] eqn:Er.
    + rewrite (next_returned s _ _ _ Er) in Hrun.
      destruct (IH p st Hrun Hret) as (k & Hk & Hrk). exists k. split; [lia|done].
    + destruct (next s p st) as [p1 st1] eqn:En.
      destruct (IH p1 st1 Hrun Hret) as (k & Hk & Hrk). exists (S k). split; [lia|].
      rewrite hrun_S. cbn [hnext]. by rewrite Er, En.
Qed.

(** The handler's function is its thread run alone: after at most ten moves
    without interference it has written the same reply and left the same
    cache and environment. *)
Lemma handler_alone r st :
  let '(rep, st') := Handler out_of_range s r st in
  ∃ n h, (n ≤ 10)%nat ∧ hrun n (HStart r) st = (h, st') ∧ replied h = Some rep.
Proof.
  unfold Handler. cbn [Exchange ExchangeService_Exchanger].
  destruct (read_request r) as [req|rep] eqn:Er.
  2:{ exists 1%nat, (HReplied r None rep). rewrite hrun_S. cbn [hnext]. rewrite Er.
      split_and!; [lia|done|done]. }
  pose proof (run_alone s req st) as Halone. destruct (Service_Exchange s req st) as [res st1].
  destruct Halone as (p & Hrun & Hret).
  destruct (hrun_exchange 7 r req _ _ _ _ Hrun ltac:(by rewrite Hret)) as (k & Hk & Hrk).
  assert (∀ n h st', hrun n (HExchange r req p) st1 = (h, st') → (n ≤ 2)%nat →
            hrun (1 + (k + n)) (HStart r) st = (h, st') ∧ (1 + (k + n) ≤ 10)%nat) as Hgo.
  { intros n h st' Hn Hle. split; [|lia]. rewrite hrun_S. cbn [hnext]. rewrite Er.
    by rewrite hrun_add, Hrk. }
  destruct (granted_bytes req res) as [[cred raw]|rep] eqn:Eg.
  - destruct (Now st1) as [now st2] eqn:En.
    destruct (Hgo 2%nat (HReplied r (Some p) (token_reply out_of_range req cred raw now)) st2)
      as [Hr Hle]; [|lia|by eexists _, _].
    rewrite hrun_S. cbn [hnext]. rewrite Hret, Eg, hrun_S. cbn [hnext]. by rewrite En.
  - destruct (Hgo 1%nat (HReplied r (Some p) rep) st1) as [Hr Hle];
      [rewrite hrun_S; cbn [hnext]; by rewrite Hret, Eg|lia|by eexists _, _].
Qed.

(** *** The server refines the concurrent exchanges *)

Definition simulates (sc : server_config) (cf : config (C:=C) (W:=W)) : Prop :=
  cf.1 ≡ₚ omap exchange_of sc.1 ∧ cf.2 = sc.2.

Lemma omap_insert_perm hs i h h' :
  hs !! i = Some h →
  ∃ rest, omap exchange_of hs ≡ₚ option_list (exchange_of h) ++ rest ∧
          omap exchange_of (<[i := h']> hs) ≡ₚ option_list (exchange_of h') ++ rest.
Proof.
  intros Hi. exists (omap exchange_of (take i hs ++ drop (S i) hs)).
  assert (∀ x, omap exchange_of (take i hs ++ x :: drop (S i) hs) ≡ₚ
               option_list (exchange_of x) ++ omap exchange_of (take i hs ++ drop (S i) hs)) as Hp.
  { intros x. rewrite <- Permutation_middle. simpl. by destruct (exchange_of x). }
  split.
  - rewrite <- Hp. by rewrite take_drop_middle.
  - rewrite <- Hp. rewrite insert_take_drop; [done|]. by eapply lookup_lt_Some.
Qed.

Lemma perm_step (ts : list pc) p rest p' :
  ts ≡ₚ p :: rest → ∃ j, ts !! j = Some p ∧ <[j := p']> ts ≡ₚ p' :: rest.
Proof.
  intros Hp. assert (p ∈ ts) as (j & Hj)%list_elem_of_lookup by (rewrite Hp; left).
  exists j. split; [done|].
  assert (ts ≡ₚ p :: (take j ts ++ drop (S j) ts)) as Hts.
  { rewrite Permutation_middle. by rewrite take_drop_middle. }
  rewrite insert_take_drop by (by eapply lookup_lt_Some).
  rewrite <- Permutation_middle. f_equiv. apply (Permutation_cons_inv (a:=p)).
  by rewrite <- Hts.
Qed.

Lemma hstep_simulated sc sc' cf :
  hstep sc sc' → simulates sc cf →
  ∃ cf', rtc (step s) cf cf' ∧ simulates sc' cf'.
Proof.
  intros Hstep [Hts Hst]. destruct cf as [ts st0]. simpl in Hts, Hst. subst st0.
  destruct Hstep as [hs st r|hs st i h h' st' Hi Hn|hs c w w']; cbn [fst snd] in *.
  - exists (ts, st). split; [done|]. split; [|done]. simpl. by rewrite omap_app, app_nil_r.
  - destruct (omap_insert_perm hs i h h' Hi) as (rest & Hp & Hp').
    rewrite Hp in Hts. unfold simulates. cbn [fst snd]. setoid_rewrite Hp'.
    destruct h as [r|r req p|r req p cred raw|r p rep]; cbn [hnext exchange_of option_list app] in *.
    + destruct (read_request r) as [req|rep]; injection Hn as <- <-; [|by exists (ts, st)].
      exists (ts ++ [PStart req], st). split; [apply rtc_once, step_arrive|].
      split; [|done]. cbn. rewrite Hts. by rewrite Permutation_app_comm.
    + destruct (returned p) as [res|].
      * destruct (granted_bytes req res) as [[cred raw]|rep]; injection Hn as <- <-;
          by exists (ts, st).
      * destruct (next s p st) as [p' st1] eqn:En. injection Hn as <- <-.
        destruct (perm_step ts p rest p' Hts) as (j & Hj & Hj').
        exists (<[j := p']> ts, st1). split; [|done]. by eapply rtc_once, step_thread.
    + destruct (Now st) as [now st1] eqn:En. injection Hn as <- <-.
      exists (ts, st1). split; [|done].
      destruct st as [c w]. unfold Now, svc_clock in En. simpl in En. destruct (Now w) as [n w2].
      injection En as <- <-. apply rtc_once, step_env.
    + injection Hn as <- <-. by exists (ts, st).
  - exists (ts, (c, w')). split; [apply rtc_once, step_env|done].
Qed.

Lemma hstep_ok sc sc' : Forall handler_ok sc.1 → hstep sc sc' → Forall handler_ok sc'.1.
Proof.
  intros Hok Hstep. destruct Hstep as [hs st r|hs st i h h' st' Hi Hn|hs c w w'];
    cbn [fst] in *; [| |done].
  - apply Forall_app. split; [done|]. by repeat constructor.
  - apply Forall_insert; [done|]. eapply hnext_ok; [|done]. by eapply Forall_lookup_1.
Qed.

Lemma server_reachable_ok sc st0 : rtc hstep ([], st0) sc → Forall handler_ok sc.1.
Proof.
  intros Hr. apply (rtc_ind_r (λ sc, Forall handler_ok sc.1) ([], st0)) in Hr; [done| |].
  - constructor.
  - intros x y _ Hxy Hx. by eapply hstep_ok.
Qed.

Lemma server_simulated sc st0 :
  rtc hstep ([], st0) sc → ∃ cf, rtc (step s) ([], st0) cf ∧ simulates sc cf.
Proof.
  intros Hr.
  apply (rtc_ind_r (λ sc, ∃ cf, rtc (step s) ([], st0) cf ∧ simulates sc cf) ([], st0)) in Hr;
    [done| |].
  - by exists ([], st0).
  - intros x y _ Hxy (cf & Hcf & Hsim).
    destruct (hstep_simulated _ _ _ Hxy Hsim) as (cf' & Hs & Hsim').
    exists cf'. split; [by etrans|done].
Qed.

(** The identity of a handler's exchange comes from a validation in the run. *)
Definition hholder (h : handler) : option (ExchangeRequest * Identity) :=
  p ← exchange_of h; holder p.

Lemma hnext_holder h st h' st' req id :
  hnext h st = (h', st') → hholder h' = Some (req, id) →
  hholder h = Some (req, id) ∨ validates s req id st.
Proof.
  unfold hholder. destruct h as [r|r q p|r q p cred raw|r p rep]; cbn [hnext].
  - destruct (read_request r); by intros [= <- _].
  - destruct (returned p) as [res|].
    + destruct (granted_bytes q res) as [[cred raw]|rep]; intros [= <- _]; by left.
    + destruct (next s p st) as [p' st1] eqn:En. intros [= <- _]. cbn. by eapply next_holder.
  - destruct (Now st). intros [= <- _]. by left.
  - intros [= <- _]. by left.
Qed.

Lemma server_holder st0 tr sc h req id :
  path hstep ([], st0) tr sc → h ∈ sc.1 → hholder h = Some (req, id) → validated_in s tr req id.
Proof.
  intros Hr Hh Hid.
  destruct (path_origin hstep (λ sc, ∃ h, h ∈ sc.1 ∧ hholder h = Some (req, id))
    (λ sc, validates s req id sc.2) ([], st0) tr sc) as [(? & ?%not_elem_of_nil & _)|Hv];
    [|exact Hr|by exists h|done|exact Hv].
  clear.
  intros u v Huv (h & Hh & Hid).
  destruct Huv as [hs st r|hs st i q q' st' Hi Hn|hs c w w']; cbn [fst snd] in *; [| |by eauto].
  - left. exists h. split; [|done].
    apply elem_of_app in Hh as [Hh|Hh]; [done|]. by apply list_elem_of_singleton in Hh as ->.
  - apply elem_of_update in Hh as [->|Hh]; [|by eauto].
    destruct (hnext_holder _ _ _ _ _ _ Hn Hid) as [Hq|Hv]; [left|by right].
    exists q. split; [by eapply list_elem_of_lookup_2|done].
Qed.

(** No handler's exchange has returned for a subject that holds a NUL byte. *)
Definition nul_free (h : handler) : Prop :=
  match exchange_of h with
  | Some (PReturned _ id _) => has_byte Ascii.zero (Subject id) = false
  | _ => True
  end.

(** The targets the parser lets through are well formed, so such handlers'
    exchanges are told apart by their cache keys. *)
Lemma handlers_separable hs :
  Forall handler_ok hs → Forall nul_free hs → Forall separable (omap exchange_of hs).
Proof.
  intros Hok Hnul. apply Forall_forall. intros p (h & Hh & Hp)%list_elem_of_omap.
  pose proof (proj1 (Forall_forall _ _) Hok _ Hh) as [Hpar _].
  pose proof (proj1 (Forall_forall _ _) Hnul _ Hh) as Hn. unfold nul_free in Hn. rewrite Hp in Hn.
  specialize (Hpar p Hp). destruct p; cbn in *; try done. split; [done|by eapply parsed_wf].
Qed.

(** A schedule: which handler moves next. *)
Fixpoint hschedule (is_ : list nat) (sc : server_config) : server_config :=
  match is_ with
  | [] => sc
  | i :: rest =>
    match sc.1 !! i with
    | Some h => let '(h', st') := hnext h sc.2 in hschedule rest (<[i := h']> sc.1, st')
    | None => hschedule rest sc
    end
  end.

Lemma hschedule_reachable is_ sc : rtc hstep sc (hschedule is_ sc).
Proof.
  revert sc. induction is_ as [|i rest IH]; intros [hs st]; [done|]. cbn [hschedule fst snd].
  destruct (hs !! i) as [h|] eqn:Hi; [|apply IH].
  destruct (hnext h st) as [h' st'] eqn:Hn.
  eapply rtc_l; [by eapply hstep_handler|apply IH].
Qed.

Lemma arrivals_reachable rs hs st : rtc hstep (hs, st) (hs ++ map HStart rs, st).
Proof.
  revert hs. induction rs as [|r rs IH]; intros hs; [by rewrite app_nil_r|].
  eapply rtc_l; [apply (hstep_arrive _ _ r)|].
  replace (hs ++ map HStart (r :: rs)) with ((hs ++ [HStart r]) ++ map HStart rs); [apply IH|].
  by rewrite <- app_assoc.
Qed.

(** *** Properties *)

(** C4. The server refines the concurrent exchanges.  Every state it can reach -
    whatever requests came, in whatever order their handlers moved - is
    matched by a reachable state of the system of exchanges with the same
    cache and environment and, in some order, exactly the exchanges its
    handlers have begun; so its handlers share state in no other way.  And
    every exchange is of the request its handler parsed, for a well-formed
    target. *)
Theorem server_refines_exchanges hs st st0 :
  rtc hstep ([], st0) (hs, st) →
  (∃ ts, rtc (step s) ([], st0) (ts, st) ∧ ts ≡ₚ omap exchange_of hs) ∧
  Forall (λ h, ∀ p, exchange_of h = Some p →
                 parsed (hreq h) (pc_req p) ∧ wf_spn (Target (pc_req p))) hs.
Proof.
  intros Hr. split.
  - destruct (server_simulated _ _ Hr) as ([ts st'] & Hrs & Hp & Hst). cbn [fst snd] in *. subst.
    by exists ts.
  - eapply Forall_impl; [exact (server_reachable_ok _ _ Hr)|].
    intros h [Hp _] p Hh. split; [by apply Hp|]. eapply parsed_wf. by apply Hp.
Qed.
End server.

(** ** What a reply of the server is worth *)

Section delivered.
Context `{Krb5} {W : Type} `{!Krb5Eff W} `{!Clock W} `{!Acceptor} `{!AcceptorLaws W}.
Context {V : Type} `{!TokenValidator V W}.

Abbreviation KeytabService := (ExchangeService (V:=V) (R:=StaticResolver)
                                 (M:=DirectMinter (K:=KeytabSource))).

(** The bytes are a credential for [client]: the holder of [skey] accepts them
    as a token, or accepts the one ticket in them as a ccache. *)
Definition delivers (skey : EncryptionKey) (client : PrincipalName) (realm : string)
    (o : OutputType) (raw : bytes) : Prop :=
  ∃ etp, CName etp = client ∧ CRealm etp = realm ∧
    ((o = OutputCCache ∧ ∃ c t,
        Unmarshal_CCache raw = Some (NewPrincipal client realm, [c]) ∧
        Unmarshal_Ticket (cc_Ticket c) = Some t ∧ read_ticket skey t = Some etp ∧
        cc_Key c = Key etp) ∨
     (o = OutputAPReq ∧ ((len raw < 2 ^ 63)%Z → ∃ auth,
        accept_token skey raw = Some (etp, auth) ∧
        auth_CName auth = client ∧ auth_CRealm auth = realm))).

(** What issuing delivers to the key of the target. *)
Lemma issued_delivers (s : KeytabService) req id now cred raw :
  let realm := DefaultRealm (svc_Resolver s) in
  realm ≠ "" →
  issued s req id now cred → representation (Output req) cred = Ok raw →
  ∃ skey kvno,
    ServiceKey (dm_keys (svc_Minter s)) (resolve_realm realm (Target req))
      AES256_CTS_HMAC_SHA1_96 = Ok (skey, kvno) ∧
    delivers skey {| NameType := KRB_NT_PRINCIPAL; NameString := [Subject id] |} realm
      (Output req) raw.
Proof.
  intros realm Hne (cname & crealm & target & mt & w1 & w2 & w3 & w4 & w5 & w6 & Hr & Hm & Hc) Hraw.
  cbn in Hr. unfold StaticResolver_Resolve in Hr. apply ret_Ok in Hr as [[= -> -> ->] _].
  destruct (minted_agrees _ _ _ _ _ _ Hm) as (skey & kvno & etp & Hk & Hread & Hkey & Hn & Hcr & _).
  destruct (DirectMinter_fields _ _ _ _ _ _ Hm) as (Hcn & Hmr & _).
  specialize (Hmr Hne). cbn in Hcn, Hmr. fold realm in Hmr. exists skey, kvno. split; [exact Hk|].
  exists etp. split_and!; [congruence|congruence|].
  apply mt_Credential_inv in Hc as [(Ho & _ & cc & Hcc & ->)|(Ho & tok & Htok & ->)];
    unfold representation in Hraw; rewrite Ho in Hraw; cbn [Z.eqb] in Hraw.
  - left. split; [done|]. apply cred_CCache_Ok in Hraw as [<- _].
    destruct (MarshalCCache_reads _ _ Hcc) as (c & Hu & _ & _ & Hck & _ & Ht & _).
    exists c, (mt_Ticket mt). rewrite Hck, Hkey. split_and!; [|done..].
    etrans; [exact Hu|]. by rewrite Hcn, Hmr.
  - right. split; [done|]. intros Hlen. apply cred_APReq_Ok in Hraw as [<- _].
    destruct (accept_agreeing _ _ _ _ _ _ Hread Hkey Hn Hcr Htok Hlen) as (auth & Ha & Han & Har).
    exists auth. split_and!; [exact Ha|congruence..].
Qed.

(** What an exchange of a run that has returned delivers. *)
Lemma returned_delivers (s : KeytabService) ts req id cred raw :
  let realm := DefaultRealm (svc_Resolver s) in
  realm ≠ "" → Forall separable ts → PReturned req id cred ∈ ts →
  thread_ok s ts (PReturned req id cred) → representation (Output req) cred = Ok raw →
  ∃ skey kvno,
    ServiceKey (dm_keys (svc_Minter s)) (resolve_realm realm (Target req))
      AES256_CTS_HMAC_SHA1_96 = Ok (skey, kvno) ∧
    delivers skey {| NameType := KRB_NT_PRINCIPAL; NameString := [Subject id] |} realm
      (Output req) raw.
Proof.
  intros realm Hne Hsep Hin Hok Hraw.
  destruct (returned_issued _ _ _ _ _ Hsep Hin Hok)
    as (req' & id' & now & _ & Hiss & <- & <- & Ho). rewrite <- Ho in Hraw |- *.
  by eapply issued_delivers.
Qed.
End delivered.

Section daemon.
Context `{Krb5} {W : Type} `{!Krb5Eff W} `{!Clock W} `{!Acceptor} `{!AcceptorLaws W}.
Context `{!Jwx W} `{TokenExchangeHTTP} `{!Unicode}.
Variable out_of_range : float64 → Z.

(** C3. The whole daemon, from its command line to the service that is logged in
    to.  Once it has started, however the handlers of its requests
    interleave, a reply that hands out a token answers a request whose own
    access token the key set validated in a state of that run; and the bytes
    in it are a credential for that token's subject, in the daemon's realm and
    of the kind the request asked for, which the requested service accepts
    with the key it has in the daemon's keytab.  This holds of every run in which no exchange has
    returned a credential for a subject that holds a NUL byte - the one thing
    about its requests the daemon does not check itself; without it the cache
    key can be forged ([Service.Exchange_leaks_through_nul]). *)
Theorem daemon_delivers f w srv w1 tr hs st i r p h t :
  daemon_main f w = (Ok srv, w1) →
  path (hstep out_of_range (srv_Service srv)) ([], (Some (srv_Cache srv), w1)) tr (hs, st) →
  Forall nul_free hs →
  hs !! i = Some (HReplied r p (ReplyToken h t)) →
  ∃ req id kt skey kvno raw,
    parsed r req ∧
    validated_in (srv_Service srv) tr req id ∧
    (keytab_Load (flag_keytab f) w).1 = Ok kt ∧
    KeytabSource_ServiceKey (NewKeytabSource kt (flag_realm f))
      (resolve_realm (flag_realm f) (Target req)) AES256_CTS_HMAC_SHA1_96 = Ok (skey, kvno) ∧
    ter_AccessToken t = EncodeToString raw ∧ IssuedTokenType t = TokenType (Output req) ∧
    h = [("Cache-Control", "no-store")] ∧
    delivers skey {| NameType := KRB_NT_PRINCIPAL; NameString := [Subject id] |} (flag_realm f)
      (Output req) raw.
Proof.
  intros Hd Hpath Hnul Hi. pose proof (path_rtc _ _ _ _ Hpath) as Hreach.
  destruct (daemon_wiring _ _ _ _ Hd) as (Hrealm & Hres & Hcache & Hdr & kt & w2 & Hkt & Hkeys).
  pose proof (server_reachable_ok _ _ _ _ Hreach) as Hoks.
  pose proof (Forall_lookup_1 _ _ _ _ Hoks Hi) as [Hpar Hok]. cbn in Hpar, Hok.
  destruct Hok as (req & id & cred & raw & now & -> & Hrep & [= -> ->]).
  pose proof (handlers_separable _ _ Hoks Hnul) as Hsep.
  destruct (server_simulated _ _ _ _ Hreach) as ([ts st'] & Hr & Hperm & _). cbn [fst] in Hperm.
  rewrite <- Hperm in Hsep. rewrite Hcache in Hr.
  destruct (reachable_ok _ _ _ _ (new_cache_empty (W:=W)) Hr) as [Hts _]. cbn [fst] in Hts.
  assert (PReturned req id cred ∈ ts) as Hin.
  { rewrite Hperm. apply list_elem_of_omap. eexists. split; [by eapply list_elem_of_lookup_2|done]. }
  pose proof (proj1 (Forall_forall _ _) Hts _ Hin) as Hth.
  destruct (returned_delivers _ ts req id cred raw ltac:(by rewrite Hres) Hsep Hin Hth Hrep)
    as (skey & kvno & Hk & Hdel).
  rewrite Hres in Hk, Hdel. rewrite Hkeys in Hk.
  exists req, id, kt, skey, kvno, raw. rewrite Hkt.
  split_and!; try done; [by apply (Hpar _ eq_refl)|].
  exact (server_holder _ _ _ _ _ _ _ _ Hpath (list_elem_of_lookup_2 _ _ _ Hi) eq_refl).
Qed.
End daemon.

(** ** Witnesses *)

#[local] Existing Instance rfc8693.
#[local] Existing Instance ascii_unicode.
#[local] Existing Instance Http.sample_http.

(** A key set that validates two tokens. *)
#[local] Instance sample_jwx : Jwx SymWorld := {
  KeyAlgorithm := string;
  RS256 := "RS256";
  ES256 := "ES256";
  JwkCache := unit;
  JwkSet := unit;
  JwtToken := string;
  NewCache w := (Ok (), w);
  Register _ _ w := (Ok (), w);
  Refresh _ _ w := (Ok (), w);
  NewCachedSet _ _ := ();
  Keys _ w := ([Some "ES256"], w);
  jwt_Parse tok _ _ _ _ w :=
    (if bool_decide (tok = "alice-token") then Ok "alice"
     else if bool_decide (tok = "bob-token") then Ok "bob" else Err (External "bad signature"), w);
  json_Marshal_token _ := Ok (sample_claims []);
  tok_Subject tok := tok;
  tok_Expiration _ := Unix (sample_now + 3600);
}.

Definition sample_disk_world : SymWorld :=
  {| sw_clock := sw_clock sample_world; sw_seed := 1;
     sw_disk := {["/etc/krb5.keytab" :=
                    {| mode := 0x180; contents := enc (sample_keytab : SymKeytab) |}]} |}.

Definition sample_flags : Flags :=
  {| flag_addr := ":8080"; flag_keytab := "/etc/krb5.keytab"; flag_realm := "R";
     flag_jwksURL := "https://issuer/jwks"; flag_domainSID := "S-1-5-21-1-2-3";
     flag_tokenPath := "/token"; flag_maxLifetime := (300 * Second)%Z |}.

Definition sample_post (tok : string) (o : OutputType) : HttpRequest :=
  form_request "/token" (Values_Encode (client_form tok imap_h o)).

(** Two users ask at once; their handlers take turns. *)
Definition sample_posts : list HttpRequest :=
  [sample_post "alice-token" OutputAPReq; sample_post "bob-token" OutputCCache].

Definition sample_turns : list nat := concat (replicate 10 [0; 1]%nat).

Definition sample_srv : result Server * SymWorld := daemon_main sample_flags sample_disk_world.

Definition sample_served (srv : Server) (w : SymWorld) :
    server_config (C:=MemoryCache) (W:=SymWorld) :=
  hschedule (λ _, 0%Z) (srv_Service srv) sample_turns
    (map HStart sample_posts,
     (Some (srv_Cache srv), w)).

Lemma sample_served_reachable srv w :
  rtc (hstep (λ _, 0%Z) (srv_Service srv)) ([], (Some (srv_Cache srv), w)) (sample_served srv w).
Proof. etrans; [apply (arrivals_reachable _ _ sample_posts [])|apply hschedule_reachable]. Qed.

#[local] Instance nul_free_dec h : Decision (nul_free h).
Proof. unfold nul_free. destruct (exchange_of h) as [[]|]; apply _. Defined.

Lemma daemon_delivers_witness :
  match sample_srv with
  | (Ok srv, w) =>
    match (sample_served srv w).1 with
    | [HReplied _ _ (ReplyToken _ t); HReplied _ _ (ReplyToken _ _)] =>
        ∃ tr req id skey raw,
          path (hstep (λ _, 0%Z) (srv_Service srv)) ([], (Some (srv_Cache srv), w)) tr
            (sample_served srv w) ∧
          validated_in (srv_Service srv) tr req id ∧
          ter_AccessToken t = EncodeToString raw ∧
          delivers skey {| NameType := 1; NameString := [Subject id] |} "R" (Output req) raw
    | _ => False
    end
  | _ => False
  end.
Proof.
  assert (match sample_srv with
          | (Ok srv, w) =>
            match (sample_served srv w).1 with
            | [HReplied _ _ (ReplyToken _ t); HReplied _ _ (ReplyToken _ _)] =>
                bool_decide (Forall nul_free (sample_served srv w).1)
            | _ => false
            end
          | _ => false
          end = true) as Hc by by vm_compute.
  destruct sample_srv as [[srv|e] w] eqn:E; [|done].
  destruct (rtc_path _ _ _ (sample_served_reachable srv w)) as [tr Hr].
  destruct (sample_served srv w) as [hs st]. cbn [fst] in *.
  destruct hs as [|[| | |r p [|h t]] [|[| | |r' p' [|h' t']] [|]]]; try done.
  apply bool_decide_eq_true_1 in Hc.
  destruct (daemon_delivers (λ _, 0%Z) sample_flags sample_disk_world srv w tr _ st 0 r p h t E
    Hr Hc eq_refl)
    as (req & id & kt & skey & kvno & raw & _ & Hv & _ & _ & Ht & _ & _ & Hd).
  exists tr, req, id, skey, raw. split; [exact Hr|]. split; [exact Hv|]. split; [exact Ht|exact Hd].
Defined.

Lemma server_refines_exchanges_witness :
  match sample_srv with
  | (Ok srv, w) => ∃ ts,
      rtc (step (srv_Service srv)) ([], (Some (srv_Cache srv), w)) (ts, (sample_served srv w).2) ∧
      ts ≡ₚ omap exchange_of (sample_served srv w).1 ∧ List.length (sample_served srv w).1 = 2%nat
  | _ => False
  end.
Proof.
  assert (match sample_srv with
          | (Ok srv, w) => bool_decide (List.length (sample_served srv w).1 = 2%nat)
          | _ => false end = true) as Hc by by vm_compute.
  destruct sample_srv as [[srv|e] w] eqn:E; [|done]. apply bool_decide_eq_true_1 in Hc.
  pose proof (sample_served_reachable srv w) as Hr.
  destruct (sample_served srv w) as [hs st].
  destruct (server_refines_exchanges (λ _, 0%Z) (srv_Service srv) hs st _ Hr) as [(ts & Ht & Hp) _].
  exists ts. split; [exact Ht|]. split; [exact Hp|exact Hc].
Defined.
